(* ===== verification/_CoqProject ===== *)
-Q . S2P
Prelude.v
GoLib.v
Constants.v
Errors.v
Types.v
Metrics.v
Effects.v
Batch.v
Retry.v
Cache.v
Client.v
Webhook.v
PodBuild.v
PodLifecycle.v
Scaler.v
Convergence.v
Debounce.v
Listener.v
ListenerRun.v
Labels.v
Templates.v
Digest.v
Json.v
Status.v
AutoscaleSetController.v
RunnerSetController.v
RunnerScope.v
Observability.v
World.v
Watches.v
Contract.v
Lifecycle.v
Rounds.v
RunnerRounds.v
Startup.v
GoHeap.v
DeepCopy.v
