(* ===== verification/Prelude.v ===== *)
(** * RSSC: verification of the RunnerSet Scale Controller

    The program under src/ is a Kubernetes operator.  An AutoscaleSet describes
    a GitHub runner scale set and its credentials; a RunnerSet attaches a runner
    group to it.  One reconciler keeps the scale set in GitHub in line with the
    AutoscaleSet, another keeps one message listener per RunnerSet running; the
    listener calls a scaler, through a debouncer, which creates and deletes
    runner pods.  This library models that program, file by file, as pure
    functions where the code is pure and as programs with external calls, a
    shared memory and goroutines where it is not.

    ** How a program runs

    [Effects] has the type [prog]: a tree of external calls (the API server,
    GitHub, the clock, the metrics registry, ...), critical sections on the
    memory the goroutines share, [go] statements, worker batches on an errgroup,
    a result or a panic.  [exec rely p s tr o s'] says that [p], started in
    memory [s], may issue the events [tr], end with [o] and leave [s'], when
    other goroutines change the memory only as [rely] allows between critical
    sections; [exec_seq] is the case without interference.  Every response is
    possible: errors, nil pointers next to a nil error, any clock reading.  A
    nil dereference, a slice out of range and a wrong number of metric labels
    are [Panic].  [run] executes a program against a concrete environment, and
    [run_exec] says its result is an execution; the witnesses use it.

    [World] adds the other side: a system with a state of its own answers the
    calls.  [wrun] reads a trace as a run of that system, and [wp] is a program
    logic for executions whose trace is such a run ([wp_sound]).  [Contract] is
    the system the reconcilers talk to: an API server with optimistic
    concurrency, the manager's cache through which it is read, users who edit
    objects between any two calls, and GitHub with the scale sets it has.  Its
    [Conditions] say what may go wrong: calls refused, replies lost after the
    call took effect, a cache behind the server; [calm] is none of it.

    ** Files

    - Prelude, GoLib: results, list lemmas, hint databases; the Go standard
      library as far as the code uses it ([strings], [strconv], [time], maps in
      an unspecified iteration order [MapRange], int, int32 and int64
      arithmetic with wrap-around).
    - Constants, Errors, Types, Metrics: internal/constants, internal/errors,
      api/v1alpha1/*_types.go and the Kubernetes objects, internal/metrics.
    - Effects, Batch: the calls, programs and executions, and the theory of
      worker batches (every interleaving of the workers).
    - Retry, Cache, Client: internal/client, that is the retry policy with its
      float64 backoff, the credential and scale-set cache with its cleanup, the
      client factory and the construction of the rate limiter.
    - Webhook: api/v1alpha1/*_webhook.go, defaulting and validation.
    - PodBuild, PodLifecycle, Scaler, Debounce: internal/scaler.  PodBuild is
      pod_build.go, PodLifecycle is pod_lifecycle.go and job_handlers.go, Scaler
      is scale_up.go, scale_down.go and kubernetes_scaler.go, Debounce is
      debounced_scaler.go as a step relation on its mutex-protected fields.
    - Convergence: scaling decisions in a row, on a cluster that answers.
    - Listener, ListenerRun: internal/listener, the registry of listeners as a
      machine whose instances and map are separate, the shutdown runnable; the
      goroutines of [Run], the session wrapper and the log adapter.
    - Labels, Templates, Digest, Json: the pure parts of internal/controller:
      label comparison, template merging, and the pod specification hash with
      the JSON encoder and the SHA-256 it runs on; Json reads the encoding back.
    - Status, AutoscaleSetController, RunnerSetController: status.go,
      cache_indexes.go and the two reconcilers, one definition per method.
    - RunnerScope: whose objects the RunnerSet reconciler may reach, a logic for
      programs under an assumption on the responses ([traced]).
    - Observability: the metric calls of all of these programs.
    - World, Watches, Contract: the program logic; [SetupWithManager] of both
      reconcilers and what their event filters let through; the systems around
      the reconcilers.
    - Lifecycle, Rounds, RunnerRounds: the reconcilers inside those systems: an
      invariant of any history of users, faults and reconciliations; what one or
      several reconciliations in a row leave behind when the calls succeed and
      the reads are current.
    - Startup: cmd/main.go, from the command line to a running manager.
    - GoHeap, DeepCopy: zz_generated.deepcopy.go, on a store of typed cells:
      what data stands for, what it reaches, and copies that share nothing.

    A definition has the name of the Go function it translates; methods of the
    two reconcilers that share a name carry the prefix [rs_] in
    RunnerSetController.  A component a client depends on is an interface:
    [HasCache], [HasManager] (a memory that holds a cache, a listener manager)
    with [SeparateMemory] (they do not overlap), [ControllerLib] with
    [ControllerLaws] (conditions and finalizers of controller-runtime),
    [ListenerLib], [QuantityParser], [UnicodeTables], [MapRange], [WatchLib]
    with [WatchLaws] (the predicates of controller-runtime), [FlagLib],
    [DeepCopyLib] with [DeepCopyLaws] (metadata types).  Their
    instances are at the end of the files that use them.

    ** What the theorems show

    - Scaling: [HandleDesiredRunnerCount_spec] (what one decision creates,
      deletes and returns, in every interleaving), [scaling_converges]
      and [healthy_decision] (decisions in a row reach the target), [createRunnerPod_spec],
      [error_threshold_spec], [buildPodLabels_reserved] and
      [buildRunnerPodSpec_hardened] (templates cannot override what the
      controller relies on), [classifyRunnerPods_partition],
      [removeRunnerFromGitHub_spec], the job handlers.
    - Debouncing: [debounce_coalesces], [debounce_forwards_latest],
      [debounce_terminates], over all interleavings of callers, timers and
      answers.
    - Reconciling: the branch-by-branch theorems [Reconcile_spec],
      [rs_Reconcile_spec], [createScaleSet_spec], [handleDeletion_spec],
      [rs_handleDeletion_spec], [maybeUpdateScaleSetLabels_spec],
      [rolloutRunnerPods_spec], and the safety theorems over all executions:
      [rs_Reconcile_safe], [Reconcile_status_truthful],
      [startListener_registers] (with the scaler [described] field by field),
      [reconcileExistingListener_quiet].
    - The system as a whole: [scale_sets_recorded] (no scale set in GitHub
      without an object that names it and will delete it, in every history but
      those in which a creation goes wrong as [loses] says), and that each of
      these exceptions happens: [edit_during_creation_orphans],
      [lost_reply_orphans], [outdated_read_orphans];
      [registration_completes], [deletion_completes], [listener_starts] and
      [bring_up] (from two new objects to a running listener in four
      reconciliations), [new_set_stalls] and [watches_deliver] (which of those
      reconciliations nothing asks for).
    - Listeners: [manager_refines] (the registry against a map from keys to
      listeners, in every history; the converse in careful ones), [careful_registry_exact], [stale_exit_unregisters],
      [ShutdownRunnable_stops_nothing], [Run_cleans_up], [Stop_cancels].
    - The process: [main_starts] (the steps of a start and its exit codes),
      [main_policy] (TLS, authentication as the flags say, the pod cache),
      [parseManagerFlags_command_line].
    - Clients: [RetryWithBackoff_spec] (the loop against a declarative policy),
      [RetryWithBackoff_waits] (how many attempts, and how long each wait lasts),
      [GetGitHubAppConfig_spec],
      [CreateClientForAutoscaleSet_spec].
    - Data: [labelsEqual_spec], [mergeRunnerTemplates_override] (the RunnerSet's
      template wins, nothing else is lost), [mergeRunnerTemplates_monoid],
      [computePodSpecHash_stable], [json_Unmarshal_Marshal],
      [computePodSpecHash_detects], the two webhook invariants (of an API server
      that calls the webhooks), [metrics_never_panic], [DeepCopy_isolates] (objects handed out by the
      informer cache share nothing with it).
    - Across components: [registered_scaler_pods_listed] (the labels the scaler
      writes, the index and the lists of both readers agree).

    ** What modelling showed

    Some theorems state behaviour the code hardly means: a batch stops after
    one success and no failure ([error_threshold_spec]); the goroutine of a
    replaced listener unregisters its successor ([stale_exit_unregisters]);
    shutdown empties the registry and stops no listener
    ([ShutdownRunnable_stops_nothing]); a rollout deletes idle pods of other
    AutoscaleSets with the same group ([rolloutRunnerPods_spec]); a RunnerSet
    deleted after its AutoscaleSet leaves its listener running
    ([rs_handleDeletion_spec]); new runner bounds do not reach a running
    listener ([reconcileExistingListener_quiet]); a conflict after a creation
    loses the identifier GitHub returned ([edit_during_creation_orphans]), a
    creation whose reply is lost is repeated ([lost_reply_orphans]), and a
    reconciliation on an outdated read creates a second scale set
    ([outdated_read_orphans]); different labels can compare equal
    ([labelsEqual_conflates]); no step of the start registers the webhooks
    ([main_starts]); a
    cached GitHub App configuration ignores the client and installation
    identifiers it is asked for ([GetGitHubAppConfig_hit_ignores_identity]); the
    reconciliation that adds the finalizer is the last one a new object gets,
    because the event filters drop the update it makes ([new_set_stalls]); the
    same filters keep secret updates and status writes from the watches
    ([watches_deliver]); the attributes of the listener's logger are lost
    ([lh_Handle_record]); the process runs without a rate limiter
    ([main_policy]).

    ** Bounds and fuel

    Integers are [Z] kept in range by [wrap32] and [wrap64]; the scaling
    theorems assume sizes below 2^31, which the int32 fields of the API and any
    cluster respect ([sane]).  The retry loop turns [MaxRetries + 1] times, as
    its Go loop does.  A worker batch starts at most as many workers as it has
    tasks.  The cache cleanup runnable runs until its context ends: its fuel is
    the number of ticks, and the theorems hold for every number.  The SHA-256
    loop has one turn of fuel per word, sixteen times what it needs.  The JSON
    reader's fuel is the length of its input, which is enough for every value
    ([json_parse_print]).

    ** What is not modelled

    Logging (no state, no result); the scheme registration of
    groupversion_info.go; the token bucket, the listener's message loop and the
    manager of controller-runtime (library code); GitHub and the API server
    (outside the repository: their answers are arbitrary, or, from Contract on,
    those of the documented systems).  Contract has one AutoscaleSet and the
    scale sets made for it; a refused or lost call tells the caller nothing but
    its error; reconciliations of one object do not overlap, as
    controller-runtime guarantees.  The transition time of a condition is set by
    controller-runtime and never read.
    The workers of a batch share no memory but the batch's own counters. *)

From stdpp Require Export gmap strings list pretty sorting.
From Stdlib Require Export ZArith Lia Ascii.
From Stdlib Require String.

(** ** Scopes and hint databases

    [go_scope] holds the notations for the Go operators of the source; the
    hint database [rssc] collects the lemmas that close the routine goals. *)
Declare Scope go_scope.
Delimit Scope go_scope with go.

(** Tactics that clear what is left of a case do not mind finding nothing. *)
#[export] Set Warnings "-clear-no-such-hyp".

Create HintDb rssc.
Create Rewrite HintDb rssc_rw.

(** ** Results

    A Go call of the shape [(T, error)] whose value is meaningless when the
    error is set returns a [result]. *)
Inductive result (E A : Type) : Type :=
| Ok (a : A)
| Err (e : E).
Arguments Ok {E A} a.
Arguments Err {E A} e.

Definition result_map {E A B} (f : A → B) (r : result E A) : result E B :=
  match r with Ok a => Ok (f a) | Err e => Err e end.

Definition is_ok {E A} (r : result E A) : bool :=
  match r with Ok _ => true | Err _ => false end.

(** ** Machine integers

    [int] is 64 bits wide on the platforms the controller is built for;
    values are [Z], every operation that can leave the range wraps. *)
Definition wrap (w : Z) (z : Z) : Z := (z + 2 ^ (w - 1)) `mod` 2 ^ w - 2 ^ (w - 1).
Definition wrap64 : Z → Z := wrap 64.
Definition wrap32 : Z → Z := wrap 32.

Definition in_int64 (z : Z) : bool := (- 2 ^ 63 <=? z)%Z && (z <? 2 ^ 63)%Z.
Definition in_int32 (z : Z) : bool := (- 2 ^ 31 <=? z)%Z && (z <? 2 ^ 31)%Z.

Notation "x +! y" := (wrap64 (x + y)) (at level 50, left associativity) : go_scope.
Notation "x -! y" := (wrap64 (x - y)) (at level 50, left associativity) : go_scope.
Open Scope go_scope.

Definition max_int64 : Z := 9223372036854775807.
Definition min_int64 : Z := -9223372036854775808.

(** Go's integer division truncates toward zero. *)
Definition go_div (x y : Z) : Z := Z.quot x y.

(** ** Tactics *)

(** Destruct the hypotheses that are conjunctions or existentials. *)
Ltac break :=
  repeat match goal with
         | H : _ ∧ _ |- _ => destruct H
         | H : ∃ _, _ |- _ => destruct H
         | H : (_, _) = (_, _) |- _ => injection H as ?
         end; subst.

(** Case analysis on the matches of the goal, closing the trivial cases. *)
Ltac cases := repeat (case_match || case_decide); simplify_eq; try done.

(** Boolean tests become the propositions they decide. *)
Ltac breflect :=
  repeat match goal with
         | H : _ && _ = true |- _ => apply andb_prop in H; destruct H
         | H : (_ <=? _)%Z = true |- _ => apply Z.leb_le in H
         | H : (_ <=? _)%Z = false |- _ => apply Z.leb_gt in H
         | H : (_ <? _)%Z = true |- _ => apply Z.ltb_lt in H
         | H : (_ <? _)%Z = false |- _ => apply Z.ltb_ge in H
         | H : (_ =? _)%Z = true |- _ => apply Z.eqb_eq in H
         | H : (_ =? _)%Z = false |- _ => apply Z.eqb_neq in H
         | H : (_ >? _)%Z = true |- _ => rewrite Z.gtb_ltb in H
         | H : (_ >? _)%Z = false |- _ => rewrite Z.gtb_ltb in H
         | H : (_ >=? _)%Z = true |- _ => rewrite Z.geb_leb in H
         | H : (_ >=? _)%Z = false |- _ => rewrite Z.geb_leb in H
         | H : bool_decide _ = true |- _ => apply bool_decide_eq_true_1 in H
         | H : bool_decide _ = false |- _ => apply bool_decide_eq_false_1 in H
         end.

(** ** Integer lemmas *)

Lemma wrap64_small z : (min_int64 ≤ z ≤ max_int64)%Z → wrap64 z = z.
Proof.
  unfold wrap64, wrap, min_int64, max_int64. intros Hz.
  rewrite Z.mod_small; lia.
Qed.

Lemma wrap32_small z : (- 2 ^ 31 ≤ z < 2 ^ 31)%Z → wrap32 z = z.
Proof. unfold wrap32, wrap. intros Hz. rewrite Z.mod_small; lia. Qed.

Lemma wrap32_range z : (- 2 ^ 31 ≤ wrap32 z < 2 ^ 31)%Z.
Proof.
  unfold wrap32, wrap.
  pose proof (Z.mod_pos_bound (z + 2 ^ (32 - 1)) (2 ^ 32) ltac:(lia)). lia.
Qed.

Lemma wrap64_range z : (min_int64 ≤ wrap64 z ≤ max_int64)%Z.
Proof.
  unfold wrap64, wrap, min_int64, max_int64.
  pose proof (Z.mod_pos_bound (z + 2 ^ (64 - 1)) (2 ^ 64) ltac:(lia)). lia.
Qed.

(** Wrapping is determined modulo the width. *)
Lemma wrap32_add_l x y : wrap32 (wrap32 x + y) = wrap32 (x + y).
Proof.
  unfold wrap32, wrap.
  replace ((x + 2 ^ (32 - 1)) `mod` 2 ^ 32 - 2 ^ (32 - 1) + y + 2 ^ (32 - 1))%Z
    with ((x + 2 ^ (32 - 1)) `mod` 2 ^ 32 + y)%Z by lia.
  rewrite Zplus_mod_idemp_l. do 2 f_equal. lia.
Qed.

(** ** List lemmas *)

Lemma Forall_filter_sub {A} (P Q : A → Prop) `{∀ x, Decision (Q x)} l :
  Forall P l → Forall P (filter Q l).
Proof.
  rewrite !Forall_forall. intros HP x [_ Hx]%list_elem_of_filter. auto.
Qed.

(** A list split by a three-way classifier is a permutation of its parts. *)
Lemma filter_split {A} (P : A → Prop) `{∀ x, Decision (P x)} (l : list A) :
  l ≡ₚ filter P l ++ filter (λ x, ¬ P x) l.
Proof.
  induction l as [|x l IH]; [done|].
  destruct (decide (P x)).
  - rewrite filter_cons_True by done. rewrite filter_cons_False by tauto.
    simpl. by constructor.
  - rewrite filter_cons_False by done. rewrite filter_cons_True by done.
    rewrite <- Permutation_middle. by constructor.
Qed.

#[export] Hint Resolve wrap32_range wrap64_range : rssc.
#[export] Hint Rewrite @fmap_app @length_app @length_fmap @length_take : rssc_rw.
