(* ===== verification/GoLib.v ===== *)
(** * The Go standard library, as far as the controller uses it

    Byte strings ([strings], [strconv], [fmt] on integers), [time.Time] and
    [time.Duration], and the iteration order of [range] over a map. *)

From S2P Require Export Prelude.

(** ** Strings: a Go string is a sequence of bytes, i.e. a [string]. *)

Fixpoint HasPrefix (s p : string) : bool :=
  match p, s with
  | EmptyString, _ => true
  | String a p', String b s' => bool_decide (a = b) && HasPrefix s' p'
  | _, _ => false
  end.

(** [s[n:]] and [s[:n]] for [n] within bounds. *)
Fixpoint str_drop (n : nat) (s : string) : string :=
  match n, s with
  | S n', String _ s' => str_drop n' s'
  | _, _ => s
  end.

Fixpoint str_take (n : nat) (s : string) : string :=
  match n, s with
  | S n', String a s' => String a (str_take n' s')
  | _, _ => EmptyString
  end.

(** The first position at which [sub] occurs. *)
Fixpoint index_from (s sub : string) : option nat :=
  if HasPrefix s sub then Some 0
  else match s with
       | EmptyString => None
       | String _ s' => S <$> index_from s' sub
       end.

(** [strings.Index]: -1 when there is no occurrence. *)
Definition Index (s sub : string) : Z :=
  match index_from s sub with Some n => Z.of_nat n | None => -1 end.

(** [strings.Contains]. *)
Definition Contains (s sub : string) : bool := (0 <=? Index s sub)%Z.

(** [strings.TrimPrefix]. *)
Definition TrimPrefix (s p : string) : string :=
  if HasPrefix s p then str_drop (String.length p) s else s.

Fixpoint mem_byte (a : ascii) (chars : string) : bool :=
  match chars with
  | EmptyString => false
  | String b cs => bool_decide (a = b) || mem_byte a cs
  end.

Fixpoint index_any_from (s chars : string) : option nat :=
  match s with
  | EmptyString => None
  | String a s' => if mem_byte a chars then Some 0 else S <$> index_any_from s' chars
  end.

(** [strings.IndexAny] for a set of ASCII characters. *)
Definition IndexAny (s chars : string) : Z :=
  match index_any_from s chars with Some n => Z.of_nat n | None => -1 end.

(** [strings.HasSuffix]. *)
Definition HasSuffix (s suf : string) : bool :=
  (String.length suf <=? String.length s) &&
  bool_decide (str_drop (String.length s - String.length suf) s = suf).

(** [strings.Join]. *)
Fixpoint Join (parts : list string) (sep : string) : string :=
  match parts with
  | [] => ""
  | [p] => p
  | p :: ps => p +:+ sep +:+ Join ps sep
  end.

(** [strings.ToLower]: bytes A-Z are shifted; on a string with non-ASCII bytes
    the standard library's Unicode tables decide, through [unicode_lower]. *)
Definition byte_lower (a : ascii) : ascii :=
  let n := nat_of_ascii a in
  if (65 <=? n) && (n <=? 90) then ascii_of_nat (n + 32) else a.

Fixpoint ascii_lower (s : string) : string :=
  match s with
  | EmptyString => EmptyString
  | String a s' => String (byte_lower a) (ascii_lower s')
  end.

Fixpoint is_ascii (s : string) : bool :=
  match s with
  | EmptyString => true
  | String a s' => (nat_of_ascii a <? 128) && is_ascii s'
  end.

Class UnicodeTables := unicode_lower : string → string.

Definition ToLower `{UnicodeTables} (s : string) : string :=
  if is_ascii s then ascii_lower s else unicode_lower s.

(** ** strconv *)

Definition digit_val (a : ascii) : option Z :=
  let n := Z.of_nat (nat_of_ascii a) in
  if (48 <=? n)%Z && (n <=? 57)%Z then Some (n - 48)%Z else None.

Fixpoint digits_val (acc : Z) (s : string) : option Z :=
  match s with
  | EmptyString => Some acc
  | String a s' =>
    match digit_val a with
    | Some d => digits_val (acc * 10 + d) s'
    | None => None
    end
  end.

(** [strconv.Atoi]: an optional sign, at least one decimal digit, nothing else,
    and a value that fits an [int]; [None] is the error result. *)
Definition Atoi (s : string) : option Z :=
  let '(neg, ds) :=
    match s with
    | String "-" r => (true, r)
    | String "+" r => (false, r)
    | _ => (false, s)
    end in
  match ds with
  | EmptyString => None
  | _ =>
    match digits_val 0 ds with
    | Some v =>
      let v' := if neg then (- v)%Z else v in
      if in_int64 v' then Some v' else None
    | None => None
    end
  end.

(** [fmt.Sprintf("%d", z)]. *)
Definition Itoa (z : Z) : string := pretty z.

(** ** time *)

(** A [time.Time] is nanoseconds since the zero time; a [time.Duration] is an
    [int64] of nanoseconds. *)
Definition Time := Z.
Definition Duration := Z.

Definition Second : Duration := 1000000000%Z.
Definition Minute : Duration := (60 * Second)%Z.

Definition IsZero (t : Time) : bool := (t =? 0)%Z.

(** [t.Sub(u)] saturates at the bounds of [Duration]. *)
Definition time_Sub (t u : Time) : Duration :=
  Z.max min_int64 (Z.min max_int64 (t - u)).

Definition Before (t u : Time) : bool := (t <? u)%Z.
Definition After (t u : Time) : bool := (u <? t)%Z.
Definition time_Add (t : Time) (d : Duration) : Time := (t + d)%Z.

(** ** Map iteration

    The language leaves the order of [range] over a map unspecified: it is an
    oracle that lists every entry once. *)
Class MapRange := {
  range : ∀ {K : Type} `{Countable K} {V : Type}, gmap K V → list (K * V);
  range_perm : ∀ `{Countable K} {V} (m : gmap K V), range m ≡ₚ map_to_list m
}.

Definition map_range_default : MapRange :=
  {| range := λ K _ _ V m, map_to_list m; range_perm := λ K _ _ V m, reflexivity _ |}.

(** ** Lemmas on strings *)

Lemma append_nil_r (s : string) : s +:+ "" = s.
Proof. induction s; simpl; [done|]. unfold String.app in *; simpl; congruence. Qed.

Lemma append_assoc (s t u : string) : (s +:+ t) +:+ u = s +:+ (t +:+ u).
Proof. induction s; simpl; [done|]. unfold String.app in *; simpl; congruence. Qed.

Lemma append_cons a (s t : string) : String a s +:+ t = String a (s +:+ t).
Proof. done. Qed.

Lemma length_append (s t : string) :
  String.length (s +:+ t) = String.length s + String.length t.
Proof. induction s as [|a s IH]; [done|]. rewrite append_cons. simpl. by rewrite IH. Qed.

Lemma str_drop_app (s t : string) : str_drop (String.length s) (s +:+ t) = t.
Proof. induction s; [done|]. rewrite append_cons. done. Qed.

Lemma str_take_app (s t : string) : str_take (String.length s) (s +:+ t) = s.
Proof. induction s as [|a s IH]; [done|]. rewrite append_cons. simpl. by rewrite IH. Qed.

Lemma HasPrefix_app (s t : string) : HasPrefix (s +:+ t) s = true.
Proof.
  induction s as [|a s IH]; [by destruct t|]. rewrite append_cons. simpl.
  rewrite bool_decide_eq_true_2 by done. done.
Qed.

Lemma HasPrefix_spec (s p : string) : HasPrefix s p = true ↔ ∃ t, s = p +:+ t.
Proof.
  split.
  - revert s. induction p as [|a p IH]; intros s; [by exists s|].
    destruct s as [|b s]; simpl; [done|].
    intros [Hab Hp]%andb_prop. apply bool_decide_eq_true_1 in Hab as ->.
    destruct (IH s Hp) as [t ->]. by exists t.
  - intros [t ->]. apply HasPrefix_app.
Qed.

Lemma HasSuffix_spec (s suf : string) : HasSuffix s suf = true ↔ ∃ p, s = p +:+ suf.
Proof.
  unfold HasSuffix. split.
  - intros [Hlen Hd]%andb_prop. apply bool_decide_eq_true_1 in Hd.
    exists (str_take (String.length s - String.length suf) s).
    rewrite <- Hd at 2. clear.
    generalize (String.length s - String.length suf). revert s.
    induction s as [|a s IH]; intros [|n]; simpl; [done..|].
    rewrite append_cons. by rewrite <- IH.
  - intros [p ->]. rewrite length_append. apply andb_true_intro. split.
    + apply Nat.leb_le. lia.
    + apply bool_decide_eq_true_2. rewrite Nat.add_sub. apply str_drop_app.
Qed.

(** [strings.Index] finds an occurrence, and the first one. *)
Lemma index_from_cons a s sub :
  index_from (String a s) sub =
  if HasPrefix (String a s) sub then Some 0 else S <$> index_from s sub.
Proof. done. Qed.

Lemma index_from_Some s sub n :
  index_from s sub = Some n → s = str_take n s +:+ sub +:+ str_drop (n + String.length sub) s.
Proof.
  revert n. induction s as [|a s IH]; intros n.
  - destruct sub as [|b sub]; simpl; [|done]. by intros [= <-].
  - rewrite index_from_cons. destruct (HasPrefix (String a s) sub) eqn:Hp.
    + intros [= <-]. apply HasPrefix_spec in Hp as [t Ht].
      change (String a s = sub +:+ str_drop (String.length sub) (String a s)).
      by rewrite Ht, str_drop_app.
    + destruct (index_from s sub) as [m|] eqn:Hi; [|done]. intros [= <-]. simpl.
      rewrite append_cons. f_equal. by apply IH.
Qed.

Lemma index_from_None s sub p t : index_from s sub = None → s ≠ p +:+ sub +:+ t.
Proof.
  revert p. induction s as [|a s IH]; intros p.
  - destruct sub as [|b sub]; simpl; [done|]. intros _ Heq. by destruct p.
  - rewrite index_from_cons. destruct (HasPrefix (String a s) sub) eqn:Hp; [done|].
    destruct (index_from s sub) eqn:Hi; [done|]. intros _ Heq.
    destruct p as [|b p].
    + change (String a s = sub +:+ t) in Heq. rewrite Heq, HasPrefix_app in Hp. done.
    + rewrite append_cons in Heq. injection Heq as -> ->. by eapply IH.
Qed.

Lemma Contains_spec s sub : Contains s sub = true ↔ ∃ p t, s = p +:+ sub +:+ t.
Proof.
  unfold Contains, Index. destruct (index_from s sub) eqn:Hi.
  - split; [|intros _; apply Z.leb_le; lia].
    intros _. eexists _, _. by apply index_from_Some.
  - split; [done|]. intros (p & t & Heq). by eapply index_from_None in Heq.
Qed.

(** ** Lemmas on decimal printing and parsing *)

Lemma digit_val_pretty_char d : (d < 10)%N → digit_val (pretty_N_char d) = Some (Z.of_N d).
Proof.
  intros Hd.
  assert (d = 0 ∨ d = 1 ∨ d = 2 ∨ d = 3 ∨ d = 4 ∨ d = 5 ∨ d = 6 ∨ d = 7 ∨ d = 8 ∨ d = 9)%N
    as Hin by lia.
  by repeat destruct Hin as [->|Hin]; subst.
Qed.

(** Reading back the digits printed in front of [s]. *)
Lemma digits_val_pretty_go x s :
  digits_val 0 (pretty_N_go x s) = digits_val (Z.of_N x) s.
Proof.
  revert s. induction (N.lt_wf_0 x) as [x _ IH]; intros s.
  destruct (decide (x = 0)%N) as [->|Hx]; [done|].
  rewrite pretty_N_go_step by lia.
  rewrite IH by (apply N.div_lt; lia). cbn [digits_val].
  rewrite digit_val_pretty_char by (apply N.mod_lt; lia).
  f_equal. rewrite N2Z.inj_div, N2Z.inj_mod.
  pose proof (Z.div_mod (Z.of_N x) 10 ltac:(lia)). simpl Z.of_N. lia.
Qed.

(** The printed form of a positive number starts with a digit. *)
Lemma pretty_go_head x s :
  (0 < x)%N → ∃ d r, pretty_N_go x s = String (pretty_N_char d) r ∧ (d < 10)%N.
Proof.
  revert s. induction (N.lt_wf_0 x) as [x _ IH]; intros s Hx.
  rewrite pretty_N_go_step by lia.
  destruct (decide (x `div` 10 = 0)%N) as [->|Hd].
  - eexists _, _. split; [done|]. apply N.mod_lt; lia.
  - apply IH; [apply N.div_lt; lia|]. by apply N.neq_0_lt_0.
Qed.

Lemma Itoa_nonneg_digits z :
  (0 ≤ z)%Z → ∃ d r, Itoa z = String (pretty_N_char d) r ∧ (d < 10)%N ∧
                     digits_val 0 (Itoa z) = Some z.
Proof.
  intros Hz. unfold Itoa. destruct z as [|p|p]; [|clear Hz|lia].
  - exists 0%N, "". split; [done|]. split; [lia|done].
  - change (pretty (Z.pos p)) with (pretty_N_go (N.pos p) "").
    destruct (pretty_go_head (N.pos p) "" ltac:(lia)) as (d & r & Heq & Hd).
    exists d, r. split; [done|]. split; [done|].
    by rewrite digits_val_pretty_go.
Qed.

Lemma pretty_char_not_sign d :
  (d < 10)%N → pretty_N_char d ≠ "-"%char ∧ pretty_N_char d ≠ "+"%char.
Proof.
  intros Hd.
  split; intros Heq; pose proof (digit_val_pretty_char d Hd) as Hv; rewrite Heq in Hv; done.
Qed.

Lemma Atoi_digits a s v :
  a ≠ "-"%char → a ≠ "+"%char → digits_val 0 (String a s) = Some v → in_int64 v = true →
  Atoi (String a s) = Some v.
Proof.
  intros Hm Hp Hv Hr. unfold Atoi.
  assert ((match String a s with
           | String "-" r => (true, r) | String "+" r => (false, r) | _ => (false, String a s)
           end) = (false, String a s)) as ->.
  { destruct a as [[] [] [] [] [] [] [] []]; done. }
  by rewrite Hv, Hr.
Qed.

(** [Atoi] reads back what ["%d"] prints. *)
Lemma Atoi_Itoa z : (0 ≤ z ≤ max_int64)%Z → Atoi (Itoa z) = Some z.
Proof.
  intros Hz. destruct (Itoa_nonneg_digits z) as (d & r & Heq & Hd & Hv); [lia|].
  rewrite Heq in *. destruct (pretty_char_not_sign d Hd).
  apply Atoi_digits; [done..|].
  unfold in_int64, max_int64 in *. apply andb_true_intro.
  rewrite Z.leb_le, Z.ltb_lt. lia.
Qed.

#[export] Instance Itoa_inj : Inj (=) (=) Itoa.
Proof. apply _. Qed.

#[export] Hint Rewrite append_nil_r append_assoc str_drop_app str_take_app length_append : rssc_rw.

(** ** More on searching *)

Lemma HasPrefix_app_l (s t p : string) :
  String.length p <= String.length s → HasPrefix (s +:+ t) p = HasPrefix s p.
Proof.
  revert s. induction p as [|a p IH]; intros [|b s] Hlen; simpl in Hlen; try lia; [by destruct t|done|].
  rewrite append_cons. simpl. rewrite IH by lia. done.
Qed.

Lemma index_from_length s sub n :
  index_from s sub = Some n → n + String.length sub <= String.length s.
Proof.
  revert n. induction s as [|a s IH]; intros n.
  - destruct sub; simpl; [|done]. intros [= <-]. simpl. lia.
  - rewrite index_from_cons. destruct (HasPrefix (String a s) sub) eqn:Hp.
    + intros [= <-]. apply HasPrefix_spec in Hp as [t ->].
      rewrite length_append. lia.
    + destruct (index_from s sub) as [m|]; [|done]. intros [= <-].
      specialize (IH m eq_refl). simpl. lia.
Qed.

(** The first occurrence stays the first one when text is appended. *)
Lemma index_from_app s t sub n :
  index_from s sub = Some n → index_from (s +:+ t) sub = Some n.
Proof.
  revert n. induction s as [|a s IH]; intros n.
  - destruct sub; simpl; [|done]. intros [= <-]. by destruct t.
  - intros Hi. pose proof (index_from_length _ _ _ Hi) as Hlen.
    rewrite append_cons, index_from_cons. rewrite index_from_cons in Hi.
    rewrite <- append_cons, HasPrefix_app_l by lia.
    destruct (HasPrefix (String a s) sub); [done|].
    destruct (index_from s sub) as [m|]; [|done]. by rewrite (IH m).
Qed.

Lemma Index_app s t sub n :
  index_from s sub = Some n → Index (s +:+ t) sub = Z.of_nat n.
Proof. intros Hi. unfold Index. by rewrite (index_from_app s t sub n Hi). Qed.

(** A string of digits contains no delimiter. *)
Lemma index_any_digits acc s t chars v :
  digits_val acc s = Some v → (∀ a, digit_val a ≠ None → mem_byte a chars = false) →
  index_any_from (s +:+ t) chars = (λ n, String.length s + n) <$> index_any_from t chars.
Proof.
  intros Hv Hchars. revert acc Hv. induction s as [|a s IH]; intros acc Hv.
  - change ("" +:+ t) with t. by destruct (index_any_from t chars).
  - rewrite append_cons. simpl in *.
    destruct (digit_val a) as [d|] eqn:Hd; [|done].
    rewrite Hchars by congruence. rewrite (IH _ Hv).
    by destruct (index_any_from t chars).
Qed.

Lemma IndexAny_digits s t chars v :
  digits_val 0 s = Some v → (∀ a, digit_val a ≠ None → mem_byte a chars = false) →
  IndexAny (s +:+ t) chars =
  match index_any_from t chars with
  | Some n => Z.of_nat (String.length s + n)
  | None => (-1)%Z
  end.
Proof.
  intros Hv Hc. unfold IndexAny. rewrite (index_any_digits 0 s t chars v Hv Hc).
  by destruct (index_any_from t chars).
Qed.

(** ** Colon-separated texts *)

Definition no_colon (s : string) : Prop := mem_byte ":" s = false.

Lemma no_colon_cons a s : no_colon (String a s) → a ≠ ":"%char ∧ no_colon s.
Proof.
  unfold no_colon. simpl. intros [Ha Hs]%orb_false_elim. split; [|done].
  intros ->. by rewrite bool_decide_eq_true_2 in Ha.
Qed.

(** The first colon is where the first of two such texts ends. *)
Lemma colon_split t n t' n' :
  no_colon t → no_colon t' → t +:+ ":" +:+ n = t' +:+ ":" +:+ n' → t = t' ∧ n = n'.
Proof.
  revert t'. induction t as [|a t IH]; intros [|b t'] Ht Ht' Heq.
  - split; [done|]. by injection Heq.
  - apply no_colon_cons in Ht' as [Hb _]. injection Heq as Hb' _. congruence.
  - apply no_colon_cons in Ht as [Ha _]. injection Heq as Ha' _. congruence.
  - apply no_colon_cons in Ht as [_ Ht], Ht' as [_ Ht']. rewrite !append_cons in Heq.
    injection Heq as -> Heq. destruct (IH t' Ht Ht' Heq) as [-> ->]. done.
Qed.

(** A suffix that starts with a colon covers the text after the first colon,
    or ends inside it. *)
Lemma colon_suffix t n p w :
  no_colon t → t +:+ ":" +:+ n = p +:+ ":" +:+ w → n = w ∨ ∃ q, n = q +:+ ":" +:+ w.
Proof.
  revert p. induction t as [|a t IH]; intros [|b p] Ht Heq.
  - left. by injection Heq.
  - right. exists p. rewrite append_cons in Heq. by injection Heq.
  - apply no_colon_cons in Ht as [Ha _]. injection Heq as Ha' _. congruence.
  - apply no_colon_cons in Ht as [_ Ht]. rewrite !append_cons in Heq.
    injection Heq as _ Heq. exact (IH p Ht Heq).
Qed.

Lemma Itoa_nonempty z : Itoa z ≠ "".
Proof.
  destruct (Z.le_gt_cases 0 z) as [Hz|Hz].
  - by destruct (Itoa_nonneg_digits z Hz) as (d & r & -> & _).
  - by destruct z.
Qed.
