(* ===== verification/Constants.v ===== *)
(** * internal/constants: label keys, finalizers, intervals and limits *)

From S2P Require Export GoLib.

Definition LabelRunnerName : string := "scaleset.actions.github.com/runner-name".
Definition LabelRunnerState : string := "scaleset.actions.github.com/runner-state".
Definition LabelAutoscaleSet : string := "scaleset.actions.github.com/autoscaleset".
Definition LabelRunnerGroup : string := "scaleset.actions.github.com/runner-group".

Definition AnnotationJITConfig : string := "scaleset.actions.github.com/jit-config".
Definition AnnotationPodSpecHash : string := "scaleset.actions.github.com/pod-spec-hash".
Definition AnnotationLastAutoscaleSetGeneration : string :=
  "scaleset.actions.github.com/last-autoscaleset-generation".

Definition FinalizerName : string := "scaleset.actions.github.com/finalizer".
Definition RunnerSetFinalizerName : string :=
  "scaleset.actions.github.com/runnerset-finalizer".

Definition RunnerStateIdle : string := "idle".
Definition RunnerStateBusy : string := "busy".

Definition PhaseActive : string := "Active".
Definition LabelValueUnknown : string := "unknown".

(** Requeue intervals *)
Definition RequeueActiveInterval : Duration := (2 * Minute)%Z.
Definition RequeueErrorInterval : Duration := (5 * Minute)%Z.
Definition RequeueScaleSetIDWait : Duration := (30 * Second)%Z.
Definition SessionConflictRequeueAfter : Duration := (2 * Minute)%Z.
Definition DeletionRequeueAfter : Duration := Minute.

(** Scaler and cleanup timing *)
Definition PendingPodCleanupThreshold : Duration := (5 * Minute)%Z.
Definition CleanupTimeout : Duration := (30 * Second)%Z.
Definition DeleteGracePeriodSeconds : Z := 30%Z.
Definition DebounceWindow : Duration := (2 * Second)%Z.
Definition BatchMaxWorkers : nat := 20.

(** Default scaling limits *)
Definition DefaultMaxRunners : Z := 10%Z.
Definition DefaultMinRunners : Z := 0%Z.

(** The four label keys the controller reserves are pairwise distinct. *)
Definition reservedLabelKeys : list string :=
  [LabelRunnerName; LabelRunnerState; LabelAutoscaleSet; LabelRunnerGroup].

Lemma reservedLabelKeys_NoDup : NoDup reservedLabelKeys.
Proof. by apply (bool_decide_unpack _), I. Qed.

#[export] Hint Resolve reservedLabelKeys_NoDup : rssc.
