(* ===== verification/Errors.v ===== *)
(** * Go error values, and internal/errors

    An [error] is opaque to the controller except through what it observes of
    it: the text ([err.Error()]), whether its dynamic type is a [net.Error]
    and then [Timeout()], the reason [apierrors.ReasonForError] finds in its
    chain, and the sentinels [errors.Is] finds in its chain.  The environment
    supplies errors with arbitrary observations; [errors_New] and [Errorf]
    build the ones the source builds. *)

From S2P Require Export Constants.

Inductive StatusReason : Type :=
| ReasonUnknown
| ReasonNotFound
| ReasonConflict
| ReasonOther (s : string).

#[export] Instance StatusReason_eq_dec : EqDecision StatusReason.
Proof. solve_decision. Defined.

Inductive Sentinel : Type :=
| SentinelCanceled
| SentinelDeadlineExceeded
| SentinelStatusConflict.

#[export] Instance Sentinel_eq_dec : EqDecision Sentinel.
Proof. solve_decision. Defined.

Record error : Type := mkError {
  err_text : string;
  err_net : option bool;
  err_reason : StatusReason;
  err_sentinels : list Sentinel
}.

#[export] Instance error_eq_dec : EqDecision error.
Proof. solve_decision. Defined.

(** [errors.New(s)] and [fmt.Errorf] without [%w]. *)
Definition errors_New (s : string) : error := mkError s None ReasonUnknown [].

(** [fmt.Errorf("<prefix>%w", err)]: a new dynamic type wrapping [err], so a
    type assertion no longer sees [err], while [errors.As]/[errors.Is] do. *)
Definition Errorf (prefix : string) (err : error) : error :=
  mkError (prefix +:+ err_text err) None (err_reason err) (err_sentinels err).

(** [context.Canceled], and [context.DeadlineExceeded], whose type has
    [Timeout() bool] and [Temporary() bool] and so is a [net.Error]. *)
Definition context_Canceled : error :=
  mkError "context canceled" None ReasonUnknown [SentinelCanceled].
Definition context_DeadlineExceeded : error :=
  mkError "context deadline exceeded" (Some true) ReasonUnknown [SentinelDeadlineExceeded].

(** [k8serrors.IsNotFound] and [IsConflict] on the observed reason. *)
Definition IsNotFound (err : error) : bool := bool_decide (err_reason err = ReasonNotFound).
Definition IsConflict (err : error) : bool := bool_decide (err_reason err = ReasonConflict).

(** [errors.Is(err, target)] for the sentinels the source compares with. *)
Definition errors_Is (err : error) (t : Sentinel) : bool :=
  bool_decide (t ∈ err_sentinels err).

(** ** internal/errors/errors.go; [None] is the nil error. *)

Definition IsScaleSetRegistrationUnsupported (err : option error) : bool :=
  match err with
  | None => false
  | Some e =>
    let s := err_text e in
    Contains s "StatusCode 404" && Contains s "registration-token"
  end.

Definition dquote : string := String (ascii_of_nat 34) EmptyString.

Definition IsSessionConflict (err : option error) : bool :=
  match err with
  | None => false
  | Some e =>
    let s := err_text e in
    (Contains s "status=409" || Contains s ("status=" +:+ dquote +:+ "409" +:+ dquote)) &&
    Contains s "already has an active session"
  end.

(** ** Lemmas *)

Lemma IsNotFound_Errorf p e : IsNotFound (Errorf p e) = IsNotFound e.
Proof. done. Qed.

Lemma IsConflict_Errorf p e : IsConflict (Errorf p e) = IsConflict e.
Proof. done. Qed.

Lemma errors_Is_Errorf p e t : errors_Is (Errorf p e) t = errors_Is e t.
Proof. done. Qed.

(** Wrapping keeps every phrase of the wrapped text. *)
Lemma Contains_app_r p s sub : Contains s sub = true → Contains (p +:+ s) sub = true.
Proof.
  rewrite !Contains_spec. intros (q & t & ->). exists (p +:+ q), t.
  by rewrite append_assoc.
Qed.

Lemma IsSessionConflict_Errorf p e :
  IsSessionConflict (Some e) = true → IsSessionConflict (Some (Errorf p e)) = true.
Proof.
  unfold IsSessionConflict, Errorf. cbn [err_text]. rewrite !andb_true_iff, !orb_true_iff.
  intros [[H1|H1] H2]; (split; [|by apply Contains_app_r]); [left|right];
    by apply Contains_app_r.
Qed.

#[export] Hint Resolve Contains_app_r IsSessionConflict_Errorf : rssc.
#[export] Hint Rewrite IsNotFound_Errorf IsConflict_Errorf errors_Is_Errorf : rssc_rw.

Example IsSessionConflict_plain :
  IsSessionConflict (Some (errors_New "status=409 already has an active session")) = true.
Proof. reflexivity. Qed.

Example IsSessionConflict_no_text : IsSessionConflict (Some (errors_New "status=409")) = false.
Proof. reflexivity. Qed.
