(* ===== verification/Types.v ===== *)
(** * Data: Kubernetes objects and the scaleset.actions.github.com/v1alpha1 API

    The records carry the fields the controller reads or writes.  A Go map is
    [gomap]: [None] is the nil map, on which reads give the zero value and
    writes panic.  A Go slice whose nil-ness the code observes is an [option]
    of a list; every other slice is a list.  Pointers to scalars are options. *)

From S2P Require Export Errors.

(** ** Maps *)

Definition gomap : Type := option (gmap string string).

Definition map_entries (m : gomap) : gmap string string := default ∅ m.

(** [m[k]], the empty string when absent. *)
Definition map_get (m : gomap) (k : string) : string := default "" (map_entries m !! k).

Definition map_len (m : gomap) : nat := size (map_entries m).

(** ** Kubernetes metadata *)

Record NamespacedName : Type := mkNN { nn_namespace : string; nn_name : string }.

#[export] Instance NamespacedName_eq_dec : EqDecision NamespacedName.
Proof. solve_decision. Defined.

#[export] Instance NamespacedName_countable : Countable NamespacedName.
Proof.
  refine (inj_countable' (λ n, (nn_namespace n, nn_name n)) (λ p, mkNN p.1 p.2) _).
  by intros [].
Defined.

Record OwnerReference : Type := mkOwnerReference {
  or_apiVersion : string;
  or_kind : string;
  or_name : string;
  or_uid : string;
  or_controller : option bool;
  or_blockOwnerDeletion : option bool
}.

Record ObjectMeta : Type := mkObjectMeta {
  m_name : string;
  m_generateName : string;
  m_namespace : string;
  m_uid : string;
  m_resourceVersion : string;
  m_generation : Z;
  m_creationTimestamp : Time;
  m_deletionTimestamp : option Time;
  m_labels : gomap;
  m_annotations : gomap;
  m_ownerReferences : list OwnerReference;
  m_finalizers : list string
}.

Definition emptyMeta : ObjectMeta :=
  mkObjectMeta "" "" "" "" "" 0%Z 0%Z None None None [] [].

(** [!obj.DeletionTimestamp.IsZero()]: set, and not the zero time. *)
Definition is_deleting (m : ObjectMeta) : bool :=
  match m_deletionTimestamp m with Some t => negb (IsZero t) | None => false end.

Definition meta_set_annotations (m : ObjectMeta) (a : gomap) : ObjectMeta :=
  mkObjectMeta (m_name m) (m_generateName m) (m_namespace m) (m_uid m)
    (m_resourceVersion m) (m_generation m) (m_creationTimestamp m)
    (m_deletionTimestamp m) (m_labels m) a (m_ownerReferences m) (m_finalizers m).

Definition meta_set_labels (m : ObjectMeta) (l : gomap) : ObjectMeta :=
  mkObjectMeta (m_name m) (m_generateName m) (m_namespace m) (m_uid m)
    (m_resourceVersion m) (m_generation m) (m_creationTimestamp m)
    (m_deletionTimestamp m) l (m_annotations m) (m_ownerReferences m) (m_finalizers m).

Definition meta_set_finalizers (m : ObjectMeta) (f : list string) : ObjectMeta :=
  mkObjectMeta (m_name m) (m_generateName m) (m_namespace m) (m_uid m)
    (m_resourceVersion m) (m_generation m) (m_creationTimestamp m)
    (m_deletionTimestamp m) (m_labels m) (m_annotations m) (m_ownerReferences m) f.

Definition meta_key (m : ObjectMeta) : NamespacedName := mkNN (m_namespace m) (m_name m).

Inductive ConditionStatus : Type := ConditionTrue | ConditionFalse | ConditionUnknown.

#[export] Instance ConditionStatus_eq_dec : EqDecision ConditionStatus.
Proof. solve_decision. Defined.

Record Condition : Type := mkCondition {
  c_type : string;
  c_status : ConditionStatus;
  c_reason : string;
  c_message : string;
  c_observedGeneration : Z
}.

(** ** Pods and secrets *)

(** [corev1.PodPhase] is a string type; the zero value is the empty string. *)
Definition PodPhase : Type := string.
Definition PodPending : PodPhase := "Pending".
Definition PodRunning : PodPhase := "Running".
Definition PodSucceeded : PodPhase := "Succeeded".
Definition PodFailed : PodPhase := "Failed".

(** A [resource.Quantity] is identified by the text it was parsed from. *)
Record Quantity : Type := mkQuantity { q_text : string }.

Record CoreEnvVar : Type := mkCoreEnvVar { ce_name : string; ce_value : string }.

Record CoreToleration : Type := mkCoreToleration {
  ct_key : string; ct_operator : string; ct_value : string; ct_effect : string }.

Record PodSecurityContext : Type := mkPodSecurityContext {
  psc_runAsUser : option Z; psc_runAsGroup : option Z; psc_seccomp : option string }.

Record SecurityContext : Type := mkSecurityContext {
  sc_allowPrivilegeEscalation : option bool;
  sc_dropCapabilities : list string;
  sc_readOnlyRootFilesystem : option bool }.

Record Container : Type := mkContainer {
  ctr_name : string;
  ctr_image : string;
  ctr_command : list string;
  ctr_env : list CoreEnvVar;
  ctr_limits : option (gmap string Quantity);
  ctr_requests : option (gmap string Quantity);
  ctr_securityContext : option SecurityContext
}.

Record PodSpec : Type := mkPodSpec {
  ps_restartPolicy : string;
  ps_containers : list Container;
  ps_nodeSelector : gomap;
  ps_tolerations : list CoreToleration;
  ps_securityContext : option PodSecurityContext
}.

Record Pod : Type := mkPod { p_meta : ObjectMeta; p_spec : PodSpec; p_phase : PodPhase }.

(** [pod.Labels[k]] *)
Definition pod_label (p : Pod) (k : string) : string := map_get (m_labels (p_meta p)) k.

Record Secret : Type := mkSecret { s_meta : ObjectMeta; s_data : gmap string string }.

(** ** api/v1alpha1/autoscaleset_types.go *)

Record ScaleSetLabel : Type := mkScaleSetLabel { sl_type : string; sl_name : string }.

#[export] Instance ScaleSetLabel_eq_dec : EqDecision ScaleSetLabel.
Proof. solve_decision. Defined.

Record SecretRef : Type := mkSecretRef { sr_name : string; sr_namespace : string; sr_key : string }.

Record GitHubAppAuth : Type := mkGitHubAppAuth {
  ga_clientID : string; ga_installationID : Z; ga_privateKeySecretRef : SecretRef }.

Record PersonalAccessTokenAuth : Type := mkPATAuth { pa_tokenSecretRef : SecretRef }.

Record RunnerPodTemplateMetadata : Type := mkTemplateMetadata {
  tm_labels : gomap; tm_annotations : gomap }.

Record Toleration : Type := mkToleration {
  t_key : string; t_operator : string; t_value : string; t_effect : string }.

#[export] Instance Toleration_eq_dec : EqDecision Toleration.
Proof. solve_decision. Defined.

Record ResourceRequirements : Type := mkResourceRequirements {
  rr_limits : gomap; rr_requests : gomap }.

Record EnvVar : Type := mkEnvVar { e_name : string; e_value : string }.

#[export] Instance EnvVar_eq_dec : EqDecision EnvVar.
Proof. solve_decision. Defined.

Record RunnerPodSpec : Type := mkRunnerPodSpec {
  rs_nodeSelector : gomap;
  rs_tolerations : list Toleration;
  rs_resources : ResourceRequirements;
  rs_env : list EnvVar
}.

Record RunnerPodTemplate : Type := mkTemplate {
  t_metadata : RunnerPodTemplateMetadata; t_spec : RunnerPodSpec }.

Record AutoscaleSetSpec : Type := mkASSpec {
  as_githubConfigURL : string;
  as_scaleSetName : string;
  as_runnerGroup : string;
  as_labels : list ScaleSetLabel;
  as_minRunners : option Z;
  as_maxRunners : option Z;
  as_runnerImage : string;
  as_githubApp : option GitHubAppAuth;
  as_pat : option PersonalAccessTokenAuth;
  as_runnerTemplate : option RunnerPodTemplate
}.

Record AutoscaleSetStatus : Type := mkASStatus {
  ast_scaleSetID : option Z;
  ast_phase : string;
  ast_conditions : list Condition;
  ast_currentRunners : Z;
  ast_desiredRunners : Z;
  ast_lastMessageID : Z;
  ast_labels : list ScaleSetLabel
}.

Record AutoscaleSet : Type := mkAutoscaleSet {
  as_apiVersion : string;
  as_kind : string;
  as_meta : ObjectMeta;
  as_spec : AutoscaleSetSpec;
  as_status : AutoscaleSetStatus
}.

(** ** api/v1alpha1/runnerset_types.go *)

Record AutoscaleSetRef : Type := mkASRef { ref_name : string; ref_namespace : string }.

Record RunnerSetSpec : Type := mkRSSpec {
  rss_autoscaleSetRef : AutoscaleSetRef;
  rss_runnerGroup : string;
  rss_runnerTemplate : option RunnerPodTemplate
}.

Record RunnerSetStatus : Type := mkRSStatus {
  rst_runnerCount : Z;
  rst_idleRunners : Z;
  rst_busyRunners : Z;
  rst_conditions : list Condition;
  rst_lastMessageID : Z
}.

Record RunnerSet : Type := mkRunnerSet {
  rs_meta : ObjectMeta; rs_spec : RunnerSetSpec; rs_status : RunnerSetStatus }.

(** ** Field updates *)

Definition as_set_meta (a : AutoscaleSet) (m : ObjectMeta) : AutoscaleSet :=
  mkAutoscaleSet (as_apiVersion a) (as_kind a) m (as_spec a) (as_status a).

Definition as_set_spec (a : AutoscaleSet) (s : AutoscaleSetSpec) : AutoscaleSet :=
  mkAutoscaleSet (as_apiVersion a) (as_kind a) (as_meta a) s (as_status a).

Definition as_set_status (a : AutoscaleSet) (s : AutoscaleSetStatus) : AutoscaleSet :=
  mkAutoscaleSet (as_apiVersion a) (as_kind a) (as_meta a) (as_spec a) s.

Definition rs_set_meta (r : RunnerSet) (m : ObjectMeta) : RunnerSet :=
  mkRunnerSet m (rs_spec r) (rs_status r).

Definition rs_set_spec (r : RunnerSet) (s : RunnerSetSpec) : RunnerSet :=
  mkRunnerSet (rs_meta r) s (rs_status r).

Definition rs_set_status (r : RunnerSet) (s : RunnerSetStatus) : RunnerSet :=
  mkRunnerSet (rs_meta r) (rs_spec r) s.

Definition pod_set_labels (p : Pod) (l : gomap) : Pod :=
  mkPod (meta_set_labels (p_meta p) l) (p_spec p) (p_phase p).

(** ** DeepCopy of template metadata (autoscaleset_types.go)

    [DeepCopyInto] starts from a shallow copy and rebuilds each non-nil map
    by inserting the entries of the original one at a time. *)
Section DeepCopy.
Context `{MapRange}.

Definition copy_map (m : gmap string string) : gmap string string :=
  foldl (λ out '(k, v), <[k := v]> out) ∅ (range m).

Definition DeepCopyInto (inp : RunnerPodTemplateMetadata) : RunnerPodTemplateMetadata :=
  let out := inp in
  let out := match tm_labels inp with
             | Some m => mkTemplateMetadata (Some (copy_map m)) (tm_annotations out)
             | None => out end in
  match tm_annotations inp with
  | Some m => mkTemplateMetadata (tm_labels out) (Some (copy_map m))
  | None => out
  end.

Definition DeepCopy (inp : option RunnerPodTemplateMetadata)
  : option RunnerPodTemplateMetadata := DeepCopyInto <$> inp.
End DeepCopy.

(** ** Lemmas *)

(** Inserting a duplicate-free list of entries, in any order. *)
Lemma foldl_insert_lookup {V} (l : list (string * V)) (m : gmap string V) k :
  NoDup l.*1 →
  foldl (λ out '(k, v), <[k := v]> out) m l !! k =
  match (list_to_map l : gmap string V) !! k with Some v => Some v | None => m !! k end.
Proof.
  revert m. induction l as [|[k' v] l IH]; intros m Hnd; simpl; [by rewrite lookup_empty|].
  inversion Hnd; subst. rewrite IH by done.
  destruct (decide (k = k')) as [->|Hne].
  - rewrite lookup_insert_eq. rewrite (not_elem_of_list_to_map_1 l k') by done.
    by rewrite lookup_insert_eq.
  - rewrite !lookup_insert_ne by done. done.
Qed.

Section RangeLemmas.
Context `{MapRange}.

Lemma range_NoDup {V} (m : gmap string V) : NoDup (range m).*1.
Proof. rewrite range_perm. apply NoDup_fst_map_to_list. Qed.

Lemma list_to_map_range {V} (m : gmap string V) : list_to_map (range m) = m.
Proof.
  rewrite (list_to_map_proper (range m) (map_to_list m)).
  - apply list_to_map_to_list.
  - apply range_NoDup.
  - apply range_perm.
Qed.

(** Overriding [m] with the entries of [m'], whatever the iteration order. *)
Lemma foldl_insert_range {V} (m m' : gmap string V) :
  foldl (λ out '(k, v), <[k := v]> out) m (range m') = m' ∪ m.
Proof.
  apply map_eq. intros k. rewrite foldl_insert_lookup by apply range_NoDup.
  rewrite list_to_map_range, lookup_union. by destruct (m' !! k), (m !! k).
Qed.

Lemma copy_map_id m : copy_map m = m.
Proof. unfold copy_map. rewrite foldl_insert_range. apply map_union_empty. Qed.

Lemma range_elem_of {V} (m : gmap string V) k v : (k, v) ∈ range m ↔ m !! k = Some v.
Proof. rewrite range_perm. apply elem_of_map_to_list. Qed.
End RangeLemmas.

Lemma map_get_insert_eq m k v : map_get (Some (<[k := v]> m)) k = v.
Proof. unfold map_get. simpl. by rewrite lookup_insert_eq. Qed.

Lemma map_get_insert_ne m k k' v :
  k ≠ k' → map_get (Some (<[k := v]> m)) k' = map_get (Some m) k'.
Proof. intros. unfold map_get. simpl. by rewrite lookup_insert_ne. Qed.

#[export] Hint Rewrite @foldl_insert_range @copy_map_id map_get_insert_eq : rssc_rw.
