(* ===== verification/Metrics.v ===== *)
(** * internal/metrics: the metric vectors and their label schemas

    [WithLabelValues] panics when it is given a number of values other than
    the number of labels the vector was declared with, so the schema is part
    of what every call site relies on. *)

From S2P Require Export Types.
From Stdlib Require Import QArith_base.

Inductive MetricKind : Type := GaugeVec | CounterVec | HistogramVec.

#[export] Instance MetricKind_eq_dec : EqDecision MetricKind.
Proof. solve_decision. Defined.

(** Histogram buckets: [prometheus.ExponentialBuckets(start, factor, count)],
    or the upper bounds listed one by one. *)
Inductive Buckets : Type :=
| NoBuckets
| ExponentialBuckets (start : Q) (factor : Z) (count : Z)
| LinearBounds (bounds : list Z).

#[export] Instance Q_eq_dec : EqDecision Q.
Proof. solve_decision. Defined.

#[export] Instance Buckets_eq_dec : EqDecision Buckets.
Proof. solve_decision. Defined.

Record MetricVec : Type := mkMetricVec {
  metric_name : string;
  metric_kind : MetricKind;
  metric_buckets : Buckets;
  metric_labels : list string
}.

#[export] Instance MetricVec_eq_dec : EqDecision MetricVec.
Proof. solve_decision. Defined.

(** ** The vectors *)

Definition AutoscaleSetTotal : MetricVec :=
  mkMetricVec "scaleset_autoscaleset_total" GaugeVec NoBuckets
    ["namespace"; "phase"].

Definition RunnerSetTotal : MetricVec :=
  mkMetricVec "scaleset_runnerset_total" GaugeVec NoBuckets
    ["namespace"; "status"].

Definition RunnerPodsTotal : MetricVec :=
  mkMetricVec "scaleset_runner_pods_total" GaugeVec NoBuckets
    ["namespace"; "autoscaleset"; "runner_group"; "state"].

Definition RunnerPodsIdle : MetricVec :=
  mkMetricVec "scaleset_runner_pods_idle" GaugeVec NoBuckets
    ["namespace"; "autoscaleset"; "runner_group"].

Definition RunnerPodsBusy : MetricVec :=
  mkMetricVec "scaleset_runner_pods_busy" GaugeVec NoBuckets
    ["namespace"; "autoscaleset"; "runner_group"].

Definition ScaleSetOperations : MetricVec :=
  mkMetricVec "scaleset_operations_total" CounterVec NoBuckets
    ["namespace"; "autoscaleset"; "operation"; "status"].

Definition ListenerStatus : MetricVec :=
  mkMetricVec "scaleset_listener_active" GaugeVec NoBuckets
    ["namespace"; "autoscaleset"; "runner_group"].

Definition ReconciliationDuration : MetricVec :=
  mkMetricVec "scaleset_reconciliation_duration_seconds" HistogramVec (ExponentialBuckets (1 # 1000) 2 10)
    ["controller"; "namespace"; "name"].

Definition RunnerPodLifecycle : MetricVec :=
  mkMetricVec "scaleset_runner_pod_lifecycle_total" CounterVec NoBuckets
    ["namespace"; "autoscaleset"; "runner_group"; "event"].

Definition RunnerPodStatus : MetricVec :=
  mkMetricVec "scaleset_runner_pod_status" GaugeVec NoBuckets
    ["namespace"; "autoscaleset"; "runner_group"; "phase"].

Definition RunnerScalingOperations : MetricVec :=
  mkMetricVec "scaleset_runner_scaling_operations_total" CounterVec NoBuckets
    ["namespace"; "autoscaleset"; "runner_group"; "operation"; "result"].

Definition RunnerScalingAmount : MetricVec :=
  mkMetricVec "scaleset_runner_scaling_amount" HistogramVec (LinearBounds [1; 2; 5; 10; 20; 50; 100]%Z)
    ["namespace"; "autoscaleset"; "runner_group"; "operation"].

Definition RunnerStateTransitions : MetricVec :=
  mkMetricVec "scaleset_runner_state_transitions_total" CounterVec NoBuckets
    ["namespace"; "autoscaleset"; "runner_group"; "from_state"; "to_state"].

Definition JobLifecycle : MetricVec :=
  mkMetricVec "scaleset_job_lifecycle_total" CounterVec NoBuckets
    ["namespace"; "autoscaleset"; "runner_group"; "event"; "result"].

Definition JobQueueTime : MetricVec :=
  mkMetricVec "scaleset_job_queue_time_seconds" HistogramVec (ExponentialBuckets (1 # 1) 2 10)
    ["namespace"; "autoscaleset"; "runner_group"].

Definition JobExecutionTime : MetricVec :=
  mkMetricVec "scaleset_job_execution_time_seconds" HistogramVec (ExponentialBuckets (10 # 1) 2 12)
    ["namespace"; "autoscaleset"; "runner_group"; "result"].

Definition QueuedJobs : MetricVec :=
  mkMetricVec "scaleset_queued_jobs" GaugeVec NoBuckets
    ["namespace"; "autoscaleset"; "runner_group"].

Definition RunnerPodAge : MetricVec :=
  mkMetricVec "scaleset_runner_pod_age_seconds" HistogramVec (ExponentialBuckets (60 # 1) 2 12)
    ["namespace"; "autoscaleset"; "runner_group"; "state"].

Definition RunnerPodCreationDuration : MetricVec :=
  mkMetricVec "scaleset_runner_pod_creation_duration_seconds" HistogramVec (ExponentialBuckets (1 # 10) 2 10)
    ["namespace"; "autoscaleset"; "runner_group"; "result"].

Definition RunnerPodDeletionDuration : MetricVec :=
  mkMetricVec "scaleset_runner_pod_deletion_duration_seconds" HistogramVec (ExponentialBuckets (1 # 10) 2 10)
    ["namespace"; "autoscaleset"; "runner_group"; "result"].

Definition ScaleSetStatistics : MetricVec :=
  mkMetricVec "scaleset_statistics" GaugeVec NoBuckets
    ["namespace"; "autoscaleset"; "statistic"].

Definition ScaleSetLimits : MetricVec :=
  mkMetricVec "scaleset_limits" GaugeVec NoBuckets
    ["namespace"; "autoscaleset"; "limit_type"].

Definition SessionOperations : MetricVec :=
  mkMetricVec "scaleset_session_operations_total" CounterVec NoBuckets
    ["namespace"; "autoscaleset"; "runner_group"; "operation"; "result"].

Definition SessionConflicts : MetricVec :=
  mkMetricVec "scaleset_session_conflicts_total" CounterVec NoBuckets
    ["namespace"; "autoscaleset"; "runner_group"; "owner"].

Definition JITConfigGeneration : MetricVec :=
  mkMetricVec "scaleset_jit_config_generation_total" CounterVec NoBuckets
    ["namespace"; "autoscaleset"; "runner_group"; "result"].

Definition JITConfigGenerationDuration : MetricVec :=
  mkMetricVec "scaleset_jit_config_generation_duration_seconds" HistogramVec (ExponentialBuckets (1 # 100) 2 10)
    ["namespace"; "autoscaleset"; "runner_group"].

Definition ListenerMessagesProcessed : MetricVec :=
  mkMetricVec "scaleset_listener_messages_processed_total" CounterVec NoBuckets
    ["namespace"; "autoscaleset"; "runner_group"; "message_type"].

Definition ListenerMessageErrors : MetricVec :=
  mkMetricVec "scaleset_listener_message_errors_total" CounterVec NoBuckets
    ["namespace"; "autoscaleset"; "runner_group"; "error_type"].

Definition ScalingConstraints : MetricVec :=
  mkMetricVec "scaleset_scaling_constraints_total" CounterVec NoBuckets
    ["namespace"; "autoscaleset"; "runner_group"; "constraint_type"].

Definition GitHubAPICallDuration : MetricVec :=
  mkMetricVec "scaleset_github_api_call_duration_seconds" HistogramVec (ExponentialBuckets (1 # 100) 2 10)
    ["namespace"; "autoscaleset"; "operation"; "status"].

Definition GitHubAPICallErrors : MetricVec :=
  mkMetricVec "scaleset_github_api_call_errors_total" CounterVec NoBuckets
    ["namespace"; "autoscaleset"; "operation"; "status_code"; "error_type"].

Definition ReconciliationQueueDepth : MetricVec :=
  mkMetricVec "scaleset_reconciliation_queue_depth" GaugeVec NoBuckets
    ["controller"].

Definition ReconciliationRate : MetricVec :=
  mkMetricVec "scaleset_reconciliation_rate_total" CounterVec NoBuckets
    ["controller"; "result"].

Definition CacheHits : MetricVec :=
  mkMetricVec "scaleset_cache_hits_total" CounterVec NoBuckets
    ["cache_type"].

Definition CacheMisses : MetricVec :=
  mkMetricVec "scaleset_cache_misses_total" CounterVec NoBuckets
    ["cache_type"].

Definition RateLimitHits : MetricVec :=
  mkMetricVec "scaleset_rate_limit_hits_total" CounterVec NoBuckets
    ["operation"].

(** [init] registers the vectors in this order. *)
Definition registered : list MetricVec :=
  [AutoscaleSetTotal; RunnerSetTotal; RunnerPodsTotal; RunnerPodsIdle; RunnerPodsBusy;
    ScaleSetOperations; ListenerStatus; ReconciliationDuration; RunnerPodLifecycle;
    RunnerPodStatus; RunnerScalingOperations; RunnerScalingAmount; RunnerStateTransitions;
    JobLifecycle; JobQueueTime; JobExecutionTime; QueuedJobs; RunnerPodAge;
    RunnerPodCreationDuration; RunnerPodDeletionDuration; ScaleSetStatistics;
    ScaleSetLimits; SessionOperations; SessionConflicts; JITConfigGeneration;
    JITConfigGenerationDuration; ListenerMessagesProcessed; ListenerMessageErrors;
    ScalingConstraints; GitHubAPICallDuration; GitHubAPICallErrors;
    ReconciliationQueueDepth; ReconciliationRate; CacheHits; CacheMisses; RateLimitHits].

(** What a call site does with the selected child; [MObserveSeconds d] observes
    [d.Seconds()]. *)
Inductive MetricAction : Type :=
| MInc
| MSet (v : Z)
| MObserve (v : Z)
| MObserveSeconds (d : Duration).

(** The call sites increment counters, set gauges and observe histograms. *)
Definition action_kind (a : MetricAction) : MetricKind :=
  match a with
  | MInc => CounterVec
  | MSet _ => GaugeVec
  | MObserve _ | MObserveSeconds _ => HistogramVec
  end.

(** A call [v.WithLabelValues(ls...).<action>] on a registered vector that does
    not panic and fits the vector's kind. *)
Definition well_labelled (v : MetricVec) (ls : list string) (a : MetricAction) : bool :=
  bool_decide (v ∈ registered) &&
  bool_decide (length ls = length (metric_labels v)) &&
  bool_decide (action_kind a = metric_kind v).

(** [MustRegister] panics on a second vector with a registered name. *)
Lemma registered_names_distinct : NoDup (metric_name <$> registered).
Proof. by apply (bool_decide_unpack _), I. Qed.

#[export] Hint Resolve registered_names_distinct : rssc.
