(* ===== verification/Effects.v ===== *)
(** * Effects: external calls, programs, and their executions

    A function of the source that talks to the API server, GitHub, the clock,
    the metrics registry or the other goroutines is a [prog]: a tree of
    external calls [Vis], critical sections on the memory it shares with other
    goroutines [Atomic], [go] statements [Go], worker batches on an errgroup
    [Batch], and a result or a run-time panic.  [exec] gives every execution of
    a program: the environment answers each call with any response of its type,
    [rely] says what the other goroutines may do to the shared memory before a
    critical section, and the workers of a batch interleave in any order. *)

From S2P Require Export Metrics.

(** ** Data of the GitHub scale-set client *)

Record SSLabel : Type := mkLabel { l_type : string; l_name : string }.

#[export] Instance SSLabel_eq_dec : EqDecision SSLabel.
Proof. solve_decision. Defined.

Record RunnerScaleSetStatistic : Type := mkStatistic {
  st_totalAvailableJobs : Z;
  st_totalAcquiredJobs : Z;
  st_totalAssignedJobs : Z;
  st_totalRunningJobs : Z;
  st_totalRegisteredRunners : Z;
  st_totalBusyRunners : Z;
  st_totalIdleRunners : Z
}.

Record RunnerScaleSet : Type := mkScaleSet {
  ss_id : Z;
  ss_name : string;
  ss_runnerGroupID : Z;
  ss_labels : option (list SSLabel);
  ss_disableUpdate : bool;
  ss_statistics : option RunnerScaleSetStatistic
}.

Record SystemInfo : Type := mkSystemInfo {
  si_system : string; si_version : string; si_commitSHA : string;
  si_scaleSetID : Z; si_subsystem : string }.

Record GitHubAppConfig : Type := mkAppConfig {
  ac_clientID : string; ac_installationID : Z; ac_privateKey : string }.

#[export] Instance GitHubAppConfig_eq_dec : EqDecision GitHubAppConfig.
Proof. solve_decision. Defined.

Record PATConfig : Type := mkPATConfig { pc_token : string }.

#[export] Instance PATConfig_eq_dec : EqDecision PATConfig.
Proof. solve_decision. Defined.

Record RunnerReference : Type := mkRunnerReference { rr_id : Z; rr_name : string }.
Record RunnerGroup : Type := mkRunnerGroup { rg_id : Z; rg_name : string }.

(** Handles to objects of the client library. *)
Definition Client : Type := nat.
Definition SessionClient : Type := nat.

(** Which pods a [List] call selects. *)
Inductive PodSelector : Type :=
| MatchingFields (label value : string)
| MatchingLabels (label value : string).

Inductive EventType : Type := EventTypeNormal | EventTypeWarning.

(** ** External calls and the type of their responses *)
Inductive Call : Type → Type :=
(* Kubernetes API server *)
| K8sGetAutoscaleSet (k : NamespacedName) : Call (result error AutoscaleSet)
| K8sGetRunnerSet (k : NamespacedName) : Call (result error RunnerSet)
| K8sGetSecret (k : NamespacedName) : Call (result error Secret)
| K8sUpdateAutoscaleSet (a : AutoscaleSet) : Call (result error AutoscaleSet)
| K8sUpdateRunnerSet (r : RunnerSet) : Call (result error RunnerSet)
| K8sStatusUpdateAutoscaleSet (a : AutoscaleSet) : Call (result error AutoscaleSet)
| K8sStatusUpdateRunnerSet (r : RunnerSet) : Call (result error RunnerSet)
| K8sListPods (ns : string) (sel : PodSelector) : Call (result error (list Pod))
| K8sListAutoscaleSets : Call (result error (list AutoscaleSet))
| K8sListRunnerSets : Call (result error (list RunnerSet))
| K8sCreatePod (p : Pod) : Call (option error)
| K8sUpdatePod (p : Pod) : Call (option error)
| K8sDeletePod (p : Pod) (gracePeriodSeconds : option Z) : Call (option error)
| Eventf (ns name : string) (t : EventType) (reason note : string) : Call unit
(* GitHub scale-set API *)
| NewClientWithGitHubApp (url : string) (app : GitHubAppConfig) (si : SystemInfo)
  : Call (result error Client)
| NewClientWithPAT (url : string) (pat : PATConfig) (si : SystemInfo)
  : Call (result error Client)
| SetSystemInfo (c : Client) (si : SystemInfo) : Call unit
| GetRunnerGroupByName (c : Client) (name : string)
  : Call (option RunnerGroup * option error)
| CreateRunnerScaleSet (c : Client) (ss : RunnerScaleSet)
  : Call (option RunnerScaleSet * option error)
| GetRunnerScaleSetByID (c : Client) (id : Z) : Call (option RunnerScaleSet * option error)
| UpdateRunnerScaleSet (c : Client) (id : Z) (ss : RunnerScaleSet)
  : Call (option RunnerScaleSet * option error)
| DeleteRunnerScaleSet (c : Client) (id : Z) : Call (option error)
| MessageSessionClient (c : Client) (id : Z) (owner : string)
  : Call (result error SessionClient)
| GetRunnerByName (c : Client) (name : string)
  : Call (option RunnerReference * option error)
| RemoveRunner (c : Client) (id : Z) : Call (option error)
| GenerateJitRunnerConfig (c : Client) (name : string) (id : Z)
  : Call (option string * option error)
(* Process: clock, randomness, host, contexts, metrics *)
| Now : Call Time
| NewUUID : Call string
| Hostname : Call (result error string)
| RateLimitWait : Call (option error)
| RateLimitAllow : Call bool
| SelectDoneOrAfter (d : Duration) : Call (option error)
| SelectDoneOrTick (d : Duration) : Call bool
| CtxDone : Call bool
| WaitDone : Call unit
| Metric (v : MetricVec) (ls : list string) (a : MetricAction) : Call unit.

Arguments SelectDoneOrAfter _%_Z_scope.
Arguments SelectDoneOrTick _%_Z_scope.

(** ** Programs *)
Section Programs.
Context {S : Type}.

Inductive prog (A : Type) : Type :=
| Ret (a : A)
| Panic
| Vis {R : Type} (c : Call R) (k : R → prog A)
| Atomic {R : Type} (f : S → R * S) (k : R → prog A)
| Go (b : prog unit) (k : prog A)
| Batch (limit : positive) (n : nat) (stop : Z → Z → bool) (task : nat → prog bool) (k : Z → prog A).

Arguments Ret {A} a.
Arguments Panic {A}.
Arguments Vis {A R} c k.
Arguments Atomic {A R} f k.
Arguments Go {A} b k.
Arguments Batch {A} limit n stop task k.

Fixpoint prog_bind {A B : Type} (p : prog A) (f : A → prog B) : prog B :=
  match p with
  | Ret a => f a
  | Panic => Panic
  | Vis c k => Vis c (λ r, prog_bind (k r) f)
  | Atomic g k => Atomic g (λ r, prog_bind (k r) f)
  | Go b k => Go b (prog_bind k f)
  | Batch limit n stop task k => Batch limit n stop task (λ r, prog_bind (k r) f)
  end.

#[global] Instance prog_mret : MRet prog := λ A a, Ret a.
#[global] Instance prog_mbind : MBind prog := λ A B f p, prog_bind p f.

Definition call {R} (c : Call R) : prog R := Vis c Ret.
Definition atomic {R} (f : S → R * S) : prog R := Atomic f Ret.
Definition spawn (b : prog unit) : prog unit := Go b (Ret tt).
Definition batch (limit : positive) (n : nat) (stop : Z → Z → bool) (task : nat → prog bool) : prog Z :=
  Batch limit n stop task Ret.

(** [for _, x := range xs { body }] *)
Fixpoint for_each {X} (xs : list X) (body : X → prog unit) : prog unit :=
  match xs with
  | [] => Ret tt
  | x :: xs' => prog_bind (body x) (λ _, for_each xs' body)
  end.

(** [defer d()] in front of [p]: [d] runs when [p] returns and when it panics;
    a panic goes on after it. *)
Fixpoint deferred {A : Type} (d : prog unit) (p : prog A) : prog A :=
  match p with
  | Ret a => prog_bind d (λ _, Ret a)
  | Panic => prog_bind d (λ _, Panic)
  | Vis c k => Vis c (λ r, deferred d (k r))
  | Atomic g k => Atomic g (λ r, deferred d (k r))
  | Go b k => Go b (deferred d k)
  | Batch limit n stop task k => Batch limit n stop task (λ r, deferred d (k r))
  end.

(** ** Executions *)

Inductive event : Type :=
| Ev {R : Type} (c : Call R) (r : R)
| EvGo (b : prog unit).

Inductive outcome (A : Type) : Type := Done (a : A) | Panicked.
Arguments Done {A} a.
Arguments Panicked {A}.

(** *** A batch of workers

    The loop the two batch operations share, on an [errgroup.Group] limited to
    [limit] workers, with two [atomic.Int32] counters:
<<
    for i := 0; i < n; i++ {
      e := errCount.Load(); c := ok.Load()
      if stop(e, c) { break }
      g.Go(func() error { if task(i) { ok.Add(1) } else { errCount.Add(1) }; return nil })
    }
    g.Wait(); return ok.Load()
>>
    [g.Go] blocks while [limit] workers are live.  The workers share nothing
    with each other but the counters: a worker is an execution of its task,
    whose calls interleave with those of the others. *)
Inductive batch_pc : Type := AtHead | LoadedErrs (e : Z) | AtGo | Waiting.

Record batch_state : Type := mkBatch {
  b_next : nat;
  b_pc : batch_pc;
  b_ok : Z;
  b_err : Z;
  b_live : list (list event * outcome bool)
}.

Definition batch_init : batch_state := mkBatch 0 AtHead 0 0 [].

Section Batch.
Context (limit : positive) (n : nat) (stop : Z → Z → bool).
Context (worker : nat → list event → outcome bool → Prop).

Inductive batch_step : batch_state → list event → batch_state → Prop :=
| step_load_errs i c e live :
    i < n →
    batch_step (mkBatch i AtHead c e live) [] (mkBatch i (LoadedErrs e) c e live)
| step_load_ok i e0 c e live :
    batch_step (mkBatch i (LoadedErrs e0) c e live) []
               (mkBatch i (if stop e0 c then Waiting else AtGo) c e live)
| step_go i c e live tr o :
    length live < Pos.to_nat limit → worker i tr o →
    batch_step (mkBatch i AtGo c e live) [] (mkBatch (i + 1) AtHead c e (live ++ [(tr, o)]))
| step_loop_done i c e live :
    n ≤ i →
    batch_step (mkBatch i AtHead c e live) [] (mkBatch i Waiting c e live)
| step_work i pc c e l1 l2 ev tr o :
    batch_step (mkBatch i pc c e (l1 ++ (ev :: tr, o) :: l2)) [ev]
               (mkBatch i pc c e (l1 ++ (tr, o) :: l2))
| step_ok i pc c e l1 l2 :
    batch_step (mkBatch i pc c e (l1 ++ ([], Done true) :: l2)) []
               (mkBatch i pc (wrap32 (c + 1)) e (l1 ++ l2))
| step_err i pc c e l1 l2 :
    batch_step (mkBatch i pc c e (l1 ++ ([], Done false) :: l2)) []
               (mkBatch i pc c (wrap32 (e + 1)) (l1 ++ l2)).

Inductive batch_steps : batch_state → list event → batch_state → Prop :=
| steps_refl b : batch_steps b [] b
| steps_cons b1 tr1 b2 tr2 b3 :
    batch_step b1 tr1 b2 → batch_steps b2 tr2 b3 → batch_steps b1 (tr1 ++ tr2) b3.

(** The batch returns its count, or a worker's panic takes the process down. *)
Inductive batch_run (tr : list event) : option Z → Prop :=
| run_returns i c e :
    batch_steps batch_init tr (mkBatch i Waiting c e []) → batch_run tr (Some c)
| run_crashes b l1 l2 :
    batch_steps batch_init tr b → b_live b = l1 ++ ([], Panicked) :: l2 → batch_run tr None.
End Batch.

Fixpoint exec (rely : S → S → Prop) {A : Type} (p : prog A) (s : S) (tr : list event)
    (o : outcome A) (s' : S) : Prop :=
  match p with
  | Ret a => tr = [] ∧ o = Done a ∧ s' = s
  | Panic => tr = [] ∧ o = Panicked ∧ s' = s
  | Vis c k => ∃ r tr', tr = Ev c r :: tr' ∧ exec rely (k r) s tr' o s'
  | Atomic f k => ∃ s1, rely s s1 ∧ exec rely (k (f s1).1) (f s1).2 tr o s'
  | Go b k => ∃ tr', tr = EvGo b :: tr' ∧ exec rely k s tr' o s'
  | Batch limit n stop task k =>
    ∃ tr1 tr2 r, tr = tr1 ++ tr2 ∧
      batch_run limit n stop (λ i tr o, ∃ s1 s2, exec rely (task i) s1 tr o s2) tr1 r ∧
      match r with
      | Some c => exec rely (k c) s tr2 o s'
      | None => tr2 = [] ∧ o = Panicked ∧ s' = s
      end
  end.

(** Executions of a goroutine that runs alone. *)
Definition exec_seq {A} : prog A → S → list event → outcome A → S → Prop :=
  exec eq.

(** One schedule of a batch: every worker runs to its end before the loop goes
    on.  [go i c e m] runs the workers from the [i]-th, [fuel] of them at most,
    the next call having number [m]. *)
Fixpoint batch_seq (stop : Z → Z → bool) (runw : nat → nat → list event * outcome bool)
    (fuel i : nat) (c e : Z) (m : nat) : list event * option Z :=
  match fuel with
  | 0 => ([], Some c)
  | Datatypes.S fuel =>
    if stop e c then ([], Some c)
    else
      let '(tr, o) := runw i m in
      match o with
      | Panicked => (tr, None)
      | Done true =>
        let '(tr', r) := batch_seq stop runw fuel (i + 1) (wrap32 (c + 1)) e (m + length tr) in
        (tr ++ tr', r)
      | Done false =>
        let '(tr', r) := batch_seq stop runw fuel (i + 1) c (wrap32 (e + 1)) (m + length tr) in
        (tr ++ tr', r)
      end
  end.

(** A deterministic run against a scripted environment: the [n]-th call is
    answered by [env c n]. *)
Fixpoint run (env : ∀ R, Call R → nat → R) {A : Type} (p : prog A) (s : S) (n : nat)
  : list event * outcome A * S :=
  match p with
  | Ret a => ([], Done a, s)
  | Panic => ([], Panicked, s)
  | Vis c k =>
    let r := env _ c n in
    let '(tr, o, s') := run env (k r) s (n + 1) in (Ev c r :: tr, o, s')
  | Atomic f k => run env (k (f s).1) (f s).2 n
  | Go b k => let '(tr, o, s') := run env k s n in (EvGo b :: tr, o, s')
  | Batch limit cnt stop task k =>
    let '(tr1, r) := batch_seq stop
      (λ i m, let '(tr, o, _) := run env (task i) s m in (tr, o)) cnt 0 0 0 n in
    match r with
    | None => (tr1, Panicked, s)
    | Some c => let '(tr, o, s') := run env (k c) s (n + length tr1) in (tr1 ++ tr, o, s')
    end
  end.

(** Every call a program can issue, in any execution and in the goroutines
    it starts, satisfies [P]. *)
Fixpoint always (P : ∀ R, Call R → Prop) {A : Type} (p : prog A) : Prop :=
  match p with
  | Ret _ => True
  | Panic => True
  | Vis c k => P _ c ∧ ∀ r, always P (k r)
  | Atomic f k => ∀ r, always P (k r)
  | Go b k => always P b ∧ always P k
  | Batch _ _ _ task k => (∀ i, always P (task i)) ∧ ∀ c, always P (k c)
  end.

Definition event_sat (P : ∀ R, Call R → Prop) (e : event) : Prop :=
  match e with Ev c _ => P _ c | EvGo b => always P b end.

(** ** Laws *)

Lemma batch_steps_trans limit n stop worker b1 tr1 b2 tr2 b3 :
  batch_steps limit n stop worker b1 tr1 b2 → batch_steps limit n stop worker b2 tr2 b3 →
  batch_steps limit n stop worker b1 (tr1 ++ tr2) b3.
Proof.
  induction 1 as [|b1 tr b2 tr' b3' H1 H2 IH]; [done|]. intros H3.
  rewrite <- app_assoc. econstructor; [done|]. by apply IH.
Qed.

(** A step that makes no call. *)
Lemma batch_steps_tau limit n stop worker b1 b2 tr b3 :
  batch_step limit n stop worker b1 [] b2 → batch_steps limit n stop worker b2 tr b3 →
  batch_steps limit n stop worker b1 tr b3.
Proof. intros H1 H2. exact (steps_cons _ _ _ _ _ _ _ _ _ H1 H2). Qed.

(** A live worker can run to its end. *)
Lemma batch_worker_end limit n stop worker i pc c e l1 tr o l2 :
  batch_steps limit n stop worker (mkBatch i pc c e (l1 ++ (tr, o) :: l2)) tr
              (mkBatch i pc c e (l1 ++ ([], o) :: l2)).
Proof.
  induction tr as [|ev tr IH]; [constructor|].
  change (ev :: tr) with ([ev] ++ tr). by econstructor; [constructor|].
Qed.

(** Starting the next worker and letting it run. *)
Lemma batch_turn limit n stop (worker : nat → list event → outcome bool → Prop) i c e tr o :
  i < n → stop e c = false → worker i tr o →
  batch_steps limit n stop worker (mkBatch i AtHead c e []) tr
              (mkBatch (i + 1) AtHead c e [([], o)]).
Proof.
  intros Hi Hs Hw. eapply batch_steps_tau; [by constructor|].
  eapply batch_steps_tau; [constructor|]. rewrite Hs.
  eapply batch_steps_tau; [apply step_go; [simpl; lia|done]|].
  apply (batch_worker_end _ _ _ _ _ _ _ _ [] tr o []).
Qed.

Lemma batch_seq_steps limit n stop worker runw fuel i c e m :
  (∀ i m, worker i (runw i m).1 (runw i m).2) → i + fuel = n →
  let x := batch_seq stop runw fuel i c e m in
  match x.2 with
  | Some c' => ∃ i' e', batch_steps limit n stop worker (mkBatch i AtHead c e []) x.1
                          (mkBatch i' Waiting c' e' [])
  | None => ∃ b l1 l2, batch_steps limit n stop worker (mkBatch i AtHead c e []) x.1 b ∧
                       b_live b = l1 ++ ([], Panicked) :: l2
  end.
Proof.
  intros Hw. cbn zeta. revert i c e m. induction fuel as [|fuel IH]; intros i c e m Hi; simpl.
  - exists i, e. eapply batch_steps_tau; [constructor; lia|constructor].
  - destruct (stop e c) eqn:Hs; simpl.
    { exists i, e. eapply batch_steps_tau; [constructor; lia|].
      eapply batch_steps_tau; [constructor|]. rewrite Hs. constructor. }
    pose proof (Hw i m) as Hwi. destruct (runw i m) as [tr o]. simpl in Hwi.
    pose proof (batch_turn limit n stop worker i c e tr o ltac:(lia) Hs Hwi) as Ht.
    destruct o as [[]|].
    + specialize (IH (i + 1) (wrap32 (c + 1)) e (m + length tr) ltac:(lia)).
      destruct (batch_seq stop runw fuel (i + 1) _ e _) as [tr' [c'|]]; simpl in *.
      * destruct IH as (i' & e' & IH). exists i', e'. eapply batch_steps_trans; [done|].
        eapply batch_steps_tau; [|done]. apply (step_ok _ _ _ _ _ _ _ _ [] []).
      * destruct IH as (b & l1 & l2 & IH & Hb). exists b, l1, l2. split; [|done].
        eapply batch_steps_trans; [done|].
        eapply batch_steps_tau; [|done]. apply (step_ok _ _ _ _ _ _ _ _ [] []).
    + specialize (IH (i + 1) c (wrap32 (e + 1)) (m + length tr) ltac:(lia)).
      destruct (batch_seq stop runw fuel (i + 1) c _ _) as [tr' [c'|]]; simpl in *.
      * destruct IH as (i' & e' & IH). exists i', e'. eapply batch_steps_trans; [done|].
        eapply batch_steps_tau; [|done]. apply (step_err _ _ _ _ _ _ _ _ [] []).
      * destruct IH as (b & l1 & l2 & IH & Hb). exists b, l1, l2. split; [|done].
        eapply batch_steps_trans; [done|].
        eapply batch_steps_tau; [|done]. apply (step_err _ _ _ _ _ _ _ _ [] []).
    + simpl. by exists (mkBatch (i + 1) AtHead c e [([], Panicked)]), [], [].
Qed.

Lemma bind_assoc {A B C : Type} (p : prog A) (f : A → prog B) (g : B → prog C) s tr o s' rely :
  exec rely (prog_bind (prog_bind p f) g) s tr o s' ↔
  exec rely (prog_bind p (λ a, prog_bind (f a) g)) s tr o s'.
Proof.
  revert s tr. induction p as [?|?|? ? c k IH|? ? h k IH|? b ? k IH|? lim n st t IHt k IH];
    intros s tr; simpl; [done..| | | |].
  - split; intros (r & tr' & -> & Hx); exists r, tr'; (split; [done|]); by apply IH.
  - split; intros (s1 & Hr & Hx); exists s1; (split; [done|]); by apply IH.
  - split; intros (tr' & -> & Hx); exists tr'; (split; [done|]); by apply IH.
  - split; intros (tr1 & tr2 & r & -> & Hb & Hx); exists tr1, tr2, r; (split; [done|]);
      (split; [done|]); destruct r; [by apply IH|done|by apply IH|done].
Qed.

(** An execution of a sequence is an execution of its first part that
    returns followed by one of the second, or a panic of the first. *)
Lemma exec_bind rely {A B : Type} (p : prog A) (f : A → prog B) s tr o s' :
  exec rely (prog_bind p f) s tr o s' ↔
  (∃ tr1 a s1 tr2, tr = tr1 ++ tr2 ∧ exec rely p s tr1 (Done a) s1 ∧
                   exec rely (f a) s1 tr2 o s') ∨
  (o = Panicked ∧ exec rely p s tr Panicked s').
Proof.
  split.
  - revert s tr. induction p as [? a|?|? R c k IH|? R h k IH|? b ? k IH|? lim n st t IHt k IH];
      intros s tr; simpl.
    + intros Hx. left. exists [], a, s, tr. done.
    + intros (-> & -> & ->). by right.
    + intros (r & tr' & -> & Hx).
      destruct (IH _ _ _ _ Hx) as [(tr1 & a & s1 & tr2 & -> & H1 & H2)|[-> H1]].
      * left. exists (Ev c r :: tr1), a, s1, tr2. naive_solver.
      * right. naive_solver.
    + intros (s0 & Hr & Hx).
      destruct (IH _ _ _ _ Hx) as [(tr1 & a & s1 & tr2 & -> & H1 & H2)|[-> H1]].
      * left. exists tr1, a, s1, tr2. naive_solver.
      * right. naive_solver.
    + intros (tr' & -> & Hx).
      destruct (IH _ _ _ Hx) as [(tr1 & a & s1 & tr2 & -> & H1 & H2)|[-> H1]].
      * left. exists (EvGo b :: tr1), a, s1, tr2. naive_solver.
      * right. naive_solver.
    + intros (trb & tr' & [c|] & -> & Hb & Hx).
      * destruct (IH _ _ _ _ Hx) as [(tr1 & a & s1 & tr2 & -> & H1 & H2)|[-> H1]].
        -- left. exists (trb ++ tr1), a, s1, tr2. split; [by rewrite app_assoc|].
           split; [|done]. by exists trb, tr1, (Some c).
        -- right. split; [done|]. by exists trb, tr', (Some c).
      * destruct Hx as (-> & -> & ->). right. split; [done|]. by exists trb, [], None.
  - intros [(tr1 & a & s1 & tr2 & -> & H1 & H2)|[-> H1]].
    + revert s tr1 H1.
      induction p as [? a'|?|? R c k IH|? R h k IH|? b ? k IH|? lim n st t IHt k IH];
        intros s tr1; simpl.
      * by intros (-> & [= ->] & ->).
      * by intros (_ & ? & _).
      * intros (r & tr' & -> & Hx). exists r, (tr' ++ tr2). split; [done|]. by eapply IH.
      * intros (s0 & Hr & Hx). exists s0. split; [done|]. by eapply IH.
      * intros (tr' & -> & Hx). exists (tr' ++ tr2). split; [done|]. by eapply IH.
      * intros (trb & tr' & [c|] & -> & Hb & Hx); [|by destruct Hx as (_ & ? & _)].
        exists trb, (tr' ++ tr2), (Some c). split; [by rewrite app_assoc|].
        split; [done|]. by eapply IH.
    + revert s tr H1.
      induction p as [? a'|?|? R c k IH|? R h k IH|? b ? k IH|? lim n st t IHt k IH];
        intros s tr; simpl.
      * by intros (_ & ? & _).
      * by intros (-> & _ & ->).
      * intros (r & tr' & -> & Hx). exists r, tr'. split; [done|]. by eapply IH.
      * intros (s0 & Hr & Hx). exists s0. split; [done|]. by eapply IH.
      * intros (tr' & -> & Hx). exists tr'. split; [done|]. by eapply IH.
      * intros (trb & tr' & [c|] & -> & Hb & Hx).
        -- exists trb, tr', (Some c). split; [done|]. split; [done|]. by eapply IH.
        -- destruct Hx as (-> & _ & ->). by exists trb, [], None.
Qed.

Lemma run_exec env {A : Type} (p : prog A) s n :
  exec eq p s (run env p s n).1.1 (run env p s n).1.2 (run env p s n).2.
Proof.
  revert s n. induction p as [? a|?|? R c k IH|? R h k IH|? b ? k IH|? lim cnt st t IHt k IH];
    intros s n; simpl.
  - done.
  - done.
  - specialize (IH (env R c n) s (n + 1)).
    destruct (run env (k (env R c n)) s (n + 1)) as [[tr o] s']. naive_solver.
  - naive_solver.
  - specialize (IH s n). destruct (run env k s n) as [[tr o] s']. naive_solver.
  - set (runw := λ i m, let '(tr, o, _) := run env (t i) s m in (tr, o)).
    assert (Hw : ∀ i m, ∃ s1 s2, exec eq (t i) s1 (runw i m).1 (runw i m).2 s2).
    { intros i m. specialize (IHt i s m). unfold runw.
      destruct (run env (t i) s m) as [[tr o] s']. simpl in *. eauto. }
    pose proof (batch_seq_steps lim cnt st
      (λ i tr o, ∃ s1 s2, exec eq (t i) s1 tr o s2) runw cnt 0 0 0 n Hw eq_refl) as Hb.
    cbn zeta in Hb. fold runw. destruct (batch_seq st runw cnt 0 0 0 n) as [tr1 [c|]]; simpl in Hb.
    + destruct Hb as (i' & e' & Hb). specialize (IH c s (n + length tr1)).
      destruct (run env (k c) s _) as [[tr o] s']. simpl in *.
      exists tr1, tr, (Some c). split; [done|]. split; [|done]. by eapply run_returns.
    + destruct Hb as (b & l1 & l2 & Hb & Hl). simpl. exists tr1, [], None.
      split; [by rewrite app_nil_r|]. split; [|done]. by eapply run_crashes.
Qed.

Lemma always_bind P {A B : Type} (p : prog A) (f : A → prog B) :
  always P p → (∀ a, always P (f a)) → always P (prog_bind p f).
Proof. induction p; simpl; naive_solver. Qed.

Lemma always_for_each P {X} (xs : list X) (body : X → prog unit) :
  (∀ x, always P (body x)) → always P (for_each xs body).
Proof. intros Hb. induction xs; simpl; [done|]. apply always_bind; auto. Qed.

(** Whatever holds of the events of every worker holds of the batch's. *)
Lemma batch_steps_events (Q : event → Prop) limit n stop
    (worker : nat → list event → outcome bool → Prop) b tr b' :
  (∀ i tr o, worker i tr o → Forall Q tr) →
  batch_steps limit n stop worker b tr b' →
  Forall (λ w, Forall Q w.1) (b_live b) →
  Forall Q tr ∧ Forall (λ w, Forall Q w.1) (b_live b').
Proof.
  intros HQ. induction 1 as [|b1 tr1 b2 tr2 b3 H1 H2 IH]; intros Hl; [done|].
  assert (Hb2 : Forall Q tr1 ∧ Forall (λ w, Forall Q w.1) (b_live b2)).
  { destruct H1; simpl in *;
      rewrite ?Forall_app, ?Forall_cons, ?Forall_nil in *; simpl in *;
      rewrite ?Forall_app, ?Forall_cons, ?Forall_nil in *; naive_solver. }
  destruct Hb2 as [Htr Hl2]. destruct (IH Hl2). split; [by apply Forall_app|done].
Qed.

Lemma batch_run_events (Q : event → Prop) limit n stop worker tr r :
  (∀ i tr o, worker i tr o → Forall Q tr) → batch_run limit n stop worker tr r → Forall Q tr.
Proof.
  intros HQ [i c e Hs|b l1 l2 Hs _];
    by eapply (batch_steps_events Q) in Hs as [? _]; [|done|constructor].
Qed.

Lemma always_mono (P Q : ∀ R, Call R → Prop) {A : Type} (p : prog A) :
  (∀ R (c : Call R), P R c → Q R c) → always P p → always Q p.
Proof. intros HPQ. induction p; simpl; naive_solver. Qed.

Lemma always_deferred P {A : Type} (d : prog unit) (p : prog A) :
  always P d → always P p → always P (deferred d p).
Proof.
  intros Hd. induction p; simpl; try naive_solver; intros _;
    apply always_bind; done.
Qed.

(** Every result a program can return satisfies [Q]. *)
Fixpoint returns {A : Type} (Q : A → Prop) (p : prog A) : Prop :=
  match p with
  | Ret a => Q a
  | Panic => True
  | Vis c k => ∀ r, returns Q (k r)
  | Atomic f k => ∀ r, returns Q (k r)
  | Go b k => returns Q k
  | Batch _ _ _ _ k => ∀ c, returns Q (k c)
  end.

Lemma returns_bind {A B : Type} (Q : B → Prop) (p : prog A) (f : A → prog B) :
  (∀ a, returns Q (f a)) → returns Q (prog_bind p f).
Proof. intros Hf. induction p; simpl; auto. Qed.

Lemma always_bind_returns P {A B : Type} (Q : A → Prop) (p : prog A) (f : A → prog B) :
  always P p → returns Q p → (∀ a, Q a → always P (f a)) → always P (prog_bind p f).
Proof. induction p; simpl; naive_solver. Qed.

(** Every critical section of a program, its goroutines apart, relates the
    memory before to the memory after by [Q]. *)
Fixpoint preserves (Q : S → S → Prop) {A : Type} (p : prog A) : Prop :=
  match p with
  | Ret _ => True
  | Panic => True
  | Vis c k => ∀ r, preserves Q (k r)
  | Atomic f k => (∀ s, Q s (f s).2) ∧ ∀ r, preserves Q (k r)
  | Go b k => preserves Q k
  | Batch _ _ _ _ k => ∀ c, preserves Q (k c)
  end.

Lemma preserves_bind Q {A B : Type} (p : prog A) (f : A → prog B) :
  preserves Q p → (∀ a, preserves Q (f a)) → preserves Q (prog_bind p f).
Proof. induction p; simpl; naive_solver. Qed.

Lemma preserves_for_each Q {X} (xs : list X) (body : X → prog unit) :
  (∀ x, preserves Q (body x)) → preserves Q (for_each xs body).
Proof. intros Hb. induction xs; simpl; [done|]. apply preserves_bind; auto. Qed.

Lemma preserves_exec (Q : S → S → Prop) `{!PreOrder Q} {A : Type} (p : prog A) s tr o s' :
  preserves Q p → exec eq p s tr o s' → Q s s'.
Proof.
  revert s tr.
  induction p as [? a|?|? R c k IH|? R h k IH|? b ? k IH|? lim n st t IHt k IH];
    intros s tr; simpl; intros HP Hx.
  - destruct Hx as (_ & _ & ->). reflexivity.
  - destruct Hx as (_ & _ & ->). reflexivity.
  - destruct Hx as (r & tr' & _ & Hx). eauto.
  - destruct HP as [Hh HP], Hx as (s1 & <- & Hx). etrans; [apply Hh|eauto].
  - destruct Hx as (tr' & _ & Hx). eauto.
  - destruct Hx as (tr1 & tr2 & r & _ & _ & Hx). destruct r; [eauto|].
    destruct Hx as (_ & _ & ->). reflexivity.
Qed.

(** A program that issues no batch, so that only its own panics end it. *)
Fixpoint no_batch {A : Type} (p : prog A) : Prop :=
  match p with
  | Ret _ => True
  | Panic => True
  | Vis c k => ∀ r, no_batch (k r)
  | Atomic f k => ∀ r, no_batch (k r)
  | Go b k => no_batch k
  | Batch _ _ _ _ _ => False
  end.

Lemma no_batch_bind {A B : Type} (p : prog A) (f : A → prog B) :
  no_batch p → (∀ a, no_batch (f a)) → no_batch (prog_bind p f).
Proof. induction p; simpl; naive_solver. Qed.

(** An execution under a deferred call is one of the body followed by one of
    the deferred call, whose outcome is the body's. *)
Lemma exec_deferred rely {A : Type} (d : prog unit) (p : prog A) s tr o s' :
  no_batch p → (∀ s tr o s', exec rely d s tr o s' → o = Done tt) →
  exec rely (deferred d p) s tr o s' ↔
  ∃ tr1 s1 tr2, tr = tr1 ++ tr2 ∧ exec rely p s tr1 o s1 ∧ exec rely d s1 tr2 (Done tt) s'.
Proof.
  intros Hnb Hd. revert s tr.
  induction p as [? a|?|? R c k IH|? R h k IH|? b ? k IH|? lim n st t IHt k IH]; intros s tr; simpl in *.
  - rewrite exec_bind. split.
    + intros [(tr1 & [] & s1 & tr2 & -> & H1 & (-> & -> & ->))|[-> H1]];
        [|by specialize (Hd _ _ _ _ H1)].
      exists [], s, tr1. by rewrite app_nil_r.
    + intros (tr1 & s1 & tr2 & -> & (-> & -> & ->) & H2). left.
      exists tr2, tt, s', []. rewrite app_nil_r. done.
  - rewrite exec_bind. split.
    + intros [(tr1 & [] & s1 & tr2 & -> & H1 & (-> & -> & ->))|[-> H1]];
        [|by specialize (Hd _ _ _ _ H1)].
      exists [], s, tr1. by rewrite app_nil_r.
    + intros (tr1 & s1 & tr2 & -> & (-> & -> & ->) & H2). left.
      exists tr2, tt, s', []. rewrite app_nil_r. done.
  - split.
    + intros (r & tr' & -> & (tr1 & s1 & tr2 & -> & H1 & H2)%IH); [|done].
      exists (Ev c r :: tr1), s1, tr2. split; [done|]. split; [|done]. by exists r, tr1.
    + intros (tr1 & s1 & tr2 & -> & (r & tr' & -> & H1) & H2). exists r, (tr' ++ tr2).
      split; [done|]. apply IH; [done|]. by exists tr', s1, tr2.
  - split.
    + intros (s0 & Hr & (tr1 & s1 & tr2 & -> & H1 & H2)%IH); [|done].
      exists tr1, s1, tr2. split; [done|]. split; [|done]. by exists s0.
    + intros (tr1 & s1 & tr2 & -> & (s0 & Hr & H1) & H2). exists s0. split; [done|].
      apply IH; [done|]. by exists tr1, s1, tr2.
  - split.
    + intros (tr' & -> & (tr1 & s1 & tr2 & -> & H1 & H2)%IH); [|done].
      exists (EvGo b :: tr1), s1, tr2. split; [done|]. split; [|done]. by exists tr1.
    + intros (tr1 & s1 & tr2 & -> & (tr' & -> & H1) & H2). exists (tr' ++ tr2). split; [done|].
      apply IH; [done|]. by exists tr', s1, tr2.
  - done.
Qed.

(** [always] speaks about every event of every execution. *)
Lemma always_exec P rely {A : Type} (p : prog A) s tr o s' :
  always P p → exec rely p s tr o s' → Forall (event_sat P) tr.
Proof.
  revert s tr o s'.
  induction p as [? a|?|? R c k IH|? R h k IH|? b ? k IH|? lim n st t IHt k IH];
    intros s tr o s'; simpl; intros HP Hx.
  - by destruct Hx as [-> _].
  - by destruct Hx as [-> _].
  - destruct HP as [Hc HP], Hx as (r & tr' & -> & Hx). constructor; [done|]. eauto.
  - destruct Hx as (s1 & _ & Hx). eauto.
  - destruct HP as [Hb HP], Hx as (tr' & -> & Hx). constructor; [done|]. eauto.
  - destruct HP as [Ht HP], Hx as (tr1 & tr2 & r & -> & Hb & Hx). apply Forall_app. split.
    + eapply batch_run_events; [|exact Hb]. intros i tr' o' (s1 & s2 & Hw). by eapply IHt.
    + destruct r; [eauto|by destruct Hx as [-> _]].
Qed.
End Programs.

Arguments prog : clear implicits.
Arguments event : clear implicits.
Arguments Ret {S A} a.
Arguments Panic {S A}.
Arguments Vis {S A R} c k.
Arguments Atomic {S A R} f k.
Arguments Go {S A} b k.
Arguments Batch {S A} limit n stop task k.
Arguments Ev {S R} c r.
Arguments EvGo {S} b.
Arguments Done {A} a.
Arguments Panicked {A}.
Arguments exec {S} rely {A} p s tr o s' : simpl nomatch.

(** [metrics.V.WithLabelValues(ls...).<action>] *)
Definition metric {S} (v : MetricVec) (ls : list string) (a : MetricAction) : prog S unit :=
  call (Metric v ls a).

(** Reading the clock. *)
Definition now_of {S} (e : event S) : option Time :=
  match e with
  | Ev c r => match c in Call R return R → option Time with
              | Now => Some | _ => λ _, None end r
  | EvGo _ => None
  end.

Lemma Ev_Now_cons {S} t t' (tr tr' : list (event S)) :
  Ev Now t :: tr = Ev Now t' :: tr' → t = t' ∧ tr = tr'.
Proof.
  intros Heq. split; [|by apply (f_equal tail) in Heq].
  apply (f_equal (λ l, head l ≫= now_of)) in Heq. by injection Heq.
Qed.

(** An environment to build concrete runs from: every remote call fails, the
    clock stands still, no context is ever cancelled. *)
Definition err_offline : error := errors_New "connection refused".

Definition offline {R : Type} (c : Call R) : R :=
  match c in Call R0 return R0 with
  | K8sGetAutoscaleSet _ | K8sUpdateAutoscaleSet _ | K8sStatusUpdateAutoscaleSet _ => Err err_offline
  | K8sGetRunnerSet _ | K8sUpdateRunnerSet _ | K8sStatusUpdateRunnerSet _ => Err err_offline
  | K8sGetSecret _ => Err err_offline
  | K8sListPods _ _ => Err err_offline
  | K8sListAutoscaleSets => Err err_offline
  | K8sListRunnerSets => Err err_offline
  | K8sCreatePod _ | K8sUpdatePod _ | K8sDeletePod _ _ => Some err_offline
  | Eventf _ _ _ _ _ => tt
  | NewClientWithGitHubApp _ _ _ | NewClientWithPAT _ _ _ => Ok 0
  | SetSystemInfo _ _ => tt
  | GetRunnerGroupByName _ _ => (None, Some err_offline)
  | CreateRunnerScaleSet _ _ | GetRunnerScaleSetByID _ _ | UpdateRunnerScaleSet _ _ _ =>
    (None, Some err_offline)
  | DeleteRunnerScaleSet _ _ => Some err_offline
  | MessageSessionClient _ _ _ => Err err_offline
  | GetRunnerByName _ _ => (None, Some err_offline)
  | RemoveRunner _ _ => Some err_offline
  | GenerateJitRunnerConfig _ _ _ => (None, Some err_offline)
  | Now => 0%Z
  | NewUUID => "00000000-0000-0000-0000-000000000000"
  | Hostname => Ok "localhost"
  | RateLimitWait => None
  | RateLimitAllow => true
  | SelectDoneOrAfter _ => None
  | SelectDoneOrTick _ => true
  | CtxDone => false
  | WaitDone => tt
  | Metric _ _ _ => tt
  end.

(** Destruct an execution of a program whose head is known. *)
Ltac exec_norm H :=
  cbn [exec prog_bind call atomic spawn metric batch mbind mret prog_mbind prog_mret] in H.

Ltac exec_step H :=
  unfold exec_seq in H; exec_norm H;
  lazymatch type of H with
  | ∃ _ _, _ = _ :: _ ∧ _ => destruct H as (? & ? & -> & H)
  | ∃ _, _ = _ :: _ ∧ _ => destruct H as (? & -> & H)
  | ∃ _, eq _ _ ∧ _ => destruct H as (? & <- & H)
  | ∃ _, _ ∧ _ => destruct H as (? & ? & H)
  | _ ∧ ?o = _ ∧ _ =>
    let Ho := fresh "Ho" in
    destruct H as (-> & Ho & ->);
    first [is_var o; subst o | discriminate Ho | injection Ho as ?; subst | clear Ho]
  end; try exec_norm H.

(** Case analysis on the value the next instruction of a program depends on. *)
Ltac exec_head H :=
  let rec go p :=
    lazymatch p with
    | prog_bind ?q _ => go q
    | @mbind _ _ _ _ _ ?q => go q
    | match ?x with _ => _ end => let Hx := fresh "Hx" in destruct x eqn:Hx; try discriminate Hx
    end in
  lazymatch type of H with
  | @exec _ _ _ ?p _ _ _ _ => go p
  end; exec_norm H.

(** Follow a loop-free program to its end along every branch. *)
Ltac exec_run H :=
  unfold exec_seq in H; exec_norm H; repeat first [exec_step H | exec_head H].

#[export] Hint Resolve always_exec : rssc.

(** One structural step of a proof that every call of a program satisfies a
    predicate; the calls are left to [tac], the named operations to the hint
    database [always]. *)
Create HintDb always.

Ltac always_step tac :=
  match goal with
  | |- always _ (Ret _) => exact I
  | |- always _ Panic => exact I
  | |- always _ (call _) => split; [tac|intros ?; exact I]
  | |- always _ (metric _ _ _) => unfold metric
  | |- always _ (atomic _) => intros ?; exact I
  | |- always _ (for_each _ _) => apply always_for_each; intros ?
  | |- always ?P (@mbind _ _ _ _ ?f ?p) => refine (always_bind P p f _ _); [|intros ?]
  | |- always ?P (prog_bind ?p ?f) => refine (always_bind P p f _ _); [|intros ?]
  | |- always _ (match ?x with _ => _ end) => destruct x
  | |- always _ _ => solve [eauto with always]
  end.

Ltac always_tac tac := repeat always_step tac.

Ltac no_batch_step :=
  match goal with
  | |- no_batch (Ret _) => exact I
  | |- no_batch Panic => exact I
  | |- no_batch (call _) => intros ?; exact I
  | |- no_batch (metric _ _ _) => intros ?; exact I
  | |- no_batch (atomic _) => intros ?; exact I
  | |- no_batch (@mbind _ _ _ _ ?f ?p) => refine (no_batch_bind p f _ _); [|intros ?]
  | |- no_batch (prog_bind ?p ?f) => refine (no_batch_bind p f _ _); [|intros ?]
  | |- no_batch (match ?x with _ => _ end) => destruct x
  | |- no_batch _ => solve [eauto with always]
  end.

Ltac no_batch_tac := repeat no_batch_step.

Ltac preserves_step tac :=
  match goal with
  | |- preserves _ (Ret _) => exact I
  | |- preserves _ Panic => exact I
  | |- preserves _ (call _) => intros ?; exact I
  | |- preserves _ (metric _ _ _) => intros ?; exact I
  | |- preserves _ (atomic _) => split; [intros ?; tac|intros ?; exact I]
  | |- preserves _ (for_each _ _) => apply preserves_for_each; intros ?
  | |- preserves ?Q (@mbind _ _ _ _ ?f ?p) => refine (preserves_bind Q p f _ _); [|intros ?]
  | |- preserves ?Q (prog_bind ?p ?f) => refine (preserves_bind Q p f _ _); [|intros ?]
  | |- preserves _ (match ?x with _ => _ end) => destruct x
  end.

Ltac preserves_tac tac := repeat preserves_step tac.
