(* ===== verification/Batch.v ===== *)
(** * What every batch guarantees

    Invariants of the batch machine of [Effects]: the workers that were started
    are the first ones, each runs its task once, the events of the batch are an
    interleaving of theirs, the counters count their outcomes, and no more than
    [limit] of them are live at once. *)

From S2P Require Export Effects.

#[export] Instance outcome_bool_eq_dec : EqDecision (outcome bool).
Proof. solve_decision. Defined.

Section Batch.
Context {S : Type}.
Context (limit : positive) (n : nat) (stop : Z → Z → bool).
Context (worker : nat → list (event S) → outcome bool → Prop).

Implicit Types (b : batch_state (S := S)) (ws : list (list (event S) * outcome bool)).

(** The number of workers of [os] that ended with [o]. *)
Definition ended (o : outcome bool) (os : list (outcome bool)) : nat :=
  length (filter (λ o', o' = o) os).

Lemma ended_app o os os' : ended o (os ++ os') = ended o os + ended o os'.
Proof. unfold ended. by rewrite filter_app, length_app. Qed.

Lemma ended_one o o' : ended o [o'] = if decide (o' = o) then 1 else 0.
Proof. unfold ended. rewrite filter_cons. by case_decide. Qed.

(** [ws] are the workers started so far, [fin] the outcomes of those that
    ended. *)
Record batch_inv (b : batch_state) (tr : list (event S))
    (ws : list (list (event S) * outcome bool)) (fin : list (outcome bool)) : Prop := {
  inv_started : length ws = b_next b;
  inv_bound : b_next b ≤ n;
  inv_room : b_pc b = AtGo ∨ (∃ e, b_pc b = LoadedErrs e) → b_next b < n;
  inv_workers : ∀ i w, ws !! i = Some w → worker i w.1 w.2;
  inv_events : tr ++ concat ((b_live b).*1) ≡ₚ concat (ws.*1);
  inv_outcomes : fin ++ (b_live b).*2 ≡ₚ ws.*2;
  inv_fin : Forall (λ o, o ≠ Panicked) fin;
  inv_ok : b_ok b = wrap32 (Z.of_nat (ended (Done true) fin));
  inv_err : b_err b = wrap32 (Z.of_nat (ended (Done false) fin));
  inv_live : length (b_live b) ≤ Pos.to_nat limit;
  inv_loaded : ∀ e, b_pc b = LoadedErrs e →
    ∃ k, k ≤ ended (Done false) fin ∧ e = wrap32 (Z.of_nat k);
  inv_stopped : b_pc b = Waiting → b_next b = n ∨
    ∃ k1 k2, k1 ≤ ended (Done false) fin ∧ k2 ≤ ended (Done true) fin ∧
             stop (wrap32 (Z.of_nat k1)) (wrap32 (Z.of_nat k2)) = true
}.

Lemma batch_inv_init : batch_inv batch_init [] [] [].
Proof. split; simpl; try done; try lia; naive_solver. Qed.

Lemma wrap32_succ k : wrap32 (wrap32 (Z.of_nat k) + 1) = wrap32 (Z.of_nat (k + 1)).
Proof. rewrite wrap32_add_l. f_equal. lia. Qed.

(** A worker that ends moves from the live ones to [fin]. *)
Lemma batch_inv_end i pc c e l1 l2 r tr ws fin :
  batch_inv (mkBatch i pc c e (l1 ++ ([], Done r) :: l2)) tr ws fin →
  batch_inv (mkBatch i pc (if r then wrap32 (c + 1) else c) (if r then e else wrap32 (e + 1))
               (l1 ++ l2)) tr ws (fin ++ [Done r]).
Proof.
  intros [H1 H2 H3 H4 H5 H6 H7 H8 H9 H10 H11 H12]; simpl in *.
  assert (Hok : ended (Done true) (fin ++ [Done r]) = ended (Done true) fin + if r then 1 else 0)
    by (rewrite ended_app, ended_one; by destruct r).
  assert (Herr : ended (Done false) (fin ++ [Done r]) = ended (Done false) fin + if r then 0 else 1)
    by (rewrite ended_app, ended_one; by destruct r).
  split; simpl; try done.
  - rewrite fmap_app in *. simpl in *. by rewrite concat_app in *.
  - rewrite <- H6. rewrite !fmap_app. simpl. rewrite <- app_assoc. simpl.
    by rewrite !Permutation_middle.
  - apply Forall_app. by repeat constructor.
  - rewrite Hok. destruct r; [by rewrite H8, wrap32_succ|by rewrite Nat.add_0_r].
  - rewrite Herr. destruct r; [by rewrite Nat.add_0_r|by rewrite H9, wrap32_succ].
  - rewrite length_app in *. simpl in *. lia.
  - intros e0 Hpc. destruct (H11 e0 Hpc) as (k & Hk & ->). exists k. split; [lia|done].
  - intros Hpc. destruct (H12 Hpc) as [?|(k1 & k2 & ? & ? & Hst)]; [by left|].
    right. exists k1, k2. split; [lia|]. split; [lia|done].
Qed.

Lemma batch_inv_step b tr b' tr' ws fin :
  batch_step limit n stop worker b tr' b' → batch_inv b tr ws fin →
  ∃ ws' fin', batch_inv b' (tr ++ tr') ws' fin'.
Proof.
  intros Hstep Hi. destruct Hstep as [i c e live Hin|i e0 c e live|i c e live tr0 o Hl Hw
    |i c e live Hin|i pc c e l1 l2 ev tr0 o|i pc c e l1 l2|i pc c e l1 l2].
  - exists ws, fin. rewrite app_nil_r.
    destruct Hi as [H1 H2 H3 H4 H5 H6 H7 H8 H9 H10 H11 H12]; split; simpl in *; try done.
    intros e0 [= <-]. by exists (ended (Done false) fin).
  - exists ws, fin. rewrite app_nil_r.
    destruct Hi as [H1 H2 H3 H4 H5 H6 H7 H8 H9 H10 H11 H12]; split; simpl in *; try done.
    + intros _. apply H3. right. by exists e0.
    + by destruct (stop e0 c).
    + intros Hpc. right. destruct (H11 e0 eq_refl) as (k & Hk & ->).
      exists k, (ended (Done true) fin). split; [done|]. split; [done|].
      rewrite <- H8. by destruct (stop _ c).
  - exists (ws ++ [(tr0, o)]), fin. rewrite app_nil_r.
    destruct Hi as [H1 H2 H3 H4 H5 H6 H7 H8 H9 H10 H11 H12]; split; simpl in *; try done.
    + rewrite length_app. simpl. lia.
    + specialize (H3 (or_introl eq_refl)). lia.
    + intros [|[? ?]]; done.
    + intros j w [Hj|[Hj Hlast]]%lookup_app_Some; [by apply H4|].
      apply list_lookup_singleton_Some in Hlast as [Hz <-].
      assert (j = i) as -> by lia. done.
    + rewrite !fmap_app, !concat_app. simpl. rewrite !app_nil_r, app_assoc. by rewrite H5.
    + rewrite !fmap_app. simpl. rewrite app_assoc. by rewrite H6.
    + rewrite length_app. simpl. lia.
  - exists ws, fin. rewrite app_nil_r.
    destruct Hi as [H1 H2 H3 H4 H5 H6 H7 H8 H9 H10 H11 H12]; split; simpl in *; try done.
    + intros [|[? ?]]; done.
    + intros _. left. lia.
  - exists ws, fin.
    destruct Hi as [H1 H2 H3 H4 H5 H6 H7 H8 H9 H10 H11 H12]; split; simpl in *; try done.
    + rewrite <- H5. rewrite !fmap_app. simpl. rewrite !concat_app. simpl.
      rewrite <- app_assoc. simpl. apply Permutation_app_head.
      by rewrite Permutation_middle.
    + rewrite !fmap_app in *. done.
    + rewrite length_app in *. done.
  - exists ws, (fin ++ [Done true]). rewrite app_nil_r. by apply (batch_inv_end _ _ _ _ _ _ true).
  - exists ws, (fin ++ [Done false]). rewrite app_nil_r. by apply (batch_inv_end _ _ _ _ _ _ false).
Qed.

Lemma batch_inv_steps b tr b' tr' ws fin :
  batch_steps limit n stop worker b tr' b' → batch_inv b tr ws fin →
  ∃ ws' fin', batch_inv b' (tr ++ tr') ws' fin'.
Proof.
  intros Hs. revert tr ws fin. induction Hs as [b|b1 tr1 b2 tr2 b3 H1 H2 IH]; intros tr ws fin Hi.
  - exists ws, fin. by rewrite app_nil_r.
  - destruct (batch_inv_step _ _ _ _ _ _ H1 Hi) as (ws' & fin' & Hi').
    rewrite app_assoc. by eapply IH.
Qed.

(** Every reachable state of a batch. *)
Lemma batch_reachable tr b :
  batch_steps limit n stop worker batch_init tr b → ∃ ws fin, batch_inv b tr ws fin.
Proof. intros Hs. exact (batch_inv_steps _ _ _ _ _ _ Hs batch_inv_init). Qed.

(** A batch that returns: [ws] are the workers it ran. *)
Lemma batch_returns tr c :
  batch_run limit n stop worker tr (Some c) →
  ∃ ws, length ws ≤ n ∧ (∀ i w, ws !! i = Some w → worker i w.1 w.2) ∧
    tr ≡ₚ concat (ws.*1) ∧ Forall (λ o, o ≠ Panicked) ws.*2 ∧
    c = wrap32 (Z.of_nat (ended (Done true) ws.*2)) ∧
    (length ws < n → ∃ k1 k2, k1 ≤ ended (Done false) ws.*2 ∧ k2 ≤ ended (Done true) ws.*2 ∧
       stop (wrap32 (Z.of_nat k1)) (wrap32 (Z.of_nat k2)) = true).
Proof.
  intros Hr. inversion Hr as [i c' e Hs Hc|]; subst.
  destruct (batch_reachable _ _ Hs) as (ws & fin & [H1 H2 H3 H4 H5 H6 H7 H8 H9 H10 H11 H12]).
  simpl in *. rewrite app_nil_r in H5, H6.
  assert (Hend : ∀ o, ended o ws.*2 = ended o fin)
    by (intros o; unfold ended; by rewrite <- H6).
  exists ws. split; [lia|]. split; [done|]. split; [done|]. split; [by rewrite <- H6|].
  rewrite !Hend. split; [done|]. intros Hlt.
  destruct (H12 eq_refl) as [?|Hst]; [lia|done].
Qed.

(** The events of any batch, returning or not, are among those of at most
    [n] workers. *)
Lemma batch_events tr r :
  batch_run limit n stop worker tr r →
  ∃ ws rest, length ws ≤ n ∧ (∀ i w, ws !! i = Some w → worker i w.1 w.2) ∧
    tr ++ rest ≡ₚ concat (ws.*1).
Proof.
  intros [i c e Hs|b l1 l2 Hs _]; destruct (batch_reachable _ _ Hs) as (ws & fin & Hi);
    exists ws; eexists; (split; [rewrite (inv_started _ _ _ _ Hi); apply (inv_bound _ _ _ _ Hi)|]);
    (split; [apply (inv_workers _ _ _ _ Hi)|]); apply (inv_events _ _ _ _ Hi).
Qed.

(** A batch whose workers cannot panic does not take the process down. *)
Lemma batch_no_crash tr :
  (∀ i tr o, i < n → worker i tr o → o ≠ Panicked) → ¬ batch_run limit n stop worker tr None.
Proof.
  intros Hw Hr. inversion Hr as [|b l1 l2 Hs Hb]; subst.
  destruct (batch_reachable _ _ Hs) as (ws & fin & Hi).
  assert (Hin : Panicked ∈ ws.*2).
  { rewrite <- (inv_outcomes _ _ _ _ Hi), Hb. rewrite fmap_app. simpl. set_solver. }
  apply list_elem_of_fmap in Hin as (w & Ho & Hin).
  apply list_elem_of_lookup in Hin as [i Hi'].
  refine (Hw i _ _ _ (inv_workers _ _ _ _ Hi _ _ Hi') _); [|done].
  apply lookup_lt_Some in Hi'. pose proof (inv_started _ _ _ _ Hi).
  pose proof (inv_bound _ _ _ _ Hi). lia.
Qed.

(** *** Gathering an observation of the events *)

(** Every worker contributes [g i]: the batch observes those of the workers it
    started, in some order. *)
Lemma workers_gather {X} (f : event S → option X) (g : nat → list X) ws off :
  (∀ i w, ws !! i = Some w → omap f w.1 = g (off + i)) →
  omap f (concat ws.*1) = concat (g <$> seq off (length ws)).
Proof.
  revert off. induction ws as [|w ws IH]; intros off Hg; [done|].
  rewrite fmap_cons. cbn [concat length seq fmap list_fmap]. rewrite omap_app.
  rewrite (Hg 0 w eq_refl), Nat.add_0_r. f_equal. apply IH. intros i w' Hi.
  rewrite (Hg (Datatypes.S i) w' Hi). f_equal. lia.
Qed.

Lemma batch_gather {X} (f : event S → option X) (g : nat → list X) tr c :
  (∀ i tr o, worker i tr o → omap f tr = g i) →
  batch_run limit n stop worker tr (Some c) →
  ∃ j, j ≤ n ∧ omap f tr ≡ₚ concat (g <$> seq 0 j).
Proof.
  intros Hw Hr. destruct (batch_returns _ _ Hr) as (ws & Hlen & Hws & Hp & _).
  exists (length ws). split; [done|]. rewrite (omap_Permutation f _ _ Hp).
  rewrite (workers_gather f g ws 0); [done|]. intros i w Hi. by eapply Hw, Hws.
Qed.

(** Every worker contributes at most [m] observations. *)
Lemma batch_at_most {X} (f : event S → option X) m tr r :
  (∀ i tr o, worker i tr o → length (omap f tr) ≤ m) →
  batch_run limit n stop worker tr r → length (omap f tr) ≤ n * m.
Proof.
  intros Hw Hr. destruct (batch_events _ _ Hr) as (ws & rest & Hlen & Hws & Hp).
  apply (omap_Permutation f) in Hp. rewrite omap_app in Hp.
  apply Permutation_length in Hp. rewrite length_app in Hp.
  assert (Hc : length (omap f (concat ws.*1)) ≤ length ws * m).
  { clear Hp Hlen. revert Hws. generalize worker Hw. clear.
    induction ws as [|w ws IH]; intros worker Hw Hws; [done|].
    rewrite fmap_cons. cbn [concat length]. rewrite omap_app, length_app.
    pose proof (Hw 0 _ _ (Hws 0 w eq_refl)).
    specialize (IH (λ i, worker (Datatypes.S i)) (λ i, Hw (Datatypes.S i))
                   (λ i w' Hi, Hws (Datatypes.S i) w' Hi)). lia. }
  nia.
Qed.

(** A worker is observed once when it counts as a success and never
    otherwise: the batch returns the number of observations. *)
Lemma batch_exact {X} (f : event S → option X) tr c :
  (∀ i tr o, worker i tr o → length (omap f tr) = if decide (o = Done true) then 1 else 0) →
  batch_run limit n stop worker tr (Some c) →
  c = wrap32 (Z.of_nat (length (omap f tr))) ∧ length (omap f tr) ≤ n.
Proof.
  intros Hw Hr. destruct (batch_returns _ _ Hr) as (ws & Hlen & Hws & Hp & _ & -> & _).
  assert (Hc : length (omap f tr) = ended (Done true) ws.*2).
  { rewrite (omap_Permutation f _ _ Hp). clear Hp Hlen Hr. revert Hws. generalize worker Hw. clear.
    induction ws as [|w ws IH]; intros worker Hw Hws; [done|].
    rewrite !fmap_cons. cbn [concat]. rewrite omap_app, length_app.
    rewrite (Hw 0 _ _ (Hws 0 w eq_refl)).
    change (w.2 :: ws.*2) with ([w.2] ++ ws.*2). rewrite ended_app, ended_one. f_equal.
    apply (IH (λ i, worker (Datatypes.S i)) (λ i, Hw (Datatypes.S i))
              (λ i w' Hi, Hws (Datatypes.S i) w' Hi)). }
  rewrite Hc. split; [done|]. transitivity (length ws.*2); [apply length_filter|].
  by rewrite length_fmap.
Qed.
(** *** Batches in which nothing goes wrong *)

(** What a live worker has done so far is in the trace. *)
Definition live_inv b (tr : list (event S)) : Prop :=
  b_next b ≤ n ∧ (b_pc b = AtGo ∨ (∃ e, b_pc b = LoadedErrs e) → b_next b < n) ∧
  Forall (λ w, ∃ i done, i < n ∧ worker i (done ++ w.1) w.2 ∧ done ⊆ tr) (b_live b).

Lemma live_inv_step b tr b' tr' :
  batch_step limit n stop worker b tr' b' → live_inv b tr → live_inv b' (tr ++ tr').
Proof.
  intros Hstep (Hn & Hgo & Hlive).
  assert (Hmore : ∀ (l : list (list (event S) * outcome bool)),
    Forall (λ w, ∃ i done, i < n ∧ worker i (done ++ w.1) w.2 ∧ done ⊆ tr) l →
    Forall (λ w, ∃ i done, i < n ∧ worker i (done ++ w.1) w.2 ∧ done ⊆ tr ++ tr') l).
  { intros l Hl. eapply Forall_impl; [exact Hl|]. intros w (i & done & Hi & Hw & Hd).
    exists i, done. split; [done|]. split; [done|]. set_solver. }
  destruct Hstep as [i c e live Hin|i e0 c e live|i c e live tr0 o Hl Hw
    |i c e live Hin|i pc c e l1 l2 ev tr0 o|i pc c e l1 l2|i pc c e l1 l2];
    unfold live_inv; cbn [b_next b_pc b_live] in *.
  - split; [done|]. split; [done|]. by apply Hmore.
  - split; [done|]. split; [|by apply Hmore]. intros _. apply Hgo. right. by exists e0.
  - specialize (Hgo (or_introl eq_refl)). split; [lia|]. split; [intros [|[? ?]]; done|].
    apply Forall_app. split; [by apply Hmore|]. apply Forall_singleton. exists i, [].
    split; [lia|]. split; [done|]. set_solver.
  - split; [done|]. split; [intros [|[? ?]]; done|]. by apply Hmore.
  - split; [done|]. split; [done|]. apply Forall_app in Hlive as [H1 [Hw H2]%Forall_cons].
    apply Forall_app. split; [by apply Hmore|]. apply Forall_cons. split; [|by apply Hmore].
    destruct Hw as (j & done & Hj & Hw & Hd). exists j, (done ++ [ev]).
    rewrite <- app_assoc. split; [done|]. split; [done|]. set_solver.
  - split; [done|]. split; [done|]. apply Forall_app in Hlive as [H1 [_ H2]%Forall_cons].
    apply Forall_app. by split; apply Hmore.
  - split; [done|]. split; [done|]. apply Forall_app in Hlive as [H1 [_ H2]%Forall_cons].
    apply Forall_app. by split; apply Hmore.
Qed.

Lemma live_inv_steps b tr b' tr' :
  batch_steps limit n stop worker b tr' b' → live_inv b tr → live_inv b' (tr ++ tr').
Proof.
  intros Hs. revert tr. induction Hs as [b|b1 tr1 b2 tr2 b3 H1 H2 IH]; intros tr Hi.
  - by rewrite app_nil_r.
  - rewrite app_assoc. by eapply IH, live_inv_step.
Qed.

(** The worker whose panic takes the process down has all its events in the
    trace. *)
Lemma batch_crash tr :
  batch_run limit n stop worker tr None → ∃ i w, i < n ∧ worker i w Panicked ∧ w ⊆ tr.
Proof.
  intros Hr. inversion Hr as [|b l1 l2 Hs Hb]; subst.
  assert (Hi : live_inv batch_init []).
  { split; simpl; [lia|]. split; [intros [|[? ?]]; done|constructor]. }
  apply (live_inv_steps _ _ _ _ Hs) in Hi as (_ & _ & Hlive). rewrite Hb in Hlive.
  apply Forall_app in Hlive as [_ [(i & done & Hin & Hw & Hd) _]%Forall_cons].
  exists i, done. cbn [fst snd] in Hw. by rewrite app_nil_r in Hw.
Qed.

(** When the workers whose events are all good succeed, and the loop does not
    stop before the first one, a batch with good events returns and counts at
    least one success. *)
Lemma batch_progress (good : event S → Prop) tr r :
  (∀ i tr o, i < n → worker i tr o → Forall good tr → o = Done true) →
  stop 0%Z 0%Z = false → 0 < n → (Z.of_nat n < 2 ^ 31)%Z →
  batch_run limit n stop worker tr r → Forall good tr → ∃ c, r = Some c ∧ (1 ≤ c)%Z.
Proof.
  intros Hgood Hstop Hn Hbig Hr Htr. destruct r as [c|].
  2: { exfalso. apply batch_crash in Hr as (i & w & Hi & Hw & Hsub).
       assert (Hg : Forall good w)
         by (apply Forall_forall; intros ev Hev; rewrite Forall_forall in Htr; by apply Htr, Hsub).
       by specialize (Hgood _ _ _ Hi Hw Hg). }
  exists c. split; [done|]. apply batch_returns in Hr as (ws & Hlen & Hws & Hp & _ & -> & Hst).
  assert (Hall : Forall (λ o, o = Done true) ws.*2).
  { apply Forall_fmap, Forall_lookup. intros i w Hw. apply (Hgood i w.1); [|by apply Hws|].
    { apply lookup_lt_Some in Hw. lia. }
    rewrite Hp in Htr. apply list_elem_of_lookup_2 in Hw.
    rewrite Forall_forall in Htr |- *. intros ev Hev. apply Htr.
    apply list_elem_of_In, in_concat. exists w.1.
    split; apply list_elem_of_In; [by apply list_elem_of_fmap_2|done]. }
  assert (Hcount : ended (Done true) ws.*2 = length ws ∧ ended (Done false) ws.*2 = 0).
  { clear -Hall. induction ws as [|w ws IH]; [done|]. rewrite fmap_cons in *.
    apply Forall_cons in Hall as [Hw Hall]. destruct (IH Hall) as [H1 H2].
    change (w.2 :: ws.*2) with ([w.2] ++ ws.*2).
    rewrite !ended_app, !ended_one, Hw, H1, H2. by split. }
  destruct Hcount as [Htrue Hfalse].
  rewrite Htrue, Hfalse in *. rewrite wrap32_small by lia.
  destruct (decide (length ws = 0)) as [Hz|]; [|lia].
  destruct Hst as (k1 & k2 & H1 & H2 & Hs); [lia|].
  assert (k1 = 0) as -> by lia. assert (k2 = 0) as -> by lia. 
  change (stop 0%Z 0%Z = true) in Hs. congruence.
Qed.
End Batch.
