(* ===== verification/Retry.v ===== *)
(** * internal/client/retry.go: retry with exponential backoff *)

From S2P Require Export Effects.
From Stdlib Require Export SpecFloat.

(** ** Which errors are retried *)

(** The part of [isRetryableError] that looks for ["status=NNN"] in the text. *)
Definition status_code (s : string) : option Z :=
  let idx := Index s "status=" in
  if (0 <=? idx)%Z then
    let rest := str_drop (Z.to_nat (idx + Z.of_nat (String.length "status="))) s in
    let rest := TrimPrefix rest dquote in
    let e := IndexAny rest (dquote +:+ " )") in
    let rest := if (0 <? e)%Z then str_take (Z.to_nat e) rest else rest in
    Atoi rest
  else None.

Definition isRetryableError (err : option error) : bool :=
  match err with
  | None => false
  | Some e =>
    match err_net e with
    | Some timeout => timeout
    | None =>
      match status_code (err_text e) with
      | Some code => (500 <=? code)%Z || (code =? 429)%Z || (code =? 408)%Z
      | None => false
      end
    end
  end.

Arguments status_code : simpl never.
Arguments isRetryableError : simpl never.

(** ** Backoff durations: [time.Duration(float64(backoff) * multiplier)] *)

Definition float64 : Type := spec_float.
Definition float64_of_Z (z : Z) : float64 := binary_normalize 53 1024 z 0 false.
Definition float64_mul : float64 → float64 → float64 := SFmul 53 1024.

(** Conversion to [int64] truncates toward zero; NaN, infinities and values out
    of range give the amd64 "integer indefinite" value. *)
Definition int64_of_float (f : float64) : Z :=
  match f with
  | S754_zero _ => 0%Z
  | S754_finite sg m e =>
    let a := if (0 <=? e)%Z then (Z.pos m * 2 ^ e)%Z else (Z.pos m / 2 ^ (- e))%Z in
    let v := if sg then (- a)%Z else a in
    if in_int64 v then v else min_int64
  | _ => min_int64
  end.

Record RetryConfig : Type := mkRetryConfig {
  MaxRetries : Z;
  InitialBackoff : Duration;
  MaxBackoff : Duration;
  BackoffMultiplier : float64
}.

Definition DefaultRetryConfig : RetryConfig :=
  mkRetryConfig 5 (1 * Second)%Z (30 * Second)%Z (float64_of_Z 2).

Definition next_backoff (config : RetryConfig) (backoff : Duration) : Duration :=
  let b := int64_of_float (float64_mul (float64_of_Z backoff) (BackoffMultiplier config)) in
  if (MaxBackoff config <? b)%Z then MaxBackoff config else b.

(** ** The loop *)

Definition exhausted (config : RetryConfig) (lastErr : option error) : error :=
  let prefix := "max retries (" +:+ Itoa (MaxRetries config) +:+ ") exceeded: " in
  match lastErr with
  | Some e => Errorf prefix e
  | None => errors_New (prefix +:+ "%!w(<nil>)")
  end.

Section Retry.
Context {S : Type}.

(** One turn is [attempt], [n] counts the turns the condition
    [attempt <= MaxRetries] still allows.  A closure that assigns to variables
    of its caller returns their new value beside its error; the loop returns
    what the last call left in them, [None] before the first. *)
Fixpoint retry_loop {V : Type} (config : RetryConfig) (fn : prog S (V * option error))
    (n : nat) (attempt : Z) (backoff : Duration) (captured : option V) (lastErr : option error)
  : prog S (option V * option error) :=
  match n with
  | O => Ret (captured, Some (exhausted config lastErr))
  | Datatypes.S n' =>
    waited ← (if (0 <? attempt)%Z then
                done ← call (SelectDoneOrAfter backoff);
                match done with
                | Some ctxErr => Ret (Err ctxErr)
                | None => Ret (Ok (next_backoff config backoff))
                end
              else Ret (Ok backoff));
    match waited with
    | Err ctxErr => Ret (captured, Some ctxErr)
    | Ok backoff =>
      '(v, err) ← fn;
      match err with
      | None => Ret (Some v, None)
      | Some e =>
        if negb (isRetryableError (Some e)) then Ret (Some v, Some e)
        else retry_loop config fn n' (attempt + 1) backoff (Some v) (Some e)
      end
    end
  end.

Definition RetryWithBackoff {V : Type} (config : RetryConfig) (fn : prog S (V * option error))
  : prog S (option V * option error) :=
  retry_loop config fn (Z.to_nat (MaxRetries config + 1)) 0 (InitialBackoff config) None None.

(** The closures the controller retries issue one call, keep its response and
    report its error. *)
Definition closure {R} (c : Call R) (err_of : R → option error) : prog S (R * option error) :=
  r ← call c; Ret (r, err_of r).

(** ** Specification

    The [i]-th wait (from 0) lasts [backoff_at config i]. *)
Fixpoint backoff_at (config : RetryConfig) (i : nat) : Duration :=
  match i with
  | O => InitialBackoff config
  | Datatypes.S i' => next_backoff config (backoff_at config i')
  end.

(** The events of the attempts [i, i+1, ...] answered by [rs]: every attempt
    but the very first is preceded by its wait. *)
Fixpoint attempt_events {R} (config : RetryConfig) (c : Call R) (i : nat) (rs : list R)
  : list (event S) :=
  match rs with
  | [] => []
  | r :: rs' =>
    match i with
    | O => []
    | Datatypes.S j => [Ev (SelectDoneOrAfter (backoff_at config j)) None]
    end ++ Ev c r :: attempt_events config c (Datatypes.S i) rs'
  end.

Definition retryable {R} (err_of : R → option error) (r : R) : Prop :=
  isRetryableError (err_of r) = true.

(** The response of the last of some attempts, the first of which came after
    one answered by [last]. *)
Definition latest {R} (last : option R) (rs : list R) : option R :=
  match list.last rs with Some r => Some r | None => last end.

(** What a retried call may do, from attempt [i] on with [n] attempts left
    and [last] the response of the attempt before: the calls, the response
    that stays, and the resulting error. *)
Inductive retry_spec {R} (config : RetryConfig) (c : Call R) (err_of : R → option error)
    (n i : nat) (last : option R) : list (event S) → option R → option error → Prop :=
| retry_success rs r :
    Forall (retryable err_of) rs → length rs < n → err_of r = None →
    retry_spec config c err_of n i last (attempt_events config c i (rs ++ [r])) (Some r) None
| retry_fatal rs r e :
    Forall (retryable err_of) rs → length rs < n → err_of r = Some e →
    isRetryableError (Some e) = false →
    retry_spec config c err_of n i last (attempt_events config c i (rs ++ [r])) (Some r) (Some e)
| retry_cancelled rs e j :
    Forall (retryable err_of) rs → length rs < n → i + length rs = Datatypes.S j →
    retry_spec config c err_of n i last
      (attempt_events config c i rs ++ [Ev (SelectDoneOrAfter (backoff_at config j)) (Some e)])
      (latest last rs) (Some e)
| retry_exhausted rs :
    Forall (retryable err_of) rs → length rs = n →
    retry_spec config c err_of n i last (attempt_events config c i rs)
      (latest last rs) (Some (exhausted config (latest last rs ≫= err_of))).
End Retry.

(** ** Lemmas on the loop *)
Section RetryLemmas.
Context {S : Type}.
Context {R : Type} (config : RetryConfig) (c : Call R) (err_of : R → option error).

(** The wait that precedes attempt [i]. *)
Definition wait_events (i : nat) : list (event S) :=
  match i with
  | O => []
  | Datatypes.S j => [Ev (SelectDoneOrAfter (backoff_at config j)) None]
  end.

Lemma attempt_events_cons i r rs :
  attempt_events config c i (r :: rs) =
  wait_events i ++ Ev c r :: attempt_events config c (Datatypes.S i) rs.
Proof. by destruct i. Qed.

Lemma attempt_events_one i r :
  attempt_events config c i [r] = wait_events i ++ [Ev c r].
Proof. by destruct i. Qed.

Lemma latest_cons {X} (l : option X) x xs : latest l (x :: xs) = latest (Some x) xs.
Proof.
  unfold latest. destruct xs as [|y ys]; [done|]. rewrite last_cons_cons.
  by destruct (last_is_Some (y :: ys)) as [_ [? ->]].
Qed.

(** One retryable attempt in front of a specified behaviour. *)
Lemma retry_spec_step n i lst r tr v res :
  retryable err_of r →
  retry_spec config c err_of n (Datatypes.S i) (Some r) tr v res →
  retry_spec config c err_of (Datatypes.S n) i lst (wait_events i ++ Ev c r :: tr) v res.
Proof.
  intros Hr Hspec.
  destruct Hspec as [rs r' Hrs Hlen He|rs r' e Hrs Hlen He Hfatal|rs e j Hrs Hlen Hj|rs Hrs Hlen];
    rewrite <- ?app_assoc, ?app_comm_cons, <- ?(latest_cons lst r rs).
  - rewrite <- attempt_events_cons.
    apply (retry_success _ _ _ _ _ _ (r :: rs)); [by constructor|simpl; lia|done].
  - rewrite <- attempt_events_cons.
    apply (retry_fatal _ _ _ _ _ _ (r :: rs)); [by constructor|simpl; lia|done..].
  - rewrite app_assoc, <- attempt_events_cons.
    apply retry_cancelled; [by constructor|simpl; lia|simpl; lia].
  - rewrite <- attempt_events_cons. apply retry_exhausted; [by constructor|simpl; lia].
Qed.

Lemma retry_spec_inv_step n i lst tr v res :
  retry_spec config c err_of (Datatypes.S n) i lst tr v res →
  (∃ r, tr = wait_events i ++ [Ev c r] ∧ err_of r = None ∧ v = Some r ∧ res = None) ∨
  (∃ r e, tr = wait_events i ++ [Ev c r] ∧ err_of r = Some e ∧
          isRetryableError (Some e) = false ∧ v = Some r ∧ res = Some e) ∨
  (∃ e j, i = Datatypes.S j ∧ v = lst ∧ res = Some e ∧
          tr = [Ev (SelectDoneOrAfter (backoff_at config j)) (Some e)]) ∨
  (∃ r tr', tr = wait_events i ++ Ev c r :: tr' ∧ retryable err_of r ∧
            retry_spec config c err_of n (Datatypes.S i) (Some r) tr' v res).
Proof.
  intros [rs r' Hrs Hlen He|rs r' e Hrs Hlen He Hfatal|rs e j Hrs Hlen Hj|rs Hrs Hlen];
    destruct rs as [|r rs]; cbn [length app] in *; try lia.
  - left. exists r'. by rewrite attempt_events_cons.
  - inversion Hrs; subst. right; right; right. exists r. rewrite attempt_events_cons.
    eexists. do 2 (split; [done|]). apply retry_success; [done|lia|done].
  - right; left. exists r', e. by rewrite attempt_events_cons.
  - inversion Hrs; subst. right; right; right. exists r. rewrite attempt_events_cons.
    eexists. do 2 (split; [done|]). apply retry_fatal; [done|lia|done..].
  - right; right; left. exists e, j. split; [lia|done].
  - inversion Hrs; subst. right; right; right. exists r. rewrite attempt_events_cons, latest_cons.
    eexists. rewrite <- app_assoc. do 2 (split; [done|]).
    apply retry_cancelled; [done|lia|lia].
  - inversion Hrs; subst. right; right; right. exists r. rewrite attempt_events_cons, latest_cons.
    eexists. do 2 (split; [done|]). apply retry_exhausted; [done|lia].
Qed.
End RetryLemmas.

Section RetryCorrect.
Context {S : Type}.
Context {R : Type} (config : RetryConfig) (c : Call R) (err_of : R → option error).

(** The four ways an attempt can go, as [retry_spec] sees them. *)
Lemma retry_spec_unfold n i lst (tr : list (event S)) v res :
  retry_spec config c err_of (Datatypes.S n) i lst tr v res ↔
  (∃ e j, i = Datatypes.S j ∧ v = lst ∧ res = Some e ∧
          tr = [Ev (SelectDoneOrAfter (backoff_at config j)) (Some e)]) ∨
  (∃ r tr', tr = wait_events config i ++ Ev c r :: tr' ∧
     ((tr' = [] ∧ err_of r = None ∧ v = Some r ∧ res = None) ∨
      (tr' = [] ∧ ∃ e, err_of r = Some e ∧ isRetryableError (Some e) = false ∧
                       v = Some r ∧ res = Some e) ∨
      (retryable err_of r ∧
       retry_spec config c err_of n (Datatypes.S i) (Some r) tr' v res))).
Proof.
  split.
  - intros [(r & -> & He & -> & ->)|[(r & e & -> & He & Hre & -> & ->)|[?|(r & tr' & -> & Hre & Hs)]]]%retry_spec_inv_step.
    + right. exists r, []. eauto 12.
    + right. exists r, []. eauto 12.
    + left. done.
    + right. exists r, tr'. eauto.
  - intros [(e & j & -> & -> & -> & ->)|(r & tr' & -> &
      [(-> & He & -> & ->)|[(-> & e & He & Hre & -> & ->)|[Hre Hs]]])].
    + apply (retry_cancelled _ _ _ _ _ _ [] e j); [constructor|simpl; lia..].
    + rewrite <- attempt_events_one.
      apply (retry_success _ _ _ _ _ _ [] r); [constructor|simpl; lia|done].
    + rewrite <- attempt_events_one.
      apply (retry_fatal _ _ _ _ _ _ [] r); [constructor|simpl; lia|done..].
    + by apply retry_spec_step.
Qed.

(** The code after the wait: one attempt, and the rest of the loop. *)
Definition after_wait n (attempt : Z) backoff : prog S (option R * option error) :=
  prog_bind (closure c err_of) (λ '(v, err),
    match err with
    | None => Ret (Some v, None)
    | Some e =>
      if negb (isRetryableError (Some e)) then Ret (Some v, Some e)
      else retry_loop config (closure c err_of) n (attempt + 1) backoff (Some v) (Some e)
    end).

Lemma exec_after_wait n attempt backoff s tr o s' :
  exec eq (after_wait n attempt backoff) s tr o s' ↔
  ∃ r tr', tr = Ev c r :: tr' ∧
    ((tr' = [] ∧ err_of r = None ∧ o = Done (Some r, None) ∧ s' = s) ∨
     (tr' = [] ∧ ∃ e, err_of r = Some e ∧ isRetryableError (Some e) = false ∧
                      o = Done (Some r, Some e) ∧ s' = s) ∨
     (retryable err_of r ∧
      exec eq (retry_loop config (closure c err_of) n (attempt + 1) backoff
                 (Some r) (err_of r))
        s tr' o s')).
Proof.
  unfold after_wait, closure, retryable. simpl.
  f_equiv; intros r. f_equiv; intros tr'. f_equiv.
  destruct (err_of r) as [e|]; [|simpl; naive_solver].
  destruct (isRetryableError (Some e)) eqn:Hre; simpl; split.
  - intros ?. by right; right.
  - intros [(_ & ? & _)|[(_ & e0 & [= <-] & Hre' & _)|[_ ?]]]; [done|congruence|done].
  - intros (-> & -> & ->). right; left. split; [done|]. by exists e.
  - intros [(_ & ? & _)|[(-> & e0 & [= <-] & _ & -> & ->)|[? _]]]; done.
Qed.

(** One turn of the loop, with the wait made explicit. *)
Lemma exec_retry_turn n i lst (s : S) tr o s' :
  exec eq (retry_loop config (closure c err_of) (Datatypes.S n) (Z.of_nat i)
             (backoff_at config (pred i)) lst (lst ≫= err_of)) s tr o s' ↔
  (∃ e j, i = Datatypes.S j ∧ o = Done (lst, Some e) ∧ s' = s ∧
          tr = [Ev (SelectDoneOrAfter (backoff_at config j)) (Some e)]) ∨
  (∃ tr', tr = wait_events config i ++ tr' ∧
          exec eq (after_wait n (Z.of_nat i) (backoff_at config i)) s tr' o s').
Proof.
  destruct i as [|j].
  - change (retry_loop config (closure c err_of) (Datatypes.S n) (Z.of_nat 0)
              (backoff_at config (pred 0)) lst (lst ≫= err_of)) with (after_wait n 0 (backoff_at config 0)).
    simpl. split; [eauto|]. intros [(? & ? & ? & _)|(tr' & -> & Hx)]; done.
  - cbn [retry_loop].
    assert ((0 <? Z.of_nat (Datatypes.S j))%Z = true) as -> by (apply Z.ltb_lt; lia).
    cbn [mbind prog_mbind prog_bind call exec pred]. split.
    + intros (d & tr' & -> & Hx). destruct d as [e|]; cbn [prog_bind exec] in Hx.
      * destruct Hx as (-> & -> & ->). left. by exists e, j.
      * right. by exists tr'.
    + intros [(e & j' & [= <-] & -> & -> & ->)|(tr' & -> & Hx)].
      * by exists (Some e), [].
      * by exists None, tr'.
Qed.

Lemma retry_loop_spec n i lst (s : S) tr o s' :
  exec eq (retry_loop config (closure c err_of) n (Z.of_nat i)
             (backoff_at config (pred i)) lst (lst ≫= err_of)) s tr o s' ↔
  s' = s ∧ ∃ v res, o = Done (v, res) ∧ retry_spec config c err_of n i lst tr v res.
Proof.
  revert i lst tr. induction n as [|n IH]; intros i lst tr.
  - simpl. split.
    + intros (-> & -> & ->). split; [done|]. exists lst. eexists. split; [done|].
      by apply (retry_exhausted _ _ _ _ _ _ []).
    + intros (-> & v & res & -> & Hs). inversion Hs as [| | |rs Hrs Hlen]; subst; try lia.
      by destruct rs.
  - rewrite exec_retry_turn. setoid_rewrite exec_after_wait.
    setoid_rewrite retry_spec_unfold.
    setoid_rewrite <- Nat2Z.inj_succ.
    assert (IH' : ∀ r tr, exec eq (retry_loop config (closure c err_of) n
        (Z.of_nat (Datatypes.S i)) (backoff_at config i) (Some r) (err_of r)) s tr o s' ↔
        s' = s ∧ ∃ v res, o = Done (v, res) ∧
          retry_spec config c err_of n (Datatypes.S i) (Some r) tr v res)
      by (intros r tr0; exact (IH (Datatypes.S i) (Some r) tr0)).
    setoid_rewrite IH'. split.
    + intros [(e & j & -> & -> & -> & ->)|(_ & -> & r & tr' & -> &
        [(-> & He & -> & ->)|[(-> & e & He & Hre & -> & ->)|(Hre & -> & v & res & -> & Hs)]])];
        (split; [done|]); eexists _, _; (split; [done|]).
      * left. by exists e, j.
      * right. exists r, []. split; [done|]. by left.
      * right. exists r, []. split; [done|]. right; left. split; [done|]. by exists e.
      * right. exists r, tr'. split; [done|]. by right; right.
    + intros (-> & v & res & -> & [(e & j & -> & -> & -> & ->)|(r & tr' & -> &
        [(-> & He & -> & ->)|[(-> & e & He & Hre & -> & ->)|[Hre Hs]]])]).
      * left. by exists e, j.
      * right. eexists. split; [done|]. exists r, []. split; [done|]. by left.
      * right. eexists. split; [done|]. exists r, []. split; [done|].
        right; left. split; [done|]. by exists e.
      * right. eexists. split; [done|]. exists r, tr'. split; [done|].
        right; right. split; [done|]. split; [done|]. by exists v, res.
Qed.
End RetryCorrect.

(** ** What a retried call leaves behind *)

(** The call itself, or a wait. *)
Definition retry_event {S R : Type} (c : Call R) (e : event S) : Prop :=
  (∃ d x, e = Ev (SelectDoneOrAfter d) x) ∨ (∃ r, e = Ev c r).

Lemma attempt_events_retry {S R : Type} config (c : Call R) i rs :
  Forall (retry_event (S := S) c) (attempt_events config c i rs).
Proof.
  revert i. induction rs as [|r rs IH]; intros i; [constructor|].
  rewrite attempt_events_cons. apply Forall_app. split.
  - destruct i; [constructor|]. apply Forall_singleton. left. eauto.
  - constructor; [right; eauto|apply IH].
Qed.

Lemma attempt_events_last {S R : Type} config (c : Call R) i rs r :
  Ev (S := S) c r ∈ attempt_events config c i (rs ++ [r]).
Proof.
  revert i. induction rs as [|r' rs IH]; intros i; cbn [app].
  - rewrite attempt_events_one. set_solver.
  - rewrite attempt_events_cons. specialize (IH (Datatypes.S i)). set_solver.
Qed.

Lemma RetryWithBackoff_events {S R : Type} config (c : Call R) (err_of : R → option error)
    (s : S) tr o s' :
  exec eq (RetryWithBackoff config (closure c err_of)) s tr o s' →
  s' = s ∧ ∃ v res, o = Done (v, res) ∧ Forall (retry_event c) tr ∧
    (res = None → ∃ r, v = Some r ∧ err_of r = None ∧ Ev c r ∈ tr).
Proof.
  intros Hx. apply (retry_loop_spec config c err_of _ 0 None) in Hx as (-> & v & res & -> & Hs).
  split; [done|]. exists v, res. split; [done|].
  destruct Hs as [rs r|rs r e|rs e j|rs]; (split; [|try done]).
  - apply attempt_events_retry.
  - intros _. exists r. split; [done|]. split; [done|]. apply attempt_events_last.
  - apply attempt_events_retry.
  - apply Forall_app. split; [apply attempt_events_retry|].
    apply Forall_singleton. left. eauto.
  - apply attempt_events_retry.
Qed.

(** ** Status codes in error texts *)

(** What may follow the code: nothing, or one of the three delimiters. *)
Definition delimited (t : string) : bool :=
  match t with
  | EmptyString => true
  | String a _ => mem_byte a (dquote +:+ " )")
  end.

Definition quote_if (quoted : bool) : string := if quoted then dquote else "".

Lemma digit_not_delim a : digit_val a ≠ None → mem_byte a (dquote +:+ " )") = false.
Proof. destruct a as [[] [] [] [] [] [] [] []]; vm_compute; congruence. Qed.

Lemma TrimPrefix_quote quoted s v t :
  digits_val 0 s = Some v → s ≠ "" →
  TrimPrefix (quote_if quoted +:+ s +:+ t) dquote = s +:+ t.
Proof.
  intros Hv Hs. destruct quoted; unfold quote_if, TrimPrefix.
  - by rewrite HasPrefix_app, str_drop_app.
  - destruct s as [|a s]; [done|].
    replace (HasPrefix _ dquote) with false; [done|].
    symmetry. change (("" +:+ String a s +:+ t)) with (String a (s +:+ t)). simpl.
    simpl in Hv. destruct (digit_val a) eqn:Hd; [|done].
    rewrite bool_decide_eq_false_2; [done|]. intros <-. done.
Qed.

(** Cutting the text at the first delimiter leaves the digits. *)
Lemma cut_at_delim s v t :
  digits_val 0 s = Some v → s ≠ "" → delimited t = true →
  let e := IndexAny (s +:+ t) (dquote +:+ " )") in
  (if (0 <? e)%Z then str_take (Z.to_nat e) (s +:+ t) else s +:+ t) = s.
Proof.
  intros Hv Hs Ht. simpl. rewrite (IndexAny_digits s t _ v Hv digit_not_delim).
  destruct t as [|a t]; cbn [index_any_from].
  - simpl. apply append_nil_r.
  - change (mem_byte a (dquote +:+ " )") = true) in Ht. rewrite Ht, Nat.add_0_r.
    destruct s as [|b s]; [done|].
    assert ((0 <? Z.of_nat (String.length (String b s)))%Z = true) as ->
      by (apply Z.ltb_lt; simpl; lia).
    by rewrite Nat2Z.id, str_take_app.
Qed.

Lemma status_code_found p quoted code t :
  index_from (p +:+ "status=") "status=" = Some (String.length p) →
  (0 ≤ code ≤ max_int64)%Z → delimited t = true →
  status_code (p +:+ "status=" +:+ quote_if quoted +:+ Itoa code +:+ t) = Some code.
Proof.
  intros Hp Hcode Ht. unfold status_code.
  destruct (Itoa_nonneg_digits code) as (d & r & Heq & _ & Hv); [lia|].
  assert (Itoa code ≠ "") as Hne by (rewrite Heq; done).
  rewrite <- (append_assoc p). rewrite (Index_app _ _ _ _ Hp).
  assert ((0 <=? Z.of_nat (String.length p))%Z = true) as -> by (apply Z.leb_le; lia).
  rewrite <- Nat2Z.inj_add, Nat2Z.id, <- length_append, str_drop_app.
  rewrite (TrimPrefix_quote quoted _ code) by done.
  rewrite (cut_at_delim _ code) by done. by apply Atoi_Itoa.
Qed.

(** ** Backoff lemmas *)

Lemma next_backoff_le config b : (next_backoff config b ≤ MaxBackoff config)%Z.
Proof. unfold next_backoff. case_match; breflect; lia. Qed.

Lemma next_backoff_min config b :
  next_backoff config b =
  Z.min (MaxBackoff config) (int64_of_float (float64_mul (float64_of_Z b) (BackoffMultiplier config))).
Proof. unfold next_backoff. case_match; breflect; lia. Qed.

Lemma backoff_at_le config i : (backoff_at config (S i) ≤ MaxBackoff config)%Z.
Proof. apply next_backoff_le. Qed.

Section Waits.
Context {S : Type}.

(** The durations waited for in a trace. *)
Definition wait_of (e : event S) : option Duration :=
  match e with
  | Ev c _ => match c with SelectDoneOrAfter d => Some d | _ => None end
  | EvGo _ => None
  end.

#[local] Arguments wait_of : simpl never.

Definition waits (tr : list (event S)) : list Duration := omap wait_of tr.

(** The first [n] backoffs. *)
Definition backoffs (config : RetryConfig) (n : nat) : list Duration :=
  backoff_at config <$> seq 0 n.

Lemma backoffs_S config n : backoffs config (Datatypes.S n) = backoffs config n ++ [backoff_at config n].
Proof. unfold backoffs. by rewrite seq_S, fmap_app. Qed.

Lemma waits_attempts {R} config (c : Call R) i rs :
  (∀ r, wait_of (Ev c r) = None) →
  backoffs config (pred i) ++ waits (attempt_events config c i rs) =
  backoffs config (pred (i + length rs)).
Proof.
  intros Hc. revert i. induction rs as [|r rs IH]; intros i.
  - simpl. by rewrite Nat.add_0_r, app_nil_r.
  - rewrite attempt_events_cons. simpl length. rewrite Nat.add_succ_r, <- Nat.add_succ_l.
    rewrite <- (IH (Datatypes.S i)). unfold waits. rewrite omap_app. simpl.
    rewrite Hc. destruct i as [|j]; [done|]. cbn [pred wait_events omap list_omap app].
    by rewrite backoffs_S, <- app_assoc.
Qed.

Lemma backoffs_lookup config n i d :
  backoffs config n !! i = Some d → i < n ∧ d = backoff_at config i.
Proof. unfold backoffs. intros (j & -> & [-> Hj]%lookup_seq)%list_lookup_fmap_Some. by split. Qed.

(** The attempts: whatever is not a wait. *)
Definition attempts (tr : list (event S)) : nat :=
  length (filter (λ e, wait_of e = None) tr).

Lemma attempts_app tr tr' : attempts (tr ++ tr') = attempts tr + attempts tr'.
Proof. unfold attempts. by rewrite filter_app, length_app. Qed.

Lemma attempts_attempt_events {R} config (c : Call R) i rs :
  (∀ r, wait_of (Ev c r) = None) → attempts (attempt_events config c i rs) = length rs.
Proof.
  intros Hc. revert i. induction rs as [|r rs IH]; intros i; [done|].
  rewrite attempt_events_cons, attempts_app. unfold attempts at 2.
  rewrite filter_cons_True by apply Hc. cbn [length]. change (length (filter _ ?l)) with (attempts l).
  rewrite IH. by destruct i.
Qed.

Lemma retry_spec_waits {R} config (c : Call R) (err_of : R → option error) lst tr v res :
  (∀ r, wait_of (Ev c r) = None) →
  retry_spec config c err_of (Z.to_nat (MaxRetries config + 1)) 0 lst tr v res →
  ∃ n, n <= Z.to_nat (MaxRetries config) ∧ waits tr = backoffs config n.
Proof.
  intros Hc [rs r _ Hlen _|rs r e _ Hlen _ _|rs e j _ Hlen Hj|rs _ Hlen].
  - eexists. split; [|apply (waits_attempts config c 0 _ Hc)]. rewrite length_app. simpl. lia.
  - eexists. split; [|apply (waits_attempts config c 0 _ Hc)]. rewrite length_app. simpl. lia.
  - exists (Datatypes.S j). split; [lia|]. rewrite backoffs_S. unfold waits.
    rewrite omap_app. f_equal. pose proof (waits_attempts config c 0 rs Hc) as Hw.
    simpl in Hw, Hj. by rewrite Hj in Hw.
  - eexists. split; [|apply (waits_attempts config c 0 _ Hc)]. simpl. lia.
Qed.

Lemma retry_spec_attempts {R} config (c : Call R) (err_of : R → option error) lst tr v res :
  (∀ r, wait_of (Ev c r) = None) →
  retry_spec config c err_of (Z.to_nat (MaxRetries config + 1)) 0 lst tr v res →
  attempts tr <= Z.to_nat (MaxRetries config + 1) ∧
  (length (waits tr) = pred (attempts tr) ∨
   length (waits tr) = attempts tr ∧
   ∃ tr0 d e, tr = tr0 ++ [Ev (SelectDoneOrAfter d) (Some e)]).
Proof.
  intros Hc Hs. assert (Hl : ∀ rs, length (waits (attempt_events config c 0 rs)) = pred (length rs)).
  { intros rs. pose proof (waits_attempts config c 0 rs Hc) as Hw. simpl in Hw. rewrite Hw.
    unfold backoffs. by rewrite length_fmap, length_seq. }
  destruct Hs as [rs r _ Hlen _|rs r e _ Hlen _ _|rs e j _ Hlen Hj|rs _ Hlen];
    rewrite ?attempts_app, attempts_attempt_events, ?length_app by done; simpl.
  1, 2, 4: split; [lia|]; left; rewrite Hl, ?length_app; simpl; lia.
  split; [unfold attempts; simpl; lia|]. right. unfold waits. rewrite omap_app, length_app.
  fold (waits (attempt_events config c 0 rs)). rewrite Hl. simpl in *.
  split; [unfold attempts; simpl; lia|]. by eexists _, _, _.
Qed.
End Waits.

Lemma default_backoff_at i :
  i < 5 → backoff_at DefaultRetryConfig i = Z.min (30 * Second) (2 ^ Z.of_nat i * Second)%Z.
Proof. intros Hi. do 5 (destruct i as [|i]; [vm_compute; reflexivity|]). lia. Qed.

Lemma default_backoffs_prefix n :
  n <= 5 →
  backoffs DefaultRetryConfig n
    `prefix_of` [1 * Second; 2 * Second; 4 * Second; 8 * Second; 16 * Second]%Z.
Proof.
  intros Hn. do 6 (destruct n as [|n]; [by apply (bool_decide_unpack _); vm_compute|]). lia.
Qed.

(** ** Properties *)

(** [RetryWithBackoff] around a one-call closure behaves exactly as its
    specification: every attempt but the last failed with a retryable error,
    the [i]-th wait lasts [backoff_at i], the response kept is the last one, and the error is nil after a
    success, the error itself after a fatal error, the context's error when a
    wait is cancelled, and the wrapped last error after [MaxRetries + 1]
    attempts; and every such behaviour is possible. *)
Theorem RetryWithBackoff_spec {S R : Type} (config : RetryConfig) (c : Call R)
    (err_of : R → option error) (s : S) tr o s' :
  exec_seq (RetryWithBackoff config (closure c err_of)) s tr o s' ↔
  s' = s ∧ ∃ v res, o = Done (v, res) ∧
    retry_spec config c err_of (Z.to_nat (MaxRetries config + 1)) 0 None tr v res.
Proof. apply (retry_loop_spec config c err_of _ 0 None). Qed.

(** C40. Every execution consists of attempts and waits only, makes at most
    [MaxRetries + 1] attempts and waits one time less than it attempts, or as
    often when its last wait is cancelled.  The first wait lasts the initial
    backoff; each later one is the one before times the multiplier, computed in
    binary64 and truncated to an integer, but never above [MaxBackoff].  With
    the configuration the program uses, the [i]-th wait, from 0, lasts [2^i]
    seconds or 30, whichever is less. *)
Theorem RetryWithBackoff_waits {S R : Type} (config : RetryConfig) (c : Call R)
    (err_of : R → option error) (s : S) tr o s' :
  (∀ r, wait_of (S := S) (Ev c r) = None) →
  exec_seq (RetryWithBackoff config (closure c err_of)) s tr o s' →
  Forall (retry_event c) tr ∧
  attempts tr <= Z.to_nat (MaxRetries config + 1) ∧
  (length (waits tr) = pred (attempts tr) ∨
   length (waits tr) = attempts tr ∧
   ∃ tr0 d e, tr = tr0 ++ [Ev (SelectDoneOrAfter d) (Some e)]) ∧
  (∀ d, waits tr !! 0 = Some d → d = InitialBackoff config) ∧
  (∀ i d d', waits tr !! i = Some d → waits tr !! Datatypes.S i = Some d' →
     d' = Z.min (MaxBackoff config)
            (int64_of_float (float64_mul (float64_of_Z d) (BackoffMultiplier config)))) ∧
  (config = DefaultRetryConfig → ∀ i d, waits tr !! i = Some d →
     d = Z.min (30 * Second) (2 ^ Z.of_nat i * Second))%Z.
Proof.
  intros Hc Hx. pose proof (RetryWithBackoff_events _ _ _ _ _ _ _ Hx) as (_ & _ & _ & _ & Hall & _).
  split; [done|]. apply (retry_loop_spec config c err_of _ 0 None) in Hx as (_ & v & res & _ & Hs).
  destruct (retry_spec_waits _ _ _ _ _ _ _ Hc Hs) as (n & Hn & Hw).
  split; [exact (proj1 (retry_spec_attempts _ _ _ _ _ _ _ Hc Hs))|].
  split; [exact (proj2 (retry_spec_attempts _ _ _ _ _ _ _ Hc Hs))|].
  rewrite Hw. split; [|split].
  - intros d Hd. by apply backoffs_lookup in Hd as [_ ->].
  - intros i d d' [_ ->]%backoffs_lookup [_ ->]%backoffs_lookup. apply next_backoff_min.
  - intros -> i d [Hi ->]%backoffs_lookup. apply default_backoff_at. simpl in Hn. lia.
Qed.

(** With the default configuration the waits of any retried call are a
    prefix of 1, 2, 4, 8 and 16 seconds: the doubling is exact in binary64 and
    never reaches the 30 second cap, and a retried call waits at most 31
    seconds in all. *)
Theorem default_backoff_schedule {S R : Type} (c : Call R) (err_of : R → option error)
    (s : S) tr o s' :
  (∀ r, wait_of (S := S) (Ev c r) = None) →
  exec_seq (RetryWithBackoff DefaultRetryConfig (closure c err_of)) s tr o s' →
  waits tr `prefix_of` [1 * Second; 2 * Second; 4 * Second; 8 * Second; 16 * Second]%Z.
Proof.
  intros Hc Hx. apply (retry_loop_spec _ c err_of _ 0 None) in Hx as (_ & v & res & _ & Hs).
  destruct (retry_spec_waits _ _ _ _ _ _ _ Hc Hs) as (n & Hn & ->).
  by apply default_backoffs_prefix.
Qed.

(** A service that is down for the whole call. *)
Definition env503 (R : Type) (c : Call R) (n : nat) : R :=
  match c in Call R0 return R0 with
  | RemoveRunner _ _ => Some (errors_New "http error status=503")
  | c' => offline c'
  end.

Definition probe : Call (option error) := RemoveRunner 0 7.

Definition probe_run := run env503 (RetryWithBackoff DefaultRetryConfig (closure probe id)) tt 0.

Lemma RetryWithBackoff_waits_witness :
  attempts probe_run.1.1 = 6 ∧ length (waits probe_run.1.1) = 5 ∧
  waits probe_run.1.1 !! 4 = Some (16 * Second)%Z ∧
  (∀ i d, waits probe_run.1.1 !! i = Some d → d = Z.min (30 * Second) (2 ^ Z.of_nat i * Second))%Z.
Proof.
  do 3 (split; [vm_compute; reflexivity|]).
  destruct (RetryWithBackoff_waits DefaultRetryConfig probe id tt probe_run.1.1 probe_run.1.2 tt)
    as (_ & _ & _ & _ & _ & H); [intros r; reflexivity|apply (run_exec env503)|exact (H eq_refl)].
Defined.

Lemma default_backoff_schedule_witness :
  waits probe_run.1.1 `prefix_of` [1 * Second; 2 * Second; 4 * Second; 8 * Second; 16 * Second]%Z
  ∧ length (waits probe_run.1.1) = 5.
Proof.
  split; [|vm_compute; reflexivity].
  apply (default_backoff_schedule probe id tt _ probe_run.1.2 tt);
    [intros r; reflexivity|apply (run_exec env503)].
Defined.

(** An error text whose first ["status="] is followed by an optional
    quote, a decimal code and then nothing or one of quote, space, closing
    parenthesis is retryable exactly for 5xx-and-above, 429 and 408, whatever
    surrounds it, unless the error is a [net.Error] (which decides alone). *)
Theorem isRetryableError_status (e : error) (p t : string) (quoted : bool) (code : Z) :
  err_net e = None →
  err_text e = p +:+ "status=" +:+ quote_if quoted +:+ Itoa code +:+ t →
  index_from (p +:+ "status=") "status=" = Some (String.length p) →
  (0 ≤ code ≤ max_int64)%Z → delimited t = true →
  isRetryableError (Some e) = bool_decide (500 ≤ code ∨ code = 429 ∨ code = 408)%Z.
Proof.
  intros Hnet Htext Hp Hcode Ht. unfold isRetryableError. rewrite Hnet, Htext.
  rewrite status_code_found by done.
  apply eq_true_iff_eq. rewrite bool_decide_eq_true, !orb_true_iff, Z.leb_le, !Z.eqb_eq. tauto.
Qed.

Lemma isRetryableError_status_witness :
  isRetryableError (Some (errors_New
    ("request failed (status=" +:+ dquote +:+ "503" +:+ dquote +:+ ") after 2s"))) = true.
Proof.
  rewrite (isRetryableError_status _ "request failed (" (dquote +:+ ") after 2s") true 503);
    [reflexivity|reflexivity|reflexivity|reflexivity|split; vm_compute; congruence|reflexivity].
Defined.

(** The statuses of the repository's unit test. *)
Example isRetryableError_tests :
  (λ s, isRetryableError (Some (errors_New s))) <$>
    ["status=500"; "status=429"; "status=408"; "status=404"; "status=400"] =
  [true; true; true; false; false].
Proof. reflexivity. Qed.

(** A deadline that expires inside the call is a timeout; a cancellation is not. *)
Example isRetryableError_ctx :
  isRetryableError (Some context_DeadlineExceeded) = true ∧
  isRetryableError (Some context_Canceled) = false.
Proof. done. Qed.

(** What a retried closure issues, and the waits. *)
Lemma always_RetryWithBackoff {S V : Type} (P : ∀ R, Call R → Prop) config
    (fn : prog S (V * option error)) :
  (∀ d, P _ (SelectDoneOrAfter d)) → always P fn → always P (RetryWithBackoff config fn).
Proof.
  intros Hw Hf. unfold RetryWithBackoff. generalize (Z.to_nat (MaxRetries config + 1)) as n.
  generalize 0%Z (InitialBackoff config) (@None V) (@None error).
  intros attempt backoff last lastErr n. revert attempt backoff last lastErr.
  induction n as [|n IH]; intros; [done|]. cbn [retry_loop].
  repeat (always_step ltac:(apply Hw) || apply IH || exact Hf).
Qed.

Lemma preserves_RetryWithBackoff {S V : Type} (Q : S → S → Prop) config
    (fn : prog S (V * option error)) :
  preserves Q fn → preserves Q (RetryWithBackoff config fn).
Proof.
  intros Hf. unfold RetryWithBackoff. generalize (Z.to_nat (MaxRetries config + 1)) as n.
  generalize 0%Z (InitialBackoff config) (@None V) (@None error).
  intros attempt backoff last lastErr n. revert attempt backoff last lastErr.
  induction n as [|n IH]; intros; [done|]. cbn [retry_loop].
  repeat first [apply IH | exact Hf | preserves_step idtac].
Qed.

Lemma no_batch_RetryWithBackoff {S V : Type} config (fn : prog S (V * option error)) :
  no_batch fn → no_batch (RetryWithBackoff config fn).
Proof.
  intros Hf. unfold RetryWithBackoff. generalize (Z.to_nat (MaxRetries config + 1)) as n.
  generalize 0%Z (InitialBackoff config) (@None V) (@None error).
  intros attempt backoff last lastErr n. revert attempt backoff last lastErr.
  induction n as [|n IH]; intros; [done|]. cbn [retry_loop].
  repeat first [apply IH | exact Hf | no_batch_step].
Qed.
