(* ===== verification/Cache.v ===== *)
(** * internal/client/cache.go: credentials and scale sets cached with a TTL

    The cache lives in memory shared by ten concurrent reconcilers and the
    cleanup runnable.  A lookup, a store and a cleanup are each one critical
    section ([c.mu]); between the lookup and the store of one call other
    goroutines run.  The class [HasCache] is the interface: a memory that
    holds a cache. *)

From S2P Require Export Effects.

(** ** State *)

(** [cachedSecret.config] is an [interface{}] holding one of two types. *)
Inductive cachedConfig : Type :=
| CfgApp (c : GitHubAppConfig)
| CfgPAT (c : PATConfig).

#[export] Instance cachedConfig_eq_dec : EqDecision cachedConfig.
Proof. solve_decision. Defined.

Record cachedSecret : Type := mkCachedSecret {
  cs_config : cachedConfig; cs_expiresAt : Time }.

Record cachedScaleSet : Type := mkCachedScaleSet {
  css_scaleSet : option RunnerScaleSet; css_expiresAt : Time }.

Record Cache : Type := mkCache {
  secretCache : gmap NamespacedName cachedSecret;
  scaleSetCache : gmap Z cachedScaleSet;
  secretTTL : Duration;
  scaleSetTTL : Duration
}.

Definition defaultSecretCacheTTL : Duration := (5 * Minute)%Z.
Definition defaultScaleSetCacheTTL : Duration := (1 * Minute)%Z.

Definition NewCache : Cache := mkCache ∅ ∅ defaultSecretCacheTTL defaultScaleSetCacheTTL.

(** ** Critical sections, as functions of the cache *)

Definition put_secret (k : NamespacedName) (v : cachedSecret) (c : Cache) : Cache :=
  mkCache (<[k := v]> (secretCache c)) (scaleSetCache c) (secretTTL c) (scaleSetTTL c).

Definition put_scaleSet (k : Z) (v : cachedScaleSet) (c : Cache) : Cache :=
  mkCache (secretCache c) (<[k := v]> (scaleSetCache c)) (secretTTL c) (scaleSetTTL c).

Definition drop_secret (k : NamespacedName) (c : Cache) : Cache :=
  mkCache (delete k (secretCache c)) (scaleSetCache c) (secretTTL c) (scaleSetTTL c).

Definition drop_scaleSet (k : Z) (c : Cache) : Cache :=
  mkCache (secretCache c) (delete k (scaleSetCache c)) (secretTTL c) (scaleSetTTL c).

Class HasCache (S : Type) := {
  cache_of : S → Cache;
  with_cache : Cache → S → S;
  cache_of_with : ∀ c s, cache_of (with_cache c s) = c;
  with_cache_with : ∀ c c' s, with_cache c (with_cache c' s) = with_cache c s;
  with_cache_of : ∀ s, with_cache (cache_of s) s = s
}.

#[export] Instance HasCache_Cache : HasCache Cache :=
  {| cache_of := id; with_cache := λ c _, c;
     cache_of_with := λ _ _, eq_refl; with_cache_with := λ _ _ _, eq_refl;
     with_cache_of := λ _, eq_refl |}.

(** [NamespacedName.String()] *)
Definition nn_String (k : NamespacedName) : string := nn_namespace k +:+ "/" +:+ nn_name k.

(** The [secretKey] a reference denotes: its own namespace, or the given one. *)
Definition secretKey (namespace : string) (ref : NamespacedName) : NamespacedName :=
  if bool_decide (nn_namespace ref = "") then mkNN namespace (nn_name ref) else ref.

Section Cache.
Context {S : Type} `{HasCache S, MapRange}.

(** [for k := range data { if k is one of names { keyName = k; break } }] *)
Definition pick_key (names : list string) (dflt : string) (data : gmap string string)
  : string :=
  match list_find (λ kv, kv.1 ∈ names) (range data) with
  | Some (_, (k, _)) => k
  | None => dflt
  end.

Definition lookup_secret (k : NamespacedName) : prog S (option cachedSecret) :=
  atomic (λ s, (secretCache (cache_of s) !! k, s)).

Definition store_secret (k : NamespacedName) (cfg : cachedConfig) : prog S unit :=
  now ← call Now;
  atomic (λ s, (tt, with_cache (put_secret k
    (mkCachedSecret cfg (time_Add now (secretTTL (cache_of s)))) (cache_of s)) s)).

Definition GetGitHubAppConfig (namespace : string) (secretRef : NamespacedName)
    (clientID : string) (installationID : Z) : prog S (result error GitHubAppConfig) :=
  let key := secretKey namespace secretRef in
  cached ← lookup_secret key;
  hit ← match cached with
        | Some cs =>
          now ← call Now;
          Ret (if Before now (cs_expiresAt cs)
               then match cs_config cs with CfgApp config => Some config | CfgPAT _ => None end
               else None)
        | None => Ret None
        end;
  match hit with
  | Some config =>
    metric CacheHits ["secret"] MInc;; Ret (Ok config)
  | None =>
    metric CacheMisses ["secret"] MInc;;
    got ← call (K8sGetSecret key);
    match got with
    | Err e => Ret (Err (Errorf ("failed to get secret " +:+ nn_String key +:+ ": ") e))
    | Ok secret =>
      let keyName := pick_key ["privateKey"; "private_key"; "key"] "privateKey" (s_data secret) in
      match s_data secret !! keyName with
      | None =>
        Ret (Err (errors_New ("secret " +:+ nn_String key +:+ " does not contain private key")))
      | Some privateKey =>
        let config := mkAppConfig clientID installationID privateKey in
        store_secret key (CfgApp config);;
        Ret (Ok config)
      end
    end
  end.

Definition GetPATConfig (namespace : string) (secretRef : NamespacedName)
  : prog S (result error PATConfig) :=
  let key := secretKey namespace secretRef in
  cached ← lookup_secret key;
  hit ← match cached with
        | Some cs =>
          now ← call Now;
          Ret (if Before now (cs_expiresAt cs)
               then match cs_config cs with CfgPAT config => Some config | CfgApp _ => None end
               else None)
        | None => Ret None
        end;
  match hit with
  | Some config =>
    metric CacheHits ["secret"] MInc;; Ret (Ok config)
  | None =>
    metric CacheMisses ["secret"] MInc;;
    got ← call (K8sGetSecret key);
    match got with
    | Err e => Ret (Err (Errorf ("failed to get secret " +:+ nn_String key +:+ ": ") e))
    | Ok secret =>
      let keyName := pick_key ["token"; "pat"; "accessToken"] "token" (s_data secret) in
      match s_data secret !! keyName with
      | None =>
        Ret (Err (errors_New ("secret " +:+ nn_String key +:+ " does not contain token")))
      | Some token =>
        let config := mkPATConfig token in
        store_secret key (CfgPAT config);;
        Ret (Ok config)
      end
    end
  end.

Definition InvalidateSecret (secretRef : NamespacedName) : prog S unit :=
  atomic (λ s, (tt, with_cache (drop_secret secretRef (cache_of s)) s)).

Definition GetScaleSet (scaleSetID : Z)
    (getter : prog S (option RunnerScaleSet * option error))
  : prog S (option RunnerScaleSet * option error) :=
  cached ← atomic (λ s, (scaleSetCache (cache_of s) !! scaleSetID, s));
  hit ← match cached with
        | Some c =>
          now ← call Now;
          Ret (if Before now (css_expiresAt c) then Some (css_scaleSet c) else None)
        | None => Ret None
        end;
  match hit with
  | Some ss =>
    metric CacheHits ["scaleset"] MInc;; Ret (ss, None)
  | None =>
    metric CacheMisses ["scaleset"] MInc;;
    '(ss, err) ← getter;
    match err with
    | Some e => Ret (None, Some e)
    | None =>
      now ← call Now;
      atomic (λ s, (tt, with_cache (put_scaleSet scaleSetID
        (mkCachedScaleSet ss (time_Add now (scaleSetTTL (cache_of s)))) (cache_of s)) s));;
      Ret (ss, None)
    end
  end.

Definition InvalidateScaleSet (scaleSetID : Z) : prog S unit :=
  atomic (λ s, (tt, with_cache (drop_scaleSet scaleSetID (cache_of s)) s)).

(** The loops of [Cleanup], deleting while ranging. *)
Definition cleanup_loop {K V} `{Countable K} (expiresAt : V → Time) (now : Time)
    (m : gmap K V) : gmap K V :=
  foldl (λ m' '(k, v), if After now (expiresAt v) then delete k m' else m') m (range m).

Definition cleaned (now : Time) (c : Cache) : Cache :=
  mkCache (cleanup_loop cs_expiresAt now (secretCache c))
          (cleanup_loop css_expiresAt now (scaleSetCache c))
          (secretTTL c) (scaleSetTTL c).

Definition Cleanup : prog S unit :=
  now ← call Now;
  atomic (λ s, (tt, with_cache (cleaned now (cache_of s)) s)).
End Cache.

(** ** The shape the two credential lookups share *)
Section Generic.
Context {S : Type} `{HasCache S, MapRange}.
Context {A : Type} (sel : cachedConfig → option A) (inj : A → cachedConfig)
        (names : list string) (dflt missing : string) (build : string → A).

Definition get_config (key : NamespacedName) : prog S (result error A) :=
  cached ← lookup_secret key;
  hit ← match cached with
        | Some cs =>
          now ← call Now;
          Ret (if Before now (cs_expiresAt cs) then sel (cs_config cs) else None)
        | None => Ret None
        end;
  match hit with
  | Some config =>
    metric CacheHits ["secret"] MInc;; Ret (Ok config)
  | None =>
    metric CacheMisses ["secret"] MInc;;
    got ← call (K8sGetSecret key);
    match got with
    | Err e => Ret (Err (Errorf ("failed to get secret " +:+ nn_String key +:+ ": ") e))
    | Ok secret =>
      let keyName := pick_key names dflt (s_data secret) in
      match s_data secret !! keyName with
      | None => Ret (Err (errors_New ("secret " +:+ nn_String key +:+ missing)))
      | Some v =>
        let config := build v in
        store_secret key (inj config);;
        Ret (Ok config)
      end
    end
  end.

(** A usable entry at time [now]. *)
Definition usable (s : S) (key : NamespacedName) (now : Time) (a : A) : Prop :=
  ∃ cs, secretCache (cache_of s) !! key = Some cs ∧ (now < cs_expiresAt cs)%Z ∧
        sel (cs_config cs) = Some a.

(** The clock readings of a lookup that misses. *)
Inductive miss (s : S) (key : NamespacedName) : list (event S) → Prop :=
| miss_absent : secretCache (cache_of s) !! key = None → miss s key []
| miss_present cs now :
    secretCache (cache_of s) !! key = Some cs →
    (cs_expiresAt cs ≤ now)%Z ∨ sel (cs_config cs) = None →
    miss s key [Ev Now now].

(** The memory after a fetch at time [now]. *)
Definition after_store (s : S) (key : NamespacedName) (a : A) (now : Time) : S :=
  with_cache (put_secret key
    (mkCachedSecret (inj a) (now + secretTTL (cache_of s))%Z) (cache_of s)) s.

Inductive get_config_spec (key : NamespacedName) (s : S)
  : list (event S) → result error A → S → Prop :=
| get_hit now a :
    usable s key now a →
    get_config_spec key s [Ev Now now; Ev (Metric CacheHits ["secret"] MInc) tt] (Ok a) s
| get_unavailable pre e :
    miss s key pre →
    get_config_spec key s
      (pre ++ [Ev (Metric CacheMisses ["secret"] MInc) tt; Ev (K8sGetSecret key) (Err e)])
      (Err (Errorf ("failed to get secret " +:+ nn_String key +:+ ": ") e)) s
| get_missing pre secret :
    miss s key pre →
    s_data secret !! pick_key names dflt (s_data secret) = None →
    get_config_spec key s
      (pre ++ [Ev (Metric CacheMisses ["secret"] MInc) tt; Ev (K8sGetSecret key) (Ok secret)])
      (Err (errors_New ("secret " +:+ nn_String key +:+ missing))) s
| get_fetched pre secret v now :
    miss s key pre →
    s_data secret !! pick_key names dflt (s_data secret) = Some v →
    get_config_spec key s
      (pre ++ [Ev (Metric CacheMisses ["secret"] MInc) tt; Ev (K8sGetSecret key) (Ok secret);
               Ev Now now])
      (Ok (build v)) (after_store s key (build v) now).

(** What follows a miss. *)
Lemma exec_fetch key pre (s : S) tr o s' :
  miss s key pre →
  exec_seq (
    metric CacheMisses ["secret"] MInc;;
    got ← call (K8sGetSecret key);
    match got with
    | Err e => Ret (Err (Errorf ("failed to get secret " +:+ nn_String key +:+ ": ") e))
    | Ok secret =>
      match s_data secret !! pick_key names dflt (s_data secret) with
      | None => Ret (Err (errors_New ("secret " +:+ nn_String key +:+ missing)))
      | Some v => store_secret key (inj (build v));; Ret (Ok (build v))
      end
    end) s tr o s' →
  ∃ res, o = Done res ∧ get_config_spec key s (pre ++ tr) res s'.
Proof.
  intros Hm ([] & ? & -> & got & ? & -> & Hx). simpl in Hx. destruct got as [secret|e].
  - destruct (s_data secret !! pick_key names dflt (s_data secret)) as [v|] eqn:Hv;
      simpl in Hx.
    + destruct Hx as (now & ? & -> & ? & <- & -> & -> & ->).
      eexists; split; [done|]. by apply get_fetched.
    + destruct Hx as (-> & -> & ->). eexists; split; [done|]. by apply get_missing.
  - destruct Hx as (-> & -> & ->). eexists; split; [done|]. by apply get_unavailable.
Qed.

Lemma get_config_correct key (s : S) tr o s' :
  exec_seq (get_config key) s tr o s' →
  ∃ res, o = Done res ∧ get_config_spec key s tr res s'.
Proof.
  intros (? & <- & Hx). simpl in Hx.
  destruct (secretCache (cache_of s) !! key) as [cs|] eqn:Hcs.
  - destruct Hx as (now & tr' & -> & Hx).
    destruct (Before now (cs_expiresAt cs)) eqn:Hb; unfold Before in Hb; breflect.
    + destruct (sel (cs_config cs)) as [a|] eqn:Hsel.
      * destruct Hx as ([] & ? & -> & -> & -> & ->). eexists; split; [done|].
        apply get_hit. by exists cs.
      * eapply (exec_fetch key [Ev Now now]); [|exact Hx]. apply (miss_present _ _ cs); auto.
    + eapply (exec_fetch key [Ev Now now]); [|exact Hx]. apply (miss_present _ _ cs); auto.
  - apply (exec_fetch key [] s tr); [by constructor|exact Hx].
Qed.

(** A failed lookup leaves the memory as it was. *)
Lemma get_config_spec_err key s tr e s' :
  get_config_spec key s tr (Err e) s' → s' = s.
Proof. intros Hs. by inversion Hs. Qed.

Context (sel_inj : ∀ a, sel (inj a) = Some a).

(** What was just fetched is usable until its TTL runs out. *)
Lemma after_store_usable s key a t now :
  (now < t + secretTTL (cache_of s))%Z → usable (after_store s key a t) key now a.
Proof.
  intros Hnow. eexists. unfold after_store. rewrite cache_of_with. cbn [secretCache put_secret].
  rewrite lookup_insert_eq. split; [done|]. split; [done|]. apply sel_inj.
Qed.

Lemma usable_fun s key now a now' a' :
  usable s key now a → usable s key now' a' → a = a'.
Proof. intros (cs & H1 & _ & H2) (cs' & H1' & _ & H2'). congruence. Qed.
End Generic.

Definition sel_app (c : cachedConfig) : option GitHubAppConfig :=
  match c with CfgApp config => Some config | CfgPAT _ => None end.
Definition sel_pat (c : cachedConfig) : option PATConfig :=
  match c with CfgPAT config => Some config | CfgApp _ => None end.

Section Instances.
Context {S : Type} `{HasCache S, MapRange}.

Lemma GetGitHubAppConfig_generic ns ref cid iid :
  GetGitHubAppConfig (S := S) ns ref cid iid =
  get_config sel_app CfgApp ["privateKey"; "private_key"; "key"] "privateKey"
    " does not contain private key" (mkAppConfig cid iid) (secretKey ns ref).
Proof. reflexivity. Qed.

Lemma GetPATConfig_generic ns ref :
  GetPATConfig (S := S) ns ref =
  get_config sel_pat CfgPAT ["token"; "pat"; "accessToken"] "token"
    " does not contain token" mkPATConfig (secretKey ns ref).
Proof. reflexivity. Qed.

(** The chosen key: one of the accepted names when the secret has one, the
    default name otherwise. *)
Lemma pick_key_spec names dflt (data : gmap string string) :
  (pick_key names dflt data ∈ names ∧ is_Some (data !! pick_key names dflt data)) ∨
  (pick_key names dflt data = dflt ∧ ∀ k, k ∈ names → data !! k = None).
Proof.
  unfold pick_key. destruct (list_find _ _) as [[i [k v]]|] eqn:Hf.
  - left. apply list_find_Some in Hf as (Hi & Hk & _). split; [done|].
    exists v. apply range_elem_of. by eapply list_elem_of_lookup_2.
  - right. split; [done|]. intros k Hk. apply eq_None_not_Some. intros [v Hv].
    apply list_find_None in Hf. rewrite Forall_forall in Hf.
    apply (Hf (k, v)); [|done]. by apply range_elem_of.
Qed.

(** ** Cleanup *)

Lemma foldl_delete_lookup {K V} `{Countable K} (f : V → bool) (l : list (K * V))
    (m : gmap K V) k :
  NoDup l.*1 →
  foldl (λ m' '(k', v), if f v then delete k' m' else m') m l !! k =
  match (list_to_map l : gmap K V) !! k with
  | Some v => if f v then None else m !! k
  | None => m !! k
  end.
Proof.
  revert m. induction l as [|[k' v] l IH]; intros m Hnd; simpl; [by rewrite lookup_empty|].
  inversion Hnd; subst. rewrite IH by done.
  destruct (decide (k = k')) as [->|Hne].
  - rewrite (not_elem_of_list_to_map_1 l k'), lookup_insert_eq by done.
    destruct (f v); [by rewrite lookup_delete_eq|done].
  - rewrite lookup_insert_ne by done.
    destruct (f v); [by rewrite lookup_delete_ne|done].
Qed.

Lemma cleanup_loop_lookup {K V} `{Countable K} (expiresAt : V → Time) now (m : gmap K V) k :
  cleanup_loop expiresAt now m !! k =
  match m !! k with
  | Some v => if After now (expiresAt v) then None else Some v
  | None => None
  end.
Proof.
  unfold cleanup_loop. rewrite (foldl_delete_lookup (λ v, After now (expiresAt v))).
  - rewrite (list_to_map_proper (range m) (map_to_list m)).
    + rewrite list_to_map_to_list. by destruct (m !! k).
    + rewrite range_perm. apply NoDup_fst_map_to_list.
    + apply range_perm.
  - rewrite range_perm. apply NoDup_fst_map_to_list.
Qed.

Lemma cleanup_loop_Some {K V} `{Countable K} (expiresAt : V → Time) now (m : gmap K V) k e :
  cleanup_loop expiresAt now m !! k = Some e ↔ m !! k = Some e ∧ (now ≤ expiresAt e)%Z.
Proof.
  rewrite cleanup_loop_lookup. unfold After.
  case_match; [case_match; breflect|]; naive_solver lia.
Qed.

(** A cleanup keeps what is usable at its time or later. *)
Lemma cleaned_usable now (s : S) {A} (sel : cachedConfig → option A) k t a :
  (now ≤ t)%Z →
  usable sel (with_cache (cleaned now (cache_of s)) s) k t a ↔ usable sel s k t a.
Proof.
  intros Ht. unfold usable. rewrite cache_of_with. simpl. split.
  - intros (cs & Hcs & Hr). apply cleanup_loop_Some in Hcs as [Hcs _]. by exists cs.
  - intros (cs & Hcs & Hlt & Hr). exists cs. split; [|done].
    apply cleanup_loop_Some. split; [done|lia].
Qed.
End Instances.

(** ** A second call after a fetch *)
Section SecondCall.
Context {S : Type} `{HasCache S, MapRange}.
Context {A : Type} (sel : cachedConfig → option A) (inj : A → cachedConfig)
        (names : list string) (dflt missing : string) (build : string → A).
Context (sel_inj : ∀ a, sel (inj a) = Some a).

(** The clock reading at which an execution that fetched stored its result. *)
Definition fetched_at (key : NamespacedName) (tr : list (event S)) (t : Time) : Prop :=
  ∃ pre secret, tr = pre ++ [Ev (K8sGetSecret key) (Ok secret); Ev Now t].

Lemma get_config_spec_fetched key (s : S) tr a s' t :
  get_config_spec sel inj names dflt missing build key s tr (Ok a) s' →
  fetched_at key tr t → s' = after_store inj s key a t.
Proof.
  intros Hs (pre & secret & Htr). apply (f_equal (λ l, last l ≫= now_of)) in Htr.
  rewrite last_app in Htr.
  inversion Hs as [now a' Hu Heq|?|?|pre' secret' v now Hm Hv]; subst; [done|].
  rewrite last_app in Htr. by injection Htr as ->.
Qed.

Lemma get_config_second key (s : S) t2 tr2 o s' a t1 s0 :
  s = after_store inj s0 key a t1 →
  exec_seq (get_config sel inj names dflt missing build key) s (Ev Now t2 :: tr2) o s' →
  ((t2 < t1 + secretTTL (cache_of s0))%Z →
     tr2 = [Ev (Metric CacheHits ["secret"] MInc) tt] ∧ o = Done (Ok a) ∧ s' = s) ∧
  ((t1 + secretTTL (cache_of s0) ≤ t2)%Z →
     ∃ got rest, tr2 = Ev (Metric CacheMisses ["secret"] MInc) tt :: Ev (K8sGetSecret key) got :: rest).
Proof.
  intros -> (? & <- & Hx). simpl in Hx.
  assert (Hl : secretCache (cache_of (after_store inj s0 key a t1)) !! key =
               Some (mkCachedSecret (inj a) (t1 + secretTTL (cache_of s0))%Z)).
  { unfold after_store. rewrite cache_of_with. apply lookup_insert_eq. }
  rewrite Hl in Hx. destruct Hx as (now & tr' & [<- ->]%Ev_Now_cons & Hx). simpl in Hx.
  unfold Before in Hx. destruct (t2 <? _)%Z eqn:Hb; breflect; (split; intros; [|]); try lia.
  - rewrite sel_inj in Hx. by destruct Hx as ([] & ? & -> & -> & -> & ->).
  - destruct Hx as ([] & ? & -> & got & ? & -> & _). eauto.
Qed.
End SecondCall.

(** ** Properties *)

(** C37. Every execution of [GetGitHubAppConfig] is a hit on a fresh entry of
    the right type (no call but the clock and the hit counter), or a miss that
    fetches the secret of the resolved reference and then fails with the API
    error, fails because no accepted key is present, or stores the key it
    picked with the TTL and returns it; errors are never cached. *)
Theorem GetGitHubAppConfig_spec {S : Type} `{HasCache S, MapRange} ns ref cid iid (s : S) tr o s' :
  exec_seq (GetGitHubAppConfig ns ref cid iid) s tr o s' →
  ∃ res, o = Done res ∧
    get_config_spec sel_app CfgApp ["privateKey"; "private_key"; "key"] "privateKey"
      " does not contain private key" (mkAppConfig cid iid) (secretKey ns ref) s tr res s' ∧
    (∀ e, res = Err e → s' = s).
Proof.
  rewrite GetGitHubAppConfig_generic. intros Hx.
  destruct (get_config_correct _ _ _ _ _ _ _ _ _ _ _ Hx) as (res & -> & Hs).
  exists res. split; [done|]. split; [done|]. intros e ->. by eapply get_config_spec_err.
Qed.

(** A token fetched at time [t1] serves every later call for the same
    secret before [t1 + secretTTL] without touching the API server or the
    cache, and the first call at or after that instant fetches again. *)
Theorem GetPATConfig_ttl {S : Type} `{HasCache S, MapRange} ns1 ref1 ns2 ref2 (s1 s2 s3 : S)
    tr1 tr2 cfg t1 t2 o :
  exec_seq (GetPATConfig ns1 ref1) s1 tr1 (Done (Ok cfg)) s2 →
  fetched_at (secretKey ns1 ref1) tr1 t1 →
  secretKey ns2 ref2 = secretKey ns1 ref1 →
  exec_seq (GetPATConfig ns2 ref2) s2 (Ev Now t2 :: tr2) o s3 →
  ((t2 < t1 + secretTTL (cache_of s1))%Z →
     tr2 = [Ev (Metric CacheHits ["secret"] MInc) tt] ∧ o = Done (Ok cfg) ∧ s3 = s2) ∧
  ((t1 + secretTTL (cache_of s1) ≤ t2)%Z →
     ∃ got rest, tr2 = Ev (Metric CacheMisses ["secret"] MInc) tt ::
                       Ev (K8sGetSecret (secretKey ns2 ref2)) got :: rest).
Proof.
  rewrite !GetPATConfig_generic. intros Hx1 Hf Hkey Hx2.
  destruct (get_config_correct _ _ _ _ _ _ _ _ _ _ _ Hx1) as (res & [= <-] & Hs).
  pose proof (get_config_spec_fetched _ _ _ _ _ _ _ _ _ _ _ _ Hs Hf) as ->.
  rewrite Hkey in Hx2 |- *.
  eapply (get_config_second sel_pat CfgPAT); [done..|exact Hx2].
Qed.

(** A cached GitHub App credential is served to every caller that names the
    secret: the client ID and installation ID of the request are ignored, so an
    AutoscaleSet sharing a private-key secret gets the identity of the one that
    filled the cache. *)
Theorem GetGitHubAppConfig_hit_ignores_identity {S : Type} `{HasCache S, MapRange}
    ns ref cid iid (s : S) c0 t now tr o s' :
  secretCache (cache_of s) !! secretKey ns ref = Some (mkCachedSecret (CfgApp c0) t) →
  (now < t)%Z →
  exec_seq (GetGitHubAppConfig ns ref cid iid) s (Ev Now now :: tr) o s' →
  o = Done (Ok c0) ∧ tr = [Ev (Metric CacheHits ["secret"] MInc) tt] ∧ s' = s.
Proof.
  intros Hl Hnow (? & <- & Hx). simpl in Hx. rewrite Hl in Hx.
  destruct Hx as (now' & tr' & [<- ->]%Ev_Now_cons & Hx). unfold Before in Hx. simpl in Hx.
  rewrite (proj2 (Z.ltb_lt _ _) Hnow) in Hx. by destruct Hx as ([] & ? & -> & -> & -> & ->).
Qed.

(** [Cleanup] drops exactly the entries whose expiry has passed, so no
    lookup at the time of the cleanup or later can tell whether it ran. *)
Theorem Cleanup_transparent {S : Type} `{HasCache S, MapRange} (s : S) tr o s' :
  exec_seq Cleanup s tr o s' →
  ∃ now, tr = [Ev Now now] ∧ o = Done tt ∧
    s' = with_cache (cleaned now (cache_of s)) s ∧
    (∀ k e, secretCache (cache_of s') !! k = Some e ↔
            secretCache (cache_of s) !! k = Some e ∧ (now ≤ cs_expiresAt e)%Z) ∧
    (∀ A (sel : cachedConfig → option A) k t a, (now ≤ t)%Z →
            usable sel s' k t a ↔ usable sel s k t a) ∧
    (∀ k e, scaleSetCache (cache_of s') !! k = Some e ↔
            scaleSetCache (cache_of s) !! k = Some e ∧ (now ≤ css_expiresAt e)%Z).
Proof.
  intros (now & ? & -> & ? & <- & -> & -> & ->). exists now. do 3 (split; [done|]).
  cbn [snd]. rewrite cache_of_with. cbn [cleaned secretCache scaleSetCache].
  split; [intros; apply cleanup_loop_Some|].
  split; [intros; by apply cleaned_usable|intros; apply cleanup_loop_Some].
Qed.

(** [GetScaleSet] calls the getter exactly when there is no fresh entry;
    a successful answer is stored with the TTL and a failed one is not. *)
Theorem GetScaleSet_spec {S : Type} `{HasCache S} id {R} (c : Call R)
    (split : R → option RunnerScaleSet * option error) (s : S) tr o s' :
  exec_seq (GetScaleSet id (r ← call c; Ret (split r))) s tr o s' →
  (∃ now e, scaleSetCache (cache_of s) !! id = Some e ∧ (now < css_expiresAt e)%Z ∧
     tr = [Ev Now now; Ev (Metric CacheHits ["scaleset"] MInc) tt] ∧
     o = Done (css_scaleSet e, None) ∧ s' = s) ∨
  (∃ pre r post,
     tr = pre ++ [Ev (Metric CacheMisses ["scaleset"] MInc) tt; Ev c r] ++ post ∧
     (pre = [] ∧ scaleSetCache (cache_of s) !! id = None ∨
      ∃ now e, pre = [Ev Now now] ∧ scaleSetCache (cache_of s) !! id = Some e ∧
               (css_expiresAt e ≤ now)%Z) ∧
     match split r with
     | (_, Some err) => post = [] ∧ o = Done (None, Some err) ∧ s' = s
     | (ss, None) => ∃ now, post = [Ev Now now] ∧ o = Done (ss, None) ∧
         s' = with_cache (put_scaleSet id
                (mkCachedScaleSet ss (now + scaleSetTTL (cache_of s))%Z) (cache_of s)) s
     end).
Proof.
  intros (? & <- & Hx). simpl in Hx.
  assert (Hmiss : ∀ tr, exec_seq (metric CacheMisses ["scaleset"] MInc;;
      '(ss, err) ← r ← call c; Ret (split r);
      match err with
      | Some e => Ret (None, Some e)
      | None => now ← call Now;
        atomic (λ s, (tt, with_cache (put_scaleSet id
          (mkCachedScaleSet ss (time_Add now (scaleSetTTL (cache_of s)))) (cache_of s)) s));;
        Ret (ss, None)
      end) s tr o s' → ∃ r post,
      tr = [Ev (Metric CacheMisses ["scaleset"] MInc) tt; Ev c r] ++ post ∧
      match split r with
      | (_, Some err) => post = [] ∧ o = Done (None, Some err) ∧ s' = s
      | (ss, None) => ∃ now, post = [Ev Now now] ∧ o = Done (ss, None) ∧
         s' = with_cache (put_scaleSet id
                (mkCachedScaleSet ss (now + scaleSetTTL (cache_of s))%Z) (cache_of s)) s
      end).
  { intros tr0 ([] & ? & -> & r & post & -> & Hy). simpl in Hy. exists r, post.
    split; [done|]. destruct (split r) as [ss [e|]]; simpl in Hy; [naive_solver|].
    destruct Hy as (now & ? & -> & ? & <- & -> & -> & ->). by exists now. }
  destruct (scaleSetCache (cache_of s) !! id) as [e|] eqn:He.
  - destruct Hx as (now & tr' & -> & Hx). unfold Before in Hx.
    destruct (now <? css_expiresAt e)%Z eqn:Hb; breflect.
    + left. destruct Hx as ([] & ? & -> & -> & -> & ->). by exists now, e.
    + right. destruct (Hmiss _ Hx) as (r & post & -> & Hr).
      exists [Ev Now now], r, post. split; [done|]. split; [|done]. right. by exists now, e.
  - right. destruct (Hmiss _ Hx) as (r & post & -> & Hr).
    exists [], r, post. split; [done|]. split; [by left|done].
Qed.

(** ** Concrete runs *)

(** An API server that has one secret, and a clock that advances by a minute
    at every reading. *)
Definition secret_env (data : gmap string string) (R : Type) (c : Call R) (n : nat) : R :=
  match c in Call R0 return R0 with
  | K8sGetSecret _ => Ok (mkSecret emptyMeta data)
  | Now => (Z.of_nat n * Minute)%Z
  | GetRunnerScaleSetByID _ id => (Some (mkScaleSet id "set" 1 None false None), None)
  | c' => offline c'
  end.

Definition pem_secret : gmap string string := {["private_key" := "PEM"]}.
Definition token_secret : gmap string string := {["token" := "ghp"]}.
Definition app_ref : NamespacedName := mkNN "" "app".

#[local] Existing Instance map_range_default.

Lemma GetGitHubAppConfig_spec_witness :
  let p := GetGitHubAppConfig (S := Cache) "ns" app_ref "client" 7 in
  let x := run (secret_env pem_secret) p NewCache 0 in
  x.1.2 = Done (Ok (mkAppConfig "client" 7 "PEM")) ∧
  ∃ res, x.1.2 = Done res ∧
    get_config_spec sel_app CfgApp ["privateKey"; "private_key"; "key"] "privateKey"
      " does not contain private key" (mkAppConfig "client" 7) (secretKey "ns" app_ref)
      NewCache x.1.1 res x.2 ∧
    (∀ e, res = Err e → x.2 = NewCache).
Proof.
  intros p x. split; [vm_compute; reflexivity|].
  apply (GetGitHubAppConfig_spec "ns" app_ref "client" 7). apply run_exec.
Defined.

Lemma GetPATConfig_ttl_witness :
  let key := mkNN "ns" "app" in
  let fresh := put_secret key (mkCachedSecret (CfgPAT (mkPATConfig "ghp")) (7 * Minute)%Z) NewCache in
  exec_seq (GetPATConfig "ns" app_ref) NewCache
    [Ev (Metric CacheMisses ["secret"] MInc) tt; Ev (K8sGetSecret key) (Ok (mkSecret emptyMeta token_secret));
     Ev Now (2 * Minute)%Z] (Done (Ok (mkPATConfig "ghp"))) fresh ∧
  exec_seq (GetPATConfig "other" key) fresh
    [Ev Now (3 * Minute)%Z; Ev (Metric CacheHits ["secret"] MInc) tt]
    (Done (Ok (mkPATConfig "ghp"))) fresh ∧
  ((3 * Minute < 2 * Minute + secretTTL NewCache)%Z →
     [Ev (Metric CacheHits ["secret"] MInc) tt] = [@Ev Cache _ (Metric CacheHits ["secret"] MInc) tt] ∧
     Done (Ok (mkPATConfig "ghp")) = @Done (result error PATConfig) (Ok (mkPATConfig "ghp")) ∧
     fresh = fresh).
Proof.
  intros key fresh.
  assert (H1 : exec_seq (GetPATConfig "ns" app_ref) NewCache
    [Ev (Metric CacheMisses ["secret"] MInc) tt; Ev (K8sGetSecret key) (Ok (mkSecret emptyMeta token_secret));
     Ev Now (2 * Minute)%Z] (Done (Ok (mkPATConfig "ghp"))) fresh)
    by exact (run_exec (secret_env token_secret) (GetPATConfig "ns" app_ref) NewCache 0).
  assert (H2 : exec_seq (GetPATConfig "other" key) fresh
    [Ev Now (3 * Minute)%Z; Ev (Metric CacheHits ["secret"] MInc) tt]
    (Done (Ok (mkPATConfig "ghp"))) fresh)
    by exact (run_exec (secret_env token_secret) (GetPATConfig "other" key) fresh 3).
  split; [exact H1|split; [exact H2|]].
  refine (proj1 (GetPATConfig_ttl "ns" app_ref "other" key NewCache fresh fresh _ _ _ _ _ _
                   H1 _ eq_refl H2)).
  by exists [Ev (Metric CacheMisses ["secret"] MInc) tt], (mkSecret emptyMeta token_secret).
Defined.

Lemma GetGitHubAppConfig_hit_ignores_identity_witness :
  let c0 := mkAppConfig "first-client" 1 "PEM" in
  let s := put_secret (mkNN "ns" "app") (mkCachedSecret (CfgApp c0) Minute) NewCache in
  let p := GetGitHubAppConfig "ns" app_ref "second-client" 2 in
  let tr := [Ev (Metric CacheHits ["secret"] MInc) tt] in
  exec_seq p s (Ev Now 0%Z :: tr) (Done (Ok c0)) s ∧
  (Done (Ok c0) = @Done (result error _) (Ok c0) ∧ tr = [Ev (Metric CacheHits ["secret"] MInc) tt] ∧ s = s).
Proof.
  intros c0 s p tr.
  assert (H1 : exec_seq p s (Ev Now 0%Z :: tr) (Done (Ok c0)) s)
    by exact (run_exec (secret_env pem_secret) p s 0).
  split; [exact H1|].
  by apply (GetGitHubAppConfig_hit_ignores_identity "ns" app_ref "second-client" 2 s c0 Minute 0 tr).
Defined.

Lemma Cleanup_transparent_witness :
  let s := put_secret (mkNN "ns" "app") (mkCachedSecret (CfgPAT (mkPATConfig "t")) Minute) NewCache in
  secretCache (run (secret_env ∅) Cleanup s 2).2 = ∅ ∧
  secretCache (run (secret_env ∅) Cleanup s 1).2 = secretCache s ∧
  ∃ now, (run (secret_env ∅) Cleanup s 2).2 = with_cache (cleaned now (cache_of s)) s.
Proof.
  intros s. split; [vm_compute; reflexivity|]. split; [vm_compute; reflexivity|].
  destruct (Cleanup_transparent s _ _ _ (run_exec (secret_env ∅) Cleanup s 2))
    as (now & _ & _ & Hs & _).
  by exists now.
Defined.

Lemma GetScaleSet_spec_witness :
  let ss := mkScaleSet 5 "set" 1 None false None in
  let p := GetScaleSet 5 (r ← call (GetRunnerScaleSetByID 0 5); Ret r) in
  let x := run (secret_env ∅) p NewCache 0 in
  x.1.2 = Done (Some ss, None) ∧
  ∃ now, x.2 = with_cache (put_scaleSet 5
           (mkCachedScaleSet (Some ss) (now + scaleSetTTL NewCache)%Z) NewCache) NewCache.
Proof.
  intros ss p x. split; [vm_compute; reflexivity|].
  pose proof (GetScaleSet_spec 5 (GetRunnerScaleSetByID 0 5) id NewCache _ _ _
                (run_exec (secret_env ∅) p NewCache 0)) as [(? & ? & Hf & _)|(? & r & post & Htr & _ & Hr)];
    [discriminate Hf|].
  destruct (id r) as [ss' [err|]]; [destruct Hr as (_ & Hr & _); discriminate Hr|].
  destruct Hr as (now & _ & Ho & Hs). exists now. injection Ho as <-. exact Hs.
Defined.
