(* ===== verification/Client.v ===== *)
(** * internal/client: rate limiter, client factory, cache cleanup runnable

    [ClientFactory] turns an AutoscaleSet into an authenticated GitHub client:
    it loads the credentials through the cache and announces the scale set the
    client works for.  The token bucket itself ([golang.org/x/time/rate]) is
    outside the repository: a limiter is the pair of arguments it is built
    with, and [Wait] is an external call. *)

From S2P Require Export Retry Cache.

(** ** ratelimit.go *)

Record RateLimiter : Type := mkRateLimiter { rl_limit : float64; rl_burst : Z }.

Definition NewRateLimiter (requestsPerSecond : float64) (burst : Z) : RateLimiter :=
  let burst :=
    if (burst <=? 0)%Z then
      let burst := int64_of_float requestsPerSecond in
      if (burst <? 1)%Z then 1%Z else burst
    else burst in
  mkRateLimiter requestsPerSecond burst.

(** A client, of any type, with a limiter of its own. *)
Record RateLimitedClient (A : Type) : Type := mkRateLimitedClient {
  rlc_client : A; rlc_limiter : RateLimiter }.
Arguments mkRateLimitedClient {A}.
Arguments rlc_client {A}.
Arguments rlc_limiter {A}.

Definition NewRateLimitedClient {A} (client : A) (requestsPerSecond : float64) (burst : Z)
  : RateLimitedClient A :=
  mkRateLimitedClient client (NewRateLimiter requestsPerSecond burst).

(** ** scaleset_client.go *)

Inductive Subsystem : Type := SubsystemController | SubsystemListener.

Definition subsystem_string (s : Subsystem) : string :=
  match s with SubsystemController => "controller" | SubsystemListener => "listener" end.

Record ClientConfig : Type := mkClientConfig {
  cc_GitHubConfigURL : string;
  cc_GitHubApp : option GitHubAppConfig;
  cc_PAT : option PATConfig;
  cc_SystemInfo : SystemInfo
}.

(** The factory's cache is the one in the shared memory; what is left of it is
    its rate limiter. *)
Record ClientFactory : Type := mkClientFactory { f_rateLimiter : option RateLimiter }.

Definition GetRateLimiter (f : ClientFactory) : option RateLimiter := f_rateLimiter f.

Definition ClientFactoryOption : Type := ClientFactory → ClientFactory.

Definition WithRateLimiter (rps : float64) (burst : Z) : ClientFactoryOption :=
  λ f, mkClientFactory (Some (NewRateLimiter rps burst)).

Definition NewClientFactory (opts : list ClientFactoryOption) : ClientFactory :=
  foldl (λ f opt, opt f) (mkClientFactory None) opts.

Section Client.
Context {S : Type} `{HasCache S, MapRange}.

(** [limiter.Wait(ctx)], guarded by the callers' [GetRateLimiter() != nil]. *)
Definition Wait (r : RateLimiter) : prog S (option error) := call RateLimitWait.

Definition Allow (r : RateLimiter) : prog S bool := call RateLimitAllow.

Definition RateLimitedClient_Wait {A} (r : RateLimitedClient A) : prog S (option error) :=
  Wait (rlc_limiter r).

Definition CreateClient (config : ClientConfig) : prog S (result error Client) :=
  match cc_GitHubApp config with
  | Some app =>
    call (NewClientWithGitHubApp (cc_GitHubConfigURL config) app (cc_SystemInfo config))
  | None =>
    match cc_PAT config with
    | Some pat => call (NewClientWithPAT (cc_GitHubConfigURL config) pat (cc_SystemInfo config))
    | None => Ret (Err (errors_New "either GitHubApp or PAT must be provided"))
    end
  end.

Definition LoadGitHubAppFromSecret (namespace : string) (secretRef : NamespacedName)
    (clientID : string) (installationID : Z) : prog S (result error GitHubAppConfig) :=
  GetGitHubAppConfig namespace secretRef clientID installationID.

Definition LoadPATFromSecret (namespace : string) (secretRef : NamespacedName)
  : prog S (result error PATConfig) :=
  GetPATConfig namespace secretRef.

Definition GetCachedScaleSet (scaleSetID : Z)
    (getter : prog S (option RunnerScaleSet * option error))
  : prog S (option RunnerScaleSet * option error) :=
  GetScaleSet scaleSetID getter.

Definition factory_InvalidateSecret (secretRef : NamespacedName) : prog S unit :=
  InvalidateSecret secretRef.

Definition factory_InvalidateScaleSet (scaleSetID : Z) : prog S unit :=
  InvalidateScaleSet scaleSetID.

(** [f.cache], which the shared memory holds. *)
Definition GetCache (s : S) : Cache := cache_of s.

(** The telemetry identity of a client. *)
Definition system_info (scaleSetID : Z) (sub : Subsystem) : SystemInfo :=
  mkSystemInfo "actions-runner-controller" "v1alpha1" "unknown" scaleSetID
    (subsystem_string sub).

Definition err_no_credentials : error :=
  errors_New "either GitHubApp or PersonalAccessToken must be specified".

Definition secret_ref (r : SecretRef) : NamespacedName := mkNN (sr_namespace r) (sr_name r).

Definition CreateClientForAutoscaleSet (a : AutoscaleSet) (sub : Subsystem)
  : prog S (result error Client) :=
  let url := as_githubConfigURL (as_spec a) in
  let ns := m_namespace (as_meta a) in
  config ← match as_githubApp (as_spec a) with
    | Some app =>
      appConfig ← LoadGitHubAppFromSecret ns (secret_ref (ga_privateKeySecretRef app))
                    (ga_clientID app) (ga_installationID app);
      Ret (result_map (λ c, mkClientConfig url (Some c) None (system_info 0 sub)) appConfig)
    | None =>
      match as_pat (as_spec a) with
      | Some pat =>
        patConfig ← LoadPATFromSecret ns (secret_ref (pa_tokenSecretRef pat));
        Ret (result_map (λ c, mkClientConfig url None (Some c) (system_info 0 sub)) patConfig)
      | None => Ret (Err err_no_credentials)
      end
    end;
  match config with
  | Err e => Ret (Err e)
  | Ok config =>
    client ← CreateClient config;
    match client with
    | Err e => Ret (Err e)
    | Ok c =>
      match ast_scaleSetID (as_status a) with
      | Some id => call (SetSystemInfo c (system_info id sub));; Ret (Ok c)
      | None => Ret (Ok c)
      end
    end
  end.

(** ** cache_cleanup.go

    [Start] loops until the context is done; [fuel] counts the iterations,
    [None] means it is still running. *)
Fixpoint CacheCleanupRunnable_Start (fuel : nat) : prog S (option unit) :=
  match fuel with
  | 0 => Ret None
  | Datatypes.S fuel =>
    ctxDone ← call (SelectDoneOrTick (1 * Minute));
    if ctxDone : bool then Ret (Some tt)
    else Cleanup;; CacheCleanupRunnable_Start fuel
  end.
End Client.

(** ** What the factory issues *)

(** The calls behind a client: secrets, constructors, the clock, and the cache
    counters with one label. *)
Definition factory_call (R : Type) (c : Call R) : Prop :=
  match c with
  | K8sGetSecret _ | NewClientWithGitHubApp _ _ _ | NewClientWithPAT _ _ _
  | SetSystemInfo _ _ | Now => True
  | Metric v [_] MInc => v = CacheHits ∨ v = CacheMisses
  | _ => False
  end.

Section Factory.
Context {S : Type} `{HasCache S, MapRange}.

Lemma always_CreateClientForAutoscaleSet (P : ∀ R, Call R → Prop) a sub :
  (∀ R (c : Call R), factory_call R c → P R c) →
  always P (CreateClientForAutoscaleSet (S := S) a sub).
Proof.
  intros HP. apply (always_mono factory_call); [done|]. clear HP P.
  unfold CreateClientForAutoscaleSet, LoadGitHubAppFromSecret, LoadPATFromSecret.
  unfold GetGitHubAppConfig, GetPATConfig, lookup_secret, store_secret, CreateClient.
  always_tac ltac:(first [exact I|by left|by right]).
Qed.

Lemma always_GetCachedScaleSet (P : ∀ R, Call R → Prop) id getter :
  (∀ R (c : Call R), factory_call R c → P R c) → always P getter →
  always P (GetCachedScaleSet (S := S) id getter).
Proof.
  intros HP Hg. unfold GetCachedScaleSet, GetScaleSet.
  always_tac ltac:(apply HP; first [exact I|by left|by right]).
Qed.

Lemma no_batch_CreateClientForAutoscaleSet a sub :
  no_batch (CreateClientForAutoscaleSet (S := S) a sub).
Proof.
  unfold CreateClientForAutoscaleSet, LoadGitHubAppFromSecret, LoadPATFromSecret,
    GetGitHubAppConfig, GetPATConfig, lookup_secret, store_secret, CreateClient.
  no_batch_tac.
Qed.

(** Creating a client touches nothing but the cache. *)
Lemma preserves_CreateClientForAutoscaleSet (Q : S → S → Prop) a sub :
  Reflexive Q → (∀ c s, Q s (with_cache c s)) →
  preserves Q (CreateClientForAutoscaleSet (S := S) a sub).
Proof.
  intros Hr Hc. unfold CreateClientForAutoscaleSet, LoadGitHubAppFromSecret, LoadPATFromSecret,
    GetGitHubAppConfig, GetPATConfig, lookup_secret, store_secret, CreateClient.
  preserves_tac ltac:(first [apply Hr|apply Hc]).
Qed.

Lemma preserves_GetCachedScaleSet (Q : S → S → Prop) id getter :
  Reflexive Q → (∀ c s, Q s (with_cache c s)) → preserves Q getter →
  preserves Q (GetCachedScaleSet (S := S) id getter).
Proof.
  intros Hr Hc Hg. unfold GetCachedScaleSet, GetScaleSet.
  preserves_tac ltac:(first [apply Hr|apply Hc]); exact Hg.
Qed.

Lemma no_batch_GetCachedScaleSet id getter :
  no_batch getter → no_batch (GetCachedScaleSet (S := S) id getter).
Proof. intros Hg. unfold GetCachedScaleSet, GetScaleSet. no_batch_tac. Qed.
End Factory.

(** The structural steps through the factory and the retries; [tac] is for the
    calls, [fac] for the calls of the factory. *)
Ltac always_prog_step tac fac :=
  first
    [ apply always_CreateClientForAutoscaleSet; fac
    | apply always_GetCachedScaleSet; [fac|]
    | apply always_RetryWithBackoff; [intros ?; tac|]
    | always_step tac ].

Ltac always_prog tac fac := repeat always_prog_step tac fac.

Ltac no_batch_prog :=
  repeat first
    [ apply no_batch_CreateClientForAutoscaleSet | apply no_batch_GetCachedScaleSet
    | apply no_batch_RetryWithBackoff | no_batch_step ].

(** [tac] is for what the factory does to the memory. *)
Ltac preserves_prog tac :=
  repeat first
    [ apply preserves_CreateClientForAutoscaleSet; tac
    | apply preserves_GetCachedScaleSet; [tac..|]
    | apply preserves_RetryWithBackoff
    | preserves_step tac ].

(** ** Properties *)

(** Every limiter the factory installs lets at least one request through:
    a positive burst is kept, any other is replaced by the rate cut to an
    integer, and by 1 when that is not positive, NaN and infinities included. *)
Theorem NewRateLimiter_burst_positive rps burst :
  (1 ≤ rl_burst (NewRateLimiter rps burst))%Z ∧ rl_limit (NewRateLimiter rps burst) = rps ∧
  ((0 < burst)%Z → rl_burst (NewRateLimiter rps burst) = burst) ∧
  ((burst ≤ 0)%Z → (1 ≤ int64_of_float rps)%Z →
     rl_burst (NewRateLimiter rps burst) = int64_of_float rps).
Proof.
  unfold NewRateLimiter. cbn [rl_burst rl_limit].
  destruct (burst <=? 0)%Z eqn:Hb; [destruct (int64_of_float rps <? 1)%Z eqn:Hi|]; breflect;
    repeat split; lia.
Qed.

(** The last limiter option wins, and a factory without one has no limiter. *)
Lemma NewClientFactory_app opts opt :
  NewClientFactory (opts ++ [opt]) = opt (NewClientFactory opts).
Proof. unfold NewClientFactory. by rewrite foldl_app. Qed.

Section Specs.
Context {S : Type} `{HasCache S, MapRange}.

(** The call that announces the scale set of a new client. *)
Definition announces (a : AutoscaleSet) (sub : Subsystem) (res : result error Client)
  : list (event S) :=
  match res, ast_scaleSetID (as_status a) with
  | Ok c, Some id => [Ev (SetSystemInfo c (system_info id sub)) tt]
  | _, _ => []
  end.

(** Creating a client from loaded credentials: the load, and on success the
    constructor [mk] for them followed by the announcement. *)
Definition creates {C} (load : prog S (result error C)) (mk : C → Call (result error Client))
    (a : AutoscaleSet) (sub : Subsystem) (s : S) (tr : list (event S))
    (res : result error Client) (s' : S) : Prop :=
  ∃ tr1 r, exec_seq load s tr1 (Done r) s' ∧
    match r with
    | Err e => tr = tr1 ∧ res = Err e
    | Ok cfg => tr = tr1 ++ Ev (mk cfg) res :: announces a sub res
    end.

Lemma exec_announce a sub mk (s : S) tr o s' :
  exec_seq (client ← call mk;
            match client with
            | Err e => Ret (Err e)
            | Ok c =>
              match ast_scaleSetID (as_status a) with
              | Some id => call (SetSystemInfo c (system_info id sub));; Ret (Ok c)
              | None => Ret (Ok c)
              end
            end) s tr o s' →
  ∃ res, o = Done res ∧ tr = Ev mk res :: announces a sub res ∧ s' = s.
Proof.
  intros (r & tr' & -> & Hx). simpl in Hx. exists r. unfold announces.
  destruct r as [c|e]; [destruct (ast_scaleSetID (as_status a))|].
  - destruct Hx as ([] & ? & -> & -> & -> & ->). done.
  - by destruct Hx as (-> & -> & ->).
  - by destruct Hx as (-> & -> & ->).
Qed.

Lemma exec_creates {C} (load : prog S (result error C)) mk (config : C → ClientConfig) a sub s tr o s' :
  (∀ s tr o s', exec_seq load s tr o s' → ∃ r, o = Done r) →
  (∀ c, CreateClient (S := S) (config c) = call (mk c)) →
  exec_seq (prog_bind (prog_bind load (λ r, Ret (result_map config r))) (λ r,
    match r with
    | Err e => Ret (Err e)
    | Ok config =>
      client ← CreateClient config;
      match client with
      | Err e => Ret (Err e)
      | Ok c =>
        match ast_scaleSetID (as_status a) with
        | Some id => call (SetSystemInfo c (system_info id sub));; Ret (Ok c)
        | None => Ret (Ok c)
        end
      end
    end)) s tr o s' →
  ∃ res, o = Done res ∧ creates load mk a sub s tr res s'.
Proof.
  intros Hload Hcfg Hx. unfold exec_seq in Hx. apply bind_assoc in Hx.
  apply exec_bind in Hx as [(tr1 & r & s1 & tr2 & -> & H1 & H2)|[-> H1]];
    [|by destruct (Hload _ _ _ _ H1)].
  destruct r as [c|e]; cbn [prog_bind result_map] in H2.
  - cbn [exec] in H2. rewrite Hcfg in H2. apply exec_announce in H2 as (res & -> & -> & ->).
    exists res. split; [done|]. by exists tr1, (Ok c).
  - destruct H2 as (-> & -> & ->). exists (Err e). split; [done|].
    exists tr1, (Err e). by rewrite app_nil_r.
Qed.
End Specs.

(** [CreateClientForAutoscaleSet] always returns; without credentials it
    fails before any call; the GitHub App wins over a token; the credentials of
    exactly one kind are loaded from the secret the spec names (in the set's
    namespace by default) and used for exactly one client, built for the spec's
    URL; a failed load creates no client; the scale-set ID is announced exactly
    when the client exists and the status has one. *)
Theorem CreateClientForAutoscaleSet_spec {S : Type} `{HasCache S, MapRange}
    (a : AutoscaleSet) sub (s : S) tr o s' :
  exec_seq (CreateClientForAutoscaleSet a sub) s tr o s' →
  ∃ res, o = Done res ∧
    match as_githubApp (as_spec a), as_pat (as_spec a) with
    | Some app, _ =>
      creates (GetGitHubAppConfig (m_namespace (as_meta a))
                 (secret_ref (ga_privateKeySecretRef app)) (ga_clientID app) (ga_installationID app))
        (λ c, NewClientWithGitHubApp (as_githubConfigURL (as_spec a)) c (system_info 0 sub))
        a sub s tr res s'
    | None, Some pat =>
      creates (GetPATConfig (m_namespace (as_meta a)) (secret_ref (pa_tokenSecretRef pat)))
        (λ c, NewClientWithPAT (as_githubConfigURL (as_spec a)) c (system_info 0 sub))
        a sub s tr res s'
    | None, None => tr = [] ∧ res = Err err_no_credentials ∧ s' = s
    end.
Proof.
  unfold CreateClientForAutoscaleSet. intros Hx.
  destruct (as_githubApp (as_spec a)) as [app|]; [|destruct (as_pat (as_spec a)) as [pat|]].
  - apply (exec_creates _ 
      (λ c, NewClientWithGitHubApp (as_githubConfigURL (as_spec a)) c (system_info 0 sub))) in Hx; [done| |done].
    clear. intros s tr o s' Hx. rewrite GetGitHubAppConfig_generic in Hx.
    apply get_config_correct in Hx as (r & -> & _). eauto.
  - apply (exec_creates _ 
      (λ c, NewClientWithPAT (as_githubConfigURL (as_spec a)) c (system_info 0 sub))) in Hx; [done| |done].
    clear. intros s tr o s' Hx. rewrite GetPATConfig_generic in Hx.
    apply get_config_correct in Hx as (r & -> & _). eauto.
  - destruct Hx as (-> & -> & ->). by exists (Err err_no_credentials).
Qed.

(** A run with a token: one fetch, one client, one announcement. *)
Definition pat_set : AutoscaleSet :=
  mkAutoscaleSet "v1alpha1" "AutoscaleSet" (meta_set_labels emptyMeta None)
    (mkASSpec "https://github.com/org" "set" "default" [] None None "img" None
       (Some (mkPATAuth (mkSecretRef "app" "ns" ""))) None)
    (mkASStatus (Some 42%Z) "" [] 0 0 0 []).

#[local] Existing Instance map_range_default.

Lemma CreateClientForAutoscaleSet_spec_witness :
  let x := run (secret_env token_secret)
             (CreateClientForAutoscaleSet pat_set SubsystemListener) NewCache 0 in
  x.1.2 = Done (Ok 0) ∧
  ∃ tr1, x.1.1 = tr1 ++ [Ev (NewClientWithPAT "https://github.com/org" (mkPATConfig "ghp")
                             (system_info 0 SubsystemListener)) (Ok 0);
                         Ev (SetSystemInfo 0 (system_info 42 SubsystemListener)) tt].
Proof.
  intros x. assert (Ho : x.1.2 = Done (Ok 0)) by (vm_compute; reflexivity).
  split; [exact Ho|].
  destruct (CreateClientForAutoscaleSet_spec pat_set SubsystemListener NewCache _ _ _
              (run_exec (secret_env token_secret) _ NewCache 0)) as (res & Hres & _).
  exists [Ev (Metric CacheMisses ["secret"] MInc) tt;
          Ev (K8sGetSecret (mkNN "ns" "app")) (Ok (mkSecret emptyMeta token_secret));
          Ev Now (2 * Minute)%Z].
  reflexivity.
Defined.

(** The cleanup runnable returns, without an error, exactly when its
    context is done, after one cleanup per tick; however many ticks it lived
    through, the usable entries are those of the cache it started from. *)
Theorem CacheCleanupRunnable_Start_spec {S : Type} `{HasCache S, MapRange} fuel (s : S) tr o s' :
  exec_seq (CacheCleanupRunnable_Start fuel) s tr o s' →
  (o = Done (Some tt) ∧ last tr = Some (Ev (SelectDoneOrTick (1 * Minute)) true) ∨
   o = Done None ∧ length tr = 2 * fuel) ∧
  (∀ A (sel : cachedConfig → option A) k t a,
     Forall (λ e, ∀ now, now_of e = Some now → (now ≤ t)%Z) tr →
     usable sel s' k t a ↔ usable sel s k t a).
Proof.
  revert s tr. induction fuel as [|fuel IH]; intros s tr Hx.
  - destruct Hx as (-> & -> & ->). split; [by right|done].
  - destruct Hx as (d & tr1 & -> & Hx). simpl in Hx. destruct d.
    + destruct Hx as (-> & -> & ->). split; [by left|done].
    + destruct Hx as (now & tr2 & -> & ? & <- & Hx). simpl in Hx.
      destruct (IH _ _ Hx) as [Ho Hu]. split.
      * destruct Ho as [[-> Hl]|[-> Hl]]; [left|right]; (split; [done|]).
        -- destruct tr2; done.
        -- simpl. rewrite Hl. lia.
      * intros A sel k t a Ht. inversion Ht as [|? ? _ Ht']; subst.
        inversion Ht' as [|? ? Hnow Htr]; subst.
        rewrite Hu by done.
        assert (Hc : exec_seq Cleanup s [Ev Now now] (Done tt) (with_cache (cleaned now (cache_of s)) s))
          by (exists now, []; split; [done|]; by exists s).
        exact (cleaned_usable now s sel k t a (Hnow now eq_refl)).
Qed.

Lemma CacheCleanupRunnable_Start_spec_witness :
  let s := put_secret (mkNN "ns" "app") (mkCachedSecret (CfgPAT (mkPATConfig "t")) Minute) NewCache in
  let x := run (λ R c n, match c in Call R0 return R0 with
                         | SelectDoneOrTick _ => bool_decide (4 ≤ n)
                         | c' => secret_env ∅ _ c' n end)
             (CacheCleanupRunnable_Start 5) s 0 in
  x.1.2 = Done (Some tt) ∧ secretCache x.2 = ∅ ∧
  (x.1.2 = Done (Some tt) ∧ last x.1.1 = Some (Ev (SelectDoneOrTick (1 * Minute)) true) ∨
   x.1.2 = Done None ∧ length x.1.1 = 2 * 5).
Proof.
  intros s x. split; [vm_compute; reflexivity|]. split; [vm_compute; reflexivity|].
  refine (proj1 (CacheCleanupRunnable_Start_spec 5 s _ _ x.2 _)). apply run_exec.
Defined.
