(* ===== verification/Webhook.v ===== *)
(** * api/v1alpha1/*_webhook.go: defaulting and validating admission

    One Module per kind.  [Default] fills the object in place before
    [ValidateCreate] or [ValidateUpdate] sees it, which is how the API server
    calls them; [None] is the nil error. *)

From S2P Require Export Types.

Module AutoscaleSetWebhook.

Definition default_label (l : ScaleSetLabel) : ScaleSetLabel :=
  if bool_decide (sl_type l = "") then mkScaleSetLabel "System" (sl_name l) else l.

Definition Default (obj : AutoscaleSet) : AutoscaleSet :=
  let s := as_spec obj in
  as_set_spec obj (mkASSpec
    (as_githubConfigURL s) (as_scaleSetName s)
    (if bool_decide (as_runnerGroup s = "") then "default" else as_runnerGroup s)
    (default_label <$> as_labels s)
    (match as_minRunners s with None => Some 0%Z | m => m end)
    (match as_maxRunners s with None => Some 10%Z | m => m end)
    (as_runnerImage s) (as_githubApp s) (as_pat s) (as_runnerTemplate s)).

Definition validate (r : AutoscaleSet) : option error :=
  let s := as_spec r in
  if bool_decide (as_githubConfigURL s = "") then
    Some (errors_New "githubConfigURL is required")
  else if bool_decide (as_runnerImage s = "") then
    Some (errors_New "runnerImage is required")
  else match as_githubApp s, as_pat s with
  | None, None => Some (errors_New "either githubApp or personalAccessToken must be specified")
  | Some _, Some _ => Some (errors_New "cannot specify both githubApp and personalAccessToken")
  | _, _ =>
    match as_minRunners s, as_maxRunners s with
    | Some min, Some max =>
      if (min >? max)%Z then
        Some (errors_New ("minRunners (" +:+ Itoa min +:+ ") cannot be greater than maxRunners ("
                          +:+ Itoa max +:+ ")"))
      else None
    | _, _ => None
    end
  end.

Definition validateUpdate (r old : AutoscaleSet) : option error :=
  match validate r with
  | Some err => Some err
  | None =>
    if bool_decide (ast_scaleSetID (as_status old) ≠ None) &&
       bool_decide (as_githubConfigURL (as_spec r) ≠ as_githubConfigURL (as_spec old))
    then Some (errors_New "cannot change githubConfigURL after scale set is created")
    else None
  end.

Definition ValidateCreate (obj : AutoscaleSet) : option error := validate obj.
Definition ValidateUpdate (oldObj newObj : AutoscaleSet) : option error :=
  validateUpdate newObj oldObj.
Definition ValidateDelete (obj : AutoscaleSet) : option error := None.

(** ** What admission promises *)

(** The well-formedness of an admitted object. *)
Record valid (s : AutoscaleSetSpec) : Prop := {
  valid_url : as_githubConfigURL s ≠ "";
  valid_image : as_runnerImage s ≠ "";
  valid_credentials : is_Some (as_githubApp s) ↔ as_pat s = None;
  valid_bounds : ∀ min max, as_minRunners s = Some min → as_maxRunners s = Some max →
                            (min ≤ max)%Z
}.

Lemma validate_valid r : validate r = None ↔ valid (as_spec r).
Proof.
  unfold validate. split.
  - intros Hv. repeat case_bool_decide; try done.
    destruct (as_githubApp _) eqn:Ha, (as_pat _) eqn:Hp; try done;
      (split; [done|done|rewrite Ha, Hp; by split; [intros []|]|]);
      intros min max Hmin Hmax; rewrite Hmin, Hmax in Hv;
      destruct (min >? max)%Z eqn:Hb; breflect; (done || lia).
  - intros [Hu Hi Hc Hb]. do 2 (rewrite bool_decide_eq_false_2 by done).
    assert (Hbounds : match as_minRunners (as_spec r), as_maxRunners (as_spec r) with
      | Some min, Some max =>
        if (min >? max)%Z then
          Some (errors_New ("minRunners (" +:+ Itoa min +:+
            ") cannot be greater than maxRunners (" +:+ Itoa max +:+ ")"))
        else None
      | _, _ => None
      end = None).
    { destruct (as_minRunners _) as [min|], (as_maxRunners _) as [max|]; try done.
      specialize (Hb min max eq_refl eq_refl). rewrite Z.gtb_ltb.
      by rewrite (proj2 (Z.ltb_ge _ _)) by lia. }
    destruct (as_githubApp _), (as_pat _); try done.
    + exfalso. by destruct Hc as [Hc _]; discriminate Hc.
    + exfalso. destruct Hc as [_ Hc]. by destruct (Hc eq_refl).
Qed.

Lemma default_label_idem l : default_label (default_label l) = default_label l.
Proof. unfold default_label. repeat (case_bool_decide; simpl in *); congruence. Qed.

Lemma Default_meta obj : as_meta (Default obj) = as_meta obj ∧ as_status (Default obj) = as_status obj.
Proof. done. Qed.

(** Defaulting leaves no hole and changes nothing else: afterwards the
    group is named, both limits are set and every label has a type; what the
    user wrote is kept; a second pass changes nothing. *)
Theorem Default_complete obj :
  let s := as_spec obj in
  let s' := as_spec (Default obj) in
  Default (Default obj) = Default obj ∧
  as_runnerGroup s' ≠ "" ∧ is_Some (as_minRunners s') ∧ is_Some (as_maxRunners s') ∧
  Forall (λ l, sl_type l ≠ "") (as_labels s') ∧
  sl_name <$> as_labels s' = sl_name <$> as_labels s ∧
  ((as_runnerGroup s ≠ "" ∧ is_Some (as_minRunners s) ∧ is_Some (as_maxRunners s) ∧
    Forall (λ l, sl_type l ≠ "") (as_labels s)) → Default obj = obj).
Proof.
  cbn zeta. assert (Hlab : ∀ l, sl_type (default_label l) ≠ "").
  { intros l. unfold default_label. case_bool_decide; simpl; congruence. }
  unfold Default, as_set_spec. simpl. split.
  { f_equal. f_equal; [repeat (case_bool_decide; simpl in *); congruence|..].
    - rewrite <- list_fmap_compose. apply list_fmap_ext. intros. apply default_label_idem.
    - by destruct (as_minRunners _).
    - by destruct (as_maxRunners _). }
  split; [by case_bool_decide|]. split; [by destruct (as_minRunners _); eexists|].
  split; [by destruct (as_maxRunners _); eexists|].
  split; [apply Forall_fmap, Forall_true; intros; apply Hlab|].
  split.
  { rewrite <- list_fmap_compose. apply list_fmap_ext. intros i l _. simpl.
    unfold default_label. by case_bool_decide. }
  intros (Hg & [min Hmin] & [max Hmax] & Hl). destruct obj as [? ? ? [? ? ? labels] ?]; simpl in *; subst.
  do 2 f_equal; [by rewrite bool_decide_eq_false_2|].
  rewrite <- (list_fmap_id labels) at 2. apply list_fmap_ext. intros i l Hi.
  rewrite Forall_lookup in Hl. unfold default_label.
  by rewrite bool_decide_eq_false_2 by exact (Hl i l Hi).
Qed.

(** Well-formedness after defaulting, in the words of the user's object. *)
Lemma Default_valid obj :
  let s := as_spec obj in
  valid (as_spec (Default obj)) ↔
  as_githubConfigURL s ≠ "" ∧ as_runnerImage s ≠ "" ∧
  (is_Some (as_githubApp s) ↔ as_pat s = None) ∧
  (default 0 (as_minRunners s) ≤ default 10 (as_maxRunners s))%Z.
Proof.
  cbn zeta. split.
  - intros [Hu Hi Hc Hb]. split; [exact Hu|]. split; [exact Hi|]. split; [exact Hc|].
    apply Hb; simpl; [by destruct (as_minRunners (as_spec obj))|by destruct (as_maxRunners (as_spec obj))].
  - intros (Hu & Hi & Hc & Hb). split; [exact Hu|exact Hi|exact Hc|].
    intros min max. simpl. destruct (as_minRunners _), (as_maxRunners _); simpl in *;
      intros; simplify_eq; lia.
Qed.

Lemma update_admitted old new :
  ValidateUpdate old new = None ↔
  validate new = None ∧
  (is_Some (ast_scaleSetID (as_status old)) →
   as_githubConfigURL (as_spec new) = as_githubConfigURL (as_spec old)).
Proof.
  unfold ValidateUpdate, validateUpdate. destruct (validate new); [naive_solver|].
  rewrite <- not_eq_None_Some. repeat case_bool_decide; simpl; naive_solver.
Qed.

(** What the creation webhook accepts, after defaulting: a URL, an image,
    exactly one kind of credentials, and limits in order once 0 and 10 stand
    for the missing ones (so a lone minimum above 10 is refused). *)
Theorem create_admitted obj :
  let s := as_spec obj in
  ValidateCreate (Default obj) = None ↔
  as_githubConfigURL s ≠ "" ∧ as_runnerImage s ≠ "" ∧
  (is_Some (as_githubApp s) ↔ as_pat s = None) ∧
  (default 0 (as_minRunners s) ≤ default 10 (as_maxRunners s))%Z.
Proof. cbn zeta. unfold ValidateCreate. by rewrite validate_valid, Default_valid. Qed.

(** The life of an object between the API server and the controller when the
    API server calls the webhooks: an admitted update of the spec keeps the
    status (a subresource), a status update keeps the spec; the controller
    never clears a scale-set ID.  The program as it is never registers the
    webhooks (cmd/main.go does not call SetupWebhookWithManager), so this is
    what the webhooks are worth once it does. *)
Inductive step (old new : AutoscaleSet) : Prop :=
| spec_update obj :
    as_status obj = as_status old → new = Default obj →
    ValidateUpdate old new = None → step old new
| status_update st :
    new = as_set_status old st →
    (is_Some (ast_scaleSetID (as_status old)) → is_Some (ast_scaleSetID st)) →
    step old new.

Lemma step_valid old new :
  step old new → valid (as_spec old) → valid (as_spec new).
Proof.
  intros [obj _ -> Hv|st -> _] Hold; [|done].
  apply validate_valid. unfold ValidateUpdate, validateUpdate in Hv.
  by destruct (validate _).
Qed.

Lemma step_registered old new :
  step old new → is_Some (ast_scaleSetID (as_status old)) →
  is_Some (ast_scaleSetID (as_status new)) ∧
  as_githubConfigURL (as_spec new) = as_githubConfigURL (as_spec old).
Proof.
  intros [obj Hst -> [_ Hu]%update_admitted|st -> Hid] Hs; [|by split; [apply Hid|]].
  split; [by rewrite (proj2 (Default_meta obj)), Hst|by apply Hu].
Qed.

(** C38. What the update webhook lets through after defaulting, exactly: a URL,
    an image, one kind of credentials, limits in order once 0 and 10 stand for
    missing ones, and the old URL when the old object has a scale-set ID.  So
    where the API server sends every update of the spec through the webhook, an
    object stays well formed, and from the moment it has a scale-set ID its
    GitHub URL never changes again.  (The condition is one on the deployment:
    cmd/main.go never registers the webhooks.) *)
Theorem registered_url_immutable old new :
  (∀ obj, let s := as_spec obj in
     ValidateUpdate old (Default obj) = None ↔
     as_githubConfigURL s ≠ "" ∧ as_runnerImage s ≠ "" ∧
     (is_Some (as_githubApp s) ↔ as_pat s = None) ∧
     (default 0 (as_minRunners s) ≤ default 10 (as_maxRunners s))%Z ∧
     (is_Some (ast_scaleSetID (as_status old)) →
      as_githubConfigURL s = as_githubConfigURL (as_spec old))) ∧
  (rtc step old new → valid (as_spec old) →
   valid (as_spec new) ∧
   (is_Some (ast_scaleSetID (as_status old)) →
    as_githubConfigURL (as_spec new) = as_githubConfigURL (as_spec old))).
Proof.
  split.
  - intros obj s. rewrite update_admitted, validate_valid, Default_valid. unfold s.
    rewrite <- (assoc (∧)), <- !(assoc (∧)). done.
  - induction 1 as [a|a b c Hab Hbc IH]; [done|]. intros Ha.
    destruct (IH (step_valid _ _ Hab Ha)) as [Hc Hurl]. split; [done|]. intros Hid.
    destruct (step_registered _ _ Hab Hid) as [Hb <-]. by apply Hurl.
Qed.

Definition sample : AutoscaleSet :=
  mkAutoscaleSet "v1alpha1" "AutoscaleSet" emptyMeta
    (mkASSpec "https://github.com/org" "set" "" [mkScaleSetLabel "" "linux"] (Some 2%Z) None
       "img" None (Some (mkPATAuth (mkSecretRef "pat" "" ""))) None)
    (mkASStatus (Some 42%Z) "" [] 0 0 0 []).

Lemma Default_complete_witness :
  Default sample ≠ sample ∧ Default (Default sample) = Default sample.
Proof.
  split; [vm_compute; intros Heq; discriminate Heq|].
  pose proof (Default_complete sample) as (H & _ & _ & _ & _ & _ & _). exact H.
Defined.

Lemma registered_url_immutable_witness :
  let new := Default (as_set_spec sample (mkASSpec "https://github.com/org" "other" "" [] None None
               "img2" None (Some (mkPATAuth (mkSecretRef "pat2" "" ""))) None)) in
  rtc step (Default sample) new ∧ valid (as_spec new) ∧
  as_githubConfigURL (as_spec new) = "https://github.com/org".
Proof.
  intros new.
  assert (Hs : rtc step (Default sample) new).
  { apply rtc_once. eapply spec_update; [|reflexivity|reflexivity]. reflexivity. }
  assert (Hv : valid (as_spec (Default sample))) by (apply validate_valid; reflexivity).
  destruct (proj2 (registered_url_immutable _ _) Hs Hv) as [Hn Hu].
  split; [exact Hs|split; [exact Hn|apply Hu; eexists; reflexivity]].
Defined.
End AutoscaleSetWebhook.

Module RunnerSetWebhook.

Definition Default (obj : RunnerSet) : RunnerSet :=
  let s := rs_spec obj in
  let ref := rss_autoscaleSetRef s in
  if bool_decide (ref_namespace ref = "") then
    rs_set_spec obj (mkRSSpec (mkASRef (ref_name ref) (m_namespace (rs_meta obj)))
                       (rss_runnerGroup s) (rss_runnerTemplate s))
  else obj.

Definition validate (r : RunnerSet) : option error :=
  if bool_decide (ref_name (rss_autoscaleSetRef (rs_spec r)) = "") then
    Some (errors_New "autoscaleSetRef.name is required")
  else if bool_decide (rss_runnerGroup (rs_spec r) = "") then
    Some (errors_New "runnerGroup is required")
  else None.

Definition validateUpdate (r old : RunnerSet) : option error :=
  match validate r with
  | Some err => Some err
  | None =>
    let ref := rss_autoscaleSetRef (rs_spec r) in
    let ref0 := rss_autoscaleSetRef (rs_spec old) in
    if bool_decide (ref_name ref ≠ ref_name ref0) ||
       bool_decide (ref_namespace ref ≠ ref_namespace ref0)
    then Some (errors_New "autoscaleSetRef cannot be changed after creation")
    else if bool_decide (rss_runnerGroup (rs_spec r) ≠ rss_runnerGroup (rs_spec old))
    then Some (errors_New "runnerGroup cannot be changed after creation")
    else None
  end.

Definition ValidateCreate (obj : RunnerSet) : option error := validate obj.
Definition ValidateUpdate (oldObj newObj : RunnerSet) : option error :=
  validateUpdate newObj oldObj.
Definition ValidateDelete (obj : RunnerSet) : option error := None.

(** ** What admission promises *)

(** The identity of a RunnerSet: what its pods and its session hang on. *)
Definition identity (r : RunnerSet) : AutoscaleSetRef * string :=
  (rss_autoscaleSetRef (rs_spec r), rss_runnerGroup (rs_spec r)).

Definition valid (r : RunnerSet) : Prop :=
  ref_name (rss_autoscaleSetRef (rs_spec r)) ≠ "" ∧ rss_runnerGroup (rs_spec r) ≠ "".

Lemma validate_accepts r : validate r = None ↔ valid r.
Proof. unfold validate, valid. repeat case_bool_decide; naive_solver. Qed.

Lemma ValidateUpdate_None old new :
  ValidateUpdate old new = None ↔ valid new ∧ identity new = identity old.
Proof.
  unfold ValidateUpdate, validateUpdate, identity. destruct (validate new) eqn:Hv.
  - split; [done|]. intros [Hn _]. apply validate_accepts in Hn. congruence.
  - apply validate_accepts in Hv.
    destruct (rss_autoscaleSetRef (rs_spec new)) as [n1 s1], (rss_autoscaleSetRef (rs_spec old)) as [n2 s2].
    simpl. split.
    + intros Heq. split; [done|]. destruct (decide (n1 = n2)) as [->|Hn]; [|by rewrite bool_decide_eq_true_2 in Heq].
      rewrite bool_decide_eq_false_2 in Heq by tauto. simpl in Heq.
      repeat case_bool_decide; simpl in *; try done. congruence.
    + intros [_ [= -> -> ->]]. by rewrite !bool_decide_eq_false_2 by tauto.
Qed.

(** An admitted creation, and an admitted update; a status update keeps the
    spec. *)
Inductive step (old new : RunnerSet) : Prop :=
| spec_update obj :
    m_namespace (rs_meta obj) = m_namespace (rs_meta old) →
    new = Default obj → ValidateUpdate old new = None → step old new
| status_update st : new = rs_set_status old st → step old new.

(** The AutoscaleSet a RunnerSet serves and its runner group are fixed
    for its whole life, and its reference always names a namespace. *)
Theorem identity_immutable obj new :
  m_namespace (rs_meta obj) ≠ "" →
  ValidateCreate (Default obj) = None → rtc step (Default obj) new →
  valid new ∧ identity new = identity (Default obj) ∧
  ref_namespace (rss_autoscaleSetRef (rs_spec new)) ≠ "".
Proof.
  intros Hns Hcr Hs. apply validate_accepts in Hcr.
  assert (Href : ref_namespace (rss_autoscaleSetRef (rs_spec (Default obj))) ≠ "")
    by (unfold Default; by case_bool_decide).
  revert Hcr Href. clear Hns. induction Hs as [a|a b c Hab Hbc IH]; [done|]. intros Ha Href.
  destruct Hab as [o _ -> Hv|st ->]; [|by apply IH].
  apply ValidateUpdate_None in Hv as [Hb Hid]. rewrite <- Hid. apply IH; [done|].
  pose proof (f_equal fst Hid) as Hr. simpl in Hr. by rewrite Hr.
Qed.

(** An update that leaves the namespace of the reference empty means the
    namespace of the RunnerSet itself: it is accepted exactly when that is
    the namespace the stored object refers to and nothing else changed. *)
Theorem empty_namespace_update old obj name :
  name ≠ "" →
  rss_autoscaleSetRef (rs_spec obj) = mkASRef name "" → valid old →
  ValidateUpdate old (Default obj) = None ↔
  rss_autoscaleSetRef (rs_spec old) = mkASRef name (m_namespace (rs_meta obj)) ∧
  rss_runnerGroup (rs_spec obj) = rss_runnerGroup (rs_spec old).
Proof.
  intros Hname Href [_ Hg]. rewrite ValidateUpdate_None.
  unfold Default, identity, valid. rewrite Href. simpl. split.
  - intros [_ [= Hr Hgr]]. auto.
  - intros [Hr Hgr]. rewrite Hr, Hgr. done.
Qed.

Definition sample (ns : string) : RunnerSet :=
  mkRunnerSet (mkObjectMeta "runners" "" "ci" "" "" 0%Z 0%Z None None None [] [])
    (mkRSSpec (mkASRef "set" ns) "default" None) (mkRSStatus 0 0 0 [] 0).

Lemma identity_immutable_witness :
  let new := Default (sample "") in
  rtc step (Default (sample "")) new ∧ valid new ∧ identity new = (mkASRef "set" "ci", "default").
Proof.
  intros new.
  assert (Hs : rtc step (Default (sample "")) new).
  { apply rtc_once. eapply spec_update; [|reflexivity|reflexivity]. reflexivity. }
  split; [exact Hs|].
  destruct (identity_immutable (sample "") new) as (Hv & Hid & _);
    [discriminate|reflexivity|exact Hs|].
  split; [exact Hv|exact Hid].
Defined.

Lemma empty_namespace_update_witness :
  ValidateUpdate (sample "ci") (Default (sample "")) = None.
Proof.
  apply (empty_namespace_update (sample "ci") (sample "") "set");
    [discriminate|reflexivity|split; discriminate|split; reflexivity].
Defined.
End RunnerSetWebhook.
