(* ===== verification/PodBuild.v ===== *)
(** * internal/scaler/pod_build.go: the pod of a runner

    [KubernetesScaler] (kubernetes_scaler.go) and the four functions that
    assemble labels, annotations, environment and specification of a runner
    pod from the scaler's settings and the AutoscaleSet's template.  The
    parser of resource quantities belongs to apimachinery and is a parameter. *)

From S2P Require Export Client.

Class QuantityParser := { ParseQuantity : string → option Quantity }.

Record KubernetesScaler : Type := mkKubernetesScaler {
  k_scalesetClient : Client;
  k_scaleSetID : Z;
  k_namespace : string;
  k_runnerImage : string;
  k_runnerGroup : string;
  k_minRunners : Z;
  k_maxRunners : Z;
  k_template : option RunnerPodTemplate;
  k_ownerRef : option OwnerReference;
  k_rateLimiter : option RateLimiter
}.

Definition NewKubernetesScaler (scalesetClient : Client) (scaleSetID : Z)
    (namespace runnerImage runnerGroup : string) (minRunners maxRunners : Z)
    (template : option RunnerPodTemplate) (rateLimiter : option RateLimiter) : KubernetesScaler :=
  mkKubernetesScaler scalesetClient scaleSetID namespace runnerImage runnerGroup
    minRunners maxRunners template None rateLimiter.

Definition SetOwnerReference (owner : ObjectMeta) (apiVersion kind : string)
    (k : KubernetesScaler) : KubernetesScaler :=
  mkKubernetesScaler (k_scalesetClient k) (k_scaleSetID k) (k_namespace k) (k_runnerImage k)
    (k_runnerGroup k) (k_minRunners k) (k_maxRunners k) (k_template k)
    (Some (mkOwnerReference apiVersion kind (m_name owner) (m_uid owner) (Some false) (Some true)))
    (k_rateLimiter k).

Section PodBuild.
Context `{MapRange, QuantityParser}.
Implicit Types k : KubernetesScaler.

Definition template_labels (k : KubernetesScaler) : gomap :=
  t ← k_template k; tm_labels (t_metadata t).
Definition template_annotations (k : KubernetesScaler) : gomap :=
  t ← k_template k; tm_annotations (t_metadata t).

Definition buildPodLabels (k : KubernetesScaler) (runnerName : string) : gmap string string :=
  let podLabels : gmap string string :=
    <[LabelRunnerName := runnerName]> (<[LabelRunnerState := RunnerStateIdle]>
      (<[LabelAutoscaleSet := Itoa (k_scaleSetID k)]> ∅)) in
  let podLabels :=
    if bool_decide (k_runnerGroup k ≠ "")
    then <[LabelRunnerGroup := k_runnerGroup k]> podLabels else podLabels in
  if bool_decide (map_len (template_labels k) = 0) then podLabels
  else
    foldl (λ podLabels '(labelKey, labelValue),
             if bool_decide (labelKey ∈ reservedLabelKeys) then podLabels
             else <[labelKey := labelValue]> podLabels)
      podLabels (range (map_entries (template_labels k))).

Definition buildPodAnnotations (k : KubernetesScaler) (jitConfigEncoded : string)
  : gmap string string :=
  let podAnnotations : gmap string string := {[AnnotationJITConfig := jitConfigEncoded]} in
  if bool_decide (0 < map_len (template_annotations k)) then
    foldl (λ podAnnotations '(annKey, annVal), <[annKey := annVal]> podAnnotations)
      podAnnotations (range (map_entries (template_annotations k)))
  else podAnnotations.

Definition buildEnvVars (k : KubernetesScaler) (jitConfigEncoded : string) : list CoreEnvVar :=
  let envVars := [mkCoreEnvVar "ACTIONS_RUNNER_INPUT_JITCONFIG" jitConfigEncoded] in
  match k_template k with
  | Some t => foldl (λ envVars env, envVars ++ [mkCoreEnvVar (e_name env) (e_value env)])
                envVars (rs_env (t_spec t))
  | None => envVars
  end.

(** One of the two loops over resources: what parses is kept, and nothing is
    set when nothing parsed. *)
Definition parse_resources (m : gomap) : option (gmap string Quantity) :=
  match m with
  | None => None
  | Some m =>
    let limits := foldl (λ limits '(resKey, resVal),
                           match ParseQuantity resVal with
                           | Some qty => <[resKey := qty]> limits
                           | None => limits
                           end) ∅ (range m) in
    if bool_decide (0 < size limits) then Some limits else None
  end.

Definition build_toleration (t : Toleration) : CoreToleration :=
  let op := if bool_decide (t_operator t = "") then "Equal" else t_operator t in
  mkCoreToleration (t_key t) op (t_value t) (t_effect t).

Definition buildRunnerPodSpec (k : KubernetesScaler) (envVars : list CoreEnvVar) : PodSpec :=
  let spec : option RunnerPodSpec := t_spec <$> k_template k in
  let limits := s ← spec; parse_resources (rr_limits (rs_resources s)) in
  let requests := s ← spec; parse_resources (rr_requests (rs_resources s)) in
  let nodeSelector : gomap :=
    s ← spec; if bool_decide (0 < map_len (rs_nodeSelector s)) then rs_nodeSelector s else None in
  let tolerations :=
    match spec with
    | Some s => foldl (λ ts t, ts ++ [build_toleration t]) [] (rs_tolerations s)
    | None => []
    end in
  mkPodSpec "Never"
    [mkContainer "runner" (k_runnerImage k) ["/home/runner/run.sh"] envVars limits requests
       (Some (mkSecurityContext (Some false) ["ALL"] (Some false)))]
    nodeSelector tolerations
    (Some (mkPodSecurityContext (Some 1001%Z) (Some 1001%Z) (Some "RuntimeDefault"))).

(** ** Lemmas *)

Lemma foldl_snoc_fmap {A B} (f : A → B) l acc :
  foldl (λ acc x, acc ++ [f x]) acc l = acc ++ (f <$> l).
Proof.
  revert acc. induction l as [|x l IH]; intros acc; simpl; [by rewrite app_nil_r|].
  by rewrite IH, <- app_assoc.
Qed.

(** Inserting the entries that pass a test, in any order. *)
Lemma foldl_insert_some {V W} (f : string → V → option W) (l : list (string * V))
    (m : gmap string W) key :
  NoDup l.*1 →
  foldl (λ out '(k, v), match f k v with Some w => <[k := w]> out | None => out end) m l !! key =
  match (list_to_map l : gmap string V) !! key ≫= f key with Some w => Some w | None => m !! key end.
Proof.
  revert m. induction l as [|[k' v] l IH]; intros m Hnd; simpl; [by rewrite lookup_empty|].
  inversion Hnd; subst. rewrite IH by done. destruct (decide (key = k')) as [->|Hne].
  - rewrite (not_elem_of_list_to_map_1 l k'), lookup_insert_eq by done. simpl.
    destruct (f k' v); [by rewrite lookup_insert_eq|done].
  - rewrite lookup_insert_ne by done.
    destruct (f k' v); [by rewrite lookup_insert_ne by done|done].
Qed.

Lemma foldl_insert_some_range {V W} (f : string → V → option W) (m : gmap string W)
    (m' : gmap string V) key :
  foldl (λ out '(k, v), match f k v with Some w => <[k := w]> out | None => out end) m (range m')
    !! key =
  match m' !! key ≫= f key with Some w => Some w | None => m !! key end.
Proof. rewrite foldl_insert_some by apply range_NoDup. by rewrite list_to_map_range. Qed.

(** The labels the controller owns. *)
Definition system_label (k : KubernetesScaler) (runnerName key : string) : option string :=
  if bool_decide (key = LabelRunnerName) then Some runnerName
  else if bool_decide (key = LabelRunnerState) then Some RunnerStateIdle
  else if bool_decide (key = LabelAutoscaleSet) then Some (Itoa (k_scaleSetID k))
  else if bool_decide (key = LabelRunnerGroup ∧ k_runnerGroup k ≠ "") then Some (k_runnerGroup k)
  else None.

Lemma buildPodLabels_lookup k runnerName key :
  buildPodLabels k runnerName !! key =
  if bool_decide (key ∈ reservedLabelKeys) then system_label k runnerName key
  else map_entries (template_labels k) !! key.
Proof.
  unfold buildPodLabels.
  set (base := if bool_decide (k_runnerGroup k ≠ "") then _ else _).
  assert (Hbase : base !! key = system_label k runnerName key).
  { unfold base, system_label. destruct (decide (k_runnerGroup k = "")) as [Hg|Hg].
    - rewrite (bool_decide_eq_false_2 (k_runnerGroup k ≠ "")) by tauto.
      rewrite !lookup_insert, lookup_empty.
      repeat case_decide; repeat case_bool_decide; simplify_eq; naive_solver.
    - rewrite (bool_decide_eq_true_2 (k_runnerGroup k ≠ "")) by done.
      rewrite !lookup_insert, lookup_empty.
      repeat case_decide; repeat case_bool_decide; simplify_eq; naive_solver. }
  assert (Hsys : key ∉ reservedLabelKeys → system_label k runnerName key = None).
  { intros Hn. unfold system_label, reservedLabelKeys in *.
    rewrite !not_elem_of_cons in Hn. destruct Hn as (H1 & H2 & H3 & H4 & _).
    by rewrite !bool_decide_eq_false_2 by tauto. }
  case_bool_decide as Hlen; [|].
  - rewrite Hbase. case_bool_decide as Hr; [done|]. rewrite Hsys by done.
    unfold map_len in Hlen. apply map_size_empty_inv in Hlen. by rewrite Hlen, lookup_empty.
  - clear Hlen. set (f := λ (key v : string), if bool_decide (key ∈ reservedLabelKeys) then None else Some v).
    etransitivity;
      [|etransitivity;
        [apply (foldl_insert_some_range f base (map_entries (template_labels k)) key)|]].
    + f_equal. generalize (range (map_entries (template_labels k))). intros l. generalize base.
      induction l as [|[k' v] l IH]; intros m; simpl; [done|]. rewrite IH. unfold f.
      by case_bool_decide.
    + unfold f. rewrite Hbase.
      case_bool_decide as Hr; destruct (map_entries _ !! key); simpl; try done.
      by apply Hsys.
Qed.
End PodBuild.

(** ** Properties *)

(** Whatever the template says and in whatever order its labels are
    ranged over, the four labels the controller selects pods by have the
    values it gives them (no runner group label without a group), and every
    other label is the template's. *)
Theorem buildPodLabels_reserved `{MapRange} k runnerName :
  buildPodLabels k runnerName !! LabelRunnerName = Some runnerName ∧
  buildPodLabels k runnerName !! LabelRunnerState = Some RunnerStateIdle ∧
  buildPodLabels k runnerName !! LabelAutoscaleSet = Some (Itoa (k_scaleSetID k)) ∧
  (buildPodLabels k runnerName !! LabelRunnerGroup =
     if bool_decide (k_runnerGroup k = "") then None else Some (k_runnerGroup k)) ∧
  (∀ key, key ∉ reservedLabelKeys →
     buildPodLabels k runnerName !! key = map_entries (template_labels k) !! key).
Proof.
  rewrite !buildPodLabels_lookup. repeat split.
  - unfold system_label. simpl.
    destruct (decide (k_runnerGroup k = "")); repeat case_bool_decide; naive_solver.
  - intros key Hn. rewrite buildPodLabels_lookup. by rewrite bool_decide_eq_false_2.
Qed.

(** The environment starts with the JIT configuration and continues with
    the template's variables in order; the annotations hold the same
    configuration unless the template itself sets that key, and the template's
    annotations all arrive. *)
Theorem jit_config_delivered `{MapRange} k jit :
  buildEnvVars k jit =
    mkCoreEnvVar "ACTIONS_RUNNER_INPUT_JITCONFIG" jit ::
    ((λ e, mkCoreEnvVar (e_name e) (e_value e)) <$>
       match k_template k with Some t => rs_env (t_spec t) | None => [] end) ∧
  buildPodAnnotations k jit =
    map_entries (template_annotations k) ∪ {[AnnotationJITConfig := jit]}.
Proof.
  split.
  - unfold buildEnvVars. destruct (k_template k) as [t|]; [|done]. by rewrite foldl_snoc_fmap.
  - unfold buildPodAnnotations. case_bool_decide as Hl.
    + apply foldl_insert_range.
    + unfold map_len in Hl. assert (Hz : size (map_entries (template_annotations k)) = 0) by lia.
      apply map_size_empty_inv in Hz. by rewrite Hz, map_empty_union.
Qed.

Lemma parse_resources_lookup `{MapRange, QuantityParser} m key :
  map_entries m !! key ≫= ParseQuantity = parse_resources m ≫= λ l, l !! key.
Proof.
  unfold parse_resources. destruct m as [m|]; simpl; [|by rewrite lookup_empty].
  pose proof (foldl_insert_some_range (λ _, ParseQuantity) ∅ m key) as Hl.
  rewrite lookup_empty in Hl.
  case_bool_decide as Hs; simpl.
  - rewrite Hl. by destruct (m !! key ≫= ParseQuantity).
  - assert (Hz : foldl (λ limits '(resKey, resVal),
        match ParseQuantity resVal with
        | Some qty => <[resKey := qty]> limits | None => limits end)
        (∅ : gmap string Quantity) (range m) = ∅) by (apply map_size_empty_inv; lia).
    rewrite Hz, lookup_empty in Hl. by destruct (m !! key ≫= ParseQuantity).
Qed.

(** C35. No template can loosen the security settings of the runner container:
    it is the only container, runs [run.sh] as user 1001 without privilege
    escalation or capabilities, and is never restarted; a resource is set
    exactly when the template gives it and its quantity parses; tolerations
    keep their order, with [Equal] for a missing operator. *)
Theorem buildRunnerPodSpec_hardened `{MapRange, QuantityParser} k envVars :
  let p := buildRunnerPodSpec k envVars in
  ps_restartPolicy p = "Never" ∧
  ps_securityContext p = Some (mkPodSecurityContext (Some 1001%Z) (Some 1001%Z) (Some "RuntimeDefault")) ∧
  (∃ c, ps_containers p = [c] ∧ ctr_image c = k_runnerImage k ∧
     ctr_command c = ["/home/runner/run.sh"] ∧ ctr_env c = envVars ∧
     ctr_securityContext c = Some (mkSecurityContext (Some false) ["ALL"] (Some false)) ∧
     ∀ t, k_template k = Some t → ∀ key,
       ctr_limits c ≫= (λ l, l !! key) =
         map_entries (rr_limits (rs_resources (t_spec t))) !! key ≫= ParseQuantity ∧
       ctr_requests c ≫= (λ l, l !! key) =
         map_entries (rr_requests (rs_resources (t_spec t))) !! key ≫= ParseQuantity) ∧
  (∀ t, k_template k = Some t →
     map_entries (ps_nodeSelector p) = map_entries (rs_nodeSelector (t_spec t)) ∧
     ps_tolerations p = build_toleration <$> rs_tolerations (t_spec t)) ∧
  Forall (λ t, ct_operator t ≠ "") (ps_tolerations p).
Proof.
  cbn zeta. split; [done|]. split; [done|]. split.
  { eexists. split; [reflexivity|]. do 4 (split; [done|]). intros t Ht key. simpl. rewrite Ht.
    by rewrite !parse_resources_lookup. }
  split.
  - intros t Ht. unfold buildRunnerPodSpec. simpl. rewrite Ht. simpl.
    split; [|by rewrite foldl_snoc_fmap]. case_bool_decide as Hl; [done|].
    unfold map_len in Hl. assert (Hz : size (map_entries (rs_nodeSelector (t_spec t))) = 0) by lia.
    apply map_size_empty_inv in Hz. by rewrite Hz.
  - unfold buildRunnerPodSpec. simpl. destruct (k_template k) as [t|]; simpl; [|done].
    rewrite foldl_snoc_fmap. simpl. apply Forall_fmap, Forall_true. intros x.
    unfold build_toleration. simpl. by case_bool_decide.
Qed.

(** A concrete template that tries to take over the reserved labels. *)
Definition greedy_template : RunnerPodTemplate :=
  mkTemplate (mkTemplateMetadata (Some {[LabelRunnerState := "busy"; "team" := "ci"]}) None)
    (mkRunnerPodSpec None [mkToleration "gpu" "" "yes" "NoSchedule"]
       (mkResourceRequirements (Some {["cpu" := "2"; "memory" := "lots"]}) None) []).

Definition greedy_scaler : KubernetesScaler :=
  NewKubernetesScaler 0 42 "ci" "img" "" 0 10 (Some greedy_template) None.

#[local] Instance digits_only : QuantityParser :=
  {| ParseQuantity := λ s, match Atoi s with Some _ => Some (mkQuantity s) | None => None end |}.
#[local] Existing Instance map_range_default.

Example greedy_labels :
  buildPodLabels greedy_scaler "runner-1" =
  {[LabelRunnerName := "runner-1"; LabelRunnerState := "idle"; LabelAutoscaleSet := "42";
    "team" := "ci"]}.
Proof. apply (bool_decide_unpack _). vm_compute. exact I. Qed.

Lemma buildRunnerPodSpec_hardened_witness :
  ps_tolerations (buildRunnerPodSpec greedy_scaler []) =
    [mkCoreToleration "gpu" "Equal" "yes" "NoSchedule"] ∧
  ∃ c, ps_containers (buildRunnerPodSpec greedy_scaler []) = [c] ∧
    ctr_limits c ≫= (λ l, l !! "cpu") = Some (mkQuantity "2") ∧
    ctr_limits c ≫= (λ l, l !! "memory") = None.
Proof.
  destruct (buildRunnerPodSpec_hardened greedy_scaler []) as (_ & _ & (c & Hc & _ & _ & _ & _ & Hl) & Ht & _).
  split; [exact (proj2 (Ht greedy_template eq_refl))|].
  exists c. split; [exact Hc|].
  rewrite (proj1 (Hl greedy_template eq_refl "cpu")), (proj1 (Hl greedy_template eq_refl "memory")).
  split; vm_compute; reflexivity.
Defined.
