(* ===== verification/PodLifecycle.v ===== *)
(** * internal/scaler: pod_lifecycle.go and job_handlers.go

    Listing and classifying the runner pods, deleting one (and removing its
    runner from GitHub on the side), and the reactions to job messages. *)

From S2P Require Export PodBuild Batch.

(** ** Messages (github.com/actions/scaleset) *)

Record JobStarted : Type := mkJobStarted {
  js_RunnerName : string; js_QueueTime : Time; js_RunnerAssignTime : Time }.

Record JobCompleted : Type := mkJobCompleted {
  jc_RunnerName : string; jc_Result : string; jc_RunnerAssignTime : Time; jc_FinishTime : Time }.

Section PodLifecycle.
Context {S : Type} `{MapRange, QuantityParser}.
Implicit Types k : KubernetesScaler.

(** [fmt.Sprintf("%d", k.scaleSetID)] *)
Definition setID (k : KubernetesScaler) : string := Itoa (k_scaleSetID k).

(** The three labels every scaler metric starts with. *)
Definition scaler_labels (k : KubernetesScaler) : list string :=
  [k_namespace k; setID k; k_runnerGroup k].

Definition time_Since (t : Time) : prog S Duration := now ← call Now; Ret (time_Sub now t).

Definition waitForRateLimit (k : KubernetesScaler) : prog S (option error) :=
  match k_rateLimiter k with
  | Some r => Wait r
  | None => Ret None
  end.

(** ** pod_lifecycle.go *)

Fixpoint classify_loop (items activePods podsToCleanup : list Pod)
  : prog S (list Pod * list Pod) :=
  match items with
  | [] => Ret (activePods, podsToCleanup)
  | pod :: items =>
    if bool_decide (m_deletionTimestamp (p_meta pod) ≠ None) then
      classify_loop items activePods podsToCleanup
    else if bool_decide (p_phase pod = PodSucceeded) || bool_decide (p_phase pod = PodFailed) then
      classify_loop items activePods (podsToCleanup ++ [pod])
    else if bool_decide (p_phase pod = PodPending) then
      age ← time_Since (m_creationTimestamp (p_meta pod));
      if (PendingPodCleanupThreshold <? age)%Z then
        (* the age is read again for the log line *)
        _ ← time_Since (m_creationTimestamp (p_meta pod));
        classify_loop items activePods (podsToCleanup ++ [pod])
      else classify_loop items (activePods ++ [pod]) podsToCleanup
    else classify_loop items (activePods ++ [pod]) podsToCleanup
  end.

Definition classifyRunnerPods (items : list Pod) : prog S (list Pod * list Pod) :=
  classify_loop items [] [].

Definition removeRunnerFromGitHub (k : KubernetesScaler) (runnerName : string)
  : prog S (option error) :=
  limited ← waitForRateLimit k;
  match limited with
  | Some err => Ret (Some (Errorf "rate limit wait cancelled: " err))
  | None =>
    '(got, err) ← RetryWithBackoff DefaultRetryConfig
                    (closure (GetRunnerByName (k_scalesetClient k) runnerName) snd);
    match err with
    | Some err => Ret (Some (Errorf "failed to get runner by name: " err))
    | None =>
      match got ≫= fst with
      | None => Ret None
      | Some runner =>
        limited ← waitForRateLimit k;
        match limited with
        | Some err => Ret (Some (Errorf "rate limit wait cancelled: " err))
        | None =>
          '(_, err) ← RetryWithBackoff DefaultRetryConfig
                        (closure (RemoveRunner (k_scalesetClient k) (rr_id runner)) id);
          match err with
          | Some err => Ret (Some (Errorf "failed to remove runner from GitHub: " err))
          | None => Ret None
          end
        end
      end
    end
  end.

Definition deleteRunnerPod (k : KubernetesScaler) (pod : Pod) : prog S (option error) :=
  err ← call (K8sDeletePod pod (Some DeleteGracePeriodSeconds));
  match err with
  | Some err => if IsNotFound err then Ret None else Ret (Some err)
  | None =>
    let runnerName := pod_label pod LabelRunnerName in
    if bool_decide (runnerName ≠ "") then
      spawn (_ ← removeRunnerFromGitHub k runnerName; Ret tt);;
      Ret None
    else Ret None
  end.

(** The goroutine's loop; it stops when its 30 second context is done. *)
Fixpoint cleanup_pods (k : KubernetesScaler) (pods : list Pod) : prog S unit :=
  match pods with
  | [] => Ret tt
  | pod :: pods =>
    ctxDone ← call CtxDone;
    if ctxDone : bool then Ret tt
    else
      err ← deleteRunnerPod k pod;
      match err with
      | Some e =>
        if negb (IsNotFound e) then cleanup_pods k pods
        else metric RunnerPodLifecycle (scaler_labels k ++ ["cleaned_up"]) MInc;;
             cleanup_pods k pods
      | None =>
        metric RunnerPodLifecycle (scaler_labels k ++ ["cleaned_up"]) MInc;;
        cleanup_pods k pods
      end
  end.

Definition cleanupTerminatedPodsInBackground (k : KubernetesScaler) (pods : list Pod)
  : prog S unit := spawn (cleanup_pods k pods).

Definition getRunnerPods (k : KubernetesScaler) : prog S (result error (list Pod)) :=
  listed ← call (K8sListPods (k_namespace k)
                   (MatchingFields ("metadata.labels." +:+ LabelAutoscaleSet) (setID k)));
  match listed with
  | Err err => Ret (Err err)
  | Ok items =>
    '(activePods, podsToCleanup) ← classifyRunnerPods items;
    (if bool_decide (0 < length podsToCleanup)
     then cleanupTerminatedPodsInBackground k podsToCleanup else Ret tt);;
    Ret (Ok activePods)
  end.

Definition findRunnerPod (k : KubernetesScaler) (runnerName : string)
  : prog S (result error (option Pod)) :=
  listed ← call (K8sListPods (k_namespace k)
                   (MatchingFields ("metadata.labels." +:+ LabelRunnerName) runnerName));
  Ret (result_map head listed).

(** ** job_handlers.go *)

Definition HandleJobStarted (k : KubernetesScaler) (jobInfo : JobStarted)
  : prog S (option error) :=
  found ← findRunnerPod k (js_RunnerName jobInfo);
  match found with
  | Err err => Ret (Some (Errorf "failed to find runner pod: " err))
  | Ok None => Ret None
  | Ok (Some pod) =>
    let oldState := pod_label pod LabelRunnerState in
    match m_labels (p_meta pod) with
    | None => Panic (* assignment to an entry of a nil map *)
    | Some labels =>
      err ← call (K8sUpdatePod
                    (pod_set_labels pod (Some (<[LabelRunnerState := RunnerStateBusy]> labels))));
      match err with
      | Some err => Ret (Some (Errorf "failed to update runner pod: " err))
      | None =>
        (if bool_decide (oldState ≠ RunnerStateBusy) then
           metric RunnerStateTransitions (scaler_labels k ++ [oldState; RunnerStateBusy]) MInc
         else Ret tt);;
        metric JobLifecycle (scaler_labels k ++ ["started"; "success"]) MInc;;
        (if negb (IsZero (js_QueueTime jobInfo)) && negb (IsZero (js_RunnerAssignTime jobInfo)) then
           metric JobQueueTime (scaler_labels k)
             (MObserveSeconds (time_Sub (js_RunnerAssignTime jobInfo) (js_QueueTime jobInfo)))
         else Ret tt);;
        Ret None
      end
    end
  end.

Definition HandleJobCompleted (k : KubernetesScaler) (jobInfo : JobCompleted)
  : prog S (option error) :=
  found ← findRunnerPod k (jc_RunnerName jobInfo);
  match found with
  | Err err => Ret (Some (Errorf "failed to find runner pod: " err))
  | Ok None => Ret None
  | Ok (Some pod) =>
    metric JobLifecycle (scaler_labels k ++ ["completed"; jc_Result jobInfo]) MInc;;
    (if negb (IsZero (jc_RunnerAssignTime jobInfo)) && negb (IsZero (jc_FinishTime jobInfo)) then
       metric JobExecutionTime (scaler_labels k ++ [jc_Result jobInfo])
         (MObserveSeconds (time_Sub (jc_FinishTime jobInfo) (jc_RunnerAssignTime jobInfo)))
     else Ret tt);;
    err ← deleteRunnerPod k pod;
    match err with
    | Some err => Ret (Some (Errorf "failed to delete runner pod: " err))
    | None =>
      metric RunnerPodLifecycle (scaler_labels k ++ ["deleted"]) MInc;;
      Ret None
    end
  end.

(** The debouncer (debounced_scaler.go) hands job messages to the scaler it
    wraps, [inner]. *)
Definition Debounced_HandleJobStarted (inner : KubernetesScaler) (jobInfo : JobStarted)
  : prog S (option error) := HandleJobStarted inner jobInfo.

Definition Debounced_HandleJobCompleted (inner : KubernetesScaler) (jobInfo : JobCompleted)
  : prog S (option error) := HandleJobCompleted inner jobInfo.
End PodLifecycle.

(** ** Recognisers *)

(** The pod a successful deletion request names. *)
Definition deleted_of {S} (e : event S) : option Pod :=
  match e with
  | Ev c r => match c in Call R return R → option Pod with
              | K8sDeletePod p _ => λ r, match r with None => Some p | Some _ => None end
              | _ => λ _, None end r
  | EvGo _ => None
  end.

(** The pod a deletion request names, whatever the answer. *)
Definition delete_of {S} (e : event S) : option Pod :=
  match e with
  | Ev c r => match c in Call R return R → option Pod with
              | K8sDeletePod p _ => λ _, Some p
              | _ => λ _, None end r
  | EvGo _ => None
  end.

(** The pod a creation request carries, and the answer. *)
Definition create_of {S} (e : event S) : option (Pod * option error) :=
  match e with
  | Ev c r => match c in Call R return R → option (Pod * option error) with
              | K8sCreatePod p => λ r, Some (p, r)
              | _ => λ _, None end r
  | EvGo _ => None
  end.

(** The runner a removal request names, and the answer. *)
Definition remove_of {S} (e : event S) : option (Z * option error) :=
  match e with
  | Ev c r => match c in Call R return R → option (Z * option error) with
              | RemoveRunner _ id => λ r, Some (id, r)
              | _ => λ _, None end r
  | EvGo _ => None
  end.

(** ** Classification *)

(** The age of a pod at some clock reading of [tr] satisfies [P]. *)
Definition seen_age {S} (tr : list (event S)) (P : Duration → Prop) (p : Pod) : Prop :=
  ∃ t, Ev Now t ∈ tr ∧ P (time_Sub t (m_creationTimestamp (p_meta p))).

(** Pods that count as runners, and pods to clean up. *)
Definition kept {S} (tr : list (event S)) (p : Pod) : Prop :=
  (p_phase p ∉ [PodSucceeded; PodFailed]) ∧
  (p_phase p = PodPending → seen_age tr (λ age, (age ≤ PendingPodCleanupThreshold)%Z) p).

Definition swept {S} (tr : list (event S)) (p : Pod) : Prop :=
  p_phase p ∈ [PodSucceeded; PodFailed] ∨
  (p_phase p = PodPending ∧ seen_age tr (λ age, (PendingPodCleanupThreshold < age)%Z) p).

Lemma seen_age_mono {S} (tr tr' : list (event S)) P p :
  tr ⊆ tr' → seen_age tr P p → seen_age tr' P p.
Proof. intros Hs (t & Ht & HP). exists t. split; [by apply Hs|done]. Qed.

Lemma kept_mono {S} (tr tr' : list (event S)) l :
  tr ⊆ tr' → Forall (kept tr) l → Forall (kept tr') l.
Proof.
  intros Hs Hl. eapply Forall_impl; [exact Hl|]. intros p [H1 H2]. split; [done|].
  intros Hp. eapply seen_age_mono; eauto.
Qed.

Lemma swept_mono {S} (tr tr' : list (event S)) l :
  tr ⊆ tr' → Forall (swept tr) l → Forall (swept tr') l.
Proof.
  intros Hs Hl. eapply Forall_impl; [exact Hl|]. intros p [?|[? ?]]; [by left|right].
  split; [done|]. by eapply seen_age_mono.
Qed.

(** The result of classifying [items]. *)
Record classified {S} (items : list Pod) (tr : list (event S)) (active cleanup : list Pod)
  : Prop := {
  cl_active : active `sublist_of` items;
  cl_cleanup : cleanup `sublist_of` items;
  cl_all : active ++ cleanup ≡ₚ filter (λ p, m_deletionTimestamp (p_meta p) = None) items;
  cl_kept : Forall (kept tr) active;
  cl_swept : Forall (swept tr) cleanup
}.

Lemma classified_skip {S} pod items (tr : list (event S)) a c :
  m_deletionTimestamp (p_meta pod) ≠ None →
  classified items tr a c → classified (pod :: items) tr a c.
Proof.
  intros Hd [H1 H2 H3 H4 H5]. split; auto using sublist_cons.
  by rewrite filter_cons_False by done.
Qed.

Lemma classified_keep {S} pod items (pre tr : list (event S)) a c :
  m_deletionTimestamp (p_meta pod) = None → kept (pre ++ tr) pod →
  classified items tr a c → classified (pod :: items) (pre ++ tr) (pod :: a) c.
Proof.
  intros Hd Hk [H1 H2 H3 H4 H5]. split; auto using sublist_cons, sublist_skip.
  - rewrite filter_cons_True by done. simpl. by constructor.
  - constructor; [done|]. eapply kept_mono; [|done]. set_solver.
  - eapply swept_mono; [|done]. set_solver.
Qed.

Lemma classified_sweep {S} pod items (pre tr : list (event S)) a c :
  m_deletionTimestamp (p_meta pod) = None → swept (pre ++ tr) pod →
  classified items tr a c → classified (pod :: items) (pre ++ tr) a (pod :: c).
Proof.
  intros Hd Hk [H1 H2 H3 H4 H5]. split; auto using sublist_cons, sublist_skip.
  - rewrite filter_cons_True by done. rewrite <- Permutation_middle. by constructor.
  - eapply kept_mono; [|done]. set_solver.
  - constructor; [done|]. eapply swept_mono; [|done]. set_solver.
Qed.

Lemma classify_loop_spec {S} items active0 cleanup0 (s : S) tr o s' :
  exec eq (classify_loop items active0 cleanup0) s tr o s' →
  ∃ active cleanup, o = Done (active0 ++ active, cleanup0 ++ cleanup) ∧ s' = s ∧
    classified items tr active cleanup.
Proof.
  revert active0 cleanup0 tr. induction items as [|pod items IH]; intros active0 cleanup0 tr Hx.
  - destruct Hx as (-> & -> & ->). exists [], []. rewrite !app_nil_r. by repeat constructor.
  - assert (Hkeep : ∀ pre tr', m_deletionTimestamp (p_meta pod) = None → kept (pre ++ tr') pod →
      exec eq (classify_loop items (active0 ++ [pod]) cleanup0) s tr' o s' →
      ∃ active cleanup, o = Done (active0 ++ active, cleanup0 ++ cleanup) ∧ s' = s ∧
        classified (pod :: items) (pre ++ tr') active cleanup).
    { intros pre tr' Hd Hk Hx'. destruct (IH _ _ _ Hx') as (a & c & -> & -> & Hc).
      exists (pod :: a), c. rewrite <- app_assoc. split; [done|]. split; [done|].
      by apply classified_keep. }
    assert (Hsweep : ∀ pre tr', m_deletionTimestamp (p_meta pod) = None → swept (pre ++ tr') pod →
      exec eq (classify_loop items active0 (cleanup0 ++ [pod])) s tr' o s' →
      ∃ active cleanup, o = Done (active0 ++ active, cleanup0 ++ cleanup) ∧ s' = s ∧
        classified (pod :: items) (pre ++ tr') active cleanup).
    { intros pre tr' Hd Hk Hx'. destruct (IH _ _ _ Hx') as (a & c & -> & -> & Hc).
      exists a, (pod :: c). rewrite <- app_assoc. split; [done|]. split; [done|].
      by apply classified_sweep. }
    cbn [classify_loop] in Hx.
    destruct (decide (m_deletionTimestamp (p_meta pod) = None)) as [Hd|Hd].
    2: { rewrite bool_decide_eq_true_2 in Hx by done.
         destruct (IH _ _ _ Hx) as (a & c & -> & -> & Hc). exists a, c. split; [done|].
         split; [done|]. by apply classified_skip. }
    rewrite bool_decide_eq_false_2 in Hx by tauto.
    destruct (bool_decide (p_phase pod = PodSucceeded) || bool_decide (p_phase pod = PodFailed))
      eqn:Hdead.
    { apply (Hsweep []); [done| |done]. left.
      apply orb_true_iff in Hdead as [?|?]; breflect; set_solver. }
    assert (Hph : p_phase pod ∉ [PodSucceeded; PodFailed]).
    { apply orb_false_iff in Hdead as [??]; breflect. set_solver. }
    case_bool_decide as Hpend.
    2: { apply (Hkeep []); [done| |done]. by split. }
    unfold time_Since in Hx. exec_step Hx. destruct (PendingPodCleanupThreshold <? _)%Z eqn:Hage; breflect.
    + exec_step Hx. eapply (Hsweep [_; _]); [done| |exact Hx]. right. split; [done|].
      eexists. split; [apply list_elem_of_here|done].
    + eapply (Hkeep [_]); [done| |exact Hx]. split; [done|]. intros _.
      eexists. split; [apply list_elem_of_here|done].
Qed.

Lemma exec_getRunnerPods {S} k (s : S) tr o s' :
  exec eq (getRunnerPods k) s tr o s' →
  s' = s ∧ ∃ listed tr',
    tr = Ev (K8sListPods (k_namespace k)
               (MatchingFields ("metadata.labels." +:+ LabelAutoscaleSet) (setID k))) listed :: tr' ∧
    match listed with
    | Err e => tr' = [] ∧ o = Done (Err e)
    | Ok items => ∃ trc active cleanup, o = Done (Ok active) ∧ classified items trc active cleanup ∧
        tr' = trc ++ match cleanup with [] => [] | _ => [EvGo (cleanup_pods k cleanup)] end
    end.
Proof.
  unfold getRunnerPods. intros Hx. exec_step Hx. exec_head Hx.
  2: { exec_step Hx. split; [done|]. by eexists _, _. }
  apply exec_bind in Hx as [(trc & [active cleanup] & s1 & tr2 & -> & H1 & H2)|[-> H1]];
    apply classify_loop_spec in H1 as (ac & cl & Ho & -> & Hc); [|done].
  injection Ho as -> ->. simpl in Hc. cbn [mbind prog_mbind] in H2.
  unfold cleanupTerminatedPodsInBackground in H2.
  destruct cl as [|c cl];
    [rewrite bool_decide_eq_false_2 in H2 by (simpl; lia)
    |rewrite bool_decide_eq_true_2 in H2 by (simpl; lia)]; exec_run H2; (split; [done|]); eexists _, _; (split; [done|]);
    eexists trc, _, _; (split; [done|]); (split; [exact Hc|done]).
Qed.

Lemma exec_deleteRunnerPod {S} k pod (s : S) tr o s' :
  exec eq (deleteRunnerPod k pod) s tr o s' →
  s' = s ∧ ∃ r,
    tr = Ev (K8sDeletePod pod (Some DeleteGracePeriodSeconds)) r ::
         (if decide (r = None ∧ pod_label pod LabelRunnerName ≠ "")
          then [EvGo (_ ← removeRunnerFromGitHub k (pod_label pod LabelRunnerName); Ret tt)]
          else []) ∧
    o = Done (match r with
              | Some e => if IsNotFound e then None else Some e
              | None => None end).
Proof.
  intros (r & tr' & -> & Hx). exec_norm Hx.
  assert (Hn : ∀ l : list (event S), r ≠ None ∨ pod_label pod LabelRunnerName = "" →
    (if decide (r = None ∧ pod_label pod LabelRunnerName ≠ "") then l else []) = [])
    by (intros l ?; apply decide_False; tauto).
  assert (Hs : s' = s) by (destruct r; exec_run Hx; done). split; [done|]. exists r.
  destruct r as [err|].
  - rewrite Hn by (by left). by destruct (IsNotFound err) eqn:He; exec_step Hx.
  - destruct (decide (pod_label pod LabelRunnerName = "")) as [Hl|Hl].
    + rewrite Hn by (by right). rewrite bool_decide_eq_false_2 in Hx by tauto.
      by exec_step Hx.
    + rewrite decide_True by done. rewrite bool_decide_eq_true_2 in Hx by done.
      by exec_run Hx.
Qed.

(** ** Properties *)

(** Classification loses no pod and invents none: pods that are being
    deleted are skipped, every other pod lands, in order, in exactly one of the
    two lists; finished pods and pods that were pending for more than five
    minutes at the moment they were looked at are cleaned up, the others are
    runners. *)
Theorem classifyRunnerPods_partition {S} items (s : S) tr o s' :
  exec_seq (classifyRunnerPods items) s tr o s' →
  ∃ active cleanup, o = Done (active, cleanup) ∧ s' = s ∧ classified items tr active cleanup.
Proof. apply (classify_loop_spec items [] []). Qed.

(** Removing a runner from GitHub only ever removes an identifier GitHub
    itself returned for that runner's name, never panics, and reports success
    only after a removal that succeeded or a lookup that found no runner. *)
Theorem removeRunnerFromGitHub_spec {S} k name (s : S) tr o s' :
  exec_seq (removeRunnerFromGitHub k name) s tr o s' →
  s' = s ∧ ∃ res, o = Done res ∧
  (∀ e id r, e ∈ tr → remove_of e = Some (id, r) →
     ∃ runner err, Ev (GetRunnerByName (k_scalesetClient k) name) (Some runner, err) ∈ tr ∧
                   rr_id runner = id) ∧
  (res = None →
     (∃ err, Ev (GetRunnerByName (k_scalesetClient k) name) (None, err) ∈ tr ∧
        Forall (λ e, remove_of e = None) tr) ∨
     (∃ id, Ev (RemoveRunner (k_scalesetClient k) id) None ∈ tr)).
Proof.
  unfold removeRunnerFromGitHub. intros Hx.
  assert (Hw : ∀ (A : Type) (f : option error → prog S A) (s : S) tr o s',
    exec eq (prog_bind (waitForRateLimit k) f) s tr o s' →
    ∃ pre tr' r, tr = pre ++ tr' ∧ Forall (λ e, remove_of e = None) pre ∧ exec eq (f r) s tr' o s').
  { clear. intros A f s tr o s' Hx. unfold waitForRateLimit, Wait in Hx.
    destruct (k_rateLimiter k).
    - exec_step Hx. eexists [_], _, _. split; [done|]. split; [|exact Hx]. by repeat constructor.
    - exists [], tr, None. split; [done|]. split; [constructor|exact Hx]. }
  assert (Hnone : ∀ (X : Type) (c : Call X) (tr : list (event S)), (∀ r, remove_of (Ev (S := S) c r) = None) →
    Forall (retry_event c) tr → Forall (λ e, remove_of e = None) tr).
  { clear. intros X c tr Hc Hf. eapply Forall_impl; [exact Hf|].
    intros e [(d & x & ->)|(r & ->)]; [done|apply Hc]. }
  apply Hw in Hx as (pre1 & tr1 & [err|] & -> & Hpre1 & Hx).
  { exec_step Hx. split; [done|]. eexists. split; [done|]. split; [|done].
    intros e id r He Hr. rewrite app_nil_r, Forall_forall in *. rewrite Hpre1 in Hr by done. done. }
  apply exec_bind in Hx as [(tr2 & [got err] & s1 & tr3 & -> & H1 & Hx)|[-> H1]];
    apply RetryWithBackoff_events in H1 as (-> & v & res & Ho & Hf & Hok); [|done].
  injection Ho as -> ->.
  assert (Hl : Forall (λ e, remove_of e = None) tr2) by (by eapply Hnone; [|exact Hf]).
  assert (Hpre : ∀ e id r, e ∈ pre1 ++ tr2 → remove_of e ≠ Some (id, r)).
  { intros e id r He Hr. rewrite Forall_forall in Hl, Hpre1.
    apply elem_of_app in He as [He|He]; [rewrite Hpre1 in Hr by done|rewrite Hl in Hr by done]; done. }
  destruct res as [err|].
  { exec_step Hx. split; [done|]. eexists. split; [done|]. split; [|done].
    rewrite app_nil_r. intros e id r He Hr. by destruct (Hpre e id r He). }
  destruct (Hok eq_refl) as ([runner gerr] & -> & Hgerr & Hin). cbn in Hx.
  destruct runner as [runner|].
  2: { exec_step Hx. split; [done|]. eexists. split; [done|]. rewrite app_nil_r. split.
       - intros e id r He Hr. by destruct (Hpre e id r He).
       - intros _. left. exists gerr. split; [set_solver|]. by apply Forall_app. }
  assert (Hfound : ∀ tr', ∃ runner' err, Ev (GetRunnerByName (k_scalesetClient k) name)
      (Some runner', err) ∈ pre1 ++ tr2 ++ tr' ∧ rr_id runner' = rr_id runner)
    by (intros tr'; exists runner, gerr; split; [set_solver|done]).
  apply Hw in Hx as (pre3 & tr4 & [err|] & -> & Hpre3 & Hx).
  { exec_step Hx. split; [done|]. eexists. split; [done|]. split; [|done].
    rewrite app_nil_r, app_assoc. intros e id r [He|He]%elem_of_app Hr;
      [by destruct (Hpre e id r He)|].
    rewrite Forall_forall in Hpre3. rewrite Hpre3 in Hr by done. done. }
  apply exec_bind in Hx as [(tr5 & [got err] & s2 & tr6 & -> & H2 & Hx)|[-> H2]];
    apply RetryWithBackoff_events in H2 as (-> & v' & res' & Ho & Hf' & Hok'); [|done].
  injection Ho as -> ->.
  assert (Hids : ∀ e id r, e ∈ tr5 → remove_of e = Some (id, r) → id = rr_id runner).
  { intros e id r He Hr. rewrite Forall_forall in Hf'.
    destruct (Hf' e He) as [(d & x & ->)|(x & ->)]; simpl in Hr; [done|congruence]. }
  assert (Hres : ∃ res, s' = s ∧ o = Done res ∧ tr6 = [] ∧ (res = None → res' = None))
    by (exec_run Hx; eexists; do 3 (split; [done|]); done).
  destruct Hres as (res & -> & -> & -> & Hres). split; [done|]. exists res. split; [done|].
  rewrite app_nil_r. split.
  - intros e id r He Hr. rewrite (app_assoc pre1) in He.
    apply elem_of_app in He as [He|[He|He]%elem_of_app]; [by destruct (Hpre e id r He)| |].
    + rewrite Forall_forall in Hpre3. rewrite Hpre3 in Hr by done. done.
    + rewrite (Hids e id r He Hr). apply Hfound.
  - intros ->. right. exists (rr_id runner).
    destruct (Hok' (Hres eq_refl)) as (r & _ & Hr & Hin'). simpl in Hr. subst r. set_solver.
Qed.

(** The pod marked as running a job. *)
Definition mark_busy (labels : gmap string string) (pod : Pod) : Pod :=
  pod_set_labels pod (Some (<[LabelRunnerState := RunnerStateBusy]> labels)).

(** The metrics of a started job, of a pod with the given old state. *)
Definition started_metrics {S} k (jobInfo : JobStarted) (oldState : string) : list (event S) :=
  (if decide (oldState = RunnerStateBusy) then []
   else [Ev (Metric RunnerStateTransitions (scaler_labels k ++ [oldState; RunnerStateBusy]) MInc) tt]) ++
  Ev (Metric JobLifecycle (scaler_labels k ++ ["started"; "success"]) MInc) tt ::
  (if negb (IsZero (js_QueueTime jobInfo)) && negb (IsZero (js_RunnerAssignTime jobInfo)) then
     [Ev (Metric JobQueueTime (scaler_labels k)
            (MObserveSeconds (time_Sub (js_RunnerAssignTime jobInfo) (js_QueueTime jobInfo)))) tt]
   else []).

(** A started job marks exactly the first pod the API server lists for its
    runner as busy, by one update that changes no other label; no pod is not an
    error; failures to list or update are reported and count nothing; the only
    panic is a listed pod without labels, which cannot happen when the API
    server returns pods that carry the requested label. *)
Theorem HandleJobStarted_spec {S} k jobInfo (s : S) tr o s' :
  exec_seq (HandleJobStarted k jobInfo) s tr o s' →
  s' = s ∧ ∃ listed tr',
    tr = Ev (K8sListPods (k_namespace k)
               (MatchingFields ("metadata.labels." +:+ LabelRunnerName) (js_RunnerName jobInfo)))
            listed :: tr' ∧
    match listed with
    | Err e => tr' = [] ∧ o = Done (Some (Errorf "failed to find runner pod: " e))
    | Ok [] => tr' = [] ∧ o = Done None
    | Ok (pod :: _) =>
      match m_labels (p_meta pod) with
      | None => tr' = [] ∧ o = Panicked
      | Some labels => ∃ upd tr'', tr' = Ev (K8sUpdatePod (mark_busy labels pod)) upd :: tr'' ∧
        match upd with
        | Some e => tr'' = [] ∧ o = Done (Some (Errorf "failed to update runner pod: " e))
        | None => tr'' = started_metrics k jobInfo (pod_label pod LabelRunnerState) ∧ o = Done None
        end
      end
    end ∧
    (js_RunnerName jobInfo ≠ "" →
     (∀ pods, listed = Ok pods → Forall (λ p, pod_label p LabelRunnerName = js_RunnerName jobInfo) pods) →
     o ≠ Panicked).
Proof.
  unfold HandleJobStarted, findRunnerPod. intros (listed & tr' & -> & Hx). exec_norm Hx.
  destruct listed as [[|pod pods]|e]; cbn [result_map head] in Hx.
  - exec_step Hx. split; [done|]. by eexists (Ok []), _.
  - destruct (m_labels (p_meta pod)) as [labels|] eqn:Hlab.
    2: { exec_step Hx. split; [done|]. eexists (Ok (pod :: pods)), _. rewrite Hlab.
         split; [done|]. split; [done|]. intros Hn Hl. specialize (Hl _ eq_refl).
         apply Forall_cons in Hl as [Hl _]. unfold pod_label, map_get in Hl. by rewrite Hlab in Hl. }
    destruct Hx as (upd & tr'' & -> & Hx). exec_norm Hx.
    assert (Hrun : s' = s ∧ match upd with
        | Some e => tr'' = [] ∧ o = Done (Some (Errorf "failed to update runner pod: " e))
        | None => tr'' = started_metrics k jobInfo (pod_label pod LabelRunnerState) ∧ o = Done None
        end).
    { destruct upd as [e|]; [by exec_step Hx|]. unfold started_metrics.
      destruct (decide (pod_label pod LabelRunnerState = RunnerStateBusy)) as [Hb|Hb];
        [rewrite bool_decide_eq_false_2 in Hx by tauto|rewrite bool_decide_eq_true_2 in Hx by done];
        exec_run Hx; repeat match goal with x : unit |- _ => destruct x end; done. }
    destruct Hrun as [-> Hrun]. split; [done|]. eexists (Ok (pod :: pods)), _. rewrite Hlab.
    split; [done|]. split; [by eexists upd, tr''|].
    intros _ _. by destruct upd, Hrun as [_ ->].
  - exec_step Hx. split; [done|]. by eexists (Err e), _.
Qed.

(** The metrics of a completed job, before its pod is deleted: the execution
    time runs from the assignment to the end, when both are known. *)
Definition completed_metrics {S} k (jobInfo : JobCompleted) : list (event S) :=
  Ev (Metric JobLifecycle (scaler_labels k ++ ["completed"; jc_Result jobInfo]) MInc) tt ::
  (if negb (IsZero (jc_RunnerAssignTime jobInfo)) && negb (IsZero (jc_FinishTime jobInfo)) then
     [Ev (Metric JobExecutionTime (scaler_labels k ++ [jc_Result jobInfo])
            (MObserveSeconds (time_Sub (jc_FinishTime jobInfo) (jc_RunnerAssignTime jobInfo)))) tt]
   else []).

(** C34. A completed job deletes exactly the first pod the API server lists for
    its runner, with the grace period, and never panics.  Before that it counts
    the completion and, when the assignment and the end are both known,
    observes the time between them; after it, a background goroutine removes
    the runner from GitHub exactly when the deletion was accepted and the pod
    has a runner name, and the deletion is counted exactly when it was accepted
    or the pod was gone already.  It fails exactly when the listing fails or
    the deletion fails for another reason; no pod is not an error; nothing else
    is called. *)
Theorem HandleJobCompleted_spec {S} k jobInfo (s : S) tr o s' :
  exec_seq (HandleJobCompleted k jobInfo) s tr o s' →
  s' = s ∧ ∃ listed tr',
    tr = Ev (K8sListPods (k_namespace k)
               (MatchingFields ("metadata.labels." +:+ LabelRunnerName) (jc_RunnerName jobInfo)))
            listed :: tr' ∧
    match listed with
    | Err e => tr' = [] ∧ o = Done (Some (Errorf "failed to find runner pod: " e))
    | Ok [] => tr' = [] ∧ o = Done None
    | Ok (pod :: _) => ∃ del after,
        tr' = completed_metrics k jobInfo ++
              Ev (K8sDeletePod pod (Some DeleteGracePeriodSeconds)) del :: after ∧
        let deregistration :=
          if bool_decide (pod_label pod LabelRunnerName = "") then []
          else [EvGo (_ ← removeRunnerFromGitHub k (pod_label pod LabelRunnerName); Ret tt)] in
        let counted := [Ev (Metric RunnerPodLifecycle (scaler_labels k ++ ["deleted"]) MInc) tt] in
        match del with
        | None => after = deregistration ++ counted ∧ o = Done None
        | Some e =>
          if IsNotFound e then after = counted ∧ o = Done None
          else after = [] ∧ o = Done (Some (Errorf "failed to delete runner pod: " e))
        end
    end.
Proof.
  unfold HandleJobCompleted, findRunnerPod. intros (listed & tr' & -> & Hx). exec_norm Hx.
  destruct listed as [[|pod pods]|e]; cbn [result_map head] in Hx.
  - exec_step Hx. split; [done|]. by eexists (Ok []), _.
  - destruct Hx as ([] & tr1 & -> & Hx). exec_norm Hx.
    apply exec_bind in Hx as [(mid & [] & s1 & tr2 & -> & Hmid & Hx)|[-> Hmid]];
      [|destruct (negb _ && negb _); exec_run Hmid; naive_solver].
    assert (s1 = s ∧ Ev (Metric JobLifecycle (scaler_labels k ++ ["completed"; jc_Result jobInfo]) MInc) tt ::
              mid = completed_metrics k jobInfo) as [-> Hm].
    { unfold completed_metrics. destruct (negb _ && negb _); exec_run Hmid;
        repeat match goal with x : unit |- _ => destruct x end; done. }
    apply exec_bind in Hx as [(del & res & s1 & post & -> & Hd & Hx)|[-> Hd]];
      apply exec_deleteRunnerPod in Hd as (-> & r & -> & Ho); [|done]. injection Ho as ->.
    split; [by destruct r as [e|]; [destruct (IsNotFound e)|]; exec_run Hx|].
    eexists (Ok (pod :: pods)), _. split; [done|]. eexists r, _.
    split; [by rewrite <- Hm; cbn [app]; rewrite <- ?app_assoc|].
    destruct r as [e|]; [destruct (IsNotFound e)|]; exec_run Hx;
      repeat match goal with x : unit |- _ => destruct x end; try done.
    split; [|done]. f_equal. case_decide; case_bool_decide; tauto.
  - exec_step Hx. split; [done|]. by eexists (Err e), _.
Qed.


(** ** Concrete runs *)

Definition sample_pod (name state phase : string) (created : Time) : Pod :=
  mkPod (mkObjectMeta name "" "ci" "" "" 0 created None
           (Some {[LabelRunnerName := name; LabelRunnerState := state; LabelAutoscaleSet := "42"]})
           None [] [])
        (mkPodSpec "Never" [] None [] None) phase.

(** An API server that holds [pods] and a GitHub that knows every runner; the
    clock reads one hour. *)
Definition cluster (pods : list Pod) (R : Type) (c : Call R) (n : nat) : R :=
  match c in Call R0 return R0 with
  | K8sListPods _ _ => Ok pods
  | K8sUpdatePod _ | K8sDeletePod _ _ | K8sCreatePod _ => None
  | GetRunnerByName _ name => (Some (mkRunnerReference 7 name), None)
  | RemoveRunner _ _ => None
  | GenerateJitRunnerConfig _ _ _ => (Some "jit", None)
  | Now => (60 * Minute)%Z
  | c' => offline c'
  end.

Definition sample_scaler : KubernetesScaler :=
  NewKubernetesScaler 0 42 "ci" "img" "default" 0 10 None None.

#[local] Existing Instance map_range_default.
#[local] Instance no_quantities : QuantityParser := {| ParseQuantity := λ _, None |}.

Lemma classifyRunnerPods_partition_witness :
  let young := sample_pod "young" "idle" PodPending (58 * Minute)%Z in
  let stuck := sample_pod "stuck" "idle" PodPending (50 * Minute)%Z in
  let busy := sample_pod "busy" "busy" PodRunning 0%Z in
  let failed := sample_pod "failed" "idle" PodFailed 0%Z in
  let items := [young; stuck; busy; failed] in
  let x := run (cluster items) (classifyRunnerPods items) tt 0 in
  x.1.2 = Done ([young; busy], [stuck; failed]) ∧
  ∃ active cleanup, x.1.2 = Done (active, cleanup) ∧ classified items x.1.1 active cleanup.
Proof.
  intros young stuck busy failed items x. split; [vm_compute; reflexivity|].
  destruct (classifyRunnerPods_partition items tt x.1.1 x.1.2 x.2 (run_exec _ _ _ _))
    as (a & c & Ho & _ & Hc).
  exists a, c. split; [exact Ho|exact Hc].
Defined.

Lemma removeRunnerFromGitHub_spec_witness :
  let x := run (cluster []) (removeRunnerFromGitHub sample_scaler "runner-1") tt 0 in
  x.1.2 = Done None ∧ omap remove_of x.1.1 = [(7%Z, None)] ∧
  ∃ res, x.1.2 = Done res ∧
    (∀ e id r, e ∈ x.1.1 → remove_of e = Some (id, r) →
      ∃ runner err, Ev (GetRunnerByName 0 "runner-1") (Some runner, err) ∈ x.1.1 ∧ rr_id runner = id).
Proof.
  intros x. split; [vm_compute; reflexivity|]. split; [vm_compute; reflexivity|].
  destruct (removeRunnerFromGitHub_spec sample_scaler "runner-1" tt x.1.1 x.1.2 x.2
              (run_exec _ _ _ _)) as (_ & res & Ho & H & _).
  exists res. split; [exact Ho|exact H].
Defined.

Lemma HandleJobStarted_spec_witness :
  let pod := sample_pod "runner-1" "idle" PodRunning 0%Z in
  let x := run (cluster [pod]) (HandleJobStarted sample_scaler (mkJobStarted "runner-1" 5%Z 9%Z)) tt 0 in
  x.1.2 = Done None ∧ x.2 = tt.
Proof.
  intros pod x. split; [vm_compute; reflexivity|].
  exact (proj1 (HandleJobStarted_spec sample_scaler (mkJobStarted "runner-1" 5%Z 9%Z) tt
                  x.1.1 x.1.2 x.2 (run_exec _ _ _ _))).
Defined.

Lemma HandleJobCompleted_spec_witness :
  let pod := sample_pod "runner-1" "busy" PodRunning 0%Z in
  let x := run (cluster [pod])
             (HandleJobCompleted sample_scaler (mkJobCompleted "runner-1" "succeeded" 5%Z 9%Z)) tt 0 in
  x.1.2 = Done None ∧ omap delete_of x.1.1 = [pod] ∧ length x.1.1 = 6 ∧ x.2 = tt.
Proof.
  intros pod x. do 3 (split; [vm_compute; reflexivity|]).
  exact (proj1 (HandleJobCompleted_spec sample_scaler (mkJobCompleted "runner-1" "succeeded" 5%Z 9%Z) tt
              x.1.1 x.1.2 x.2 (run_exec _ _ _ _))).
Defined.
