(* ===== verification/Scaler.v ===== *)
(** * internal/scaler: scale_up.go, scale_down.go and kubernetes_scaler.go

    Creating one runner pod, creating or deleting a batch of them with twenty
    workers, and the decision the scaler takes for a desired count. *)

From S2P Require Export PodLifecycle.

Section Scaler.
Context {S : Type} `{MapRange, QuantityParser}.
Implicit Types k : KubernetesScaler.

(** ** scale_up.go *)

Definition generateJITConfig (k : KubernetesScaler) (runnerName : string) (startTime : Time)
  : prog S (option string * option error) :=
  jitStartTime ← call Now;
  '(jitConfig, err) ← call (GenerateJitRunnerConfig (k_scalesetClient k) runnerName (k_scaleSetID k));
  jitDuration ← time_Since jitStartTime;
  match err with
  | Some err =>
    metric JITConfigGeneration (scaler_labels k ++ ["error"]) MInc;;
    metric JITConfigGenerationDuration (scaler_labels k) (MObserveSeconds jitDuration);;
    age ← time_Since startTime;
    metric RunnerPodCreationDuration (scaler_labels k ++ ["error"]) (MObserveSeconds age);;
    Ret (None, Some (Errorf "failed to generate JIT config: " err))
  | None =>
    metric JITConfigGeneration (scaler_labels k ++ ["success"]) MInc;;
    metric JITConfigGenerationDuration (scaler_labels k) (MObserveSeconds jitDuration);;
    Ret (jitConfig, None)
  end.

(** The pod of a runner with a given name and JIT configuration. *)
Definition runner_pod (k : KubernetesScaler) (runnerName encodedJITConfig : string) : Pod :=
  let podLabels := buildPodLabels k runnerName in
  let podAnnotations := buildPodAnnotations k encodedJITConfig in
  let envVars := buildEnvVars k encodedJITConfig in
  let podSpec := buildRunnerPodSpec k envVars in
  mkPod (mkObjectMeta "" ("runner-" +:+ runnerName +:+ "-") (k_namespace k) "" "" 0%Z 0%Z None
           (Some podLabels) (Some podAnnotations)
           (match k_ownerRef k with Some ownerRef => [ownerRef] | None => [] end) [])
        podSpec "".

Definition createRunnerPod (k : KubernetesScaler) : prog S (option error) :=
  startTime ← call Now;
  uuid ← call NewUUID;
  let runnerName := "runner-" +:+ str_take 8 uuid in
  limited ← waitForRateLimit k;
  match limited with
  | Some err => Ret (Some (Errorf "rate limit wait cancelled: " err))
  | None =>
    '(jitConfig, err) ← generateJITConfig k runnerName startTime;
    match err with
    | Some err => Ret (Some err)
    | None =>
      match jitConfig with
      | None => Panic (* jitConfig.EncodedJITConfig of a nil pointer *)
      | Some encodedJITConfig =>
        err ← call (K8sCreatePod (runner_pod k runnerName encodedJITConfig));
        match err with
        | Some err =>
          age ← time_Since startTime;
          metric RunnerPodCreationDuration (scaler_labels k ++ ["error"]) (MObserveSeconds age);;
          Ret (Some (Errorf "failed to create pod: " err))
        | None =>
          age ← time_Since startTime;
          metric RunnerPodCreationDuration (scaler_labels k ++ ["success"]) (MObserveSeconds age);;
          metric RunnerPodLifecycle (scaler_labels k ++ ["created"]) MInc;;
          Ret None
        end
      end
    end
  end.

(** [totalAttempted > 0 && currentErrors >= totalAttempted/2] *)
Definition error_threshold (currentErrors current : Z) : bool :=
  let totalAttempted := currentErrors +! current in
  (0 <? totalAttempted)%Z && (go_div totalAttempted 2 <=? currentErrors)%Z.

Definition max_workers : positive := Pos.of_nat BatchMaxWorkers.

(** The worker: [true] counts as created. *)
Definition create_task (k : KubernetesScaler) (i : nat) : prog S bool :=
  err ← createRunnerPod k;
  Ret (match err with None => true | Some _ => false end).

Definition batchCreateRunnerPods (k : KubernetesScaler) (count : Z) : prog S Z :=
  batch max_workers (Z.to_nat count) error_threshold (create_task k).

(** ** scale_down.go *)

Definition filterIdlePods (pods : list Pod) : list Pod :=
  filter (λ pod, pod_label pod LabelRunnerState = RunnerStateIdle) pods.

(** The worker of the [i]-th pod: [true] counts as deleted. *)
Definition delete_task (k : KubernetesScaler) (pods : list Pod) (i : nat) : prog S bool :=
  match pods !! i with
  | None => Panic
  | Some pod =>
    err ← deleteRunnerPod k pod;
    Ret (match err with
         | None => true
         | Some err => if IsNotFound err then true else false
         end)
  end.

Definition batchDeleteRunnerPods (k : KubernetesScaler) (pods : list Pod) : prog S Z :=
  batch max_workers (length pods) error_threshold (delete_task k pods).

(** ** kubernetes_scaler.go *)

Definition handleScaleUp (k : KubernetesScaler) (currentCount targetCount : Z)
  : prog S (Z * option error) :=
  let scaleUp := targetCount -! currentCount in
  (if (targetCount =? k_maxRunners k)%Z && (currentCount <? k_maxRunners k)%Z then
     metric ScalingConstraints (scaler_labels k ++ ["max_runners"]) MInc
   else Ret tt);;
  created ← batchCreateRunnerPods k scaleUp;
  (if (created <? scaleUp)%Z then
     metric ScalingConstraints (scaler_labels k ++ ["partial_scale_up"]) MInc
   else Ret tt);;
  (if (0 <? created)%Z then
     metric RunnerScalingOperations (scaler_labels k ++ ["scale_up"; "success"]) MInc;;
     metric RunnerScalingAmount (scaler_labels k ++ ["scale_up"]) (MObserve created)
   else Ret tt);;
  if (created <? scaleUp)%Z then
    metric RunnerScalingOperations (scaler_labels k ++ ["scale_up"; "error"]) MInc;;
    Ret (currentCount +! created,
         Some (errors_New ("failed to create all runner pods: created " +:+ Itoa created
                           +:+ " of " +:+ Itoa scaleUp)))
  else Ret (targetCount, None).

Definition handleScaleDown (k : KubernetesScaler) (currentPods : list Pod)
    (currentCount targetCount : Z) : prog S (Z * option error) :=
  let scaleDown := currentCount -! targetCount in
  let idlePods := filterIdlePods currentPods in
  let toDelete := if (Z.of_nat (length idlePods) <? scaleDown)%Z
                  then Z.of_nat (length idlePods) else scaleDown in
  if (toDelete <? 0)%Z then Panic (* slice bounds out of range *)
  else
  deleted ← batchDeleteRunnerPods k (take (Z.to_nat toDelete) idlePods);
  (if (0 <? deleted)%Z then
     metric RunnerScalingOperations (scaler_labels k ++ ["scale_down"; "success"]) MInc;;
     metric RunnerScalingAmount (scaler_labels k ++ ["scale_down"]) (MObserve deleted)
   else Ret tt);;
  if (deleted <? toDelete)%Z then
    metric RunnerScalingOperations (scaler_labels k ++ ["scale_down"; "error"]) MInc;;
    Ret (currentCount -! deleted,
         Some (errors_New ("failed to delete all runner pods: deleted " +:+ Itoa deleted
                           +:+ " of " +:+ Itoa toDelete)))
  else Ret (currentCount -! toDelete, None).

Definition target_count (k : KubernetesScaler) (count : Z) : Z :=
  let targetCount := k_minRunners k +! count in
  if (k_maxRunners k <? targetCount)%Z then k_maxRunners k else targetCount.

Definition HandleDesiredRunnerCount (k : KubernetesScaler) (count : Z)
  : prog S (Z * option error) :=
  got ← getRunnerPods k;
  match got with
  | Err err => Ret (0%Z, Some (Errorf "failed to get runner pods: " err))
  | Ok currentPods =>
    let currentCount := Z.of_nat (length currentPods) in
    let targetCount := target_count k count in
    metric QueuedJobs (scaler_labels k) (MSet count);;
    if (currentCount <? targetCount)%Z then handleScaleUp k currentCount targetCount
    else if (targetCount <? currentCount)%Z then
      handleScaleDown k currentPods currentCount targetCount
    else Ret (currentCount, None)
  end.
End Scaler.

(** ** Recognisers *)

(** The pod a successful creation request carried. *)
Definition created_of {S} (e : event S) : option Pod :=
  '(p, r) ← create_of e; match r with None => Some p | Some _ => None end.

(** The pod a deletion request found or made gone. *)
Definition gone_of {S} (e : event S) : option Pod :=
  match e with
  | Ev c r => match c in Call R return R → option Pod with
              | K8sDeletePod p _ => λ r, match r with
                                         | None => Some p
                                         | Some e => if IsNotFound e then Some p else None
                                         end
              | _ => λ _, None end r
  | EvGo _ => None
  end.

(** ** One pod *)
Section OnePod.
Context {S : Type} `{MapRange, QuantityParser}.
Implicit Types k : KubernetesScaler.

Lemma exec_limited {A : Type} k (f : option error → prog S A) s tr o s' :
  exec eq (prog_bind (waitForRateLimit k) f) s tr o s' →
  ∃ pre tr' r, tr = pre ++ tr' ∧ exec eq (f r) s tr' o s' ∧ (pre = [] ∨ pre = [Ev RateLimitWait r]).
Proof.
  unfold waitForRateLimit, Wait. destruct (k_rateLimiter k).
  - intros (limited & tr' & -> & Hx). exists [Ev RateLimitWait limited], tr', limited. auto.
  - intros Hx. exists [], tr, None. auto.
Qed.

Lemma exec_generateJITConfig k name start (s : S) tr o s' :
  exec eq (generateJITConfig k name start) s tr o s' →
  s' = s ∧ omap create_of tr = [] ∧ omap delete_of tr = [] ∧ ∃ jit err,
    Ev (GenerateJitRunnerConfig (k_scalesetClient k) name (k_scaleSetID k)) (jit, err) ∈ tr ∧
    match err with
    | Some e => o = Done (None, Some (Errorf "failed to generate JIT config: " e))
    | None => o = Done (jit, None)
    end.
Proof.
  unfold generateJITConfig, time_Since. intros (t1 & tr1 & -> & [jit err] & tr2 & -> & Hx).
  exec_norm Hx.
  assert (Hin : ∀ l, Ev (GenerateJitRunnerConfig (k_scalesetClient k) name (k_scaleSetID k)) (jit, err)
    ∈ Ev (S := S) Now t1 ::
      Ev (GenerateJitRunnerConfig (k_scalesetClient k) name (k_scaleSetID k)) (jit, err) :: l)
    by (intros l; apply list_elem_of_further, list_elem_of_here).
  destruct err as [e|]; exec_run Hx; (split; [done|]); (split; [done|]); (split; [done|]).
  - by exists jit, (Some e).
  - by exists jit, None.
Qed.

(** The creation a worker attempts. *)
Definition creation k (tr : list (event S)) (p : Pod) : Prop :=
  ∃ u jit, p = runner_pod k ("runner-" +:+ str_take 8 u) jit ∧ Ev NewUUID u ∈ tr ∧
    Ev (GenerateJitRunnerConfig (k_scalesetClient k) ("runner-" +:+ str_take 8 u) (k_scaleSetID k))
       (Some jit, None) ∈ tr.

Lemma exec_createRunnerPod k (s : S) tr o s' :
  exec eq (createRunnerPod k) s tr o s' →
  s' = s ∧ omap delete_of tr = [] ∧
  match o with
  | Done None => ∃ p, creation k tr p ∧ omap create_of tr = [(p, None)]
  | Done (Some _) => omap create_of tr = [] ∨
      ∃ p e, creation k tr p ∧ omap create_of tr = [(p, Some e)]
  | Panicked => omap create_of tr = [] ∧
      ∃ name, Ev (GenerateJitRunnerConfig (k_scalesetClient k) name (k_scaleSetID k)) (None, None) ∈ tr
  end.
Proof.
  unfold createRunnerPod. intros (t0 & tr1 & -> & u & tr2 & -> & Hx). exec_norm Hx.
  apply exec_limited in Hx as (pre & tr3 & [e|] & -> & Hx & Hpre).
  { exec_step Hx. rewrite app_nil_r. destruct Hpre as [->| ->]; (split; [done|]); (split; [done|]); by left. }
  apply exec_bind in Hx as [(trj & [jit err] & s1 & tr4 & -> & Hj & Hx)|[-> Hj]];
    apply exec_generateJITConfig in Hj as (-> & Hc & Hd & jit0 & err0 & Hin & Hj);
    [|by destruct err0].
  assert (Hpre' : omap create_of pre = [] ∧ omap delete_of pre = [])
    by (destruct Hpre as [->| ->]; done).
  destruct Hpre' as [Hpc Hpd]. exec_norm Hx. clear Hpre.
  assert (Hjit : ∀ l, Ev (GenerateJitRunnerConfig (k_scalesetClient k)
      ("runner-" +:+ str_take 8 u) (k_scaleSetID k)) (jit0, err0)
      ∈ Ev Now t0 :: Ev NewUUID u :: pre ++ trj ++ l) by (intros l; set_solver +Hin).
  assert (Hnil : ∀ l, omap create_of (Ev Now t0 :: Ev NewUUID u :: pre ++ trj ++ l) = omap create_of l ∧
                      omap delete_of (Ev Now t0 :: Ev NewUUID u :: pre ++ trj ++ l) = omap delete_of l).
  { intros l. simpl. rewrite !omap_app. by rewrite Hpc, Hpd, Hc, Hd. }
  destruct err0 as [e|]; injection Hj as -> ->.
  { exec_step Hx. destruct (Hnil []) as [-> ->]. split; [done|]. split; [done|]. by left. }
  destruct jit0 as [jit|].
  2: { exec_step Hx. destruct (Hnil []) as [-> ->]. split; [done|]. split; [done|].
       split; [done|]. eexists. apply Hjit. }
  unfold time_Since in Hx. destruct Hx as (r & tr5 & -> & Hx). exec_norm Hx.
  assert (Hcr : ∀ l, creation k (Ev Now t0 :: Ev NewUUID u :: pre ++ trj ++ l)
      (runner_pod k ("runner-" +:+ str_take 8 u) jit)).
  { intros l. exists u, jit. split; [done|]. split; [|apply Hjit].
    apply list_elem_of_further, list_elem_of_here. }
  destruct r as [e|]; exec_run Hx; (split; [done|]); rewrite (proj1 (Hnil _)), (proj2 (Hnil _));
    (split; [done|]).
  - right. eexists _, e. split; [apply Hcr|done].
  - eexists. split; [apply Hcr|done].
Qed.

(** ** Workers *)

(** The successful creations are those of the creations that were answered
    with no error. *)
Definition accepted (c : Pod * option error) : option Pod :=
  match c.2 with None => Some c.1 | Some _ => None end.

Lemma created_of_creations (tr : list (event S)) :
  omap created_of tr = omap accepted (omap create_of tr).
Proof.
  induction tr as [|ev tr IH]; [done|]. cbn [omap list_omap] in *.
  unfold created_of at 1. destruct (create_of ev) as [[p [?|]]|]; simpl; by rewrite IH.
Qed.

Lemma exec_create_task k i (s : S) tr o s' :
  exec eq (create_task k i) s tr o s' →
  length (omap create_of tr) ≤ 1 ∧ omap delete_of tr = [] ∧
  length (omap created_of tr) = (if decide (o = Done true) then 1 else 0).
Proof.
  intros Hx. rewrite created_of_creations.
  apply exec_bind in Hx as [(tr1 & res & s1 & tr2 & -> & H1 & Hx)|[-> H1]];
    apply exec_createRunnerPod in H1 as (-> & Hd & H1).
  - exec_step Hx. rewrite app_nil_r. destruct res as [e|].
    + by destruct H1 as [->|(p & e' & _ & ->)]; (split; [simpl; lia|]).
    + destruct H1 as (p & _ & ->). by (split; [simpl; lia|]).
  - destruct H1 as [-> _]. by (split; [simpl; lia|]).
Qed.

Lemma exec_delete_task k pods i (s : S) tr o s' :
  exec eq (delete_task k pods i) s tr o s' →
  omap create_of tr = [] ∧ omap delete_of tr = option_list (pods !! i) ∧
  (is_Some (pods !! i) → o ≠ Panicked) ∧
  length (omap gone_of tr) = (if decide (o = Done true) then 1 else 0).
Proof.
  unfold delete_task. destruct (pods !! i) as [pod|]; intros Hx.
  2: { exec_step Hx. split; [done|]. split; [done|]. split; [by intros [? ?]|done]. }
  apply exec_bind in Hx as [(tr1 & res & s1 & tr2 & -> & H1 & Hx)|[-> H1]];
    apply exec_deleteRunnerPod in H1 as (-> & r & -> & Ho); [|done]. injection Ho as ->.
  exec_step Hx. rewrite app_nil_r.
  destruct r as [e|].
  - rewrite decide_False by (by intros [? _]). simpl. destruct (IsNotFound e) eqn:He; simpl.
    + done.
    + by rewrite He.
  - case_decide; simpl; done.
Qed.
End OnePod.

(** C39. The error threshold, on counters that cannot overflow: whatever the log
    line calls it, a batch stops as soon as the loop has seen one attempt end
    while the successes exceed the failures by at most one; in particular one
    success and no failure stop it. *)
Theorem error_threshold_spec e c :
  (0 ≤ e < 2 ^ 31)%Z → (0 ≤ c < 2 ^ 31)%Z →
  error_threshold e c = true ↔ (0 < e + c ∧ c ≤ e + 1)%Z.
Proof.
  intros He Hc. unfold error_threshold, go_div.
  rewrite wrap64_small by (unfold min_int64, max_int64; lia).
  rewrite andb_true_iff, Z.ltb_lt, Z.leb_le.
  split; intros [Hp Hq]; (split; [done|]);
    rewrite Z.quot_div_nonneg in * by lia;
    pose proof (Z.div_mod (e + c) 2 ltac:(lia)); pose proof (Z.mod_pos_bound (e + c) 2 ltac:(lia)); lia.
Qed.

(** ** Batches *)
Section Batches.
Context {S : Type} `{MapRange, QuantityParser}.
Implicit Types k : KubernetesScaler.

Lemma concat_lookups {X} (l : list X) j :
  concat ((λ i, option_list (l !! i)) <$> seq 0 j) = take j l.
Proof.
  revert j. induction l as [|x l IH]; intros j.
  - rewrite take_nil. induction (seq 0 j); done.
  - destruct j as [|j]; [done|]. cbn [seq fmap list_fmap concat take]. simpl. f_equal.
    rewrite <- IH, <- fmap_S_seq, <- list_fmap_compose. done.
Qed.

Lemma gone_deleted (tr : list (event S)) : length (omap gone_of tr) ≤ length (omap delete_of tr).
Proof.
  induction tr as [|ev tr IH]; [done|]. cbn [omap list_omap].
  destruct (gone_of ev) as [p|] eqn:Hg; [|destruct (delete_of ev); simpl; lia].
  assert (is_Some (delete_of ev)) as [p' ->]; [|simpl; lia].
  destruct ev as [R c r|b]; [|done]. by destruct c.
Qed.

(** The number of events [f] observes. *)
Definition observed {X} (f : event S → option X) (tr : list (event S)) : Z :=
  Z.of_nat (length (omap f tr)).

Lemma observed_app {X} (f : event S → option X) tr tr' :
  observed f (tr ++ tr') = (observed f tr + observed f tr')%Z.
Proof. unfold observed. rewrite omap_app, length_app. lia. Qed.

Lemma exec_batchCreateRunnerPods k n (s : S) tr o s' :
  exec eq (batchCreateRunnerPods k n) s tr o s' → (0 ≤ n < 2 ^ 31)%Z →
  s' = s ∧ omap delete_of tr = [] ∧ (observed create_of tr ≤ n)%Z ∧
  (observed created_of tr ≤ n)%Z ∧
  (o = Panicked ∨ o = Done (observed created_of tr)).
Proof.
  intros (tr1 & tr2 & r & -> & Hb & Hx) Hn. exec_norm Hx.
  assert (s' = s ∧ tr2 = [] ∧ o = match r with Some c => Done c | None => Panicked end)
    as (-> & -> & ->) by (destruct r; [by exec_run Hx|naive_solver]).
  rewrite app_nil_r. split; [done|].
  assert (Hd : length (omap delete_of tr1) ≤ Z.to_nat n * 0).
  { eapply (batch_at_most _ _ _ _ delete_of 0); [|exact Hb].
    intros i tr o (s1 & s2 & Hw). apply exec_create_task in Hw as (_ & -> & _). done. }
  assert (Hc : length (omap create_of tr1) ≤ Z.to_nat n * 1).
  { eapply (batch_at_most _ _ _ _ create_of 1); [|exact Hb].
    intros i tr o (s1 & s2 & Hw). by apply exec_create_task in Hw as (? & _). }
  assert (Hcd : length (omap created_of tr1) ≤ Z.to_nat n * 1).
  { eapply (batch_at_most _ _ _ _ created_of 1); [|exact Hb].
    intros i tr o (s1 & s2 & Hw). apply exec_create_task in Hw as (_ & _ & ->).
    case_decide; lia. }
  unfold observed. split; [apply nil_length_inv; lia|]. split; [lia|]. split; [lia|].
  destruct r as [c|]; [right|by left].
  eapply (batch_exact _ _ _ _ created_of) in Hb as [-> Hle].
  - rewrite wrap32_small by lia. done.
  - intros i tr o (s1 & s2 & Hw). by apply exec_create_task in Hw as (_ & _ & ->).
Qed.

Lemma exec_batchDeleteRunnerPods k pods (s : S) tr o s' :
  exec eq (batchDeleteRunnerPods k pods) s tr o s' → (Z.of_nat (length pods) < 2 ^ 31)%Z →
  s' = s ∧ omap create_of tr = [] ∧ o = Done (observed gone_of tr) ∧
  ∃ j, j ≤ length pods ∧ omap delete_of tr ≡ₚ take j pods.
Proof.
  intros (tr1 & tr2 & r & -> & Hb & Hx) Hn. exec_norm Hx.
  destruct r as [c|].
  2: { exfalso. revert Hb. apply batch_no_crash. intros i tr' o' Hi (s1 & s2 & Hw).
       apply exec_delete_task in Hw as (_ & _ & Hp & _). by apply Hp, lookup_lt_is_Some. }
  exec_step Hx. rewrite app_nil_r. split; [done|].
  assert (Hd : length (omap create_of tr1) ≤ length pods * 0).
  { eapply (batch_at_most _ _ _ _ create_of 0); [|exact Hb].
    intros i tr o (s1 & s2 & Hw). apply exec_delete_task in Hw as (-> & _). done. }
  split; [apply nil_length_inv; lia|].
  assert (Hg := Hb). eapply (batch_exact _ _ _ _ gone_of) in Hb as [-> Hle].
  2: { intros i tr o (s1 & s2 & Hw). by apply exec_delete_task in Hw as (_ & _ & _ & ->). }
  split; [unfold observed; by rewrite wrap32_small by lia|].
  eapply (batch_gather _ _ _ _ delete_of (λ i, option_list (pods !! i))) in Hg as (j & Hj & Hp).
  - exists j. split; [done|]. by rewrite Hp, concat_lookups.
  - intros i tr o (s1 & s2 & Hw). by apply exec_delete_task in Hw as (_ & -> & _).
Qed.
End Batches.

(** ** Scaling *)
Section Scaling.
Context {S : Type} `{MapRange, QuantityParser}.
Implicit Types k : KubernetesScaler.

(** Traces that neither create nor delete pods. *)
Definition quiet (tr : list (event S)) : Prop :=
  omap create_of tr = [] ∧ omap delete_of tr = [].

Lemma quiet_gone tr : quiet tr → omap gone_of tr = [] ∧ omap created_of tr = [].
Proof.
  intros [Hc Hd]. split.
  - apply nil_length_inv. pose proof (gone_deleted tr) as Hg. rewrite Hd in Hg. simpl in Hg. lia.
  - by rewrite created_of_creations, Hc.
Qed.

Lemma observed_quiet {X} (f : event S → option X) pre tr post :
  omap f pre = [] → omap f post = [] → observed f (pre ++ tr ++ post) = observed f tr.
Proof. intros Hp Hq. unfold observed. by rewrite !omap_app, Hp, Hq, app_nil_r. Qed.

(** The metrics around a scaling operation. *)
Ltac quiet_run H := exec_run H; repeat match goal with x : unit |- _ => destruct x end.

Lemma exec_handleScaleUp k current target (s : S) tr o s' :
  exec eq (handleScaleUp k current target) s tr o s' →
  (0 ≤ current < target)%Z → (target < 2 ^ 31)%Z →
  s' = s ∧ omap delete_of tr = [] ∧ (observed create_of tr ≤ target - current)%Z ∧
  (observed created_of tr ≤ target - current)%Z ∧
  (o = Panicked ∨ ∃ err, o = Done ((current + observed created_of tr)%Z, err) ∧
     (err = None ↔ observed created_of tr = (target - current)%Z)).
Proof.
  intros Hx Hct Ht. unfold handleScaleUp in Hx.
  assert (Hgap : target -! current = (target - current)%Z)
    by (apply wrap64_small; unfold min_int64, max_int64; lia).
  rewrite Hgap in Hx.
  apply exec_bind in Hx as [(pre & [] & s1 & tr1 & -> & Hpre & Hx)|[-> Hpre]];
    [|by destruct (_ && _); exec_run Hpre].
  assert (s1 = s ∧ quiet pre) as [-> Hqpre] by (by destruct (_ && _); exec_run Hpre).
  destruct (quiet_gone _ Hqpre) as [_ Hcpre].
  apply exec_bind in Hx as [(mid & created & s1 & post & -> & Hb & Hx)|[-> Hb]];
    apply exec_batchCreateRunnerPods in Hb as (-> & Hd & Hc & Hcd & Ho); try lia.
  2: { split; [done|]. rewrite omap_app, Hd, (proj2 Hqpre). split; [done|].
       rewrite !observed_app. unfold observed at 1 3. rewrite (proj1 Hqpre), Hcpre. simpl.
       split; [lia|]. split; [lia|]. by left. }
  destruct Ho as [|[= ->]]; [done|]. set (created := observed created_of mid) in *.
  assert (0 ≤ created)%Z by (unfold created, observed; lia).
  assert (Hr : s' = s ∧ quiet post ∧ ∃ err, o = Done ((current + created)%Z, err) ∧
                 (err = None ↔ created = (target - current)%Z)).
  { destruct (created <? target - current)%Z eqn:Hlt; breflect.
    - destruct (0 <? created)%Z; quiet_run Hx; (split; [done|]); (split; [done|]);
        rewrite wrap64_small by (unfold min_int64, max_int64; lia);
        eexists; (split; [done|]); split; intros; try done; lia.
    - destruct (0 <? created)%Z; quiet_run Hx; (split; [done|]); (split; [done|]);
        assert (Hcr : created = (target - current)%Z) by lia;
        exists None; rewrite Hcr; (split; [do 2 f_equal; lia|]); done. }
  destruct Hr as (-> & Hqpost & err & -> & Herr). destruct (quiet_gone _ Hqpost) as [_ Hcpost].
  split; [done|]. destruct Hqpre as [Hp1 Hp2], Hqpost as [Hq1 Hq2].
  rewrite !omap_app, Hp2, Hd, Hq2. split; [done|].
  rewrite !observed_quiet by done. fold created. split; [done|]. split; [done|].
  right. by exists err.
Qed.

Lemma exec_handleScaleDown k pods current target (s : S) tr o s' :
  exec eq (handleScaleDown k pods current target) s tr o s' →
  current = Z.of_nat (length pods) → (0 ≤ target < current)%Z → (current < 2 ^ 31)%Z →
  let idle := filterIdlePods pods in
  let todo := Z.min (current - target) (Z.of_nat (length idle)) in
  s' = s ∧ omap create_of tr = [] ∧
  (∃ j, omap delete_of tr ≡ₚ take j idle ∧ (Z.of_nat j ≤ todo)%Z) ∧
  ∃ err, o = Done ((current - observed gone_of tr)%Z, err) ∧
    (err = None ↔ observed gone_of tr = todo).
Proof.
  intros Hx Hcur Ht Hc. cbn zeta. unfold handleScaleDown in Hx.
  assert (Hgap : current -! target = (current - target)%Z)
    by (apply wrap64_small; unfold min_int64, max_int64; lia).
  rewrite Hgap in Hx. set (idle := filterIdlePods pods) in *.
  set (todo := Z.min _ _).
  assert (Htodo : (if (Z.of_nat (length idle) <? current - target)%Z
                   then Z.of_nat (length idle) else (current - target)%Z) = todo)
    by (unfold todo; destruct (Z.of_nat (length idle) <? current - target)%Z eqn:Hlt; breflect; lia).
  rewrite Htodo in Hx. assert (Hneg : (todo <? 0)%Z = false) by (apply Z.ltb_ge; lia).
  rewrite Hneg in Hx.
  assert (Hlen : length (take (Z.to_nat todo) idle) = Z.to_nat todo)
    by (rewrite length_take; unfold todo; lia).
  assert (Hidle : length idle ≤ length pods) by apply length_filter.
  apply exec_bind in Hx as [(mid & deleted & s1 & post & -> & Hb & Hx)|[-> Hb]];
    apply exec_batchDeleteRunnerPods in Hb as (-> & Hcr & Ho & j & Hj & Hd);
    rewrite ?Hlen in *; try lia; [|done].
  injection Ho as ->. set (gone := observed gone_of mid) in *.
  assert (Hgone : (0 ≤ gone ≤ todo)%Z).
  { unfold gone, observed. pose proof (gone_deleted mid) as Hg.
    rewrite Hd, length_take in Hg. lia. }
  assert (Hr : s' = s ∧ quiet post ∧ ∃ err, o = Done ((current - gone)%Z, err) ∧
                 (err = None ↔ gone = todo)).
  { destruct (gone <? todo)%Z eqn:Hlt; breflect.
    - destruct (0 <? gone)%Z; quiet_run Hx; (split; [done|]); (split; [done|]);
        rewrite wrap64_small by (unfold min_int64, max_int64; lia);
        eexists; (split; [done|]); split; intros; try done; lia.
    - assert (Hg : gone = todo) by lia.
      destruct (0 <? gone)%Z; quiet_run Hx; (split; [done|]); (split; [done|]);
        rewrite wrap64_small by (unfold min_int64, max_int64; lia);
        exists None; rewrite Hg; done. }
  destruct Hr as (-> & Hqpost & err & -> & Herr). destruct (quiet_gone _ Hqpost) as [Hgpost _].
  split; [done|]. rewrite !omap_app, Hcr, (proj1 Hqpost), (proj2 Hqpost), !app_nil_r.
  split; [done|]. split.
  { exists j. split; [|lia]. rewrite Hd, take_take. by rewrite Nat.min_l by lia. }
  exists err. assert (Hob : observed gone_of (mid ++ post) = gone).
  { rewrite observed_app. unfold observed at 2. rewrite Hgpost. simpl. unfold gone. lia. }
  by rewrite Hob.
Qed.

(** Calls that leave the pods alone. *)
Definition no_pod_call (R : Type) (c : Call R) : Prop :=
  match c with K8sCreatePod _ | K8sDeletePod _ _ => False | _ => True end.

Lemma no_pod_call_quiet tr : Forall (event_sat no_pod_call) tr → quiet tr.
Proof.
  induction 1 as [|ev tr Hev _ [IHc IHd]]; [done|]. unfold quiet. cbn [omap list_omap].
  rewrite IHc, IHd. destruct ev as [R c r|b]; [|done]. by destruct c.
Qed.

Lemma classify_loop_no_pod_call items a c :
  always no_pod_call (classify_loop (S := S) items a c).
Proof.
  revert a c. induction items as [|pod items IH]; intros a c; [done|]. cbn [classify_loop].
  unfold time_Since. repeat case_match; simpl; auto. split; [done|]. intros r.
  case_match; simpl; auto.
Qed.

Lemma quiet_app tr tr' : quiet tr → quiet tr' → quiet (tr ++ tr').
Proof. intros [H1 H2] [H3 H4]. unfold quiet. by rewrite !omap_app, H1, H2, H3, H4. Qed.

Lemma exec_getRunnerPods_quiet k (s : S) tr o s' :
  exec eq (getRunnerPods k) s tr o s' → quiet tr.
Proof.
  intros Hx. unfold getRunnerPods, cleanupTerminatedPodsInBackground in Hx. exec_step Hx.
  apply (quiet_app [_]); [done|]. exec_head Hx; [|by exec_step Hx].
  apply exec_bind in Hx as [(trc & [active cleanup] & s1 & tr2 & -> & H1 & H2)|[-> H1]];
    pose proof (always_exec _ _ _ _ _ _ _ (classify_loop_no_pod_call _ _ _) H1) as Hq;
    apply no_pod_call_quiet in Hq; [|done].
  apply quiet_app; [done|]. cbn [mbind prog_mbind] in H2.
  by destruct (bool_decide _); exec_run H2.
Qed.
End Scaling.

(** ** Properties *)

(** A creation worker makes at most one creation request, for the pod that
    [runner_pod] builds from a fresh name and the JIT configuration GitHub
    issued for that very name; it succeeds exactly when that request does, and
    can only panic when GitHub answers with neither configuration nor error. *)
Theorem createRunnerPod_spec {S} `{MapRange, QuantityParser} k (s : S) tr o s' :
  exec_seq (createRunnerPod k) s tr o s' →
  s' = s ∧ omap delete_of tr = [] ∧
  match o with
  | Done None => ∃ p, creation k tr p ∧ omap create_of tr = [(p, None)]
  | Done (Some _) => omap create_of tr = [] ∨
      ∃ p e, creation k tr p ∧ omap create_of tr = [(p, Some e)]
  | Panicked => omap create_of tr = [] ∧
      ∃ name, Ev (GenerateJitRunnerConfig (k_scalesetClient k) name (k_scaleSetID k)) (None, None) ∈ tr
  end.
Proof. apply exec_createRunnerPod. Qed.

(** Settings and sizes the CRD's int32 fields and any real cluster respect. *)
Record sane (k : KubernetesScaler) (count : Z) : Prop := {
  sane_min : (0 ≤ k_minRunners k < 2 ^ 31)%Z;
  sane_max : (0 ≤ k_maxRunners k < 2 ^ 31)%Z;
  sane_count : (0 ≤ count < 2 ^ 31)%Z
}.

Lemma target_count_sane k count :
  sane k count →
  target_count k count = Z.min (k_minRunners k + count) (k_maxRunners k) ∧
  (0 ≤ target_count k count < 2 ^ 31)%Z.
Proof.
  intros [Hmin Hmax Hc]. unfold target_count.
  rewrite wrap64_small by (unfold min_int64, max_int64; lia).
  destruct (_ <? _)%Z eqn:Hlt; breflect; lia.
Qed.

(** What scaling the runners [active] towards [target] may do. *)
Definition scaled {S} (k : KubernetesScaler) (active : list Pod) (target : Z)
    (tr : list (event S)) (o : outcome (Z * option error)) : Prop :=
  let current := Z.of_nat (length active) in
  let idle := filterIdlePods active in
  (observed create_of tr ≤ Z.max 0 (target - current))%Z ∧
  (∃ j, omap delete_of tr ≡ₚ take j idle ∧ (Z.of_nat j ≤ Z.max 0 (current - target))%Z) ∧
  (o = Panicked ∧ (current < target)%Z ∨
   ∃ n err, o = Done (n, err) ∧
     n = (current + observed created_of tr - observed gone_of tr)%Z ∧
     (n ≤ Z.max current (k_maxRunners k))%Z ∧
     (err = None ↔ n = Z.max target (current - Z.of_nat (length idle)))).

Lemma observed_nil {S X} (f : event S → option X) tr : omap f tr = [] → observed f tr = 0%Z.
Proof. unfold observed. by intros ->. Qed.

Lemma exec_scale {S} `{MapRange, QuantityParser} k active target (s : S) tr o s' :
  (0 ≤ target < 2 ^ 31)%Z → (target ≤ k_maxRunners k)%Z →
  (Z.of_nat (length active) < 2 ^ 31)%Z →
  exec eq (let current := Z.of_nat (length active) in
           if (current <? target)%Z then handleScaleUp k current target
           else if (target <? current)%Z then handleScaleDown k active current target
           else Ret (current, None)) s tr o s' →
  s' = s ∧ scaled k active target tr o.
Proof.
  intros Ht Hm Hl Hx. cbn zeta in Hx. unfold scaled. set (current := Z.of_nat (length active)) in *.
  destruct (current <? target)%Z eqn:Hup; [|destruct (target <? current)%Z eqn:Hdown]; breflect.
  - apply exec_handleScaleUp in Hx as (-> & Hd & Hc & Hcd & Ho); [|lia..].
    split; [done|]. split; [lia|]. split; [exists 0; rewrite Hd; split; [done|lia]|].
    assert (Hg : observed gone_of tr = 0%Z).
    { unfold observed. pose proof (gone_deleted tr) as Hg. rewrite Hd in Hg. simpl in Hg. lia. }
    destruct Ho as [->|(err & -> & Herr)]; [by left|right]. eexists _, err.
    split; [reflexivity|]. split; [lia|]. split; [lia|]. rewrite Herr. lia.
  - apply exec_handleScaleDown in Hx as (-> & Hc & (j & Hd & Hj) & err & -> & Herr); [|lia..].
    split; [done|]. rewrite (observed_nil create_of) by done. split; [lia|].
    split; [exists j; split; [done|lia]|]. right. eexists _, err. split; [reflexivity|].
    assert (Hcr : observed created_of tr = 0%Z)
      by (apply observed_nil; by rewrite created_of_creations, Hc).
    rewrite Hcr. unfold observed in *. split; [lia|]. split; [lia|]. rewrite Herr. lia.
  - exec_step Hx. split; [done|]. split; [unfold observed; simpl; lia|].
    split; [exists 0; split; [done|lia]|]. right. eexists _, None. split; [reflexivity|].
    unfold observed. simpl. split; [lia|]. split; [lia|]. split; [intros _; lia|done].
Qed.

(** C5. The scaling decision.  From the runners that count (active pods of the
    listing) and the target [min (minRunners + count) maxRunners]: below the
    target, at most the missing pods are created and none is deleted; above it,
    the pods deleted are distinct idle active pods, at most the surplus and
    never a busy one; at the target nothing happens.  The number returned is
    the active pods plus those created minus those gone, whatever the workers'
    interleaving and failures, the error is nil exactly when the target (or the
    last idle pod) was reached, and the number never exceeds both the maximum
    and the number of active pods. *)
Theorem HandleDesiredRunnerCount_spec {S} `{MapRange, QuantityParser} k count (s : S) tr o s' :
  sane k count →
  exec_seq (HandleDesiredRunnerCount k count) s tr o s' →
  ∃ listed, head tr = Some (Ev (K8sListPods (k_namespace k)
      (MatchingFields ("metadata.labels." +:+ LabelAutoscaleSet) (setID k))) listed) ∧
  match listed with
  | Err e => s' = s ∧ quiet tr ∧ o = Done (0%Z, Some (Errorf "failed to get runner pods: " e))
  | Ok items =>
    (Z.of_nat (length items) < 2 ^ 31)%Z →
    s' = s ∧ ∃ trc active cleanup, classified (S := S) items trc active cleanup ∧
      scaled k active (target_count k count) tr o
  end.
Proof.
  intros Hsane Hx. destruct (target_count_sane _ _ Hsane) as [Htgt Htr].
  unfold HandleDesiredRunnerCount, exec_seq in Hx.
  apply exec_bind in Hx as [(trg & got & s1 & tr2 & -> & Hg & Hx)|[-> Hg]];
    pose proof (exec_getRunnerPods_quiet _ _ _ _ _ Hg) as Hq;
    apply exec_getRunnerPods in Hg as (-> & listed & tr1 & -> & Hg);
    destruct listed as [items|e]; try (by destruct Hg as (? & ? & ? & ? & _)); try (by destruct Hg).
  2: { destruct Hg as [-> [= ->]]. exec_step Hx. rewrite app_nil_r. by exists (Err e). }
  destruct Hg as (trc & active & cleanup & [= ->] & Hcl & ->).
  set (trg := Ev _ (Ok items) :: trc ++ _) in *.
  destruct Hx as ([] & tr3 & -> & Hx). exec_norm Hx.
  assert (Hqm : quiet (trg ++ [Ev (Metric QueuedJobs (scaler_labels k) (MSet count)) tt]))
    by (by apply quiet_app).
  destruct Hqm as [Hqc Hqd]. destruct (quiet_gone _ (conj Hqc Hqd)) as [Hqg Hqcd].
  change (Ev (Metric QueuedJobs (scaler_labels k) (MSet count)) tt :: tr3)
    with ([Ev (Metric QueuedJobs (scaler_labels k) (MSet count)) tt] ++ tr3).
  rewrite app_assoc. set (pre := trg ++ _) in *.
  assert (Hpre : ∀ (X : Type) (f : event S → option X), omap f pre = [] →
      observed f (pre ++ tr3) = observed f tr3)
    by (intros X f Hf; unfold observed; by rewrite omap_app, Hf).
  exists (Ok items). split; [done|]. intros Hlen.
  assert (Hact : length active ≤ length items)
    by (apply sublist_length, (cl_active _ _ _ _ Hcl)).
  destruct Hsane as [Hmin Hmax Hcount].
  apply exec_scale in Hx as [-> Hsc]; [|lia..]. split; [done|].
  exists trc, active, cleanup. split; [done|]. unfold scaled in *.
  rewrite (Hpre _ _ Hqc), (Hpre _ _ Hqcd), (Hpre _ _ Hqg), omap_app, Hqd. exact Hsc.
Qed.

(** *** Concrete runs *)
#[local] Existing Instance map_range_default.
#[local] Instance no_quantities_here : QuantityParser := {| ParseQuantity := λ _, None |}.

Lemma createRunnerPod_spec_witness :
  let x := run (cluster []) (createRunnerPod sample_scaler) tt 0 in
  x.1.2 = Done None ∧ omap delete_of x.1.1 = [].
Proof.
  intros x. split; [vm_compute; reflexivity|].
  exact (proj1 (proj2 (createRunnerPod_spec sample_scaler tt x.1.1 x.1.2 x.2 (run_exec _ _ _ _)))).
Defined.

Lemma error_threshold_spec_witness : error_threshold 0 1 = true ∧ error_threshold 1 3 = false.
Proof.
  split; [apply (error_threshold_spec 0 1); lia|].
  destruct (error_threshold 1 3) eqn:He; [|reflexivity].
  apply (error_threshold_spec 1 3) in He; lia.
Defined.

(** Two idle runners, a busy one and a stuck one, and no queued job: both idle
    runners go, the busy one stays. *)
Definition shrinking : list Pod :=
  [sample_pod "a" "idle" PodRunning 0%Z; sample_pod "b" "busy" PodRunning 0%Z;
   sample_pod "c" "idle" PodRunning 0%Z; sample_pod "d" "idle" PodPending 0%Z].

Lemma HandleDesiredRunnerCount_spec_witness :
  let k := NewKubernetesScaler 0 42 "ci" "img" "default" 2 10 None None in
  let x := run (cluster shrinking) (HandleDesiredRunnerCount k 0) tt 0 in
  x.1.2 = Done (2%Z, None) ∧
  ∃ listed, head x.1.1 = Some (Ev (K8sListPods "ci"
      (MatchingFields ("metadata.labels." +:+ LabelAutoscaleSet) "42")) listed).
Proof.
  intros k x. split; [vm_compute; reflexivity|].
  destruct (HandleDesiredRunnerCount_spec k 0 tt x.1.1 x.1.2 x.2) as (listed & Hh & _).
  - split; vm_compute; split; congruence.
  - apply run_exec.
  - exists listed. exact Hh.
Defined.

Lemma run_create_task {S} `{MapRange, QuantityParser} k i (s : S) m :
  ∃ tr, run (cluster []) (create_task k i) s m = (tr, Done true, s) ∧
        ∃ p, omap create_of tr = [(p, None)].
Proof.
  unfold create_task, createRunnerPod, waitForRateLimit.
  destruct (k_rateLimiter k); eexists; (split; [reflexivity|]); eexists; reflexivity.
Qed.

(** The threshold misfires: for every scaler and every request for two or
    more pods there is an execution in which every call succeeds, exactly one
    pod is created, and the batch stops there. *)
Theorem batch_stops_without_error {S} `{MapRange, QuantityParser} k count (s : S) :
  (2 ≤ count)%Z →
  ∃ tr p, exec_seq (batchCreateRunnerPods k count) s tr (Done 1%Z) s ∧
          omap create_of tr = [(p, None)].
Proof.
  intros Hc. destruct (run_create_task k 0 s 0) as (tr & Hrun & p & Hp).
  destruct (Z.to_nat count) as [|[|m]] eqn:Hn; [lia..|].
  assert (Hr : run (cluster []) (batchCreateRunnerPods k count) s 0 = (tr, Done 1%Z, s)).
  { unfold batchCreateRunnerPods, batch. rewrite Hn. cbn [run batch_seq].
    change (error_threshold 0 0) with false. cbn iota. rewrite Hrun.
    cbn [batch_seq]. change (error_threshold 0 (wrap32 (0 + 1))) with true. cbn iota.
    by rewrite !app_nil_r. }
  exists tr, p. split; [|done].
  pose proof (run_exec (cluster []) (batchCreateRunnerPods k count) s 0) as Hx.
  by rewrite Hr in Hx.
Qed.

Lemma batch_stops_without_error_witness :
  ∃ tr p, exec_seq (batchCreateRunnerPods sample_scaler 10) tt tr (Done 1%Z) tt ∧
          omap create_of tr = [(p, None)].
Proof. apply (batch_stops_without_error sample_scaler 10 tt). lia. Defined.
