(* ===== verification/Convergence.v ===== *)
(** * Scaling decisions in a row

    The listener calls [HandleDesiredRunnerCount] again and again with the
    count GitHub assigns.  One decision need not reach its target, even when
    every call succeeds, because a batch may stop after its first success; this
    file shows that on a cluster that answers, every decision gets closer and
    the decisions in a row arrive. *)

From S2P Require Export Scaler.

(** ** A cluster and a GitHub that answer *)

Definition no_error (r : option error) : bool := match r with None => true | Some _ => false end.

Definition good_response {R : Type} (c : Call R) (r : R) : bool :=
  match c in Call R return R → bool with
  | K8sListPods _ _ => λ r,
      match r with Ok items => (Z.of_nat (length items) <? 2 ^ 31)%Z | Err _ => false end
  | GenerateJitRunnerConfig _ _ _ => λ r, match r with (Some _, None) => true | _ => false end
  | RateLimitWait => no_error
  | K8sCreatePod _ => no_error
  | K8sDeletePod _ _ => λ r, match r with Some e => IsNotFound e | None => true end
  | _ => λ _, true
  end r.

Definition good {S} (ev : event S) : bool :=
  match ev with Ev c r => good_response c r | EvGo _ => true end.

Definition healthy {S} (ev : event S) : Prop := good ev = true.

(** What [HandleDesiredRunnerCount] does with the pods it listed. *)
Definition on_pods {S} `{MapRange, QuantityParser} (k : KubernetesScaler) (count : Z)
    (currentPods : list Pod) : prog S (Z * option error) :=
  let currentCount := Z.of_nat (length currentPods) in
  let targetCount := target_count k count in
  metric QueuedJobs (scaler_labels k) (MSet count);;
  if (currentCount <? targetCount)%Z then handleScaleUp k currentCount targetCount
  else if (targetCount <? currentCount)%Z then
    handleScaleDown k currentPods currentCount targetCount
  else Ret (currentCount, None).

Section Progress.
Context {S : Type} `{MapRange, QuantityParser}.
Implicit Types k : KubernetesScaler.

Lemma HandleDesiredRunnerCount_on_pods k count :
  HandleDesiredRunnerCount (S := S) k count =
  (got ← getRunnerPods k;
   match got with
   | Err err => Ret (0%Z, Some (Errorf "failed to get runner pods: " err))
   | Ok pods => on_pods k count pods
   end).
Proof. reflexivity. Qed.

(** Split a trace that is healthy along the execution. *)
Ltac healthy_split :=
  repeat match goal with
         | H : Forall healthy (_ ++ _) |- _ => apply Forall_app in H as [? H]
         | H : Forall healthy (_ :: _) |- _ => apply Forall_cons in H as [? H]
         end.

Lemma generateJITConfig_healthy k name start (s : S) tr o s' :
  exec eq (generateJITConfig k name start) s tr o s' → Forall healthy tr →
  s' = s ∧ ∃ jit, o = Done (Some jit, None).
Proof.
  unfold generateJITConfig, time_Since. intros (t1 & tr1 & -> & [jit err] & tr2 & -> & Hx) Ht.
  exec_norm Hx. healthy_split.
  destruct jit as [jit|], err as [err|]; try done. exec_run Hx. split; [done|]. by exists jit.
Qed.

Lemma waitForRateLimit_healthy k (s : S) tr o s' :
  exec eq (waitForRateLimit k) s tr o s' → Forall healthy tr → s' = s ∧ o = Done None.
Proof.
  unfold waitForRateLimit, Wait. intros Hx Ht. destruct (k_rateLimiter k); exec_run Hx; [|done].
  healthy_split. by match goal with r : option error |- _ => destruct r end.
Qed.

Lemma createRunnerPod_healthy k (s : S) tr o s' :
  exec eq (createRunnerPod k) s tr o s' → Forall healthy tr → o = Done None.
Proof.
  unfold createRunnerPod. intros (t0 & tr1 & -> & u & tr2 & -> & Hx) Ht. exec_norm Hx. healthy_split.
  apply exec_bind in Hx as [(pre & limited & s1 & tr3 & -> & Hp & Hx)|[-> Hp]]; healthy_split;
    apply waitForRateLimit_healthy in Hp as [-> Ho]; try done. injection Ho as ->.
  apply exec_bind in Hx as [(trj & [jit err] & s1 & tr4 & -> & Hj & Hx)|[-> Hj]]; healthy_split;
    apply generateJITConfig_healthy in Hj as (-> & jit' & Ho); try done. injection Ho as -> ->.
  exec_norm Hx. destruct Hx as (r & tr5 & -> & Hx). healthy_split. destruct r as [e|]; [done|].
  unfold time_Since in Hx. exec_norm Hx. by exec_run Hx.
Qed.

Lemma create_task_healthy k i (s : S) tr o s' :
  exec eq (create_task k i) s tr o s' → Forall healthy tr → o = Done true.
Proof.
  intros Hx Ht. apply exec_bind in Hx as [(tr1 & res & s1 & tr2 & -> & H1 & Hx)|[-> H1]];
    healthy_split; apply createRunnerPod_healthy in H1; try done. injection H1 as ->.
  by exec_run Hx.
Qed.

Lemma delete_task_healthy k pods i (s : S) tr o s' :
  i < length pods → exec eq (delete_task k pods i) s tr o s' → Forall healthy tr → o = Done true.
Proof.
  intros [pod Hi]%lookup_lt_is_Some Hx Ht. unfold delete_task in Hx. rewrite Hi in Hx.
  apply exec_bind in Hx as [(tr1 & res & s1 & tr2 & -> & H1 & Hx)|[-> H1]]; healthy_split;
    apply exec_deleteRunnerPod in H1 as (-> & r & -> & Ho); [|done]. injection Ho as ->.
  healthy_split. exec_step Hx. destruct r as [e|]; [|done].
  unfold healthy in *. simpl in *. by destruct (IsNotFound e).
Qed.

(** A healthy batch of creations creates a pod. *)
Lemma batchCreateRunnerPods_progress k n (s : S) tr o s' :
  exec eq (batchCreateRunnerPods k n) s tr o s' → (0 < n < 2 ^ 31)%Z → Forall healthy tr →
  ∃ c, o = Done c ∧ (1 ≤ c)%Z.
Proof.
  intros (tr1 & tr2 & r & -> & Hb & Hx) Hn Ht. exec_norm Hx. healthy_split.
  eapply (batch_progress _ _ _ _ healthy) in Hb as (c & -> & Hc); [|..|done].
  - exists c. by exec_step Hx.
  - intros i tr o0 _ (s1 & s2 & Hw). by eapply create_task_healthy.
  - done.
  - lia.
  - lia.
Qed.

Lemma batchDeleteRunnerPods_progress k pods (s : S) tr o s' :
  exec eq (batchDeleteRunnerPods k pods) s tr o s' →
  0 < length pods → (Z.of_nat (length pods) < 2 ^ 31)%Z → Forall healthy tr →
  ∃ c, o = Done c ∧ (1 ≤ c)%Z.
Proof.
  intros (tr1 & tr2 & r & -> & Hb & Hx) Hn Hlt Ht. exec_norm Hx. healthy_split.
  eapply (batch_progress _ _ _ _ healthy) in Hb as (c & -> & Hc); [|..|done]; try done.
  - exists c. by exec_step Hx.
  - intros i tr o0 Hi (s1 & s2 & Hw). by eapply delete_task_healthy.
Qed.
Lemma observed_nonneg {X} (f : event S → option X) tr : (0 ≤ observed f tr)%Z.
Proof. unfold observed. lia. Qed.

Lemma handleScaleUp_progress k current target (s : S) tr o s' :
  exec eq (handleScaleUp k current target) s tr o s' → Forall healthy tr →
  (0 ≤ current < target)%Z → (target < 2 ^ 31)%Z →
  ∃ n err, o = Done (n, err) ∧ (current < n ≤ target)%Z.
Proof.
  intros Hx Ht Hct Hb. pose proof (exec_handleScaleUp _ _ _ _ _ _ _ Hx Hct Hb)
    as (_ & _ & _ & Hle & Ho).
  assert (Hgo : (1 ≤ observed created_of tr)%Z ∧ o ≠ Panicked).
  { unfold handleScaleUp in Hx.
    assert (Hgap : target -! current = (target - current)%Z)
      by (apply wrap64_small; unfold min_int64, max_int64; lia).
    rewrite Hgap in Hx. clear Ho Hle.
    apply exec_bind in Hx as [(pre & [] & s1 & tr1 & -> & Hpre & Hx)|[-> Hpre]];
      [|by destruct (_ && _); exec_run Hpre].
    apply exec_bind in Hx as [(mid & created & s2 & post & -> & Hm & Hx)|[-> Hm]]; healthy_split;
      pose proof Hm as Hm'; apply batchCreateRunnerPods_progress in Hm' as (c & Hc & Hc1);
      try lia; try done.
    injection Hc as ->. apply exec_batchCreateRunnerPods in Hm as (_ & _ & _ & _ & Ho); [|lia].
    destruct Ho as [|[= ->]]; [done|]. rewrite !observed_app.
    pose proof (observed_nonneg created_of pre). pose proof (observed_nonneg created_of post).
    split; [lia|]. destruct (_ <? _)%Z, (_ <? _)%Z; by exec_run Hx. }
  destruct Hgo as [H1 Hp]. destruct Ho as [->|(err & -> & _)]; [done|].
  eexists _, err. split; [done|]. lia.
Qed.

Lemma handleScaleDown_progress k pods current target (s : S) tr o s' :
  exec eq (handleScaleDown k pods current target) s tr o s' → Forall healthy tr →
  current = Z.of_nat (length pods) → (0 ≤ target < current)%Z → (current < 2 ^ 31)%Z →
  ∃ n err, o = Done (n, err) ∧ (target ≤ n ≤ current)%Z ∧ (filterIdlePods pods ≠ [] → n < current)%Z.
Proof.
  intros Hx Ht Hcur Hct Hb. pose proof (exec_handleScaleDown _ _ _ _ _ _ _ _ Hx Hcur Hct Hb)
    as (_ & _ & (j & Hj & Hjle) & err & -> & _).
  eexists _, err. split; [done|].
  assert (Hle : (observed gone_of tr ≤ current - target)%Z).
  { unfold observed. pose proof (gone_deleted tr) as Hg. rewrite Hj, length_take in Hg. lia. }
  pose proof (observed_nonneg gone_of tr). split; [lia|]. intros Hne.
  assert (Hidle : 0 < length (filterIdlePods pods)) by (destruct (filterIdlePods pods); [done|simpl; lia]).
  assert (Hsub : length (filterIdlePods pods) ≤ length pods) by apply length_filter.
  assert (1 ≤ observed gone_of tr)%Z; [|lia]. unfold handleScaleDown in Hx.
  assert (Hgap : current -! target = (current - target)%Z)
    by (apply wrap64_small; unfold min_int64, max_int64; lia).
  rewrite Hgap in Hx. set (todo := if (Z.of_nat _ <? _)%Z then Z.of_nat _ else _) in Hx.
  assert (Htodo : (1 ≤ todo ≤ Z.of_nat (length (filterIdlePods pods)))%Z)
    by (unfold todo; destruct (_ <? _)%Z eqn:Hlt; breflect; lia).
  rewrite (proj2 (Z.ltb_ge todo 0)) in Hx by lia.
  apply exec_bind in Hx as [(mid & deleted & s2 & post & -> & Hm & Hx)|[Ho Hm]]; [|done].
  healthy_split. pose proof Hm as Hm'.
  apply batchDeleteRunnerPods_progress in Hm' as (c & Hc & Hc1); try done;
    try (rewrite length_take; lia).
  injection Hc as ->. apply exec_batchDeleteRunnerPods in Hm as (_ & _ & [= Ho] & _);
    [|rewrite length_take; lia].
  rewrite observed_app. pose proof (observed_nonneg gone_of post). lia.
Qed.

(** A decision on listed pods, none of whose calls fails: it moves towards the
    target and never past it. *)
Lemma on_pods_progress k count pods (s : S) tr o s' :
  sane k count → (Z.of_nat (length pods) < 2 ^ 31)%Z →
  exec eq (on_pods k count pods) s tr o s' → Forall healthy tr →
  let current := Z.of_nat (length pods) in
  let target := target_count k count in
  ∃ n err, o = Done (n, err) ∧
    ((current < target)%Z → (current < n ≤ target)%Z) ∧
    ((target < current)%Z → (target ≤ n ≤ current)%Z ∧ (filterIdlePods pods ≠ [] → n < current)%Z) ∧
    (current = target → n = target).
Proof.
  intros Hs Hlen Hx Ht. cbn zeta. destruct (target_count_sane _ _ Hs) as [_ Htgt].
  unfold on_pods in Hx. destruct Hx as ([] & tr1 & -> & Hx). exec_norm Hx. healthy_split.
  destruct (_ <? target_count k count)%Z eqn:Hup; [|destruct (target_count k count <? _)%Z eqn:Hdown]; breflect.
  - apply handleScaleUp_progress in Hx as (n & err & -> & Hn); [|done|lia..].
    exists n, err. split; [done|]. split; [done|]. split; lia.
  - apply handleScaleDown_progress in Hx as (n & err & -> & Hn & Hi); [|done|done|lia..].
    exists n, err. split; [done|]. split; [lia|]. split; [by split|lia].
  - exec_step Hx. eexists _, None. split; [done|]. split; [lia|]. split; [lia|done].
Qed.
End Progress.

(** ** Rounds *)
Section Rounds.
Context {S : Type} `{MapRange, QuantityParser}.
Implicit Types k : KubernetesScaler.

(** One decision on a healthy cluster: [current] pods were active when it
    listed them, [idle] of them idle, and it returned [next]. *)
Definition round k (count current idle next : Z) : Prop :=
  ∃ (s s1 s' : S) pre post active err,
    exec_seq (getRunnerPods k) s pre (Done (Ok active)) s1 ∧
    exec_seq (on_pods k count active) s1 post (Done (next, err)) s' ∧
    Forall healthy (pre ++ post) ∧
    current = Z.of_nat (length active) ∧ idle = Z.of_nat (length (filterIdlePods active)) ∧
    (current < 2 ^ 31)%Z.

(** Together the two parts are an execution of the handler. *)
Lemma round_execution k count current idle next :
  round k count current idle next →
  ∃ (s : S) tr err s', exec_seq (HandleDesiredRunnerCount k count) s tr (Done (next, err)) s' ∧
    Forall healthy tr.
Proof.
  intros (s & s1 & s' & pre & post & active & err & H1 & H2 & Hh & _).
  exists s, (pre ++ post), err, s'. split; [|done].
  rewrite HandleDesiredRunnerCount_on_pods. apply exec_bind. left.
  by exists pre, (Ok active), s1, post.
Qed.

Lemma round_progress k count current idle next :
  sane k count → round k count current idle next →
  let target := target_count k count in
  ((current < target)%Z → (current < next ≤ target)%Z) ∧
  ((target < current)%Z → (target ≤ next ≤ current)%Z ∧ ((0 < idle)%Z → (next < current)%Z)) ∧
  (current = target → next = target).
Proof.
  intros Hs (s & s1 & s' & pre & post & active & err & _ & H2 & Hh & -> & -> & Hlen). cbn zeta.
  apply Forall_app in Hh as [_ Hh].
  destruct (on_pods_progress _ _ _ _ _ _ _ Hs Hlen H2 Hh) as (n & err' & [= <- <-] & Hup & Hdown & Heq).
  split; [done|]. split; [|done]. intros Hlt. destruct (Hdown Hlt) as [Hn Hi]. split; [done|].
  intros Hidle. apply Hi. intros Hnil. rewrite Hnil in Hidle. simpl in Hidle. lia.
Qed.
End Rounds.

(** ** Properties *)

(** A decision none of whose calls fails returns, and is a round: it cannot
    panic and it does not come back with the number zero of a failed list. *)
Theorem healthy_decision {S} `{MapRange, QuantityParser} k count (s : S) tr o s' :
  sane k count → exec_seq (HandleDesiredRunnerCount k count) s tr o s' → Forall healthy tr →
  ∃ current idle next err, o = Done (next, err) ∧ round (S := S) k count current idle next.
Proof.
  intros Hs Hx Ht. rewrite HandleDesiredRunnerCount_on_pods in Hx. unfold exec_seq in Hx.
  apply exec_bind in Hx as [(pre & got & s1 & post & -> & Hg & Hx)|[-> Hg]];
    pose proof Hg as Hg'; apply exec_getRunnerPods in Hg' as (-> & listed & tr1 & -> & Hl);
    [apply Forall_app in Ht as [Hpre Hpost]; pose proof Hpre as [Hlist _]%Forall_cons
    |apply Forall_cons in Ht as [Hlist _]];
    (destruct listed as [items|]; [apply Z.ltb_lt in Hlist as Hlen|done]);
    destruct Hl as (trc & active & cleanup & Ho & Hcl & ->); [|done]. injection Ho as ->.
  assert (Hact : length active ≤ length items) by (apply sublist_length, (cl_active _ _ _ _ Hcl)).
  assert (Hsmall : (Z.of_nat (length active) < 2 ^ 31)%Z) by lia.
  pose proof (on_pods_progress _ _ _ _ _ _ _ Hs Hsmall Hx Hpost) as (n & err & -> & _).
  exists (Z.of_nat (length active)), (Z.of_nat (length (filterIdlePods active))), n, err.
  split; [done|]. eexists s, s, s', _, post, active, err. split; [exact Hg|]. split; [exact Hx|].
  split; [by apply Forall_app|]. by split; [|split].
Qed.

(** C8. Scaling arrives.  On a cluster whose calls succeed, where each decision
    finds the runners the previous one reported and a runner is idle whenever
    there are too many, decisions for the same count reach the target after at
    most as many decisions as runners are missing or superfluous, without
    passing it, and stay there. *)
Theorem scaling_converges {S} `{MapRange, QuantityParser} k count (current idle : nat → Z) :
  sane k count →
  (∀ i, round (S := S) k count (current i) (idle i) (current (Datatypes.S i))) →
  (∀ i, (target_count k count < current i)%Z → (0 < idle i)%Z) →
  (∀ i, (Z.abs (target_count k count - current 0%nat) ≤ Z.of_nat i)%Z → current i = target_count k count) ∧
  (∀ i, (Z.min (current 0%nat) (target_count k count) ≤ current i ≤ Z.max (current 0%nat) (target_count k count))%Z).
Proof.
  intros Hs Hround Hidle. set (target := target_count k count) in *.
  assert (Hstep : ∀ i,
    ((current i < target)%Z → (current i < current (Datatypes.S i) ≤ target)%Z) ∧
    ((target < current i)%Z → (target ≤ current (Datatypes.S i) < current i)%Z) ∧
    (current i = target → current (Datatypes.S i) = target)).
  { intros i. destruct (round_progress _ _ _ _ _ Hs (Hround i)) as (Hup & Hdown & Heq).
    split; [done|]. split; [|done]. intros Hlt. destruct (Hdown Hlt) as [? Hi].
    specialize (Hi (Hidle i Hlt)). lia. }
  assert (Hinv : ∀ i, (Z.abs (target - current i) ≤ Z.max 0 (Z.abs (target - current 0%nat) - Z.of_nat i))%Z ∧
    (Z.min (current 0%nat) target ≤ current i ≤ Z.max (current 0%nat) target)%Z).
  { induction i as [|i IH]; [lia|]. destruct (Hstep i) as (Hup & Hdown & Heq).
    destruct (Z.lt_trichotomy (current i) target) as [Hlt|[Hlt|Hlt]];
      [specialize (Hup Hlt)|specialize (Heq Hlt)|specialize (Hdown Hlt)]; lia. }
  split; intros i; specialize (Hinv i); lia.
Qed.

(** ** Runs *)
#[local] Existing Instance map_range_default.
#[local] Instance no_quantities_rounds : QuantityParser := {| ParseQuantity := λ _, None |}.

Definition runners (n : nat) : list Pod :=
  (λ i, sample_pod ("r" +:+ Itoa (Z.of_nat i)) "idle" PodRunning 0%Z) <$> seq 0 n.

Definition two_runners : KubernetesScaler :=
  NewKubernetesScaler 0 42 "ci" "img" "default" 2 10 None None.

Lemma healthy_check {S} (tr : list (event S)) : forallb good tr = true → Forall healthy tr.
Proof. rewrite forallb_forall. rewrite Forall_forall. intros Hg ev Hev. by apply Hg, list_elem_of_In. Qed.

Ltac round_by_computation :=
  lazymatch goal with
  | |- Forall healthy _ => apply healthy_check; vm_compute; reflexivity
  | |- _ => vm_compute; reflexivity
  end.

(** The decision of a deterministic run. *)
Lemma run_round k count pods current idle next err :
  let pre := run (cluster pods) (getRunnerPods k) tt 0 in
  let post := run (cluster pods) (on_pods k count pods) tt 0 in
  pre.1.2 = Done (Ok pods) → post.1.2 = Done (next, err) →
  Forall healthy pre.1.1 → Forall healthy post.1.1 →
  current = Z.of_nat (length pods) → idle = Z.of_nat (length (filterIdlePods pods)) →
  (current < 2 ^ 31)%Z → round (S := unit) k count current idle next.
Proof.
  intros pre post Hpre Hpost H1 H2 Hcur Hidle Hlen.
  pose proof (run_exec (cluster pods) (getRunnerPods k) tt 0) as Hx1.
  pose proof (run_exec (cluster pods) (on_pods k count pods) tt 0) as Hx2.
  fold pre in Hx1. fold post in Hx2. rewrite Hpre in Hx1. rewrite Hpost in Hx2.
  exists tt, pre.2, post.2, pre.1.1, post.1.1, pods, err. split; [exact Hx1|].
  split; [by destruct (pre.2)|]. split; [by apply Forall_app|]. done.
Qed.

(** Nothing is queued and two runners are wanted: the first decision creates
    one and reports an error, the second creates the other. *)
Lemma scaling_converges_witness :
  target_count two_runners 0 = 2%Z ∧
  (let current := λ i, Z.min (Z.of_nat i) 2 in
   ∀ i, (2 ≤ i)%nat → current i = target_count two_runners 0).
Proof.
  split; [reflexivity|]. intros current i Hi.
  refine (proj1 (scaling_converges (S := unit) two_runners 0 current current _ _ _) i _).
  - by split.
  - intros [|[|j]]; [change (current _) with 0%Z at 1 2|change (current _) with 1%Z at 1 2|].
    + apply (run_round two_runners 0 [] 0 0 1
               (Some (errors_New "failed to create all runner pods: created 1 of 2")));
        round_by_computation.
    + apply (run_round two_runners 0 (runners 1) 1 1 2 None); round_by_computation.
    + replace (current (Datatypes.S (Datatypes.S j))) with 2%Z by (unfold current; lia).
      replace (current (Datatypes.S (Datatypes.S (Datatypes.S j)))) with 2%Z by (unfold current; lia).
      apply (run_round two_runners 0 (runners 2) 2 2 2 None); round_by_computation.
  - intros j. change (target_count two_runners 0) with 2%Z. unfold current. lia.
  - change (target_count two_runners 0) with 2%Z. unfold current. lia.
Defined.

Lemma healthy_decision_witness :
  let x := run (cluster (runners 1)) (HandleDesiredRunnerCount two_runners 0) tt 0 in
  x.1.2 = Done (2%Z, None) ∧
  ∃ current idle next err, x.1.2 = Done (next, err) ∧ round (S := unit) two_runners 0 current idle next.
Proof.
  intros x. split; [vm_compute; reflexivity|].
  refine (healthy_decision two_runners 0 tt x.1.1 x.1.2 x.2 _ (run_exec _ _ _ _) _); [by split|].
  apply healthy_check. vm_compute. reflexivity.
Defined.
