(* ===== verification/Debounce.v ===== *)
(** * internal/scaler/debounced_scaler.go: coalescing bursts of desired counts

    [DebouncedScaler] is shared by the goroutines that call
    [HandleDesiredRunnerCount] and by the timer callbacks those calls arm.  A
    state is the mutex-protected fields together with, for every call so far,
    what the call created: its timer (and how far the callback got), its
    buffered channel, its two contexts, and what it returned.  The two critical
    sections, the send and the two ends of the [select] are the steps; they
    interleave freely. *)

From S2P Require Export Effects.

Record desiredResult : Type := mkDesired { r_count : Z; r_err : option error }.

(** A timer: armed, stopped, expired with its callback waiting for the mutex,
    its callback inside [inner.HandleDesiredRunnerCount], or finished. *)
Inductive timer : Type :=
| Armed
| Stopped
| Expired
| Forwarding (ctx ch : nat) (count : Z)
| Finished.

(** What a call returns: a result from its channel, or its context's error
    with the count 0. *)
Inductive returned : Type :=
| RResult (r : desiredResult)
| RCtx (e : error).

Record call_state : Type := mkCallState {
  c_count : Z;
  c_timer : timer;
  c_chan : option desiredResult;
  c_ctx : option error;
  c_dctx : option error;
  c_returned : option returned
}.

(** The fields under [mu]; contexts, channels and timers are named by the call
    that made them. *)
Record DebouncedScaler : Type := mkDebounced {
  d_timer : option nat;
  d_latestCtx : option nat;
  d_cancelPrev : option nat;
  d_pending : option Z;
  d_resultCh : option nat;
  d_calls : list call_state
}.

Definition NewDebouncedScaler : DebouncedScaler := mkDebounced None None None None None [].

Definition on_call (f : call_state → call_state) (i : nat) (d : DebouncedScaler) : DebouncedScaler :=
  mkDebounced (d_timer d) (d_latestCtx d) (d_cancelPrev d) (d_pending d) (d_resultCh d)
    (alter f i (d_calls d)).

Definition set_timer (t : timer) (c : call_state) : call_state :=
  mkCallState (c_count c) t (c_chan c) (c_ctx c) (c_dctx c) (c_returned c).

(** [timer.Stop()] does nothing to a timer that has expired. *)
Definition stop (c : call_state) : call_state :=
  match c_timer c with Armed => set_timer Stopped c | _ => c end.

(** [cancel()] of a context that is done already keeps its error. *)
Definition cancel_dctx (e : error) (c : call_state) : call_state :=
  mkCallState (c_count c) (c_timer c) (c_chan c) (c_ctx c)
    (match c_dctx c with Some e' => Some e' | None => Some e end) (c_returned c).

(** The caller's context ends; the derived one ends with it. *)
Definition cancel_ctx (e : error) (c : call_state) : call_state :=
  cancel_dctx e (mkCallState (c_count c) (c_timer c) (c_chan c)
    (match c_ctx c with Some e' => Some e' | None => Some e end) (c_dctx c) (c_returned c)).

(** The non-blocking send on a channel with room for one result. *)
Definition send (r : desiredResult) (c : call_state) : call_state :=
  match c_chan c with
  | None => mkCallState (c_count c) (c_timer c) (Some r) (c_ctx c) (c_dctx c) (c_returned c)
  | Some _ => c
  end.

Definition return_with (ch : option desiredResult) (r : returned) (c : call_state) : call_state :=
  mkCallState (c_count c) (c_timer c) ch (c_ctx c) (c_dctx c) (Some r).

(** The critical section of [HandleDesiredRunnerCount(ctx, count)]. *)
Definition begin_call (count : Z) (d : DebouncedScaler) : DebouncedScaler :=
  let d := match d_timer d with Some t => on_call stop t d | None => d end in
  let d := match d_cancelPrev d with
           | Some c => on_call (cancel_dctx context_Canceled) c d
           | None => d
           end in
  let i := length (d_calls d) in
  mkDebounced (Some i) (Some i) (Some i) (Some count) (Some i)
    (d_calls d ++ [mkCallState count Armed None None None None]).

(** The critical section of the callback of timer [t]. *)
Definition take_pending (t : nat) (d : DebouncedScaler) : DebouncedScaler :=
  match d_pending d, d_latestCtx d, d_resultCh d with
  | Some count, Some ctx, Some ch =>
    on_call (set_timer (Forwarding ctx ch count)) t
      (mkDebounced (d_timer d) (d_latestCtx d) (d_cancelPrev d) None (d_resultCh d) (d_calls d))
  | _, _, _ =>
    on_call (set_timer Finished) t
      (mkDebounced (d_timer d) (d_latestCtx d) (d_cancelPrev d) None (d_resultCh d) (d_calls d))
  end.

Inductive label : Type :=
| LCall (i : nat) (count : Z)
| LForward (ctx ch : nat) (count : Z)
| LAnswer (ch : nat) (r : desiredResult)
| LReturn (i : nat) (r : returned).

(** What [take_pending] hands to the inner scaler. *)
Definition taken (d : DebouncedScaler) : list label :=
  match d_pending d, d_latestCtx d, d_resultCh d with
  | Some count, Some ctx, Some ch => [LForward ctx ch count]
  | _, _, _ => []
  end.

(** The steps other than a new call. *)
Inductive internal_step (d : DebouncedScaler) : list label → DebouncedScaler → Prop :=
| step_expire t c :
    d_calls d !! t = Some c → c_timer c = Armed →
    internal_step d [] (on_call (set_timer Expired) t d)
| step_take t c :
    d_calls d !! t = Some c → c_timer c = Expired →
    internal_step d (taken d) (take_pending t d)
| step_answer t c ctx ch count r :
    d_calls d !! t = Some c → c_timer c = Forwarding ctx ch count →
    internal_step d [LAnswer ch r] (on_call (send r) ch (on_call (set_timer Finished) t d))
| step_receive i c r :
    d_calls d !! i = Some c → c_returned c = None → c_chan c = Some r →
    internal_step d [LReturn i (RResult r)] (on_call (return_with None (RResult r)) i d)
| step_cancelled i c e :
    d_calls d !! i = Some c → c_returned c = None → c_dctx c = Some e ∨ c_ctx c = Some e →
    internal_step d [LReturn i (RCtx e)] (on_call (return_with (c_chan c) (RCtx e)) i d).

(** A new call, or the end of a caller's context. *)
Inductive external_step (d : DebouncedScaler) : list label → DebouncedScaler → Prop :=
| step_call count :
    external_step d [LCall (length (d_calls d)) count] (begin_call count d)
| step_ctx i e : external_step d [] (on_call (cancel_ctx e) i d).

Definition step (d : DebouncedScaler) (l : list label) (d' : DebouncedScaler) : Prop :=
  internal_step d l d' ∨ external_step d l d'.

(** The states reachable from a new scaler, with what happened on the way. *)
Inductive reachable : list label → DebouncedScaler → Prop :=
| reach_init : reachable [] NewDebouncedScaler
| reach_step tr d l d' : reachable tr d → step d l d' → reachable (tr ++ l) d'.

(** ** Observations of a history *)

Definition forwarded (tr : list label) : list nat :=
  omap (λ l, match l with LForward _ ch _ => Some ch | _ => None end) tr.
Definition answered (tr : list label) : list nat :=
  omap (λ l, match l with LAnswer ch _ => Some ch | _ => None end) tr.
Definition returns (tr : list label) : list nat :=
  omap (λ l, match l with LReturn i _ => Some i | _ => None end) tr.

(** The latest call. *)
Definition latest (d : DebouncedScaler) : option nat :=
  match length (d_calls d) with 0 => None | S m => Some m end.

Lemma forwarded_elem tr ch : ch ∈ forwarded tr ↔ ∃ ctx count, LForward ctx ch count ∈ tr.
Proof.
  unfold forwarded. rewrite list_elem_of_omap. split.
  - intros ([] & Hin & Hl); simplify_eq. eauto.
  - intros (ctx & count & Hin). eexists. split; [exact Hin|done].
Qed.

Lemma answered_elem tr ch : ch ∈ answered tr ↔ ∃ r, LAnswer ch r ∈ tr.
Proof.
  unfold answered. rewrite list_elem_of_omap. split.
  - intros ([] & Hin & Hl); simplify_eq. eauto.
  - intros (r & Hin). eexists. split; [exact Hin|done].
Qed.

Lemma returns_elem tr i : i ∈ returns tr ↔ ∃ r, LReturn i r ∈ tr.
Proof.
  unfold returns. rewrite list_elem_of_omap. split.
  - intros ([] & Hin & Hl); simplify_eq. eauto.
  - intros (r & Hin). eexists. split; [exact Hin|done].
Qed.

Lemma on_call_lookup f i d j c' :
  d_calls (on_call f i d) !! j = Some c' ↔
  ∃ c, d_calls d !! j = Some c ∧ c' = (if decide (i = j) then f c else c).
Proof.
  unfold on_call. simpl. case_decide as Hij.
  - subst. rewrite list_lookup_alter_eq. destruct (d_calls d !! j); simpl; naive_solver.
  - rewrite list_lookup_alter_ne by done. destruct (d_calls d !! j); naive_solver.
Qed.

Lemma on_call_length f i d : length (d_calls (on_call f i d)) = length (d_calls d).
Proof. apply length_alter. Qed.

(** ** The invariant *)
Record inv (tr : list label) (d : DebouncedScaler) : Prop := {
  (* the fields speak of the latest call *)
  inv_timer : d_timer d = latest d;
  inv_ctx : d_latestCtx d = latest d;
  inv_cancel : d_cancelPrev d = latest d;
  inv_ch : d_resultCh d = latest d;
  (* every other call is cancelled and its timer cannot start any more *)
  inv_old : ∀ i c, d_calls d !! i = Some c → S i < length (d_calls d) →
    c_dctx c ≠ None ∧ c_timer c ≠ Armed;
  (* a pending count is the latest call's, and a timer will take it *)
  inv_pending : ∀ count, d_pending d = Some count → ∃ i c, latest d = Some i ∧
    d_calls d !! i = Some c ∧ c_count c = count ∧
    (c_timer c = Armed ∨ c_timer c = Expired) ∧ i ∉ forwarded tr;
  inv_taken : d_pending d = None → ∀ i, latest d = Some i → i ∈ forwarded tr;
  (* forwards *)
  inv_forward : ∀ ctx ch count, LForward ctx ch count ∈ tr →
    ctx = ch ∧ ∃ c, d_calls d !! ch = Some c ∧ c_count c = count;
  inv_forward_once : NoDup (forwarded tr);
  inv_forwarding : ∀ t c ctx ch count, d_calls d !! t = Some c →
    c_timer c = Forwarding ctx ch count → ch ∈ forwarded tr ∧ ch ∉ answered tr;
  inv_forwarding_inj : ∀ t t' c c' x y ch n n', d_calls d !! t = Some c →
    d_calls d !! t' = Some c' → c_timer c = Forwarding x ch n →
    c_timer c' = Forwarding y ch n' → t = t';
  inv_unanswered : ∀ ch, ch ∈ forwarded tr → ch ∉ answered tr →
    ∃ t c ctx count, d_calls d !! t = Some c ∧ c_timer c = Forwarding ctx ch count;
  (* answers *)
  inv_answer : ∀ ch, ch ∈ answered tr → ch ∈ forwarded tr;
  inv_answer_once : NoDup (answered tr);
  inv_chan : ∀ i c r, d_calls d !! i = Some c → c_chan c = Some r → LAnswer i r ∈ tr;
  inv_received : ∀ i c, d_calls d !! i = Some c → i ∈ answered tr →
    is_Some (c_chan c) ∨ is_Some (c_returned c);
  (* returns *)
  inv_returned : ∀ i c, d_calls d !! i = Some c → i ∈ returns tr ↔ is_Some (c_returned c);
  inv_returns : ∀ i, i ∈ returns tr → i < length (d_calls d);
  inv_return_once : NoDup (returns tr);
  inv_result : ∀ i r, LReturn i (RResult r) ∈ tr → LAnswer i r ∈ tr
}.

Lemma inv_init : inv [] NewDebouncedScaler.
Proof.
  split; try done; simpl; try (by intros ? ?; rewrite lookup_nil);
    try (intros; set_solver); try constructor.
Qed.

Lemma on_call_lookup_2 f i d j c :
  d_calls d !! j = Some c →
  d_calls (on_call f i d) !! j = Some (if decide (i = j) then f c else c).
Proof. intros Hc. apply on_call_lookup. eauto. Qed.

Lemma latest_on_call f i d : latest (on_call f i d) = latest d.
Proof. unfold latest. by rewrite on_call_length. Qed.

(** Replace a lookup in an updated state by one in the original. *)
Ltac calls_in :=
  repeat match goal with
         | H : d_calls (on_call _ _ _) !! _ = Some _ |- _ =>
           apply on_call_lookup in H as (? & H & ->)
         end.

(** Updates of one call that leave its count, its channel and what it returned
    alone, do not revive its context and at most let its timer expire. *)
Definition benign (f : call_state → call_state) : Prop := ∀ c,
  c_count (f c) = c_count c ∧ c_chan (f c) = c_chan c ∧ c_returned (f c) = c_returned c ∧
  (c_dctx c ≠ None → c_dctx (f c) ≠ None).

Lemma inv_local tr d f i :
  benign f →
  (∀ c, d_calls d !! i = Some c → c_timer (f c) = c_timer c ∨
     (c_timer c = Armed ∧ c_timer (f c) = Expired) ∨
     (d_pending d = None ∧ c_timer c = Expired ∧ c_timer (f c) = Finished)) →
  inv tr d → inv tr (on_call f i d).
Proof.
  intros Hf Ht Hi.
  assert (Hfw : ∀ j c ctx ch count, d_calls d !! j = Some c →
    c_timer (if decide (i = j) then f c else c) = Forwarding ctx ch count ↔
    c_timer c = Forwarding ctx ch count).
  { intros j c ctx ch count Hc. case_decide; [subst|done].
    destruct (Ht c Hc) as [->|[[-> ->]|(_ & -> & ->)]]; done. }
  assert (Hsame : ∀ j c, let c' := if decide (i = j) then f c else c in
    c_count c' = c_count c ∧ c_chan c' = c_chan c ∧ c_returned c' = c_returned c).
  { intros j c. cbn zeta. case_decide; [|done]. destruct (Hf c) as (? & ? & ? & _). done. }
  destruct Hi. split; rewrite ?latest_on_call, ?on_call_length; try done.
  - intros j c' Hc Hlt. calls_in. destruct (inv_old0 _ _ Hc Hlt) as [Hd Hn].
    case_decide; [subst|done]. destruct (Hf x) as (_ & _ & _ & Hdf). split; [by apply Hdf|].
    by destruct (Ht x Hc) as [->|[[? _]|(_ & _ & ->)]].
  - intros count Hp. simpl in Hp. destruct (inv_pending0 _ Hp) as (j & c & Hl & Hc & Hcount & Hct & Hnf).
    exists j. eexists. split; [done|]. split; [by apply on_call_lookup_2|].
    destruct (Hsame j c) as (-> & _). split; [done|]. split; [|done].
    case_decide; [subst|done]. destruct (Ht c Hc) as [->|[[_ ->]|(Hnp & _ & _)]]; auto. congruence.
  - intros ctx ch count Hin. destruct (inv_forward0 _ _ _ Hin) as (-> & c & Hc & Hcount).
    split; [done|]. eexists. split; [by apply on_call_lookup_2|].
    by destruct (Hsame ch c) as (-> & _).
  - intros t c ctx ch count Hc Hct. calls_in. rewrite Hfw in Hct by done. by eapply inv_forwarding0.
  - intros t t' c c' x y ch n n' Hc Hc' Hct Hct'. calls_in.
    rewrite Hfw in Hct by done. rewrite Hfw in Hct' by done.
    exact (inv_forwarding_inj0 _ _ _ _ _ _ _ _ _ Hc Hc' Hct Hct').
  - intros ch H1 H2. destruct (inv_unanswered0 ch H1 H2) as (t & c & ctx & count & Hc & Hct).
    exists t. eexists _, ctx, count. split; [by apply on_call_lookup_2|]. by rewrite Hfw.
  - intros j c r Hc Hch. calls_in. destruct (Hsame j x) as (_ & Hs & _). rewrite Hs in Hch.
    by eapply inv_chan0.
  - intros j c Hc Hin. calls_in. destruct (Hsame j x) as (_ & -> & ->). by eapply inv_received0.
  - intros j c Hc. calls_in. destruct (Hsame j x) as (_ & _ & ->). by eapply inv_returned0.
Qed.

Lemma forwarded_app tr l : forwarded (tr ++ l) = forwarded tr ++ forwarded l.
Proof. apply omap_app. Qed.
Lemma answered_app tr l : answered (tr ++ l) = answered tr ++ answered l.
Proof. apply omap_app. Qed.
Lemma returns_app tr l : returns (tr ++ l) = returns tr ++ returns l.
Proof. apply omap_app. Qed.

Lemma latest_lookup d i : latest d = Some i → S i = length (d_calls d).
Proof. unfold latest. destruct (length _) eqn:Hl; [done|]. by intros [= ->]. Qed.

(** The callback takes the pending count. *)
Lemma inv_take tr d t c :
  d_calls d !! t = Some c → c_timer c = Expired → inv tr d →
  inv (tr ++ taken d) (take_pending t d).
Proof.
  intros Hc Hct Hi. pose proof Hi as Hi'. destruct Hi'.
  destruct (d_pending d) as [count|] eqn:Hp.
  2: { assert (taken d = []) as -> by (unfold taken; by rewrite Hp).
       assert (take_pending t d = on_call (set_timer Finished) t d) as ->.
       { unfold take_pending, on_call. rewrite Hp. by destruct d. }
       rewrite app_nil_r. apply inv_local; [done| |done].
       intros c0 Hc0. right; right. by simplify_eq. }
  destruct (inv_pending0 count eq_refl) as (i & ci & Hl & Hci & Hcount & Hti & Hnf).
  assert (taken d = [LForward i i count]) as ->
    by (unfold taken; by rewrite Hp, inv_ctx0, inv_ch0, Hl).
  set (d0 := mkDebounced (d_timer d) (d_latestCtx d) (d_cancelPrev d) None (d_resultCh d) (d_calls d)).
  assert (take_pending t d = on_call (set_timer (Forwarding i i count)) t d0) as ->.
  { unfold take_pending, d0. by rewrite Hp, inv_ctx0, inv_ch0, Hl. }
  assert (Hna : i ∉ answered tr) by (intros ?%inv_answer0; done).
  split; rewrite ?latest_on_call, ?on_call_length, ?forwarded_app, ?answered_app, ?returns_app;
    try done; cbn [forwarded answered returns omap list_omap] in *;
    rewrite ?app_nil_r; try done.
  - intros j c' Hj Hlt. calls_in. destruct (inv_old0 _ _ Hj Hlt). by case_decide.
  - intros _ j Hj. change (latest d0) with (latest d) in Hj. simplify_eq. set_solver.
  - intros ctx ch n [Hin|Hin]%elem_of_app.
    + destruct (inv_forward0 _ _ _ Hin) as (-> & c' & Hc' & Hn). split; [done|].
      eexists. split; [exact (on_call_lookup_2 _ t d0 _ _ Hc')|]. by case_decide.
    + apply list_elem_of_singleton in Hin. simplify_eq. split; [done|].
      eexists. split; [exact (on_call_lookup_2 _ t d0 _ _ Hci)|]. by case_decide.
  - apply NoDup_app. split; [done|]. split; [|apply NoDup_singleton]. set_solver.
  - intros t' c' ctx ch n Hc' Ht'. calls_in. case_decide.
    + simpl in Ht'. simplify_eq. split; [set_solver|done].
    + destruct (inv_forwarding0 _ _ _ _ _ Hc' Ht'). split; [set_solver|done].
  - intros t1 t2 c1 c2 x y ch n n' H1 H2 Hf1 Hf2. calls_in.
    repeat case_decide; subst; [done|..]; simpl in *; simplify_eq.
    + by destruct (inv_forwarding0 _ _ _ _ _ H1 Hf1).
    + by destruct (inv_forwarding0 _ _ _ _ _ H2 Hf2).
    + exact (inv_forwarding_inj0 _ _ _ _ _ _ _ _ _ H1 H2 Hf1 Hf2).
  - intros ch [Hin|Hin]%elem_of_app Hans.
    + destruct (inv_unanswered0 ch Hin Hans) as (t' & c' & ctx & n & Hc' & Ht').
      exists t'. eexists _, ctx, n. split; [exact (on_call_lookup_2 _ t d0 _ _ Hc')|].
      case_decide; [|done]. subst. simplify_eq. congruence.
    + apply list_elem_of_singleton in Hin. subst.
      exists t. eexists _, _, _. split; [exact (on_call_lookup_2 _ t d0 _ _ Hc)|].
      by rewrite decide_True.
  - intros ch Hin. apply elem_of_app. left. by apply inv_answer0.
  - intros j c' r Hc' Hch. calls_in. apply elem_of_app. left.
    eapply inv_chan0; [done|]. by case_decide.
  - intros j c' Hc' Hin. calls_in. destruct (inv_received0 _ _ Hc' Hin); case_decide; auto.
  - intros j c' Hc'. calls_in. rewrite (inv_returned0 _ _ Hc'). by case_decide.
  - intros j r [Hin|Hin]%elem_of_app; [|set_solver]. apply elem_of_app. left. by apply inv_result0.
Qed.

(** The inner scaler answers. *)
Lemma inv_answer_step tr d t c ctx ch count r :
  d_calls d !! t = Some c → c_timer c = Forwarding ctx ch count → inv tr d →
  inv (tr ++ [LAnswer ch r]) (on_call (send r) ch (on_call (set_timer Finished) t d)).
Proof.
  intros Hc Hct Hi. destruct Hi.
  destruct (inv_forwarding0 _ _ _ _ _ Hc Hct) as [Hfw Hna].
  set (upd j c0 := if decide (ch = j) then send r (if decide (t = j) then set_timer Finished c0 else c0)
                   else if decide (t = j) then set_timer Finished c0 else c0).
  assert (Hlk : ∀ j c', d_calls (on_call (send r) ch (on_call (set_timer Finished) t d)) !! j = Some c' ↔
    ∃ c0, d_calls d !! j = Some c0 ∧ c' = upd j c0).
  { intros j c'. rewrite on_call_lookup. setoid_rewrite on_call_lookup. unfold upd. naive_solver. }
  assert (Hupd : ∀ j c0, d_calls d !! j = Some c0 →
    c_count (upd j c0) = c_count c0 ∧ c_returned (upd j c0) = c_returned c0 ∧
    c_dctx (upd j c0) = c_dctx c0 ∧
    c_timer (upd j c0) = (if decide (t = j) then Finished else c_timer c0) ∧
    c_chan (upd j c0) = (if decide (ch = j) then Some r else c_chan c0)).
  { intros j c0 Hc0. unfold upd. destruct (decide (ch = j)) as [<-|Hj].
    - assert (Hch : c_chan c0 = None).
      { destruct (c_chan c0) eqn:Hch; [|done]. destruct Hna. apply answered_elem.
        eexists. by eapply inv_chan0. }
      unfold send. by case_decide; simpl; rewrite Hch.
    - by case_decide. }
  assert (Htimer : ∀ j c0 x y n, d_calls d !! j = Some c0 →
    c_timer (upd j c0) = Forwarding x y n → j ≠ t ∧ c_timer c0 = Forwarding x y n).
  { intros j c0 x y n Hc0. destruct (Hupd j c0 Hc0) as (_ & _ & _ & -> & _).
    case_decide; [done|]. by split. }
  split; rewrite ?latest_on_call, ?on_call_length, ?forwarded_app, ?answered_app, ?returns_app;
    try done; cbn [forwarded answered returns omap list_omap] in *; rewrite ?app_nil_r; try done.
  - intros j c' Hj Hlt. apply Hlk in Hj as (c0 & Hj & ->). destruct (Hupd j c0 Hj) as (_ & _ & -> & -> & _).
    destruct (inv_old0 _ _ Hj Hlt). by case_decide.
  - intros n Hp. simpl in Hp. destruct (inv_pending0 _ Hp) as (j & cj & Hl & Hj & Hn & Hct' & Hnf).
    exists j, (upd j cj). split; [done|]. split; [apply Hlk; eauto|].
    destruct (Hupd j cj Hj) as (-> & _ & _ & -> & _). split; [done|].
    rewrite decide_False; [done|]. intros <-. simplify_eq. rewrite Hct in Hct'. naive_solver.
  - intros x y n [Hin|Hin]%elem_of_app; [|set_solver].
    destruct (inv_forward0 _ _ _ Hin) as (-> & c' & Hc' & Hn). split; [done|].
    exists (upd y c'). split; [apply Hlk; eauto|]. by destruct (Hupd y c' Hc') as (-> & _).
  - intros t' c' x y n Hc' Ht'. apply Hlk in Hc' as (c0 & Hc0 & ->).
    destruct (Htimer _ _ _ _ _ Hc0 Ht') as [Hne Ht0].
    destruct (inv_forwarding0 _ _ _ _ _ Hc0 Ht0). split; [done|].
    intros [?|Hy]%elem_of_app; [done|]. apply list_elem_of_singleton in Hy as ->.
    apply Hne. exact (inv_forwarding_inj0 _ _ _ _ _ _ _ _ _ Hc0 Hc Ht0 Hct).
  - intros t1 t2 c1 c2 x y z n n' H1 H2 Hf1 Hf2.
    apply Hlk in H1 as (c1' & H1 & ->). apply Hlk in H2 as (c2' & H2 & ->).
    destruct (Htimer _ _ _ _ _ H1 Hf1) as [_ Hf1']. destruct (Htimer _ _ _ _ _ H2 Hf2) as [_ Hf2'].
    exact (inv_forwarding_inj0 _ _ _ _ _ _ _ _ _ H1 H2 Hf1' Hf2').
  - intros y Hy Hny. destruct (inv_unanswered0 y Hy ltac:(set_solver)) as (t' & c' & x & n & Hc' & Ht').
    exists t', (upd t' c'), x, n. split; [apply Hlk; eauto|].
    destruct (Hupd t' c' Hc') as (_ & _ & _ & -> & _). rewrite decide_False; [done|].
    intros <-. simplify_eq. rewrite Hct in Ht'. simplify_eq. set_solver.
  - intros y [Hy|Hy]%elem_of_app; [by apply inv_answer0|]. by apply list_elem_of_singleton in Hy as ->.
  - apply NoDup_app. split; [done|]. split; [|apply NoDup_singleton]. set_solver.
  - intros j c' r' Hj Hch. apply Hlk in Hj as (c0 & Hj & ->).
    destruct (Hupd j c0 Hj) as (_ & _ & _ & _ & Heq). rewrite Heq in Hch.
    case_decide; simplify_eq; [set_solver|]. apply elem_of_app. left. by eapply inv_chan0.
  - intros j c' Hj Hin. apply Hlk in Hj as (c0 & Hj & ->).
    destruct (Hupd j c0 Hj) as (_ & -> & _ & _ & ->). case_decide; [by left; eexists|].
    apply elem_of_app in Hin as [Hin|Hin]; [by eapply inv_received0|set_solver].
  - intros j c' Hj. apply Hlk in Hj as (c0 & Hj & ->).
    destruct (Hupd j c0 Hj) as (_ & -> & _). by eapply inv_returned0.
  - intros j r' [Hin|Hin]%elem_of_app; [|set_solver]. apply elem_of_app. left. by apply inv_result0.
Qed.

(** A call returns. *)
Lemma inv_return_step tr d i c ch rr :
  d_calls d !! i = Some c → c_returned c = None →
  (ch = None ∨ ch = c_chan c) →
  (∀ r, rr = RResult r → c_chan c = Some r) → inv tr d →
  inv (tr ++ [LReturn i rr]) (on_call (return_with ch rr) i d).
Proof.
  intros Hc Hret Hch Hrr Hi. destruct Hi.
  assert (Hnr : i ∉ returns tr).
  { intros Hin. apply (inv_returned0 _ _ Hc) in Hin as [? Hin]. congruence. }
  assert (Htimer : ∀ (b : bool) j c0, c_timer (if decide (i = j) then return_with ch rr c0 else c0) = c_timer c0 ∧
     c_count (if decide (i = j) then return_with ch rr c0 else c0) = c_count c0 ∧
     c_dctx (if decide (i = j) then return_with ch rr c0 else c0) = c_dctx c0)
    by (intros _ j c0; by case_decide).
  split; rewrite ?latest_on_call, ?on_call_length, ?forwarded_app, ?answered_app, ?returns_app;
    try done; cbn [forwarded answered returns omap list_omap] in *; rewrite ?app_nil_r; try done.
  - intros j c' Hj Hlt. calls_in. destruct (Htimer true j x) as (-> & _ & ->). by apply (inv_old0 j).
  - intros n Hp. simpl in Hp. destruct (inv_pending0 _ Hp) as (j & cj & Hl & Hj & Hn & Hct & Hnf).
    exists j. eexists. split; [done|]. split; [by apply on_call_lookup_2|].
    by destruct (Htimer true j cj) as (-> & -> & _).
  - intros x y n [Hin|Hin]%elem_of_app; [|set_solver].
    destruct (inv_forward0 _ _ _ Hin) as (-> & c' & Hc' & Hn). split; [done|].
    eexists. split; [by apply on_call_lookup_2|]. by destruct (Htimer true y c') as (_ & -> & _).
  - intros t c' x y n Hc' Ht. calls_in. destruct (Htimer true t x0) as (Heq & _). rewrite Heq in Ht.
    by eapply inv_forwarding0.
  - intros t1 t2 c1 c2 x y z n n' H1 H2 Hf1 Hf2. calls_in.
    rewrite (proj1 (Htimer true t1 _)) in Hf1. rewrite (proj1 (Htimer true t2 _)) in Hf2.
    exact (inv_forwarding_inj0 _ _ _ _ _ _ _ _ _ H1 H2 Hf1 Hf2).
  - intros y Hy Hny. destruct (inv_unanswered0 y Hy Hny) as (t & c' & x & n & Hc' & Ht).
    exists t. eexists _, x, n. split; [by apply on_call_lookup_2|].
    by destruct (Htimer true t c') as (-> & _).
  - intros j c' r Hj Hcr. calls_in. apply elem_of_app. left.
    case_decide; [subst|by eapply inv_chan0]. simplify_eq. simpl in Hcr.
    eapply inv_chan0; [done|]. destruct Hch; congruence.
  - intros j c' Hj Hin. calls_in. case_decide; [by right; eexists|]. by eapply inv_received0.
  - intros j c' Hj. calls_in. rewrite elem_of_app, list_elem_of_singleton.
    case_decide as Hij; [subst|].
    + split; [by eexists|]. by right.
    + rewrite (inv_returned0 _ _ Hj). naive_solver.
  - intros j [Hin|Hin]%elem_of_app; [by apply inv_returns0|].
    apply list_elem_of_singleton in Hin as ->. by eapply lookup_lt_Some.
  - apply NoDup_app. split; [done|]. split; [|apply NoDup_singleton]. set_solver.
  - intros j r [Hin|Hin]%elem_of_app; apply elem_of_app; left; [by apply inv_result0|].
    apply list_elem_of_singleton in Hin. simplify_eq. eapply inv_chan0; [done|]. by apply Hrr.
Qed.

(** A new call. *)
Definition supersede (c : call_state) : call_state := cancel_dctx context_Canceled (stop c).

Lemma begin_call_lookup count d j c' :
  d_timer d = latest d → d_cancelPrev d = latest d →
  d_calls (begin_call count d) !! j = Some c' ↔
  (∃ c, d_calls d !! j = Some c ∧ c' = if decide (latest d = Some j) then supersede c else c) ∨
  (j = length (d_calls d) ∧ c' = mkCallState count Armed None None None None).
Proof.
  intros Ht Hc. unfold begin_call. rewrite Ht.
  destruct (latest d) as [m|] eqn:Hl; simpl; rewrite Hc; simpl.
  - rewrite lookup_app_Some, !length_alter.
    change (alter (cancel_dctx context_Canceled) m (alter stop m (d_calls d)))
      with (d_calls (on_call (cancel_dctx context_Canceled) m (on_call stop m d))).
    rewrite on_call_lookup. setoid_rewrite on_call_lookup.
    rewrite list_lookup_singleton_Some. unfold supersede. split.
    + intros [(c & (c0 & H0 & ->) & ->)|[Hlen [Hj <-]]].
      * left. exists c0. split; [done|]. repeat case_decide; simplify_eq; done.
      * right. split; [lia|done].
    + intros [(c & H0 & ->)|[-> ->]].
      * left. eexists. split; [eexists; split; [done|reflexivity]|].
        repeat case_decide; simplify_eq; done.
      * right. split; [lia|]. split; [lia|done].
  - rewrite lookup_app_Some, list_lookup_singleton_Some. split.
    + intros [H0|[Hlen [Hj <-]]]; [left; eauto|right]. split; [lia|done].
    + intros [(c & H0 & ->)|[-> ->]]; [by left|right]. split; [lia|]. split; [lia|done].
Qed.

Lemma begin_call_length count d : length (d_calls (begin_call count d)) = S (length (d_calls d)).
Proof.
  unfold begin_call. destruct (d_timer d); simpl; destruct (d_cancelPrev d); simpl;
    rewrite length_app, ?length_alter; simpl; lia.
Qed.

Lemma supersede_spec c :
  c_count (supersede c) = c_count c ∧ c_chan (supersede c) = c_chan c ∧
  c_returned (supersede c) = c_returned c ∧ c_dctx (supersede c) ≠ None ∧
  c_timer (supersede c) ≠ Armed ∧
  (∀ x y n, c_timer (supersede c) = Forwarding x y n ↔ c_timer c = Forwarding x y n).
Proof.
  unfold supersede, stop, cancel_dctx, set_timer.
  destruct (c_timer c) eqn:Ht, (c_dctx c) eqn:Hd; simpl; rewrite ?Ht, ?Hd; done.
Qed.

Lemma inv_call_step tr d count :
  inv tr d → inv (tr ++ [LCall (length (d_calls d)) count]) (begin_call count d).
Proof.
  intros Hi. destruct Hi. set (n := length (d_calls d)).
  assert (Hlk : ∀ j c', d_calls (begin_call count d) !! j = Some c' ↔
    (∃ c, d_calls d !! j = Some c ∧ c' = if decide (latest d = Some j) then supersede c else c) ∨
    (j = n ∧ c' = mkCallState count Armed None None None None))
    by (intros; by apply begin_call_lookup).
  assert (Hold : ∀ j c, d_calls d !! j = Some c →
    d_calls (begin_call count d) !! j =
      Some (if decide (latest d = Some j) then supersede c else c))
    by (intros; apply Hlk; eauto).
  assert (Hsame : ∀ j c, let c' := if decide (latest d = Some j) then supersede c else c in
    c_count c' = c_count c ∧ c_chan c' = c_chan c ∧ c_returned c' = c_returned c ∧
    (∀ x y m, c_timer c' = Forwarding x y m ↔ c_timer c = Forwarding x y m)).
  { intros j c. cbn zeta. case_decide; [|done].
    destruct (supersede_spec c) as (? & ? & ? & _ & _ & ?). done. }
  assert (Hlen : ∀ j c, d_calls d !! j = Some c → j < n)
    by (intros j c Hj; by apply lookup_lt_Some in Hj).
  assert (Hlatest : latest (begin_call count d) = Some n)
    by (unfold latest; by rewrite begin_call_length).
  assert (Hnf : n ∉ forwarded tr).
  { intros (ctx & m & Hin)%forwarded_elem. destruct (inv_forward0 _ _ _ Hin) as (_ & c & Hc & _).
    apply Hlen in Hc. lia. }
  assert (Hmid : ∀ f, d_timer (begin_call f d) = Some n ∧ d_latestCtx (begin_call f d) = Some n ∧
    d_cancelPrev (begin_call f d) = Some n ∧ d_pending (begin_call f d) = Some f ∧
    d_resultCh (begin_call f d) = Some n).
  { intros f. unfold begin_call. destruct (d_timer d); simpl; destruct (d_cancelPrev d); simpl;
      rewrite ?length_alter; done. }
  destruct (Hmid count) as (Ht & Hx & Hcp & Hpd & Hrc).
  split; rewrite ?Hlatest, ?forwarded_app, ?answered_app, ?returns_app, ?begin_call_length; try done;
    cbn [forwarded answered returns omap list_omap] in *; rewrite ?app_nil_r; try done.
  - intros j c' Hj Hlt. apply Hlk in Hj as [(c & Hj & ->)|[-> _]]; [|lia].
    case_decide as Hl; [destruct (supersede_spec c) as (_ & _ & _ & ? & ? & _); done|].
    apply (inv_old0 j c Hj). pose proof (Hlen _ _ Hj). unfold latest in Hl. fold n in Hl |- *.
    destruct n as [|m]; [lia|]. assert (j ≠ m) by congruence. lia.
  - rewrite Hpd. intros m [= <-]. exists n. eexists. split; [done|].
    split; [apply Hlk; by right|]. split; [done|]. split; [by left|done].
  - intros ctx ch m [Hin|Hin]%elem_of_app; [|set_solver].
    destruct (inv_forward0 _ _ _ Hin) as (-> & c & Hc & Hm). split; [done|].
    eexists. split; [by apply Hold|]. by destruct (Hsame ch c) as (-> & _).
  - intros t c' x y m Hc' Hct. apply Hlk in Hc' as [(c & Hc & ->)|[-> ->]]; [|done].
    destruct (Hsame t c) as (_ & _ & _ & Hf). apply Hf in Hct. by eapply inv_forwarding0.
  - intros t1 t2 c1 c2 x y z m m' H1 H2 Hf1 Hf2.
    apply Hlk in H1 as [(c1' & H1 & ->)|[-> ->]]; [|done].
    apply Hlk in H2 as [(c2' & H2 & ->)|[-> ->]]; [|done].
    apply (proj2 (proj2 (proj2 (Hsame t1 c1')))) in Hf1.
    apply (proj2 (proj2 (proj2 (Hsame t2 c2')))) in Hf2.
    exact (inv_forwarding_inj0 _ _ _ _ _ _ _ _ _ H1 H2 Hf1 Hf2).
  - intros y Hy Hny. destruct (inv_unanswered0 y Hy Hny) as (t & c & x & m & Hc & Hct).
    exists t. eexists _, x, m. split; [by apply Hold|]. by apply (Hsame t c).
  - intros j c' r Hj Hch. apply elem_of_app. left.
    apply Hlk in Hj as [(c & Hj & ->)|[-> ->]]; [|done].
    destruct (Hsame j c) as (_ & Heq & _). rewrite Heq in Hch. by eapply inv_chan0.
  - intros j c' Hj Hin. apply Hlk in Hj as [(c & Hj & ->)|[-> ->]].
    + destruct (Hsame j c) as (_ & -> & -> & _). by eapply inv_received0.
    + by apply inv_answer0 in Hin.
  - intros j c' Hj. apply Hlk in Hj as [(c & Hj & ->)|[-> ->]].
    + destruct (Hsame j c) as (_ & _ & -> & _). by eapply inv_returned0.
    + split; [|by intros [? ?]]. intros Hin%inv_returns0. fold n in Hin. lia.
  - intros j Hin%inv_returns0. lia.
  - intros j r [Hin|Hin]%elem_of_app; [|set_solver]. apply elem_of_app. left. by apply inv_result0.
Qed.

Lemma inv_reachable tr d : reachable tr d → inv tr d.
Proof.
  induction 1 as [|tr d l d' Hr IH [Hs|Hs]]; [apply inv_init|..].
  - destruct Hs as [t c Hc Ht|t c Hc Ht|t c ctx ch count r Hc Ht|i c r Hc Hr' Hch|i c e Hc Hr' He].
    + rewrite app_nil_r. apply inv_local; [done| |done].
      intros c' Hc'. right; left. by simplify_eq.
    + by eapply inv_take.
    + by eapply inv_answer_step.
    + eapply inv_return_step; eauto. by intros ? [= ->].
    + eapply inv_return_step; eauto. done.
  - destruct Hs as [count|i e]; [by apply inv_call_step|].
    rewrite app_nil_r. apply inv_local; [|by left|done].
    intros c. unfold cancel_ctx, cancel_dctx. simpl. repeat split; try done. by destruct (c_dctx c).
Qed.

(** ** Work left *)

(** The internal steps a call can still take part in. *)
Definition weight (c : call_state) : nat :=
  match c_timer c with
  | Armed => 3 | Expired => 2 | Forwarding _ _ _ => 1 | Stopped | Finished => 0
  end + match c_returned c with None => 1 | Some _ => 0 end.

Definition measure (d : DebouncedScaler) : nat := sum_list_with weight (d_calls d).

Lemma measure_on_call f i d c :
  d_calls d !! i = Some c →
  measure (on_call f i d) + weight c = measure d + weight (f c).
Proof.
  unfold measure, on_call. simpl. generalize (d_calls d). intros l. revert i.
  induction l as [|c' l IH]; intros [|i] Hc; simplify_eq/=; [lia|]. specialize (IH i Hc). lia.
Qed.

Lemma measure_send r i d : measure (on_call (send r) i d) = measure d.
Proof.
  destruct (d_calls d !! i) as [c|] eqn:Hc.
  - pose proof (measure_on_call (send r) i d c Hc) as Hm.
    assert (weight (send r c) = weight c) by (unfold send; by destruct (c_chan c)). lia.
  - unfold measure, on_call. simpl. f_equal. apply list_eq. intros j.
    rewrite list_lookup_alter. case_decide; [subst; by rewrite Hc|done].
Qed.

Definition internal (d d' : DebouncedScaler) : Prop := ∃ l, internal_step d l d'.

Lemma internal_decreases d d' : internal d d' → measure d' < measure d.
Proof.
  intros [l [t c Hc Ht|t c Hc Ht|t c ctx ch count r Hc Ht|i c r Hc Hr Hch|i c e Hc Hr He]].
  - pose proof (measure_on_call (set_timer Expired) t d c Hc) as Hm. unfold weight in Hm.
    rewrite Ht in Hm. simpl in Hm. lia.
  - assert (∃ t' d0, take_pending t d = on_call (set_timer t') t d0 ∧ d_calls d0 = d_calls d ∧
      (t' = Finished ∨ ∃ x y z, t' = Forwarding x y z)) as (t' & d0 & -> & Hd0 & Ht').
    { unfold take_pending. destruct (d_pending d), (d_latestCtx d), (d_resultCh d);
        eexists _, _; (split; [reflexivity|]); (split; [done|]); eauto. }
    assert (Hc0 : d_calls d0 !! t = Some c) by (by rewrite Hd0).
    assert (Hm0 : measure d0 = measure d) by (unfold measure; by rewrite Hd0).
    pose proof (measure_on_call (set_timer t') t d0 c Hc0) as Hm. unfold weight in Hm.
    rewrite Ht in Hm. destruct Ht' as [->|(x & y & z & ->)]; simpl in Hm; lia.
  - rewrite measure_send. pose proof (measure_on_call (set_timer Finished) t d c Hc) as Hm.
    unfold weight in Hm. rewrite Ht in Hm. simpl in Hm. lia.
  - pose proof (measure_on_call (return_with None (RResult r)) i d c Hc) as Hm.
    unfold weight in Hm. rewrite Hr in Hm. simpl in Hm. lia.
  - pose proof (measure_on_call (return_with (c_chan c) (RCtx e)) i d c Hc) as Hm.
    unfold weight in Hm. rewrite Hr in Hm. simpl in Hm. lia.
Qed.

(** A call that has not returned can be served without any new call. *)
Lemma waiting_progress tr d i c :
  inv tr d → d_calls d !! i = Some c → c_returned c = None → ∃ d', internal d d'.
Proof.
  intros Hi Hc Hr. destruct (decide (S i < length (d_calls d))) as [Hold|Hlast].
  - destruct (c_dctx c) as [e|] eqn:He; [|by destruct (inv_old _ _ Hi _ _ Hc Hold)].
    eexists _, _. eapply step_cancelled; eauto.
  - assert (Hl : latest d = Some i).
    { pose proof (lookup_lt_Some _ _ _ Hc). unfold latest. destruct (length _); [lia|]. f_equal. lia. }
    destruct (d_pending d) as [count|] eqn:Hp.
    + destruct (inv_pending _ _ Hi _ Hp) as (j & cj & Hj & Hcj & _ & Ht & _).
      destruct Ht; eexists _, _; [by eapply step_expire|by eapply step_take].
    + pose proof (inv_taken _ _ Hi Hp i Hl) as Hf.
      destruct (decide (i ∈ answered tr)) as [Ha|Ha].
      * destruct (inv_received _ _ Hi _ _ Hc Ha) as [[r Hch]|[? ?]]; [|congruence].
        eexists _, _. by eapply step_receive.
      * destruct (inv_unanswered _ _ Hi i Hf Ha) as (t & ct & x & n & Ht & Hct).
        eexists _, _. by eapply (step_answer _ _ _ _ _ _ (mkDesired 0 None)).
Qed.

(** ** Properties *)

(** C9. In every interleaving of callers, timers and answers: a call's count
    reaches the inner scaler at most once, unchanged and under that call's own
    context; each forward is answered at most once; a call returns at most once,
    and a result it returns is the inner scaler's answer to its own count. *)
Theorem debounce_coalesces tr d :
  reachable tr d →
  NoDup (forwarded tr) ∧ NoDup (answered tr) ∧ NoDup (returns tr) ∧
  (∀ ctx ch count, LForward ctx ch count ∈ tr →
     ctx = ch ∧ c_count <$> d_calls d !! ch = Some count) ∧
  (∀ i r, LReturn i (RResult r) ∈ tr →
     LAnswer i r ∈ tr ∧ ∃ count, LForward i i count ∈ tr ∧ c_count <$> d_calls d !! i = Some count).
Proof.
  intros Hr%inv_reachable. destruct Hr. split; [done|]. split; [done|]. split; [done|].
  assert (Hf : ∀ ctx ch count, LForward ctx ch count ∈ tr →
     ctx = ch ∧ c_count <$> d_calls d !! ch = Some count).
  { intros ctx ch count Hin. destruct (inv_forward0 _ _ _ Hin) as (-> & c & -> & <-). done. }
  split; [done|]. intros i r Hin. pose proof (inv_result0 _ _ Hin) as Ha. split; [done|].
  assert (i ∈ forwarded tr) as (ctx & count & Hfw)%forwarded_elem
    by (apply inv_answer0, answered_elem; eauto).
  exists count. destruct (Hf _ _ _ Hfw) as [-> ?]. done.
Qed.

(** C16. Only the latest call is ever forwarded: when a callback takes a count,
    it is that of the last call made so far, even when the callback belongs to
    an earlier timer that expired just before being stopped; and every earlier
    call has had its context cancelled by then. *)
Theorem debounce_forwards_latest tr d l d' ctx ch count :
  reachable tr d → step d l d' → LForward ctx ch count ∈ l →
  S ch = length (d_calls d) ∧ ctx = ch ∧ (ch ∉ forwarded tr) ∧
  c_count <$> d_calls d !! ch = Some count ∧
  (∀ i c, d_calls d !! i = Some c → i < ch → c_dctx c ≠ None).
Proof.
  intros Hr%inv_reachable [Hs|Hs] Hin; [|destruct Hs; set_solver].
  destruct Hs as [t c Hc Ht|t c Hc Ht|t c x y n r Hc Ht|i c r Hc Hr' Hch|i c e Hc Hr' He];
    try set_solver.
  unfold taken in Hin. destruct (d_pending d) as [n|] eqn:Hp; [|set_solver].
  destruct (inv_pending _ _ Hr _ Hp) as (i & ci & Hl & Hci & Hn & _ & Hnf).
  rewrite (inv_ctx _ _ Hr), (inv_ch _ _ Hr), Hl in Hin.
  apply list_elem_of_singleton in Hin as [= -> -> ->].
  pose proof (latest_lookup _ _ Hl) as Hlen. split; [done|]. split; [done|]. split; [done|].
  split; [by rewrite Hci, <- Hn|]. intros j c' Hc' Hj.
  apply (inv_old _ _ Hr _ _ Hc'). lia.
Qed.

(** C17. No call waits for ever: from any reachable state the timers, answers
    and returns that are already under way number at most [measure d] steps, and
    when none of them is possible any more every call has returned. *)
Theorem debounce_terminates tr d :
  reachable tr d →
  (∀ n d', nsteps internal n d d' → n ≤ measure d) ∧
  (∀ d', rtc internal d d' → nf internal d' →
     ∀ i c, d_calls d' !! i = Some c → is_Some (c_returned c)).
Proof.
  intros Hr. split.
  - intros n d' Hn. clear Hr. induction Hn as [|n x y z Hxy _ IH]; [lia|].
    apply internal_decreases in Hxy. lia.
  - intros d' Hs Hnf. assert (Hr' : ∃ tr', reachable tr' d').
    { clear Hnf. revert tr Hr. induction Hs as [|x y z [l Hxy] _ IH]; intros tr Hr; [eauto|].
      eapply IH. eapply reach_step; [exact Hr|]. left. exact Hxy. }
    destruct Hr' as [tr' Hr']. intros i c Hc. destruct (c_returned c) eqn:Hret; [by eexists|].
    destruct Hnf. apply inv_reachable in Hr'.
    by eapply waiting_progress.
Qed.

(** *** A burst of two calls: the second is forwarded, the first cancelled. *)
Definition answer9 : desiredResult := mkDesired 9 None.
Definition burst : DebouncedScaler := begin_call 7 (begin_call 5 NewDebouncedScaler).
Definition burst_expired : DebouncedScaler := on_call (set_timer Expired) 1 burst.
Definition burst_answered : DebouncedScaler :=
  on_call (send answer9) 1 (on_call (set_timer Finished) 1 (take_pending 1 burst_expired)).
Definition burst_done : DebouncedScaler :=
  on_call (return_with None (RCtx context_Canceled)) 0
    (on_call (return_with None (RResult answer9)) 1 burst_answered).
Definition burst_history : list label :=
  [LCall 0 5; LCall 1 7; LForward 1 1 7; LAnswer 1 answer9; LReturn 1 (RResult answer9);
   LReturn 0 (RCtx context_Canceled)].

Lemma burst_expired_reachable : reachable [LCall 0 5; LCall 1 7] burst_expired.
Proof.
  apply (reach_step [LCall 0 5; LCall 1 7] burst [] burst_expired).
  - apply (reach_step [LCall 0 5] (begin_call 5 NewDebouncedScaler) [LCall 1 7] burst).
    + apply (reach_step [] NewDebouncedScaler [LCall 0 5]); [constructor|].
      right. apply (step_call NewDebouncedScaler 5).
    + right. apply (step_call (begin_call 5 NewDebouncedScaler) 7).
  - left. eapply step_expire; reflexivity.
Qed.

Lemma burst_reachable : reachable burst_history burst_done.
Proof.
  apply (reach_step [LCall 0 5; LCall 1 7; LForward 1 1 7; LAnswer 1 answer9;
                     LReturn 1 (RResult answer9)]
           (on_call (return_with None (RResult answer9)) 1 burst_answered)
           [LReturn 0 (RCtx context_Canceled)]).
  - apply (reach_step [LCall 0 5; LCall 1 7; LForward 1 1 7; LAnswer 1 answer9] burst_answered
             [LReturn 1 (RResult answer9)]).
    + apply (reach_step [LCall 0 5; LCall 1 7; LForward 1 1 7] (take_pending 1 burst_expired)
               [LAnswer 1 answer9]).
      * apply (reach_step _ _ [LForward 1 1 7] _ burst_expired_reachable).
        left. by eapply (step_take burst_expired 1).
      * left. by eapply (step_answer (take_pending 1 burst_expired) 1 _ 1 1 7).
    + left. by eapply (step_receive burst_answered 1).
  - left. apply (step_cancelled _ 0 (mkCallState 5 Stopped None None (Some context_Canceled) None));
      [reflexivity|reflexivity|by left].
Qed.

Lemma debounce_coalesces_witness :
  forwarded burst_history = [1] ∧ NoDup (forwarded burst_history).
Proof.
  split; [reflexivity|]. exact (proj1 (debounce_coalesces _ _ burst_reachable)).
Defined.

Lemma debounce_forwards_latest_witness : S 1 = length (d_calls burst_expired).
Proof.
  apply (debounce_forwards_latest [LCall 0 5; LCall 1 7] burst_expired [LForward 1 1 7]
           (take_pending 1 burst_expired) 1 1 7 burst_expired_reachable).
  - left. eapply (step_take burst_expired 1); reflexivity.
  - apply list_elem_of_here.
Defined.

Lemma debounce_terminates_witness :
  measure burst_expired = 4 ∧
  ∀ n d', nsteps internal n burst_expired d' → n ≤ measure burst_expired.
Proof.
  split; [reflexivity|].
  exact (proj1 (debounce_terminates _ _ burst_expired_reachable)).
Defined.
