(* ===== verification/Listener.v ===== *)
(** * internal/listener: the registry of message listeners, and shutdown

    [Manager] maps a key to the listener registered under it; every listener
    runs in a goroutine of its own that unregisters the key when it ends.  The
    state holds the map and the listeners created so far, so the aliasing
    between the map and the goroutines is explicit.  The listener library is a
    parameter: [listener.New] may refuse a configuration, [Run] may return at
    any time. *)

From stdpp Require Export gmultiset.
From S2P Require Export PodBuild.

Record ListenerKey : Type := mkListenerKey {
  lk_AutoscaleSet : NamespacedName; lk_RunnerGroup : string }.

#[export] Instance ListenerKey_eq_dec : EqDecision ListenerKey.
Proof. solve_decision. Defined.

#[export] Instance ListenerKey_countable : Countable ListenerKey.
Proof.
  refine (inj_countable' (λ k, (lk_AutoscaleSet k, lk_RunnerGroup k))
            (λ p, mkListenerKey p.1 p.2) _).
  by intros [].
Defined.

(** The scaler a listener drives: what [NewDebouncedScaler] wraps, and its
    window. *)
Record ListenerScaler : Type := mkListenerScaler {
  lsc_inner : KubernetesScaler; lsc_window : Duration }.

(** [listener.New(client, Config{ScaleSetID, MaxRunners})] *)
Class ListenerLib := { listener_New : Z → Z → option error }.

(** The goroutine of a listener: in [Run], returned from it and about to
    unregister, or over. *)
Inductive run_state : Type := Running | Returned | Over.

#[export] Instance run_state_eq_dec : EqDecision run_state.
Proof. solve_decision. Defined.

(** A [RunnerGroupListener] with the goroutine that runs it; [l_stopped] is
    [stopCh] closed, once. *)
Record RunnerGroupListener : Type := mkListener {
  l_key : ListenerKey;
  l_scaleSetID : Z;
  l_maxRunners : Z;
  l_client : SessionClient;
  l_scaler : ListenerScaler;
  l_stopped : bool;
  l_run : run_state
}.

Record Manager : Type := mkManager {
  listeners : gmap ListenerKey nat;
  instances : list RunnerGroupListener
}.

Definition NewManager : Manager := mkManager ∅ [].

(** ** Operations *)
Section Operations.
Context `{MapRange, ListenerLib}.

(** [stopped.Do(func() { close(stopCh) })]: the second call does nothing. *)
Definition Stop (i : nat) (m : Manager) : Manager :=
  mkManager (listeners m)
    (alter (λ l, if l_stopped l then l
                 else mkListener (l_key l) (l_scaleSetID l) (l_maxRunners l) (l_client l) (l_scaler l) true (l_run l))
       i (instances m)).

Definition key_text (key : ListenerKey) : string :=
  "{AutoscaleSet:" +:+ nn_namespace (lk_AutoscaleSet key) +:+ "/" +:+
  nn_name (lk_AutoscaleSet key) +:+ " RunnerGroup:" +:+ lk_RunnerGroup key +:+ "}".

(** The session wrapper only forwards; [l_key] is what the goroutine that
    [StartListener] starts captures. *)
Definition NewRunnerGroupListener (key : ListenerKey) (client : SessionClient)
    (scaleSetID maxRunners : Z) (scaler : ListenerScaler) : result error RunnerGroupListener :=
  match listener_New scaleSetID maxRunners with
  | Some err => Err err
  | None => Ok (mkListener key scaleSetID maxRunners client scaler false Running)
  end.

Definition StartListener (key : ListenerKey) (sessionClient : SessionClient)
    (scaleSetID maxRunners : Z) (scaler : ListenerScaler) (m : Manager) : option error * Manager :=
  match listeners m !! key with
  | Some _ => (Some (errors_New ("listener already exists for " +:+ key_text key)), m)
  | None =>
    match NewRunnerGroupListener key sessionClient scaleSetID maxRunners scaler with
    | Err err => (Some (Errorf "failed to create listener: " err), m)
    | Ok runnerListener =>
      let i := length (instances m) in
      (None, mkManager (<[key := i]> (listeners m)) (instances m ++ [runnerListener]))
    end
  end.

Definition StopListener (key : ListenerKey) (m : Manager) : option error * Manager :=
  match listeners m !! key with
  | None => (Some (errors_New ("listener not found for " +:+ key_text key)), m)
  | Some i =>
    let m := Stop i m in
    (None, mkManager (delete key (listeners m)) (instances m))
  end.

Definition HasListener (key : ListenerKey) (m : Manager) : bool :=
  match listeners m !! key with Some _ => true | None => false end.

(** The critical section of [StopAll]: the map is emptied while ranged over. *)
Definition take_all (m : Manager) : list nat * Manager :=
  ((range (listeners m)).*2,
   mkManager (foldl (λ ls '(key, _), delete key ls) (listeners m) (range (listeners m)))
     (instances m)).

(** The end of a listener's goroutine: [delete(m.listeners, key)], by key. *)
Definition goroutine_exit (i : nat) (m : Manager) : Manager :=
  match instances m !! i with
  | Some l =>
    mkManager (delete (l_key l) (listeners m))
      (alter (λ l, mkListener (l_key l) (l_scaleSetID l) (l_maxRunners l) (l_client l) (l_scaler l) (l_stopped l) Over)
         i (instances m))
  | None => m
  end.

Definition run_returns (i : nat) (m : Manager) : Manager :=
  mkManager (listeners m)
    (alter (λ l, mkListener (l_key l) (l_scaleSetID l) (l_maxRunners l) (l_client l) (l_scaler l) (l_stopped l) Returned)
       i (instances m)).
End Operations.

(** A refused start changes nothing; an accepted one had a free key. *)
Lemma StartListener_cases `{ListenerLib} key cl id max sc m :
  let '(err, m') := StartListener key cl id max sc m in
  match err with Some _ => m' = m | None => HasListener key m = false end.
Proof.
  unfold StartListener, NewRunnerGroupListener, HasListener. destruct (listeners m !! key); [done|].
  by destruct (listener_New id max).
Qed.

Lemma StopListener_frees key m : HasListener key (StopListener key m).2 = false.
Proof.
  unfold StopListener, HasListener. destruct (listeners m !! key) eqn:Hk; simpl; [|by rewrite Hk].
  by rewrite lookup_delete_eq.
Qed.

(** A memory that holds a manager. *)
Class HasManager (S : Type) := {
  manager_of : S → Manager;
  with_manager : Manager → S → S;
  manager_of_with : ∀ m s, manager_of (with_manager m s) = m
}.

#[export] Instance HasManager_Manager : HasManager Manager :=
  {| manager_of := id; with_manager := λ m _, m; manager_of_with := λ _ _, eq_refl |}.

Section Shutdown.
Context {S : Type} `{HasManager S, MapRange}.

Fixpoint stop_loop (ids : list nat) : prog S unit :=
  match ids with
  | [] => Ret tt
  | i :: ids =>
    ctxDone ← call CtxDone;
    if ctxDone : bool then Ret tt
    else atomic (λ s, (tt, with_manager (Stop i (manager_of s)) s));; stop_loop ids
  end.

Definition StopAll : prog S unit :=
  ids ← atomic (λ s, let '(ids, m) := take_all (manager_of s) in (ids, with_manager m s));
  if bool_decide (length ids = 0) then Ret tt else stop_loop ids.

Definition ShutdownRunnable_Start : prog S (option error) :=
  call WaitDone;; StopAll;; Ret None.
End Shutdown.

(** ** The goroutines together *)
Section Machine.
Context `{MapRange, ListenerLib}.

Inductive mstep (m : Manager) : Manager → Prop :=
| m_start key cl id max sc : mstep m (StartListener key cl id max sc m).2
| m_stop key : mstep m (StopListener key m).2
| m_take_all : mstep m (take_all m).2
| m_stop_taken i : (∀ key, listeners m !! key ≠ Some i) → mstep m (Stop i m)
| m_return i l : instances m !! i = Some l → l_run l = Running → mstep m (run_returns i m)
| m_exit i l : instances m !! i = Some l → l_run l = Returned → mstep m (goroutine_exit i m).

(** A registered listener is one of the instances, under its own key, and has
    not been told to stop. *)
Definition registry_ok (m : Manager) : Prop :=
  ∀ key i, listeners m !! key = Some i →
    ∃ l, instances m !! i = Some l ∧ l_key l = key ∧ l_stopped l = false.

Lemma take_all_listeners m : listeners (take_all m).2 = ∅.
Proof.
  unfold take_all. simpl. apply map_eq. intros key. rewrite lookup_empty.
  assert (Hf : ∀ (l : list (ListenerKey * nat)) (m0 : gmap ListenerKey nat),
    foldl (λ ls '(key, _), delete key ls) m0 l !! key =
    if decide (key ∈ l.*1) then None else m0 !! key).
  { induction l as [|[k' i'] l IH]; intros m0; [done|]. simpl. rewrite IH.
    destruct (decide (key = k')) as [->|Hne].
    - rewrite lookup_delete_eq. repeat case_decide; set_solver.
    - rewrite lookup_delete_ne by done. repeat case_decide; set_solver. }
  rewrite Hf. case_decide as Hin; [done|]. destruct (listeners m !! key) as [i|] eqn:Hi; [|done].
  destruct Hin. apply list_elem_of_fmap. exists (key, i). split; [done|].
  rewrite range_perm. by apply elem_of_map_to_list.
Qed.

Lemma registry_ok_init : registry_ok NewManager.
Proof. intros key i. simpl. by rewrite lookup_empty. Qed.

Lemma registry_ok_step m m' : mstep m m' → registry_ok m → registry_ok m'.
Proof.
  intros [key cl id max sc|key| |i Hi|i l Hl Hr|i l Hl Hr] Hok key' i'.
  - unfold StartListener, NewRunnerGroupListener. destruct (listeners m !! key) eqn:Hk; [apply Hok|].
    destruct (listener_New id max); [apply Hok|]. simpl.
    rewrite lookup_insert. case_decide; [intros [= <-]|].
    + subst. eexists. split; [by apply list_lookup_middle|done].
    + intros (l & Hl & ? & ?)%Hok. exists l. split; [|done]. by apply lookup_app_l_Some.
  - unfold StopListener. destruct (listeners m !! key) as [i|] eqn:Hk; [|apply Hok]. simpl.
    intros [Hne Hk']%lookup_delete_Some. destruct (Hok _ _ Hk') as (l & Hl & <- & Hs).
    exists l. split; [|done]. rewrite list_lookup_alter_ne; [done|]. intros ->.
    destruct (Hok _ _ Hk) as (l0 & Hl0 & <- & _). simplify_eq.
  - by rewrite take_all_listeners, lookup_empty.
  - simpl. intros Hk. destruct (Hok _ _ Hk) as (l & Hl & ? & ?). exists l. split; [|done].
    rewrite list_lookup_alter_ne; [done|]. intros ->. by destruct (Hi key').
  - simpl. intros (l' & Hl' & Hk' & Hs')%Hok.
    destruct (decide (i = i')) as [<-|Hne].
    + rewrite list_lookup_alter_eq, Hl'. eexists. split; [done|]. done.
    + rewrite list_lookup_alter_ne by done. by exists l'.
  - unfold goroutine_exit. rewrite Hl. simpl. intros [Hne (l' & Hl' & Hk' & Hs')%Hok]%lookup_delete_Some.
    exists l'. split; [|done]. rewrite list_lookup_alter_ne; [done|]. intros ->. by simplify_eq.
Qed.
End Machine.

(** ** Properties *)
Section Properties.
Context `{MapRange, ListenerLib}.

(** In every interleaving of starts, stops, shutdowns and ending goroutines
    the registry only names existing listeners, each under its own key and not
    yet told to stop; a key names at most one listener and no listener has two
    keys. *)
Theorem registry_consistent m :
  rtc mstep NewManager m →
  registry_ok m ∧
  (∀ key key' i, listeners m !! key = Some i → listeners m !! key' = Some i → key = key').
Proof.
  intros Hs. assert (Hok : registry_ok m).
  { assert (Hgen : ∀ a b, rtc mstep a b → registry_ok a → registry_ok b).
    { induction 1 as [|a b c Hab _ IH]; [done|]. intros Ha. by eapply IH, registry_ok_step. }
    exact (Hgen _ _ Hs registry_ok_init). }
  split; [done|]. intros key key' i H1 H2.
  destruct (Hok _ _ H1) as (l & Hl & <- & _), (Hok _ _ H2) as (l' & Hl' & <- & _).
  by simplify_eq.
Qed.

(** [StartListener] succeeds exactly when the key is free and the library
    accepts the configuration; then the key, and no other, is registered with a
    new running listener; otherwise nothing changes. *)
Theorem StartListener_spec key cl id max sc m :
  let '(err, m') := StartListener key cl id max sc m in
  (err = None ↔ HasListener key m = false ∧ listener_New id max = None) ∧
  match err with
  | Some _ => m' = m
  | None => HasListener key m' = true ∧
      (∀ key', key' ≠ key → listeners m' !! key' = listeners m !! key') ∧
      instances m' = instances m ++ [mkListener key id max cl sc false Running]
  end.
Proof.
  unfold StartListener, NewRunnerGroupListener, HasListener. destruct (listeners m !! key) eqn:Hk; [naive_solver|].
  destruct (listener_New id max) eqn:Hn; [naive_solver|]. simpl. split; [done|].
  split; [by rewrite lookup_insert_eq|]. split; [|done]. intros. by rewrite lookup_insert_ne.
Qed.

(** [StopListener] succeeds exactly when the key is registered; then its
    listener has been told to stop, the key is free, a second stop reports it
    missing, and every other key and listener is as before. *)
Theorem StopListener_spec key m :
  registry_ok m →
  let '(err, m') := StopListener key m in
  match listeners m !! key with
  | None => err = Some (errors_New ("listener not found for " +:+ key_text key)) ∧ m' = m
  | Some i => err = None ∧ HasListener key m' = false ∧
      (StopListener key m').1 = Some (errors_New ("listener not found for " +:+ key_text key)) ∧
      l_stopped <$> instances m' !! i = Some true ∧
      (∀ key', key' ≠ key → listeners m' !! key' = listeners m !! key') ∧
      (∀ j, j ≠ i → instances m' !! j = instances m !! j)
  end.
Proof.
  intros Hok. unfold StopListener, HasListener.
  destruct (listeners m !! key) as [i|] eqn:Hk; [|done]. simpl. rewrite lookup_delete_eq.
  split; [done|]. split; [done|]. split; [done|]. split.
  - destruct (Hok _ _ Hk) as (l & Hl & _ & Hs). rewrite list_lookup_alter_eq, Hl. simpl.
    by rewrite Hs.
  - split; [intros; by rewrite lookup_delete_ne|]. intros j Hj. by rewrite list_lookup_alter_ne.
Qed.

(** A start under a free key. *)
Lemma StartListener_fresh key cl id max sc m :
  listeners m !! key = None → listener_New id max = None →
  StartListener key cl id max sc m =
    (None, mkManager (<[key := length (instances m)]> (listeners m))
             (instances m ++ [mkListener key id max cl sc false Running])).
Proof. intros Hk Hn. unfold StartListener, NewRunnerGroupListener. by rewrite Hk, Hn. Qed.

(** The end of a goroutine: its key goes, the other listeners stay. *)
Lemma goroutine_over i m l :
  instances m !! i = Some l →
  let m' := goroutine_exit i (run_returns i m) in
  listeners m' = delete (l_key l) (listeners m) ∧ length (instances m') = length (instances m) ∧
  ∀ j, j ≠ i → instances m' !! j = instances m !! j.
Proof.
  intros Hi. cbn zeta. unfold goroutine_exit.
  assert (Hr : instances (run_returns i m) !! i =
    Some (mkListener (l_key l) (l_scaleSetID l) (l_maxRunners l) (l_client l) (l_scaler l) (l_stopped l) Returned))
    by (unfold run_returns; cbn [instances]; by rewrite list_lookup_alter_eq, Hi).
  rewrite Hr. cbn [listeners instances]. split; [done|]. unfold run_returns. cbn [instances].
  split; [by rewrite !length_alter|]. intros j Hj. by rewrite !list_lookup_alter_ne.
Qed.

(** C33. A listener that was stopped and replaced under the same key, as a
    change of the scale set does, takes its successor out of the registry when
    its goroutine ends: the new listener runs on, unstopped and unregistered,
    and the next start for the key succeeds and runs a second one beside it. *)
Theorem stale_exit_unregisters key cl id max sc cl' id' max' sc' m i l :
  registry_ok m → listeners m !! key = Some i → instances m !! i = Some l → l_run l = Running →
  listener_New id max = None → listener_New id' max' = None →
  let j := length (instances m) in
  let m1 := (StopListener key m).2 in
  let m2 := (StartListener key cl id max sc m1).2 in
  let m3 := goroutine_exit i (run_returns i m2) in
  rtc mstep m m3 ∧ HasListener key m2 = true ∧ HasListener key m3 = false ∧
  instances m3 !! j = Some (mkListener key id max cl sc false Running) ∧
  (StartListener key cl' id' max' sc' m3).1 = None ∧
  instances (StartListener key cl' id' max' sc' m3).2 !! j = Some (mkListener key id max cl sc false Running) ∧
  instances (StartListener key cl' id' max' sc' m3).2 !! S j = Some (mkListener key id' max' cl' sc' false Running).
Proof.
  intros Hok Hk Hl Hr Hn Hn'. cbn zeta.
  set (j := length (instances m)). set (m1 := (StopListener key m).2).
  destruct (Hok _ _ Hk) as (l0 & Hl0 & Hkey & Hs). simplify_eq.
  assert (Hi : i < j) by (by eapply lookup_lt_Some).
  assert (Hm1 : m1 = mkManager (delete (l_key l) (listeners m)) (instances (Stop i m)))
    by (unfold m1, StopListener; by rewrite Hk).
  assert (Hlen1 : length (instances m1) = j) by (rewrite Hm1; apply length_alter).
  set (l1 := mkListener (l_key l) (l_scaleSetID l) (l_maxRunners l) (l_client l) (l_scaler l) true Running).
  assert (Hi1 : instances m1 !! i = Some l1).
  { rewrite Hm1. cbn [instances Stop]. rewrite list_lookup_alter_eq, Hl. simpl. rewrite Hs.
    unfold l1. by rewrite Hr. }
  pose proof (StartListener_fresh (l_key l) cl id max sc m1 ltac:(rewrite Hm1; apply lookup_delete_eq) Hn) as Hst.
  rewrite Hlen1 in Hst. rewrite Hst. cbn [snd]. set (m2 := mkManager (<[l_key l := j]> (listeners m1)) _) in *.
  assert (Hi2 : instances m2 !! i = Some l1) by (by apply lookup_app_l_Some).
  destruct (goroutine_over i m2 l1 Hi2) as (Hm3 & Hlen3 & Hin3).
  assert (Hj3 : instances (goroutine_exit i (run_returns i m2)) !! j =
                Some (mkListener (l_key l) id max cl sc false Running)).
  { rewrite Hin3 by lia. by apply list_lookup_middle. }
  rewrite (StartListener_fresh (l_key l) cl' id' max' sc') by (done || (rewrite Hm3; apply lookup_delete_eq)).
  assert (Hlen : length (instances (goroutine_exit i (run_returns i m2))) = S j)
    by (rewrite Hlen3; unfold m2; cbn [instances]; rewrite length_app, Hlen1; simpl; lia).
  cbn [fst snd instances]. split.
  { eapply rtc_l; [apply (m_stop m (l_key l))|]. fold m1.
    eapply rtc_l; [apply (m_start m1 (l_key l) cl id max sc)|]. rewrite Hst. cbn [snd].
    eapply rtc_l; [by eapply (m_return m2 i)|]. apply rtc_once. eapply m_exit; [|].
    - unfold run_returns. cbn [instances]. by rewrite list_lookup_alter_eq, Hi2.
    - done. }
  split; [unfold HasListener; simpl; by rewrite lookup_insert_eq|].
  split; [unfold HasListener; by rewrite Hm3, lookup_delete_eq|].
  split; [done|]. split; [done|]. split; [by apply lookup_app_l_Some|]. by apply list_lookup_middle.
Qed.

(** ** When the registry can be trusted *)

(** Steps that start a free key only when all its former goroutines are over,
    and do not shut the manager down. *)
Inductive careful_step (m : Manager) : Manager → Prop :=
| c_start key cl id max sc :
    (listeners m !! key = None → ∀ i l, instances m !! i = Some l → l_key l = key → l_run l = Over) →
    careful_step m (StartListener key cl id max sc m).2
| c_stop key : careful_step m (StopListener key m).2
| c_stop_taken i : (∀ key, listeners m !! key ≠ Some i) → careful_step m (Stop i m)
| c_return i l : instances m !! i = Some l → l_run l = Running → careful_step m (run_returns i m)
| c_exit i l : instances m !! i = Some l → l_run l = Returned → careful_step m (goroutine_exit i m).

(** Every running listener that was not told to stop is registered, and the
    listeners of a key never overlap. *)
Record tracked (m : Manager) : Prop := {
  tr_registered : ∀ i l, instances m !! i = Some l → l_run l ≠ Over → l_stopped l = false →
    listeners m !! l_key l = Some i;
  tr_single : ∀ i j l l', instances m !! i = Some l → instances m !! j = Some l' →
    l_key l = l_key l' → l_run l ≠ Over → l_run l' ≠ Over → i = j;
  tr_alive : ∀ key i, listeners m !! key = Some i →
    ∃ l, instances m !! i = Some l ∧ l_key l = key ∧ l_run l ≠ Over
}.

Lemma alter_inv {A} (f : A → A) i (l : list A) j x :
  alter f i l !! j = Some x →
  ∃ y, l !! j = Some y ∧ x = (if decide (i = j) then f y else y).
Proof.
  rewrite list_lookup_alter. case_decide; [subst|eauto].
  destruct (l !! j); simpl; naive_solver.
Qed.

Lemma tracked_init : tracked NewManager.
Proof. split; simpl; by intros *; rewrite ?lookup_nil, ?lookup_empty. Qed.

Lemma tracked_start key cl id max sc m :
  (listeners m !! key = None → ∀ i l, instances m !! i = Some l → l_key l = key → l_run l = Over) →
  tracked m → tracked (StartListener key cl id max sc m).2.
Proof.
  intros Hover [Hr Hs Ha]. unfold StartListener, NewRunnerGroupListener.
  destruct (listeners m !! key) eqn:Hk; [done|]. specialize (Hover eq_refl).
  destruct (listener_New id max); [done|]. simpl.
  assert (Happ : ∀ j x, (instances m ++ [mkListener key id max cl sc false Running]) !! j = Some x →
    instances m !! j = Some x ∨ (j = length (instances m) ∧ x = mkListener key id max cl sc false Running)).
  { intros j x [?|[? [Hj <-]%list_lookup_singleton_Some]]%lookup_app_Some; [by left|right].
    split; [lia|done]. }
  split; simpl.
  - intros j x [Hj|[-> ->]]%Happ Hrun Hst; [|by rewrite lookup_insert_eq].
    rewrite lookup_insert_ne; [by apply Hr|]. intros Heq. destruct Hrun. by apply (Hover _ _ Hj).
  - intros j j' x x' [Hj|[-> ->]]%Happ [Hj'|[-> ->]]%Happ Heq Hx Hx'; simpl in *; [| | |done].
    + by eapply Hs.
    + destruct Hx. by eapply Hover.
    + destruct Hx'. by eapply Hover.
  - intros key' j [[-> <-]|[Hne Hj]]%lookup_insert_Some.
    + eexists. split; [by apply list_lookup_middle|done].
    + destruct (Ha _ _ Hj) as (x & Hx & ? & ?). exists x. split; [by apply lookup_app_l_Some|done].
Qed.

Lemma tracked_step m m' : careful_step m m' → tracked m → tracked m'.
Proof.
  intros [key cl id max sc Hover|key|i Hi|i l Hl Hrun|i l Hl Hrun] Ht; [by apply tracked_start|..];
    destruct Ht as [Hr Hs Ha].
  - unfold StopListener. destruct (listeners m !! key) as [i|] eqn:Hk; [|done].
    split; simpl.
    + intros j x (y & Hy & ->)%alter_inv Hrun Hst.
      destruct (decide (i = j)) as [<-|Hne]; [by destruct (l_stopped y) eqn:?; simpl in Hst; congruence|].
      pose proof (Hr _ _ Hy Hrun Hst) as Hj. rewrite lookup_delete_ne; [done|]. congruence.
    + intros j j' x x' (y & Hy & ->)%alter_inv (y' & Hy' & ->)%alter_inv Heq Hx Hx'.
      eapply (Hs j j' y y'); [done|done|..];
        repeat (case_decide; try destruct (l_stopped _)); done.
    + intros key' j [Hne Hj]%lookup_delete_Some. destruct (Ha _ _ Hj) as (x & Hx & <- & Hov).
      rewrite list_lookup_alter. case_decide; subst; rewrite Hx; simpl; eexists; (split; [done|]); [|done].
      by destruct (l_stopped x).
  - split; simpl.
    + intros j x (y & Hy & ->)%alter_inv Hx Hst. case_decide; [|by apply Hr].
      destruct (l_stopped y) eqn:Hy'; simpl in Hst; congruence.
    + intros j j' x x' (y & Hy & ->)%alter_inv (y' & Hy' & ->)%alter_inv Heq Hx Hx'.
      eapply (Hs j j' y y'); [done|done|..];
        repeat (case_decide; try destruct (l_stopped _)); done.
    + intros key j Hj. destruct (Ha _ _ Hj) as (x & Hx & <- & Hov). exists x.
      rewrite list_lookup_alter_ne; [done|]. intros ->. by destruct (Hi (l_key x)).
  - split; simpl.
    + intros j x (y & Hy & ->)%alter_inv Hx Hst. case_decide; [|by apply Hr]. subst. simpl in *.
      simplify_eq. apply Hr; [done|by rewrite Hrun|done].
    + intros j j' x x' (y & Hy & ->)%alter_inv (y' & Hy' & ->)%alter_inv Heq Hx Hx'.
      eapply (Hs j j' y y'); [done|done|..]; repeat case_decide; subst; simplify_eq; try done;
        by rewrite Hrun.
    + intros key j Hj. destruct (Ha _ _ Hj) as (x & Hx & <- & Hov).
      rewrite list_lookup_alter. case_decide; subst; rewrite Hx; simpl; eexists; done.
  - unfold goroutine_exit. rewrite Hl. split; simpl.
    + intros j x (y & Hy & ->)%alter_inv Hx Hst. case_decide; [done|].
      pose proof (Hr _ _ Hy Hx Hst) as Hj. rewrite lookup_delete_ne; [done|]. intros Heq.
      assert (i = j); [|done]. eapply (Hs i j l y); [done..|by rewrite Hrun|done].
    + intros j j' x x' (y & Hy & ->)%alter_inv (y' & Hy' & ->)%alter_inv Heq Hx Hx'.
      eapply (Hs j j' y y'); [done|done|..]; repeat case_decide; done.
    + intros key j [Hne Hj]%lookup_delete_Some. destruct (Ha _ _ Hj) as (x & Hx & <- & Hov).
      exists x. rewrite list_lookup_alter_ne; [done|]. intros ->. by simplify_eq.
Qed.

(** As long as a free key is started again only after all its former
    goroutines are over, the registry is exact: every running listener that was not told
    to stop is registered under its key, and no two listeners of a key are ever
    alive together. *)
Theorem careful_registry_exact m :
  rtc careful_step NewManager m →
  (∀ i l, instances m !! i = Some l → l_run l = Running → l_stopped l = false →
     listeners m !! l_key l = Some i) ∧
  (∀ i j l l', instances m !! i = Some l → instances m !! j = Some l' →
     l_key l = l_key l' → l_run l ≠ Over → l_run l' ≠ Over → i = j).
Proof.
  intros Hs. assert (Ht : tracked m).
  { assert (Hgen : ∀ a b, rtc careful_step a b → tracked a → tracked b).
    { induction 1 as [|a b c Hab _ IH]; [done|]. intros Ha. by eapply IH, tracked_step. }
    apply (Hgen _ _ Hs), tracked_init. }
  destruct Ht as [Hr Hsingle _]. split; [|done]. intros i l Hi Hrun. apply Hr; [done|by rewrite Hrun].
Qed.
End Properties.

(** ** What the manager promises

    To its clients the manager is a map from keys to the listeners that serve
    them, and a multiset of the goroutines that are not over, by their keys.
    Starting a key that is served fails, stopping one that is not fails, and the
    end of any goroutine of a key ends the service of the key, be it the
    goroutine's own or a successor's. *)
Record served : Type := mkServed {
  sv_scaleSetID : Z; sv_maxRunners : Z; sv_client : SessionClient; sv_scaler : ListenerScaler }.

Record board : Type := mkBoard { b_served : gmap ListenerKey served; b_alive : gmultiset ListenerKey }.

Inductive op : Type :=
| OStart (key : ListenerKey) (v : served) (err : option error)
| OStop (key : ListenerKey) (err : option error)
| OStopAll
| OEnd (key : ListenerKey)
| OSilent.

Section Refinement.
Context `{MapRange, ListenerLib}.

Inductive spec_step : board → op → board → Prop :=
| sp_start A G key v :
    A !! key = None → listener_New (sv_scaleSetID v) (sv_maxRunners v) = None →
    spec_step (mkBoard A G) (OStart key v None) (mkBoard (<[key := v]> A) ({[+ key +]} ⊎ G))
| sp_start_served A G key v :
    is_Some (A !! key) →
    spec_step (mkBoard A G) (OStart key v (Some (errors_New ("listener already exists for " +:+ key_text key))))
      (mkBoard A G)
| sp_start_refused A G key v e :
    A !! key = None → listener_New (sv_scaleSetID v) (sv_maxRunners v) = Some e →
    spec_step (mkBoard A G) (OStart key v (Some (Errorf "failed to create listener: " e))) (mkBoard A G)
| sp_stop A G key :
    is_Some (A !! key) → spec_step (mkBoard A G) (OStop key None) (mkBoard (delete key A) G)
| sp_stop_missing A G key :
    A !! key = None →
    spec_step (mkBoard A G) (OStop key (Some (errors_New ("listener not found for " +:+ key_text key))))
      (mkBoard A G)
| sp_stop_all A G : spec_step (mkBoard A G) OStopAll (mkBoard ∅ G)
| sp_end A G key :
    spec_step (mkBoard A ({[+ key +]} ⊎ G)) (OEnd key) (mkBoard (delete key A) G)
| sp_silent B : spec_step B OSilent B.

Inductive spec_run (A : board) : list op → board → Prop :=
| spec_nil : spec_run A [] A
| spec_snoc ls B l C : spec_run A ls B → spec_step B l C → spec_run A (ls ++ [l]) C.

(** The steps of the manager with what their callers see of them. *)
Inductive manager_op (m : Manager) : op → Manager → Prop :=
| o_start key cl id max sc :
    manager_op m (OStart key (mkServed id max cl sc) (StartListener key cl id max sc m).1)
      (StartListener key cl id max sc m).2
| o_stop key : manager_op m (OStop key (StopListener key m).1) (StopListener key m).2
| o_take_all : manager_op m OStopAll (take_all m).2
| o_stop_taken i : (∀ key, listeners m !! key ≠ Some i) → manager_op m OSilent (Stop i m)
| o_return i l : instances m !! i = Some l → l_run l = Running → manager_op m OSilent (run_returns i m)
| o_exit i l : instances m !! i = Some l → l_run l = Returned →
    manager_op m (OEnd (l_key l)) (goroutine_exit i m).

(** A free key is started only when its former goroutines are over, and the
    manager is not shut down. *)
Definition careful (m : Manager) (l : op) : Prop :=
  match l with
  | OStart key _ _ => listeners m !! key = None →
      ∀ i l, instances m !! i = Some l → l_key l = key → l_run l = Over
  | OStopAll => False
  | _ => True
  end.

(** The histories of a manager whose steps satisfy [P]. *)
Inductive history (P : Manager → op → Prop) : list op → Manager → Prop :=
| history_nil : history P [] NewManager
| history_snoc ls m l m' :
    history P ls m → manager_op m l m' → P m l → history P (ls ++ [l]) m'.

Definition served_of (l : RunnerGroupListener) : served :=
  mkServed (l_scaleSetID l) (l_maxRunners l) (l_client l) (l_scaler l).

(** The map a manager stands for. *)
Definition serving (m : Manager) : gmap ListenerKey served :=
  omap (λ i, served_of <$> instances m !! i) (listeners m).

Definition alive_of : list RunnerGroupListener → gmultiset ListenerKey :=
  foldr (λ l G, if decide (l_run l = Over) then G else {[+ l_key l +]} ⊎ G) ∅.

(** What a manager stands for. *)
Definition board_of (m : Manager) : board := mkBoard (serving m) (alive_of (instances m)).

Lemma manager_op_mstep m l m' : manager_op m l m' → mstep m m'.
Proof.
  intros []; [apply m_start|apply m_stop|apply m_take_all|by apply m_stop_taken|by eapply m_return|by eapply m_exit].
Qed.

Lemma careful_op_step m l m' : manager_op m l m' → careful m l → careful_step m m'.
Proof.
  intros [] Hc; [by apply c_start|apply c_stop|done|by apply c_stop_taken|by eapply c_return|by eapply c_exit].
Qed.

(** A registered listener is not over: the end of its goroutine takes its key. *)
Definition registered_alive (m : Manager) : Prop :=
  ∀ key i, listeners m !! key = Some i → ∃ l, instances m !! i = Some l ∧ l_run l ≠ Over.

Lemma registered_alive_step m m' :
  mstep m m' → registry_ok m → registered_alive m → registered_alive m'.
Proof.
  intros [key cl id max sc|key| |i Hi|i l Hl Hr|i l Hl Hr] Hok Ha key' i'.
  - unfold StartListener, NewRunnerGroupListener. destruct (listeners m !! key) eqn:Hk; [apply Ha|].
    destruct (listener_New id max); [apply Ha|]. simpl. rewrite lookup_insert. case_decide; [intros [= <-]|].
    + eexists. split; [by apply list_lookup_middle|done].
    + intros (l & Hl & ?)%Ha. exists l. split; [|done]. by apply lookup_app_l_Some.
  - unfold StopListener. destruct (listeners m !! key) as [i|] eqn:Hk; [|apply Ha]. simpl.
    intros [_ (l & Hl & ?)%Ha]%lookup_delete_Some. rewrite list_lookup_alter.
    case_decide; subst; rewrite Hl; eexists; (split; [done|]); [|done]. by destruct (l_stopped l).
  - by rewrite take_all_listeners, lookup_empty.
  - simpl. intros (l & Hl & ?)%Ha. rewrite list_lookup_alter.
    case_decide; subst; rewrite Hl; eexists; (split; [done|]); [|done]. by destruct (l_stopped l).
  - simpl. intros (l' & Hl' & ?)%Ha. rewrite list_lookup_alter.
    case_decide; subst; rewrite Hl'; eexists; (split; [done|]); done.
  - unfold goroutine_exit. rewrite Hl. simpl. intros [Hne Hk]%lookup_delete_Some.
    destruct (Ha _ _ Hk) as (l' & Hl' & ?), (Hok _ _ Hk) as (l2 & Hl2 & <- & _).
    exists l'. rewrite list_lookup_alter_ne; [done|]. intros ->. by simplify_eq.
Qed.

Lemma history_inv P ls m : history P ls m → registry_ok m ∧ registered_alive m.
Proof.
  induction 1 as [|ls m l m' _ [Hok Ha] Hop%manager_op_mstep _].
  - split; [apply registry_ok_init|]. intros key i. simpl. by rewrite lookup_empty.
  - split; [by eapply registry_ok_step|by eapply registered_alive_step].
Qed.

Lemma careful_history_tracked ls m : history careful ls m → tracked m.
Proof.
  induction 1 as [|ls m l m' _ Ht Hop Hc]; [apply tracked_init|].
  by eapply tracked_step; [eapply careful_op_step|].
Qed.

(** *** The goroutines *)

Lemma alive_snoc ls l :
  l_run l ≠ Over → alive_of (ls ++ [l]) = {[+ l_key l +]} ⊎ alive_of ls.
Proof.
  intros Hl. unfold alive_of. induction ls as [|x ls IH]; simpl.
  - by rewrite decide_False.
  - rewrite IH. case_decide; multiset_solver.
Qed.

Lemma alive_alter f i ls :
  (∀ l, ls !! i = Some l → l_key (f l) = l_key l ∧ (l_run (f l) = Over ↔ l_run l = Over)) →
  alive_of (alter f i ls) = alive_of ls.
Proof.
  unfold alive_of. revert i. induction ls as [|x ls IH]; intros [|i] Hf; simpl; [done..| |].
  - destruct (Hf x eq_refl) as [-> Hx]. do 2 case_decide; naive_solver.
  - pose proof (IH i Hf) as E. unfold alter in E. by rewrite E.
Qed.

Lemma alive_over f i ls l :
  ls !! i = Some l → l_run l ≠ Over → l_run (f l) = Over →
  alive_of ls = {[+ l_key l +]} ⊎ alive_of (alter f i ls).
Proof.
  unfold alive_of. revert i. induction ls as [|x ls IH]; intros [|i] Hi Hl Hf; simpl in *; try done.
  - injection Hi as ->. by rewrite decide_False, decide_True.
  - pose proof (IH i Hi Hl Hf) as E. unfold alter in E. rewrite E. case_decide; multiset_solver.
Qed.

(** *** The map *)

Lemma serving_lookup m key :
  serving m !! key = listeners m !! key ≫= λ i, served_of <$> instances m !! i.
Proof. apply lookup_omap. Qed.

Lemma serving_None m key :
  registry_ok m → serving m !! key = None ↔ listeners m !! key = None.
Proof.
  intros Hok. rewrite serving_lookup. destruct (listeners m !! key) as [i|] eqn:Hk; [|done].
  destruct (Hok _ _ Hk) as (l & Hl & _). simpl. by rewrite Hl.
Qed.

Lemma serving_is_Some m key :
  registry_ok m → is_Some (listeners m !! key) → is_Some (serving m !! key).
Proof.
  intros Hok [i Hi]. rewrite <- not_eq_None_Some, serving_None by done. by rewrite Hi.
Qed.

(** Changing a listener without touching its configuration. *)
Lemma served_alter f i (insts : list RunnerGroupListener) j :
  (∀ l, served_of (f l) = served_of l) →
  served_of <$> alter f i insts !! j = served_of <$> insts !! j.
Proof.
  intros Hf. rewrite list_lookup_alter. case_decide; [subst|done].
  destruct (insts !! j); simpl; by rewrite ?Hf.
Qed.

Lemma serving_alter ls f i insts key :
  (∀ l, served_of (f l) = served_of l) →
  serving (mkManager ls (alter f i insts)) !! key = serving (mkManager ls insts) !! key.
Proof.
  intros Hf. rewrite !serving_lookup. cbn [listeners instances].
  destruct (ls !! key); [|done]. simpl. by apply served_alter.
Qed.

Lemma serving_delete key insts ls :
  serving (mkManager (delete key ls) insts) = delete key (serving (mkManager ls insts)).
Proof.
  apply map_eq. intros k. rewrite serving_lookup. cbn [listeners instances].
  destruct (decide (k = key)) as [->|Hne]; [by rewrite !lookup_delete_eq|].
  by rewrite !lookup_delete_ne, serving_lookup.
Qed.

Lemma board_start key cl id max sc m :
  registry_ok m →
  spec_step (board_of m) (OStart key (mkServed id max cl sc) (StartListener key cl id max sc m).1)
    (board_of (StartListener key cl id max sc m).2).
Proof.
  intros Hok. unfold StartListener, NewRunnerGroupListener. destruct (listeners m !! key) as [i|] eqn:Hk.
  { apply sp_start_served, serving_is_Some; [done|]. by exists i. }
  apply (serving_None m key Hok) in Hk as Hs. destruct (listener_New id max) as [e|] eqn:Hn.
  { by apply sp_start_refused. }
  cbn [fst snd]. unfold board_of. cbn [instances]. rewrite alive_snoc by done.
  match goal with |- spec_step _ _ (mkBoard ?B _) => assert (B = <[key := mkServed id max cl sc]> (serving m)) as -> end.
  - apply map_eq. intros k. rewrite serving_lookup. cbn [listeners instances].
    destruct (decide (k = key)) as [->|Hne].
    + rewrite !lookup_insert_eq. simpl. by rewrite list_lookup_middle.
    + rewrite !lookup_insert_ne, serving_lookup by done.
      destruct (listeners m !! k) as [i|] eqn:Hi; [|done]. simpl.
      destruct (Hok _ _ Hi) as (l & Hl & _). by rewrite (lookup_app_l_Some _ _ _ _ Hl), Hl.
  - by apply sp_start.
Qed.

(** Stopping a listener changes neither its configuration nor its goroutine. *)
Lemma board_Stop i m : board_of (Stop i m) = board_of m.
Proof.
  unfold board_of, Stop. f_equal.
  - apply map_eq. intros k. rewrite serving_alter; [by destruct m|]. intros l. by destruct (l_stopped l).
  - apply alive_alter. intros l _. by destruct (l_stopped l).
Qed.

Lemma board_stop key m :
  registry_ok m → spec_step (board_of m) (OStop key (StopListener key m).1) (board_of (StopListener key m).2).
Proof.
  intros Hok. unfold StopListener. destruct (listeners m !! key) as [i|] eqn:Hk; cbn [fst snd].
  - change (spec_step (board_of m) (OStop key None)
      (mkBoard (serving (mkManager (delete key (listeners (Stop i m))) (instances (Stop i m))))
         (alive_of (instances (Stop i m))))).
    rewrite serving_delete.
    change (mkManager (listeners (Stop i m)) (instances (Stop i m))) with (Stop i m).
    change (serving (Stop i m)) with (b_served (board_of (Stop i m))).
    change (alive_of (instances (Stop i m))) with (b_alive (board_of (Stop i m))).
    rewrite board_Stop. cbn [b_served b_alive board_of].
    apply sp_stop, serving_is_Some; [done|]. by exists i.
  - by apply sp_stop_missing, serving_None.
Qed.

Lemma board_take_all m : board_of (take_all m).2 = mkBoard ∅ (alive_of (instances m)).
Proof.
  unfold board_of. f_equal. apply map_eq. intros k. by rewrite serving_lookup, take_all_listeners, !lookup_empty.
Qed.

Lemma board_exit m i l :
  instances m !! i = Some l → l_run l = Returned →
  spec_step (board_of m) (OEnd (l_key l)) (board_of (goroutine_exit i m)).
Proof.
  intros Hl Hrun. unfold goroutine_exit, board_of. rewrite Hl. cbn [instances].
  erewrite (alive_over _ i (instances m) l); [|done|by rewrite Hrun|].
  - match goal with |- spec_step _ _ (mkBoard ?B _) => assert (B = delete (l_key l) (serving m)) as -> end.
    { apply map_eq. intros k. rewrite serving_alter by done. rewrite serving_delete. by destruct m. }
    apply sp_end.
  - done.
Qed.

(** C32. The manager refines its specification.  In every history of starts,
    stops, shutdowns, returns and exits, in any interleaving, its callers see
    what the abstract board would have shown them, errors included, and what
    the board shows is there: a key that is served is served by a listener with
    that configuration whose goroutine is not over and that was not told to
    stop.  The converse, that every such listener is on the board, holds of the
    histories in which a free key is started again only after its former
    goroutines are over and nothing is shut down.  The reconciler's own rollout
    is not one of these: it starts the key at once after stopping it, and the
    successor can fall off the board ([stale_exit_unregisters]). *)
Theorem manager_refines ls m :
  history (λ _ _, True) ls m →
  spec_run (mkBoard ∅ ∅) ls (board_of m) ∧
  (∀ key, HasListener key m = true ↔ is_Some (b_served (board_of m) !! key)) ∧
  (∀ key v, b_served (board_of m) !! key = Some v →
     ∃ i l, instances m !! i = Some l ∧ l_key l = key ∧ l_run l ≠ Over ∧ l_stopped l = false ∧
            served_of l = v) ∧
  (history careful ls m →
   ∀ i l, instances m !! i = Some l → l_run l ≠ Over → l_stopped l = false →
     b_served (board_of m) !! l_key l = Some (served_of l)).
Proof.
  intros Hrun. split; [|destruct (history_inv _ _ _ Hrun) as [Hok Ha]; split; [|split]].
  - induction Hrun as [|ls m l m' Hrun IH Hop _].
    { apply spec_nil. }
    econstructor; [exact IH|]. destruct (history_inv _ _ _ Hrun) as [Hok _].
    destruct Hop; [by apply board_start|by apply board_stop|rewrite board_take_all; apply sp_stop_all| | |by apply board_exit].
    + rewrite board_Stop. apply sp_silent.
    + assert (Hb : board_of (run_returns i m) = board_of m); [|rewrite Hb; apply sp_silent].
      unfold board_of, run_returns. f_equal.
      * apply map_eq. intros k. rewrite serving_alter by done. by destruct m.
      * apply alive_alter. intros l' Hl'. split; [done|]. assert (l' = l) as -> by congruence. simpl. by rewrite H2.
  - intros key. unfold HasListener. simpl. rewrite <- not_eq_None_Some, serving_None by done.
    by destruct (listeners m !! key).
  - intros key v. simpl. rewrite serving_lookup. intros (i & Hi & (l & Hv & Hl)%fmap_Some_1)%bind_Some.
    exists i, l. destruct (Ha _ _ Hi) as (l' & Hl' & ?), (Hok _ _ Hi) as (l2 & Hl2 & ? & ?). by simplify_eq.
  - intros Hc i l Hl Hov Hst. simpl. rewrite serving_lookup.
    rewrite (tr_registered _ (careful_history_tracked _ _ Hc) _ _ Hl Hov Hst). simpl. by rewrite Hl.
Qed.
End Refinement.

(** ** Shutdown *)
Section ShutdownProperties.
Context `{MapRange}.

(** Every reading of the context in [tr] says [b]. *)
Definition ctx_always {S} (b : bool) (tr : list (event S)) : Prop :=
  ∀ r, Ev CtxDone r ∈ tr → r = b.

Definition stopped_at (i : nat) (m : Manager) : Prop :=
  l_stopped <$> instances m !! i = Some true.

Lemma Stop_stopped i m : is_Some (instances m !! i) → stopped_at i (Stop i m).
Proof.
  intros [l Hl]. unfold stopped_at, Stop. cbn [instances]. rewrite list_lookup_alter_eq, Hl. simpl.
  by destruct (l_stopped l) eqn:?; simpl; congruence.
Qed.

Lemma Stop_keeps i j m : stopped_at j m → stopped_at j (Stop i m).
Proof.
  unfold stopped_at, Stop. cbn [instances]. rewrite list_lookup_alter. case_decide; [subst|done].
  destruct (instances m !! j) as [l|]; [|done]. simpl. intros [= Hl]. by rewrite Hl, Hl.
Qed.

Lemma exec_stop_loop_live ids (m : Manager) tr o m' :
  exec eq (stop_loop ids) m tr o m' → ctx_always false tr →
  Forall (λ i, is_Some (instances m !! i)) ids →
  o = Done tt ∧ listeners m' = listeners m ∧ Forall (λ i, stopped_at i m') ids ∧
  (∀ j, stopped_at j m → stopped_at j m').
Proof.
  revert m tr. induction ids as [|i ids IH]; intros m tr Hx Hctx Hids.
  - by destruct Hx as (-> & -> & ->).
  - destruct Hx as (d & tr' & -> & Hx). assert (d = false) as -> by (apply Hctx; left).
    destruct Hx as (? & <- & Hx). apply Forall_cons in Hids as [Hi Hids].
    apply IH in Hx as (-> & Hls & Hst & Hk).
    + simpl in Hls. split; [done|]. split; [done|]. split.
      * constructor; [|done]. apply Hk, Stop_stopped, Hi.
      * intros j Hj. by apply Hk, Stop_keeps.
    + intros r Hr. apply Hctx. by right.
    + eapply Forall_impl; [exact Hids|]. intros j [l Hl]. simpl.
      rewrite list_lookup_alter. case_decide; subst; rewrite Hl; by eexists.
Qed.

(** Under a context that stays alive, [StopAll] tells every registered
    listener to stop and leaves the registry empty. *)
Theorem StopAll_live (m : Manager) tr o m' :
  registry_ok m → exec_seq StopAll m tr o m' → ctx_always false tr →
  o = Done tt ∧ listeners m' = ∅ ∧
  (∀ key i, listeners m !! key = Some i → stopped_at i m').
Proof.
  intros Hok (? & <- & Hx) Hctx. cbn [take_all manager_of with_manager HasManager_Manager id fst snd] in Hx.
  pose proof (take_all_listeners m) as Hempty. unfold take_all in Hempty. cbn [snd listeners] in Hempty.
  assert (Hin : ∀ key i, listeners m !! key = Some i → i ∈ (range (listeners m)).*2).
  { intros key i Hi. apply list_elem_of_fmap. exists (key, i). split; [done|].
    rewrite range_perm. by apply elem_of_map_to_list. }
  assert (Hids : Forall (λ i, is_Some (instances m !! i)) (range (listeners m)).*2).
  { apply Forall_fmap, Forall_forall. intros [key i] Hi. rewrite range_perm in Hi.
    apply elem_of_map_to_list in Hi. destruct (Hok _ _ Hi) as (l & Hl & _). by exists l. }
  exec_norm Hx. case_bool_decide as Hlen.
  - destruct Hx as (-> & -> & ->). split; [done|]. split; [done|].
    intros key i Hi%Hin. apply nil_length_inv in Hlen. rewrite Hlen in Hi. set_solver.
  - apply exec_stop_loop_live in Hx as (-> & Hls & Hst & _); [|done|done].
    split; [done|]. split; [by rewrite Hls|]. intros key i Hi%Hin.
    rewrite Forall_forall in Hst. by apply Hst.
Qed.

(** C36. [ShutdownRunnable] calls [StopAll] with the context whose end it has
    just waited for: since a context that is done stays done, it empties the
    registry and tells no listener to stop. *)
Theorem ShutdownRunnable_stops_nothing (m : Manager) tr o m' :
  exec_seq ShutdownRunnable_Start m tr o m' → ctx_always true tr →
  o = Done None ∧ listeners m' = ∅ ∧ instances m' = instances m.
Proof.
  intros ([] & tr1 & -> & ? & <- & Hx) Hctx.
  cbn [take_all manager_of with_manager HasManager_Manager id fst snd] in Hx.
  pose proof (take_all_listeners m) as Hempty. unfold take_all in Hempty. cbn [snd listeners] in Hempty.
  exec_norm Hx. case_bool_decide as Hlen; [by destruct Hx as (-> & -> & ->)|].
  destruct ((range (listeners m)).*2) as [|i ids]; [done|].
  destruct Hx as (d & tr' & -> & Hx). assert (d = true) as -> by (apply Hctx; right; left).
  by destruct Hx as (-> & -> & ->).
Qed.
End ShutdownProperties.

(** ** Concrete histories *)
#[local] Existing Instance map_range_default.
#[local] Instance any_config : ListenerLib := {| listener_New := λ _ _, None |}.

Definition ci_key : ListenerKey := mkListenerKey (mkNN "ci" "set") "default".
Definition ci_scaler : ListenerScaler :=
  mkListenerScaler (NewKubernetesScaler 0 42 "ci" "img" "default" 0 10 None None) DebounceWindow.
Definition one_listener : Manager := (StartListener ci_key 0 42 10 ci_scaler NewManager).2.

Lemma one_listener_reachable : rtc mstep NewManager one_listener.
Proof. apply rtc_once, m_start. Qed.

Lemma registry_consistent_witness : registry_ok one_listener ∧ HasListener ci_key one_listener = true.
Proof.
  split; [|reflexivity]. exact (proj1 (registry_consistent _ one_listener_reachable)).
Defined.

Lemma one_listener_ok : registry_ok one_listener.
Proof. apply (registry_ok_step NewManager); [apply m_start|apply registry_ok_init]. Qed.

Lemma StopListener_spec_witness :
  (StopListener ci_key one_listener).1 = None ∧
  HasListener ci_key (StopListener ci_key one_listener).2 = false.
Proof.
  pose proof (StopListener_spec ci_key one_listener one_listener_ok) as H.
  exact (conj (proj1 H) (proj1 (proj2 H))).
Defined.

Lemma stale_exit_unregisters_witness :
  let m2 := (StartListener ci_key 1 43 10 ci_scaler (StopListener ci_key one_listener).2).2 in
  let m3 := goroutine_exit 0 (run_returns 0 m2) in
  HasListener ci_key m2 = true ∧ HasListener ci_key m3 = false ∧
  instances m3 !! 1 = Some (mkListener ci_key 43 10 1 ci_scaler false Running).
Proof.
  intros m2 m3.
  destruct (@stale_exit_unregisters map_range_default any_config ci_key 1 43 10 ci_scaler 2 44 10 ci_scaler one_listener 0
              (mkListener ci_key 42 10 0 ci_scaler false Running) one_listener_ok
              eq_refl eq_refl eq_refl eq_refl eq_refl) as (_ & H1 & H2 & H3 & _).
  exact (conj H1 (conj H2 H3)).
Defined.

Lemma careful_registry_exact_witness : listeners one_listener !! ci_key = Some 0.
Proof.
  assert (Hs : rtc careful_step NewManager one_listener).
  { apply rtc_once, c_start. intros _ i l Hi. destruct i; discriminate Hi. }
  exact (proj1 (careful_registry_exact _ Hs) 0 (mkListener ci_key 42 10 0 ci_scaler false Running)
           eq_refl eq_refl eq_refl).
Defined.

(** A start, a second start that is refused, and a stop. *)
Lemma manager_refines_witness :
  let v := mkServed 42 10 0 ci_scaler in
  let dup := Some (errors_New ("listener already exists for " +:+ key_text ci_key)) in
  let m := (StopListener ci_key one_listener).2 in
  spec_run (mkBoard ∅ ∅) [OStart ci_key v None; OStart ci_key v dup; OStop ci_key None] (board_of m) ∧
  HasListener ci_key m = false ∧
  (HasListener ci_key one_listener = true → b_served (board_of one_listener) !! ci_key = Some v).
Proof.
  intros v dup m.
  assert (Hgen : ∀ P : Manager → op → Prop, P NewManager (OStart ci_key v None) →
    history P [OStart ci_key v None] one_listener).
  { intros P HP. apply (history_snoc P [] NewManager); [constructor|exact (o_start NewManager ci_key 0 42 10 ci_scaler)|exact HP]. }
  assert (H2 : history (λ _ _, True) [OStart ci_key v None; OStart ci_key v dup] one_listener).
  { apply (history_snoc _ [OStart ci_key v None] one_listener); [by apply Hgen|exact (o_start one_listener ci_key 0 42 10 ci_scaler)|done]. }
  assert (H3 : history (λ _ _, True) ([OStart ci_key v None; OStart ci_key v dup] ++ [OStop ci_key None]) m).
  { eapply history_snoc; [exact H2|exact (o_stop one_listener ci_key)|done]. }
  destruct (manager_refines _ _ H3) as (Hspec & _). split; [exact Hspec|]. split; [reflexivity|].
  intros _. destruct (manager_refines _ _ (Hgen (λ _ _, True) I)) as (_ & _ & _ & Hc).
  refine (Hc _ 0 (mkListener ci_key 42 10 0 ci_scaler false Running) eq_refl _ eq_refl); [|discriminate].
  apply Hgen. intros _ i l Hi. destruct i; discriminate Hi.
Defined.

Definition ctx_env (b : bool) (R : Type) (c : Call R) (n : nat) : R :=
  match c in Call R0 return R0 with CtxDone => b | c' => offline c' end.

Lemma StopAll_live_witness :
  let x := run (ctx_env false) StopAll one_listener 0 in
  listeners x.2 = ∅ ∧ stopped_at 0 x.2.
Proof.
  intros x. destruct (StopAll_live one_listener x.1.1 x.1.2 x.2 one_listener_ok (run_exec _ _ _ _))
    as (_ & H1 & H2).
  - intros r Hr. destruct r; [|reflexivity].
    vm_compute in Hr. exfalso. apply list_elem_of_singleton in Hr.
    assert (He : Some true = Some false); [|discriminate He].
    exact (f_equal (λ e : event Manager, match e with
      | Ev c r => match c in Call R return R → option bool with CtxDone => Some | _ => λ _, None end r
      | EvGo _ => None end) Hr).
  - exact (conj H1 (H2 ci_key 0 eq_refl)).
Defined.

Lemma ShutdownRunnable_stops_nothing_witness :
  let x := run (ctx_env true) ShutdownRunnable_Start one_listener 0 in
  listeners x.2 = ∅ ∧ instances x.2 = [mkListener ci_key 42 10 0 ci_scaler false Running].
Proof.
  intros x.
  destruct (ShutdownRunnable_stops_nothing one_listener x.1.1 x.1.2 x.2 (run_exec _ _ _ _))
    as (_ & H1 & H2).
  - intros r Hr. destruct r; [reflexivity|].
    vm_compute in Hr. exfalso.
    assert (He : ∀ e : event Manager, e ∈ [Ev WaitDone tt; Ev CtxDone true] → e ≠ Ev CtxDone false).
    { intros e [->|He]%elem_of_cons He'; [discriminate He'|].
      apply list_elem_of_singleton in He. subst e.
      assert (Hb : Some true = Some false); [|discriminate Hb].
      exact (f_equal (λ e : event Manager, match e with
        | Ev c r => match c in Call R return R → option bool with CtxDone => Some | _ => λ _, None end r
        | EvGo _ => None end) He'). }
    exact (He _ Hr eq_refl).
  - exact (conj H1 H2).
Defined.
