(* ===== verification/ListenerRun.v ===== *)
(** * internal/listener/runner_group_listener.go: Run, the session wrapper, the log adapter

    [Run] gives the library's message loop a context of its own; a goroutine
    waits for [Stop] or for the end of that context.  The three threads (the
    caller of Run, the waiter, whoever calls Stop) are the steps of a machine
    on the state they share. *)

From S2P Require Export Listener.

(** ** Run and Stop *)

(** The waiter: in its [select], past the [stopCh] branch, returned. *)
Inductive waiter : Type := Selecting | Cancelling | Gone.

(** The caller: in the library's [Run], past it with [cancel] still deferred,
    returned. *)
Inductive runner : Type := InLoop | Leaving (err : option error) | Finished (err : option error).

Record RunState : Type := mkRun {
  r_parent : bool;       (* the caller's context is done *)
  r_cancelled : bool;    (* [cancel()] was called *)
  r_once : bool;         (* [stopped] has run its function *)
  r_closed : nat;        (* how often [stopCh] was closed; twice would panic *)
  r_waiter : waiter;
  r_runner : runner
}.

(** [context.WithCancel(ctx)] and the [go] statement. *)
Definition Run_start (parent : bool) (r : RunState) : RunState :=
  mkRun parent false (r_once r) (r_closed r) Selecting InLoop.

(** The derived context is done with its parent or by [cancel]. *)
Definition ctx_done (r : RunState) : bool := r_parent r || r_cancelled r.

(** [r.stopped.Do(func() { close(r.stopCh) })] *)
Definition run_Stop (r : RunState) : RunState :=
  if r_once r then r
  else mkRun (r_parent r) (r_cancelled r) true (r_closed r + 1) (r_waiter r) (r_runner r).

(** What the goroutines of one [Run] do on their own.  The library's loop may
    return at any time; once the context is done it does. *)
Inductive run_step : RunState → RunState → Prop :=
| waiter_stop p c o n u : 0 < n →
    run_step (mkRun p c o n Selecting u) (mkRun p c o n Cancelling u)
| waiter_done p c o n u : p || c = true →
    run_step (mkRun p c o n Selecting u) (mkRun p c o n Gone u)
| waiter_cancels p c o n u :
    run_step (mkRun p c o n Cancelling u) (mkRun p true o n Gone u)
| loop_returns p c o n wt err :
    run_step (mkRun p c o n wt InLoop) (mkRun p c o n wt (Leaving err))
| deferred_cancel p c o n wt err :
    run_step (mkRun p c o n wt (Leaving err)) (mkRun p true o n wt (Finished err)).

(** What the others do: end the parent context, call Stop. *)
Inductive run_env : RunState → RunState → Prop :=
| parent_ends r :
    run_env r (mkRun true (r_cancelled r) (r_once r) (r_closed r) (r_waiter r) (r_runner r))
| stop_called r : run_env r (run_Stop r).

Definition run_any (r r' : RunState) : Prop := run_step r r' ∨ run_env r r'.

(** The channel is closed exactly when the once ran; a waiter past its select
    saw the channel closed; only a stop, the end of the parent and the end of
    the loop cancel the context; a waiter that left, left it done. *)
Definition run_inv (r : RunState) : Prop :=
  r_closed r = (if r_once r then 1 else 0) ∧
  (r_waiter r = Cancelling → r_once r = true) ∧
  (r_cancelled r = true → r_once r = true ∨ ∃ err, r_runner r = Finished err) ∧
  (r_waiter r = Gone → ctx_done r = true) ∧
  (∀ err, r_runner r = Finished err → r_cancelled r = true).

Lemma run_inv_start parent once :
  run_inv (Run_start parent (mkRun false false once (if once then 1 else 0) Gone InLoop)).
Proof. by split_and!. Qed.

Lemma run_inv_step r r' : run_any r r' → run_inv r → run_inv r'.
Proof.
  intros [Hs|[r0|r0]] Hinv.
  - destruct Hs; unfold run_inv, ctx_done in *; simpl in *; destruct Hinv as (Hn & Hw & Hc & Hg & Hf).
    + split_and!; try done. intros _. destruct o; [done|]. simpl in *. lia.
    + by split_and!.
    + split_and!; try done; [intros _; left; by apply Hw|intros _; by rewrite orb_true_r].
    + split_and!; try done. intros Hc'. destruct (Hc Hc') as [?|[? [=]]]. by left.
    + split_and!; try done; [intros _; right; by exists err|intros _; by rewrite orb_true_r].
  - by destruct Hinv as (Hn & Hw & Hc & Hg & Hf); split_and!.
  - unfold run_Stop. destruct (r_once r0) eqn:Ho; [exact Hinv|].
    destruct Hinv as (Hn & Hw & Hc & Hg & Hf). rewrite Ho in Hn. unfold run_inv. simpl.
    rewrite Hn. split_and!; try done. intros _. by left.
Qed.

(** The internal steps that are left. *)
Definition run_measure (r : RunState) : nat :=
  match r_waiter r with Selecting => 2 | Cancelling => 1 | Gone => 0 end +
  match r_runner r with InLoop => 2 | Leaving _ => 1 | Finished _ => 0 end.

Lemma run_step_decreases r r' : run_step r r' → run_measure r' < run_measure r.
Proof. destruct 1; unfold run_measure; simpl; lia. Qed.

(** No step of the two goroutines is possible. *)
Definition quiescent (r : RunState) : Prop := ∀ r', ¬ run_step r r'.

(** C24. [Run] and its goroutine under any interleaving with any number of calls of
    [Stop] and the end of the caller's context: the channel is closed at most
    once, so [Stop] never panics; the context the message loop runs under is
    done only because the parent is, because [Stop] was called, or because the
    loop is over; and the two goroutines make at most four steps, after which
    Run has returned and, whatever ended it, the context is done and the waiter
    is gone: nothing leaks. *)
Theorem Run_cleans_up parent once r :
  rtc run_any (Run_start parent (mkRun false false once (if once then 1 else 0) Gone InLoop)) r →
  r_closed r ≤ 1 ∧
  (ctx_done r = true → r_parent r = true ∨ r_once r = true ∨ ∃ err, r_runner r = Finished err) ∧
  (∀ n r', nsteps run_step n r r' → n ≤ 4) ∧
  (quiescent r → (∃ err, r_runner r = Finished err) ∧ r_waiter r = Gone ∧ ctx_done r = true).
Proof.
  intros Hr. assert (Hinv : run_inv r).
  { assert (Hgen : ∀ x, rtc run_any x r → run_inv x → run_inv r)
      by (induction 1; eauto using run_inv_step).
    exact (Hgen _ Hr (run_inv_start parent once)). }
  destruct Hinv as (Hn & Hw & Hc & Hg & Hf). split_and!.
  - rewrite Hn. destruct (r_once r); lia.
  - intros [?|?]%orb_prop; [by left|right; by apply Hc].
  - intros n r' Hsteps. assert (n + run_measure r' ≤ run_measure r).
    { clear - Hsteps. induction Hsteps as [|n x y z Hst _ IH]; [done|].
      apply run_step_decreases in Hst. lia. }
    enough (run_measure r ≤ 4) by lia. unfold run_measure. destruct (r_waiter r), (r_runner r); lia.
  - intros Hq. destruct r as [p c o k wt u]; simpl in *.
    destruct u as [|err|err]; [by destruct (Hq _ (loop_returns p c o k wt None))
                              |by destruct (Hq _ (deferred_cancel p c o k wt err))|].
    split; [by exists err|]. specialize (Hf err eq_refl). subst c.
    destruct wt; [|by destruct (Hq _ (waiter_cancels p true o k (Finished err)))|].
    + destruct (Hq _ (waiter_done p true o k (Finished err) (orb_true_r p))).
    + split; [done|]. unfold ctx_done. simpl. by rewrite orb_true_r.
Qed.

(** After [Stop] the context ends without any help: the waiter's own two steps
    are always possible and cancel it. *)
Theorem Stop_cancels p c n u :
  0 < n → rtc run_step (mkRun p c true n Selecting u) (mkRun p true true n Gone u).
Proof.
  intros Hn. eapply rtc_l; [by apply waiter_stop|]. apply rtc_once. apply waiter_cancels.
Qed.

(** ** The session wrapper

    [messageSessionClientWrapper] gives the library's session client the
    interface of the message loop; every method is the client's own.  The client
    is a parameter. *)
Section Session.
Context {Session Message R : Type}.

Record MessageSessionClient : Type := mkSession {
  GetMessage : Z → Z → R → result error (option Message) * R;
  DeleteMessage : Z → R → option error * R;
  SessionOf : Session
}.

Definition wrapper_GetMessage (m : MessageSessionClient) (lastMessageID maxCapacity : Z) :=
  GetMessage m lastMessageID maxCapacity.
Definition wrapper_DeleteMessage (m : MessageSessionClient) (messageID : Z) := DeleteMessage m messageID.
Definition wrapper_Session (m : MessageSessionClient) : Session := SessionOf m.
End Session.

(** ** The log adapter

    [logrHandler] hands the records of [slog] to [logr]: the message, and the
    attributes as one list of keys and values in turn. *)
Section Log.
Context {V : Type}.

Record LogRecord : Type := mkLogRecord { lr_Message : string; lr_Attrs : list (string * V) }.

(** A key or a value, as [interface{}]. *)
Definition logr_arg : Type := string + V.

Record logrHandler : Type := mkLogrHandler { lh_logger : string }.

Definition lh_Enabled (h : logrHandler) (level : Z) : bool := true.

(** What is logged: the logger, the message and the pairs. *)
Definition lh_Handle (h : logrHandler) (r : LogRecord) : string * string * list logr_arg :=
  (lh_logger h, lr_Message r,
   foldl (λ attrs '(k, v), attrs ++ [inl k; inr v]) [] (lr_Attrs r)).

Definition lh_WithAttrs (h : logrHandler) (attrs : list (string * V)) : logrHandler := h.
Definition lh_WithGroup (h : logrHandler) (name : string) : logrHandler := h.

(** The pairs a logger reads back from such a list. *)
Fixpoint log_pairs (args : list logr_arg) : list (string * V) :=
  match args with
  | inl k :: inr v :: args => (k, v) :: log_pairs args
  | _ => []
  end.

Lemma log_pairs_app l args : 
  log_pairs (foldr (λ '(k, v) acc, inl k :: inr v :: acc) args l) = l ++ log_pairs args.
Proof. induction l as [|[k v] l IH]; [done|]. simpl. by rewrite IH. Qed.

Lemma foldl_attrs l acc :
  foldl (λ attrs '(k, v), attrs ++ [inl k; inr v]) acc l =
  acc ++ foldr (λ '(k, v) acc, inl k :: inr v :: acc) ([] : list logr_arg) l.
Proof.
  revert acc. induction l as [|[k v] l IH]; intros acc; simpl; [by rewrite app_nil_r|].
  by rewrite IH, <- app_assoc.
Qed.

(** A record is never dropped and arrives with its own attributes, all of them,
    in order; but those of the logger it was written with are lost, because
    [WithAttrs] keeps none of them, as are the groups. *)
Theorem lh_Handle_record h attrs group r :
  let logged := lh_Handle (lh_WithGroup (lh_WithAttrs h attrs) group) r in
  logged.1 = (lh_logger h, lr_Message r) ∧ log_pairs logged.2 = lr_Attrs r ∧
  length logged.2 = 2 * length (lr_Attrs r).
Proof.
  simpl. split; [done|]. rewrite foldl_attrs. simpl. split; [by rewrite log_pairs_app, app_nil_r|].
  induction (lr_Attrs r) as [|[k v] l IH]; [done|]. simpl. rewrite IH. lia.
Qed.
End Log.

(** A listener that is stopped: its waiter cancels the context. *)
Lemma Run_cleans_up_witness :
  let r := mkRun false true true 1 Gone (Finished None) in
  rtc run_any (Run_start false (mkRun false false false 0 Gone InLoop)) r ∧ r_closed r ≤ 1 ∧ ctx_done r = true.
Proof.
  intros r. assert (Hr : rtc run_any (Run_start false (mkRun false false false 0 Gone InLoop)) r).
  { eapply rtc_l; [right; apply stop_called|].
    eapply rtc_l; [left; apply waiter_stop; simpl; lia|].
    eapply rtc_l; [left; apply waiter_cancels|].
    eapply rtc_l; [left; apply (loop_returns _ _ _ _ _ None)|].
    apply rtc_once. left. apply deferred_cancel. }
  split; [exact Hr|]. split; [exact (proj1 (Run_cleans_up false false r Hr))|reflexivity].
Defined.
