(* ===== verification/Labels.v ===== *)
(** * internal/controller: the labels of a scale set

    Label functions of autoscaleset_controller.go: the labels an AutoscaleSet
    asks for, the comparison that decides whether GitHub has to be told, and
    their text in the logs. *)

From S2P Require Export Client.

Section Labels.
Context `{MapRange, UnicodeTables}.

Definition self_hosted : string := "self-hosted".

(** The loop of [buildLabels]: the labels so far, and whether one of them is
    named self-hosted. *)
Definition build_labels_loop (ls : list ScaleSetLabel) : list SSLabel * bool :=
  foldl (λ '(labels, hasSelfHosted) l,
           let label := mkLabel (if bool_decide (sl_type l = "") then "System" else sl_type l)
                                (sl_name l) in
           (labels ++ [label],
            if bool_decide (l_name label = self_hosted) then true else hasSelfHosted))
    ([], false) ls.

Definition buildLabels (a : AutoscaleSet) : list SSLabel :=
  let '(labels, hasSelfHosted) := build_labels_loop (as_labels (as_spec a)) in
  let labels := if negb hasSelfHosted then mkLabel "System" self_hosted :: labels else labels in
  match labels with
  | [l] =>
    if bool_decide (l_name l = self_hosted)
    then labels ++ [mkLabel "System" (as_scaleSetName (as_spec a))] else labels
  | _ => labels
  end.

Definition normalizeLabel (l : SSLabel) : string := ToLower (l_type l) +:+ ":" +:+ l_name l.

Definition buildLabelSet (labels : list SSLabel) : gmap string bool :=
  foldl (λ labelSet label,
           let normalized := normalizeLabel label in
           if negb (HasSuffix normalized ":self-hosted")
           then <[normalized := true]> labelSet else labelSet)
    ∅ labels.

Definition labelsEqual (a b : list SSLabel) : bool :=
  let aSet := buildLabelSet a in
  let bSet := buildLabelSet b in
  if bool_decide (size aSet ≠ size bSet) then false
  else forallb (λ '(key, _), default false (bSet !! key)) (range aSet).

Definition formatLabelsForLog (labels : list SSLabel) : string :=
  if bool_decide (length labels = 0) then "[]"
  else "[" +:+ Join ((λ l, l_type l +:+ ":" +:+ l_name l) <$> labels) ", " +:+ "]".

(** ** Lemmas *)

(** What the comparison looks at. *)
Definition compared (labels : list SSLabel) (key : string) : Prop :=
  HasSuffix key ":self-hosted" = false ∧ ∃ l, l ∈ labels ∧ normalizeLabel l = key.

Lemma buildLabelSet_lookup labels key :
  (compared labels key → buildLabelSet labels !! key = Some true) ∧
  (¬ compared labels key → buildLabelSet labels !! key = None).
Proof.
  unfold buildLabelSet, compared.
  induction labels as [|l ls IH] using rev_ind; [split; [|done]; intros (_ & l & Hl & _); set_solver|].
  rewrite foldl_snoc. cbn zeta. destruct IH as [IH1 IH2].
  destruct (HasSuffix (normalizeLabel l) ":self-hosted") eqn:Hs; cbn [negb].
  - split.
    + intros (Hk & l' & Hl & <-). apply IH1. split; [done|].
      apply elem_of_app in Hl as [Hl| ->%list_elem_of_singleton]; [by exists l'|congruence].
    + intros Hn. apply IH2. intros (Hk & l' & Hl & <-). apply Hn. split; [done|].
      exists l'. set_solver.
  - destruct (decide (normalizeLabel l = key)) as [<-|Hne].
    + rewrite lookup_insert_eq. split; [done|]. intros []. split; [done|]. exists l. set_solver.
    + rewrite lookup_insert_ne by done. split.
      * intros (Hk & l' & Hl & Heq). apply IH1. split; [done|].
        apply elem_of_app in Hl as [Hl| ->%list_elem_of_singleton]; [by exists l'|done].
      * intros Hn. apply IH2. intros (Hk & l' & Hl & Heq). apply Hn. split; [done|].
        exists l'. set_solver.
Qed.

Lemma elem_of_buildLabelSet labels key :
  key ∈ dom (buildLabelSet labels) ↔ compared labels key.
Proof.
  destruct (buildLabelSet_lookup labels key) as [H1 H2]. rewrite elem_of_dom. split.
  - intros [x Hx]. destruct (decide (HasSuffix key ":self-hosted" = false ∧
      Exists (λ l, normalizeLabel l = key) labels)) as [[Hk He]|Hn].
    + apply Exists_exists in He. done.
    + rewrite H2 in Hx; [done|]. intros [Hk (l & Hl & He)]. apply Hn. split; [done|].
      apply Exists_exists. eauto.
  - intros Hc. rewrite H1 by done. eauto.
Qed.

Lemma labelsEqual_dom a b :
  labelsEqual a b = true ↔ dom (buildLabelSet a) = dom (buildLabelSet b).
Proof.
  unfold labelsEqual. rewrite <- !size_dom. case_bool_decide as Hsz.
  { split; [done|]. intros Heq. by rewrite Heq in Hsz. }
  rewrite forallb_forall. split.
  - intros Hall. apply leibniz_equiv, set_subseteq_size_equiv; [|by rewrite Hsz].
    intros key [x Hx]%elem_of_dom.
    specialize (Hall (key, x) (proj1 (list_elem_of_In _ _) (proj2 (range_elem_of _ _ _) Hx))).
    simpl in Hall. apply elem_of_dom. by destruct (buildLabelSet b !! key).
  - intros Heq [key x] Hin%list_elem_of_In%range_elem_of.
    assert (Hk : key ∈ dom (buildLabelSet b)) by (rewrite <- Heq; apply elem_of_dom; eauto).
    apply elem_of_buildLabelSet in Hk.
    by rewrite (proj1 (buildLabelSet_lookup b key) Hk).
Qed.

Lemma labelsEqual_compared a b :
  labelsEqual a b = true ↔ ∀ key, compared a key ↔ compared b key.
Proof.
  rewrite labelsEqual_dom, set_eq. setoid_rewrite elem_of_buildLabelSet. done.
Qed.

Lemma build_labels_loop_spec ls :
  build_labels_loop ls =
  ((λ l, mkLabel (if bool_decide (sl_type l = "") then "System" else sl_type l) (sl_name l)) <$> ls,
   existsb (λ l, bool_decide (sl_name l = self_hosted)) ls).
Proof.
  unfold build_labels_loop. induction ls as [|l ls IH] using rev_ind; [done|].
  rewrite foldl_snoc, IH, fmap_app, existsb_app. simpl.
  repeat case_bool_decide; by rewrite ?orb_true_r, ?orb_false_r.
Qed.

(** Labels whose type has no colon and whose name does not end in
    [":self-hosted"] are told apart by their normalised text. *)
Definition plain (l : SSLabel) : Prop :=
  no_colon (ToLower (l_type l)) ∧ HasSuffix (l_name l) ":self-hosted" = false.

Lemma plain_self_hosted l :
  plain l → HasSuffix (normalizeLabel l) ":self-hosted" = bool_decide (l_name l = self_hosted).
Proof.
  intros [Ht Hn]. unfold normalizeLabel. case_bool_decide as Hs.
  - rewrite Hs. apply HasSuffix_spec. by exists (ToLower (l_type l)).
  - apply not_true_is_false. intros [p Hp]%HasSuffix_spec.
    change ":self-hosted" with (":" +:+ self_hosted) in Hp.
    apply colon_suffix in Hp as [Hp|[q Hq]]; [done| |done].
    assert (Hn' : HasSuffix (l_name l) ":self-hosted" = true) by (apply HasSuffix_spec; by exists q).
    congruence.
Qed.

(** Having a label, up to the letter case of its type. *)
Definition has_label (labels : list SSLabel) (type name : string) : Prop :=
  ∃ l, l ∈ labels ∧ ToLower (l_type l) = type ∧ l_name l = name.

Lemma compared_has_label labels t n :
  Forall plain labels → no_colon t → n ≠ self_hosted → HasSuffix n ":self-hosted" = false →
  compared labels (t +:+ ":" +:+ n) ↔ has_label labels t n.
Proof.
  intros Hp Ht Hn Hs. rewrite Forall_forall in Hp. unfold compared, has_label. split.
  - intros [_ (l & Hl & Heq)]. exists l. split; [done|].
    destruct (Hp _ Hl) as [Htl _]. by destruct (colon_split _ _ _ _ Htl Ht Heq).
  - intros (l & Hl & <- & <-). split; [|by exists l].
    change (HasSuffix (normalizeLabel l) ":self-hosted" = false).
    rewrite plain_self_hosted by auto. by apply bool_decide_eq_false_2.
Qed.
End Labels.

(** ** Properties *)

(** Labels that are told apart as texts are told apart. *)
Lemma labelsEqual_plain `{MapRange, UnicodeTables} a b :
  Forall plain a → Forall plain b →
  labelsEqual a b = true ↔
  ∀ type name, name ≠ self_hosted → has_label a type name ↔ has_label b type name.
Proof.
  intros Ha Hb. rewrite labelsEqual_compared.
  assert (Hok : ∀ ls t n, Forall plain ls → has_label ls t n →
                no_colon t ∧ HasSuffix n ":self-hosted" = false).
  { intros ls t n Hls (l & Hl & <- & <-). rewrite Forall_forall in Hls. exact (Hls _ Hl). }
  split.
  - intros Hc t n Hn. split; intros Hl.
    + destruct (Hok _ _ _ Ha Hl). apply compared_has_label; [done..|]. apply Hc.
      by apply compared_has_label.
    + destruct (Hok _ _ _ Hb Hl). apply compared_has_label; [done..|]. apply Hc.
      by apply compared_has_label.
  - assert (Hdir : ∀ ls ls', Forall plain ls →
      (∀ t n, n ≠ self_hosted → has_label ls t n → has_label ls' t n) →
      ∀ key, compared ls key → compared ls' key).
    { intros ls ls' Hls Hsub key [Hk (l & Hl & <-)]. rewrite Forall_forall in Hls. split; [done|].
      rewrite plain_self_hosted in Hk by auto. breflect.
      destruct (Hsub (ToLower (l_type l)) (l_name l) Hk) as (l' & Hl' & Ht & Hn).
      - by exists l.
      - exists l'. split; [done|]. unfold normalizeLabel. by rewrite Ht, Hn. }
    intros Heq key. split; apply Hdir; auto; intros t n Hn; by apply Heq.
Qed.

(** The text a label is compared by occurs in a list. *)
Definition has_text `{UnicodeTables} (labels : list SSLabel) (text : string) : Prop :=
  ∃ l, l ∈ labels ∧ ToLower (l_type l) +:+ ":" +:+ l_name l = text.

(** C25. Two label lists compare equal exactly when the same texts
    ["type:name"] occur in both, the types in lower case, texts that end in
    [":self-hosted"] left out: order and duplicates never cause an update of
    the scale set.  When no type has a colon and no name ends in
    [":self-hosted"], that is the same as containing the same labels up to the
    letter case of the types, self-hosted apart; without that condition
    different labels can compare equal ([labelsEqual_conflates]). *)
Theorem labelsEqual_spec `{MapRange, UnicodeTables} a b :
  (labelsEqual a b = true ↔
   ∀ text, HasSuffix text ":self-hosted" = false → has_text a text ↔ has_text b text) ∧
  (Forall plain a → Forall plain b →
   labelsEqual a b = true ↔
   ∀ type name, name ≠ self_hosted → has_label a type name ↔ has_label b type name).
Proof.
  split; [|apply labelsEqual_plain]. rewrite labelsEqual_compared. unfold compared, has_text, normalizeLabel.
  split; [|naive_solver]. intros Hc text Ht. specialize (Hc text). naive_solver.
Qed.

(** The labels asked for always contain self-hosted and at least one other
    entry; every label of the specification is there in the order given, an
    empty type read as System; only self-hosted and the name of the scale set
    can be added; and no type is empty. *)
Theorem buildLabels_spec `{MapRange, UnicodeTables} (a : AutoscaleSet) :
  let specified :=
    (λ l, mkLabel (if bool_decide (sl_type l = "") then "System" else sl_type l) (sl_name l))
      <$> as_labels (as_spec a) in
  let added := [mkLabel "System" self_hosted; mkLabel "System" (as_scaleSetName (as_spec a))] in
  self_hosted ∈ l_name <$> buildLabels a ∧ 2 ≤ length (buildLabels a) ∧
  (∃ pre post, buildLabels a = pre ++ specified ++ post ∧ pre ++ post ⊆ added) ∧
  Forall (λ l, l_type l ≠ "") (buildLabels a).
Proof.
  cbn zeta. unfold buildLabels. rewrite build_labels_loop_spec.
  set (sp := _ <$> as_labels (as_spec a)).
  assert (Hty : Forall (λ l, l_type l ≠ "") sp).
  { apply Forall_fmap, Forall_true. intros l. simpl. by case_bool_decide. }
  assert (Hex : existsb (λ l, bool_decide (sl_name l = self_hosted)) (as_labels (as_spec a)) =
                existsb (λ l, bool_decide (l_name l = self_hosted)) sp).
  { subst sp. clear Hty.
    induction (as_labels (as_spec a)) as [|l ls IH]; [done|].
    rewrite fmap_cons. cbn [existsb l_name]. by rewrite IH. }
  rewrite Hex. clear Hex. clearbody sp.
  destruct (existsb _ sp) eqn:He; cbn [negb].
  - apply existsb_exists in He as (l0 & Hin%list_elem_of_In & Hl0%bool_decide_eq_true_1).
    destruct sp as [|l [|l' sp]]; [set_solver| |].
    + apply list_elem_of_singleton in Hin as <-. rewrite bool_decide_eq_true_2 by done.
      split; [rewrite <- Hl0; set_solver|]. split; [simpl; lia|]. split.
      * exists [], [mkLabel "System" (as_scaleSetName (as_spec a))]. split; [done|]. set_solver.
      * apply Forall_app. split; [done|]. by constructor.
    + split; [rewrite <- Hl0; by apply list_elem_of_fmap_2|]. split; [simpl; lia|]. split; [|done].
      exists [], []. rewrite app_nil_r. split; [done|]. set_solver.
  - destruct sp as [|l sp].
    + rewrite bool_decide_eq_true_2 by done. split; [set_solver|]. split; [simpl; lia|].
      split; [|by repeat constructor]. exists [mkLabel "System" self_hosted], [mkLabel "System" (as_scaleSetName (as_spec a))].
      split; [done|]. set_solver.
    + split; [set_solver|]. split; [simpl; lia|]. split; [|by constructor].
      exists [mkLabel "System" self_hosted], []. rewrite app_nil_r. split; [done|]. set_solver.
Qed.

Definition ascii_tables : UnicodeTables := ascii_lower.
#[local] Existing Instance map_range_default.
#[local] Existing Instance ascii_tables.

(** GitHub answers with lower-case types, another order and no self-hosted. *)
Lemma labelsEqual_spec_witness :
  let a := [mkLabel "System" "self-hosted"; mkLabel "System" "gpu"; mkLabel "User" "big"] in
  let b := [mkLabel "user" "big"; mkLabel "system" "gpu"] in
  Forall plain a ∧ Forall plain b ∧ labelsEqual a b = true ∧
  (has_label a "user" "big" ↔ has_label b "user" "big").
Proof.
  intros a b.
  assert (Ha : Forall plain a) by (repeat constructor).
  assert (Hb : Forall plain b) by (repeat constructor).
  assert (He : labelsEqual a b = true) by (vm_compute; reflexivity).
  split; [done|]. split; [done|]. split; [done|].
  by apply (proj2 (labelsEqual_spec a b) Ha Hb).
Defined.

(** Where the parts of a label meet is lost in its text, and any name that ends
    in [":self-hosted"] is left out of the comparison. *)
Theorem labelsEqual_conflates :
  labelsEqual [mkLabel "a:b" "c"] [mkLabel "a" "b:c"] = true ∧
  labelsEqual [mkLabel "User" "gpu:self-hosted"] [] = true.
Proof. split; vm_compute; reflexivity. Qed.
