(* ===== verification/Templates.v ===== *)
(** * internal/controller: merging runner templates

    The template functions of runnerset_controller.go: a RunnerSet's template
    is merged over the one of its AutoscaleSet, map by map and list by list,
    through Go maps whose iteration order is unspecified. *)

From S2P Require Export PodBuild.

Section Templates.
Context `{MapRange}.

Definition mergeStringMaps (base override : gomap) : gomap :=
  if bool_decide (base = None ∧ override = None) then None
  else
    let out := foldl (λ out '(k, v), <[k := v]> out) (∅ : gmap string string)
                 (range (map_entries base)) in
    let out := foldl (λ out '(k, v), <[k := v]> out) out (range (map_entries override)) in
    if bool_decide (size out = 0) then None else Some out.

Definition mergeTemplateMetadata (base override : RunnerPodTemplate) : RunnerPodTemplateMetadata :=
  mkTemplateMetadata
    (mergeStringMaps (tm_labels (t_metadata base)) (tm_labels (t_metadata override)))
    (mergeStringMaps (tm_annotations (t_metadata base)) (tm_annotations (t_metadata override))).

Definition mergeEnvVars (base override : list EnvVar) : list EnvVar :=
  let envMap := foldl (λ envMap env, <[e_name env := e_value env]> envMap)
                  (∅ : gmap string string) base in
  let envMap := foldl (λ envMap env, <[e_name env := e_value env]> envMap) envMap override in
  if bool_decide (size envMap = 0) then []
  else foldl (λ out '(name, value), out ++ [mkEnvVar name value]) [] (range envMap).

Definition toleration_key (tol : Toleration) : string :=
  t_key tol +:+ ":" +:+ t_operator tol +:+ ":" +:+ t_value tol +:+ ":" +:+ t_effect tol.

Definition mergeTolerations (base override : list Toleration) : list Toleration :=
  let tolerationMap := foldl (λ m tol, <[toleration_key tol := tol]> m)
                         (∅ : gmap string Toleration) base in
  let tolerationMap := foldl (λ m tol, <[toleration_key tol := tol]> m) tolerationMap override in
  if bool_decide (size tolerationMap = 0) then []
  else foldl (λ out '(_, tol), out ++ [tol]) [] (range tolerationMap).

Definition copyTemplateWithCleanMetadata (template : option RunnerPodTemplate)
  : option RunnerPodTemplate :=
  match template with
  | None => None
  | Some t =>
    let m := t_metadata t in
    let labels :=
      if bool_decide (tm_labels m ≠ None ∨ tm_annotations m ≠ None)
      then copy_map <$> tm_labels m else None in
    let annotations :=
      if bool_decide (tm_labels m ≠ None ∨ tm_annotations m ≠ None)
      then copy_map <$> tm_annotations m else None in
    Some (mkTemplate (mkTemplateMetadata labels annotations) (t_spec t))
  end.

Definition mergeRunnerTemplates (baseTemplate overrideTemplate : option RunnerPodTemplate)
  : option RunnerPodTemplate :=
  match baseTemplate, overrideTemplate with
  | None, None => None
  | None, Some _ => copyTemplateWithCleanMetadata overrideTemplate
  | Some _, None => copyTemplateWithCleanMetadata baseTemplate
  | Some b, Some o =>
    let bs := t_spec b in
    let os := t_spec o in
    Some (mkTemplate (mergeTemplateMetadata b o)
      (mkRunnerPodSpec
         (mergeStringMaps (rs_nodeSelector bs) (rs_nodeSelector os))
         (mergeTolerations (rs_tolerations bs) (rs_tolerations os))
         (mkResourceRequirements
            (mergeStringMaps (rr_limits (rs_resources bs)) (rr_limits (rs_resources os)))
            (mergeStringMaps (rr_requests (rs_resources bs)) (rr_requests (rs_resources os))))
         (mergeEnvVars (rs_env bs) (rs_env os))))
  end.

(** ** Lemmas *)

Lemma mergeStringMaps_entries base override :
  map_entries (mergeStringMaps base override) = map_entries override ∪ map_entries base.
Proof.
  unfold mergeStringMaps. case_bool_decide as Hn.
  - destruct Hn as [-> ->]. cbn. by rewrite map_union_empty.
  - rewrite !foldl_insert_range, map_union_empty. case_bool_decide as Hsz; [|done].
    apply map_size_empty_inv in Hsz. by rewrite Hsz.
Qed.

Lemma mergeStringMaps_None base override :
  map_entries base = ∅ → map_entries override = ∅ → mergeStringMaps base override = None.
Proof.
  intros Hb Ho. unfold mergeStringMaps. case_bool_decide; [done|].
  by rewrite !foldl_insert_range, Hb, Ho, !map_union_empty.
Qed.

(** The map a list denotes when later entries replace earlier ones. *)
Definition index {A B} (key : A → string) (val : A → B) (l : list A) : gmap string B :=
  foldl (λ m x, <[key x := val x]> m) ∅ l.

Lemma index_from_acc {A B} (key : A → string) (val : A → B) l m :
  foldl (λ m x, <[key x := val x]> m) m l = index key val l ∪ m.
Proof.
  unfold index. induction l as [|x l IH] using rev_ind; [simpl; by rewrite map_empty_union|].
  rewrite !foldl_snoc, IH. by rewrite insert_union_l.
Qed.

Lemma index_app {A B} (key : A → string) (val : A → B) l l' :
  index key val (l ++ l') = index key val l' ∪ index key val l.
Proof. unfold index at 1. rewrite foldl_app. by rewrite index_from_acc. Qed.

Lemma index_Some {A B} (key : A → string) (val : A → B) l k v :
  index key val l !! k = Some v → ∃ x, x ∈ l ∧ key x = k ∧ val x = v.
Proof.
  induction l as [|x l IH] using rev_ind; [done|]. rewrite index_app, lookup_union_Some_raw.
  unfold index at 1. simpl. intros [Hx|[_ Hx]].
  - rewrite insert_empty in Hx. apply lookup_singleton_Some in Hx as [<- <-].
    exists x. set_solver.
  - destruct (IH Hx) as (y & ? & ? & ?). exists y. set_solver.
Qed.

(** Without duplicate keys every entry counts. *)
Lemma index_elem {A B} (key : A → string) (val : A → B) l x :
  NoDup (key <$> l) → x ∈ l → index key val l !! key x = Some (val x).
Proof.
  induction l as [|y l IH] using rev_ind; [set_solver|].
  rewrite fmap_app, index_app. intros (Hnd & Hdis & _)%NoDup_app Hx.
  assert (Hy : index key val [y] = {[key y := val y]}) by apply insert_empty. rewrite Hy.
  apply elem_of_app in Hx as [Hx| ->%list_elem_of_singleton].
  - rewrite lookup_union_r; [by apply IH|]. apply lookup_singleton_None. intros Heq.
    apply (Hdis (key x)); [by apply list_elem_of_fmap_2|]. rewrite <- Heq. set_solver.
  - apply lookup_union_Some_l, lookup_singleton_eq.
Qed.

Lemma index_dom {A B} (key : A → string) (val : A → B) l :
  dom (index key val l) = list_to_set (key <$> l).
Proof.
  induction l as [|x l IH] using rev_ind; [done|].
  rewrite index_app, dom_union_L, IH, fmap_app. unfold index. simpl.
  rewrite dom_insert_L. set_solver.
Qed.

(** Listing a map gives back a list that denotes it. *)
Lemma index_range {A B} (key : A → string) (val : A → B) (mk : string → B → A) (m : gmap string B) :
  (∀ k v, m !! k = Some v → key (mk k v) = k ∧ val (mk k v) = v) →
  let l := (λ '(k, v), mk k v) <$> range m in
  key <$> l = (range m).*1 ∧ index key val l = m.
Proof.
  intros Hmk l. assert (Hl : Forall (λ x, key (mk x.1 x.2) = x.1 ∧ val (mk x.1 x.2) = x.2) (range m)).
  { apply Forall_forall. intros [k v] Hx%range_elem_of. by apply Hmk. }
  assert (Hf : ∀ xs (acc : gmap string B),
    Forall (λ x, key (mk x.1 x.2) = x.1 ∧ val (mk x.1 x.2) = x.2) xs →
    key <$> ((λ '(k, v), mk k v) <$> xs) = xs.*1 ∧
    foldl (λ m x, <[key x := val x]> m) acc ((λ '(k, v), mk k v) <$> xs) =
    foldl (λ m '(k, v), <[k := v]> m) acc xs).
  { induction xs as [|[k v] xs IH]; intros acc Hxs; [done|].
    inversion Hxs as [|? ? [Hk Hv] Hxs']; subst. simpl in *. rewrite Hk, Hv.
    destruct (IH (<[k := v]> acc) Hxs') as [IH1 IH2]. split; [f_equal; exact IH1|exact IH2]. }
  destruct (Hf (range m) ∅ Hl) as [H1 H2]. split; [exact H1|].
  unfold index. subst l. rewrite H2. by rewrite foldl_insert_range, map_union_empty.
Qed.

Lemma foldl_snoc_pairs {K V A} (mk : K → V → A) (l : list (K * V)) acc :
  foldl (λ out '(k, v), out ++ [mk k v]) acc l = acc ++ ((λ '(k, v), mk k v) <$> l).
Proof.
  revert acc. induction l as [|[k v] l IH]; intros acc; simpl; [by rewrite app_nil_r|].
  by rewrite IH, <- app_assoc.
Qed.

(** The environment and the tolerations a list denotes. *)
Definition env_of : list EnvVar → gmap string string := index e_name e_value.
Definition tol_of : list Toleration → gmap string Toleration := index toleration_key id.

Lemma range_empty {V} : range (∅ : gmap string V) = [].
Proof. apply Permutation_nil. by rewrite range_perm, map_to_list_empty. Qed.

Lemma mergeEnvVars_env base override :
  NoDup (e_name <$> mergeEnvVars base override) ∧
  env_of (mergeEnvVars base override) = env_of override ∪ env_of base.
Proof.
  unfold mergeEnvVars. rewrite !index_from_acc, map_union_empty.
  fold (env_of base) (env_of override). set (m := env_of override ∪ env_of base).
  rewrite foldl_snoc_pairs. simpl.
  assert (Hm : NoDup (e_name <$> ((λ '(name, value), mkEnvVar name value) <$> range m)) ∧
               env_of ((λ '(name, value), mkEnvVar name value) <$> range m) = m).
  { destruct (index_range e_name e_value mkEnvVar m) as [Hn Hi]; [done|].
    split; [rewrite Hn; apply range_NoDup|exact Hi]. }
  case_bool_decide as Hsz; [|done]. apply map_size_empty_inv in Hsz as ->. split; [constructor|done].
Qed.

Lemma tol_of_key l k tol : tol_of l !! k = Some tol → toleration_key tol = k ∧ tol ∈ l.
Proof. intros (x & Hx & <- & <-)%index_Some. done. Qed.

Lemma mergeTolerations_tol base override :
  NoDup (toleration_key <$> mergeTolerations base override) ∧
  tol_of (mergeTolerations base override) = tol_of override ∪ tol_of base.
Proof.
  unfold mergeTolerations.
  assert (Hacc : ∀ l m, foldl (λ m tol, <[toleration_key tol := tol]> m) m l = tol_of l ∪ m)
    by (intros; apply (index_from_acc toleration_key id)).
  rewrite !Hacc, map_union_empty. set (m := tol_of override ∪ tol_of base).
  rewrite (foldl_snoc_pairs (λ _ tol, tol)). simpl.
  assert (Hk : ∀ k tol, m !! k = Some tol → toleration_key tol = k ∧ id tol = tol).
  { intros k tol [Hx|[_ Hx]]%lookup_union_Some_raw; apply tol_of_key in Hx; naive_solver. }
  assert (Hm : NoDup (toleration_key <$> ((λ '(_, tol), tol) <$> range m)) ∧
               tol_of ((λ '(_, tol), tol) <$> range m) = m).
  { destruct (index_range toleration_key id (λ _ tol, tol) m Hk) as [Hn Hi].
    split; [rewrite Hn; apply range_NoDup|exact Hi]. }
  case_bool_decide as Hsz; [|done]. apply map_size_empty_inv in Hsz as ->. split; [constructor|done].
Qed.

Lemma copyTemplateWithCleanMetadata_id t : copyTemplateWithCleanMetadata t = t.
Proof.
  destruct t as [[[[l|] [a|]] sp]|]; simpl; try done;
    repeat case_bool_decide; try (exfalso; naive_solver); by rewrite ?copy_map_id.
Qed.
End Templates.

(** ** Templates up to what they say

    Two templates are equivalent when their maps have the same entries, their
    environments give every variable the same value and they list the same
    tolerations: nil and empty maps, and orders, do not matter. *)
#[export] Instance template_equiv : Equiv (option RunnerPodTemplate) := λ s t,
  match s, t with
  | None, None => True
  | Some s, Some t =>
    map_entries (tm_labels (t_metadata s)) = map_entries (tm_labels (t_metadata t)) ∧
    map_entries (tm_annotations (t_metadata s)) = map_entries (tm_annotations (t_metadata t)) ∧
    map_entries (rs_nodeSelector (t_spec s)) = map_entries (rs_nodeSelector (t_spec t)) ∧
    map_entries (rr_limits (rs_resources (t_spec s))) =
      map_entries (rr_limits (rs_resources (t_spec t))) ∧
    map_entries (rr_requests (rs_resources (t_spec s))) =
      map_entries (rr_requests (rs_resources (t_spec t))) ∧
    env_of (rs_env (t_spec s)) = env_of (rs_env (t_spec t)) ∧
    tol_of (rs_tolerations (t_spec s)) = tol_of (rs_tolerations (t_spec t))
  | _, _ => False
  end.

#[export] Instance template_equivalence : Equivalence (≡@{option RunnerPodTemplate}).
Proof.
  split.
  - intros [t|]; [|done]. by repeat split.
  - intros [s|] [t|]; [|done..]. intros (? & ? & ? & ? & ? & ? & ?). by repeat split.
  - intros [s|] [t|] [u|]; try done.
    intros (? & ? & ? & ? & ? & ? & ?) (? & ? & ? & ? & ? & ? & ?).
    repeat split; etrans; done.
Qed.

(** Rewrite a merged template into the entries it is made of. *)
Ltac merge_entries :=
  cbn [t_metadata t_spec tm_labels tm_annotations rs_nodeSelector rs_resources rs_env
       rs_tolerations rr_limits rr_requests mergeTemplateMetadata];
  rewrite ?mergeStringMaps_entries, ?(λ b o, proj2 (mergeEnvVars_env b o)),
    ?(λ b o, proj2 (mergeTolerations_tol b o)).

Section TemplateProperties.
Context `{MapRange}.

#[export] Instance mergeRunnerTemplates_proper :
  Proper ((≡) ==> (≡) ==> (≡)) mergeRunnerTemplates.
Proof.
  intros [b|] [b'|] Hb [o|] [o'|] Ho; try done; cbn [mergeRunnerTemplates];
    rewrite ?copyTemplateWithCleanMetadata_id; try done.
  destruct Hb as (? & ? & ? & ? & ? & ? & ?), Ho as (? & ? & ? & ? & ? & ? & ?).
  repeat split; merge_entries; congruence.
Qed.

(** Merging templates forms a monoid up to equivalence: a missing template
    is neutral on either side (exactly so, the copy being faithful), the order
    in which three templates are merged does not matter, and merging a template
    with itself changes nothing, in every iteration order of the maps. *)
Theorem mergeRunnerTemplates_monoid (s t u : option RunnerPodTemplate) :
  mergeRunnerTemplates None t = t ∧ mergeRunnerTemplates t None = t ∧
  mergeRunnerTemplates (mergeRunnerTemplates s t) u ≡
    mergeRunnerTemplates s (mergeRunnerTemplates t u) ∧
  mergeRunnerTemplates t t ≡ t.
Proof.
  split; [destruct t; [apply copyTemplateWithCleanMetadata_id|done]|].
  split; [destruct t; [apply copyTemplateWithCleanMetadata_id|done]|]. split.
  - destruct s as [s|], t as [t|], u as [u|]; cbn [mergeRunnerTemplates];
      rewrite ?copyTemplateWithCleanMetadata_id; cbn [mergeRunnerTemplates];
      rewrite ?copyTemplateWithCleanMetadata_id; try done.
    repeat split; merge_entries; by rewrite map_union_assoc.
  - destruct t as [t|]; [|done]. cbn [mergeRunnerTemplates].
    repeat split; merge_entries; apply map_union_idemp.
Qed.

(** The last entry given for a variable. *)
Definition last_given (l : list EnvVar) (name : string) : option EnvVar :=
  last (filter (λ e, e_name e = name) l).

Lemma env_of_last l name : env_of l !! name = e_value <$> last_given l name.
Proof.
  unfold env_of, last_given. induction l as [|e l IH] using rev_ind; [done|].
  rewrite index_app, filter_app, filter_cons, filter_nil. unfold index at 1. simpl.
  rewrite insert_empty. case_decide as He.
  - rewrite last_snoc. simpl. subst name. apply lookup_union_Some_l, lookup_singleton_eq.
  - rewrite app_nil_r, lookup_union_r; [exact IH|]. by apply lookup_singleton_None.
Qed.

Lemma last_given_name l name e : last_given l name = Some e → e_name e = name.
Proof. intros He%last_Some_elem_of%list_elem_of_filter. apply He. Qed.

Lemma env_of_given l e : env_of l !! e_name e = Some (e_value e) ↔ last_given l (e_name e) = Some e.
Proof.
  rewrite env_of_last. split; [|by intros ->].
  destruct (last_given l (e_name e)) as [e'|] eqn:He; [|done]. apply last_given_name in He.
  destruct e as [n v], e' as [n' v']. simpl in *. by intros [= ->]; subst.
Qed.

(** Tolerations that are told apart by their text. *)
Definition plain_toleration (t : Toleration) : Prop :=
  no_colon (t_key t) ∧ no_colon (t_operator t) ∧ no_colon (t_value t).

Lemma toleration_key_inj t t' :
  plain_toleration t → plain_toleration t' → toleration_key t = toleration_key t' → t = t'.
Proof.
  destruct t, t'. unfold toleration_key. intros (?&?&?) (?&?&?) Heq. simpl in *.
  apply colon_split in Heq as [-> Heq]; [|done..]. apply colon_split in Heq as [-> Heq]; [|done..].
  by apply colon_split in Heq as [-> ->].
Qed.

Lemma mergeTolerations_elem base override :
  NoDup (mergeTolerations base override) ∧
  (∀ tol, tol ∈ mergeTolerations base override → tol ∈ base ++ override) ∧
  (Forall plain_toleration (base ++ override) →
   ∀ tol, tol ∈ base ++ override → tol ∈ mergeTolerations base override).
Proof.
  destruct (mergeTolerations_tol base override) as [Hnd Hm].
  assert (Hall : tol_of (mergeTolerations base override) = tol_of (base ++ override))
    by (rewrite Hm; symmetry; apply index_app).
  split; [by eapply NoDup_fmap_1|]. split.
  - intros tol Hin. apply (index_elem toleration_key id) in Hin; [|done].
    change (tol_of (mergeTolerations base override) !! toleration_key tol = Some tol) in Hin.
    rewrite Hall in Hin. by apply tol_of_key in Hin as [_ ?].
  - intros Hp tol Hin. rewrite Forall_forall in Hp.
    assert (Hk : is_Some (tol_of (base ++ override) !! toleration_key tol)).
    { apply elem_of_dom. unfold tol_of. rewrite index_dom. apply elem_of_list_to_set.
      by apply list_elem_of_fmap_2. }
    destruct Hk as [tol' Hk]. pose proof Hk as [Heq Hin']%tol_of_key.
    assert (tol' = tol) as -> by (apply toleration_key_inj; auto).
    rewrite <- Hall in Hk. by apply tol_of_key in Hk as [_ ?].
Qed.

(** C26. What a RunnerSet's template says wins over its AutoscaleSet's, and
    nothing else is lost.  A missing template leaves the other as it is.  Each
    map of the merged template holds the override's entries and those of the
    base it does not override, and is nil when there are none; every
    environment variable appears once, with the last value given for it; every
    toleration is one of the two templates', appears once, and none is missing
    when no key, operator or value has a colon (the texts the merge tells
    tolerations apart by are joined with colons). *)
Theorem mergeRunnerTemplates_override (b o : RunnerPodTemplate) :
  mergeRunnerTemplates None None = None ∧ mergeRunnerTemplates (Some b) None = Some b ∧
  mergeRunnerTemplates None (Some o) = Some o ∧
  ∃ t, mergeRunnerTemplates (Some b) (Some o) = Some t ∧
  (∀ proj : RunnerPodTemplate → gomap,
     proj ∈ [λ t, tm_labels (t_metadata t); λ t, tm_annotations (t_metadata t);
             λ t, rs_nodeSelector (t_spec t); λ t, rr_limits (rs_resources (t_spec t));
             λ t, rr_requests (rs_resources (t_spec t))] →
     (∀ k, map_entries (proj t) !! k =
           match map_entries (proj o) !! k with Some v => Some v | None => map_entries (proj b) !! k end) ∧
     (proj t = None ↔ map_entries (proj b) = ∅ ∧ map_entries (proj o) = ∅)) ∧
  (NoDup (e_name <$> rs_env (t_spec t)) ∧
   ∀ e, e ∈ rs_env (t_spec t) ↔
        last_given (rs_env (t_spec b) ++ rs_env (t_spec o)) (e_name e) = Some e) ∧
  NoDup (rs_tolerations (t_spec t)) ∧
  (∀ tol, tol ∈ rs_tolerations (t_spec t) → tol ∈ rs_tolerations (t_spec b) ++ rs_tolerations (t_spec o)) ∧
  (Forall plain_toleration (rs_tolerations (t_spec b) ++ rs_tolerations (t_spec o)) →
   ∀ tol, tol ∈ rs_tolerations (t_spec b) ++ rs_tolerations (t_spec o) → tol ∈ rs_tolerations (t_spec t)).
Proof.
  split; [done|]. split; [apply copyTemplateWithCleanMetadata_id|].
  split; [apply copyTemplateWithCleanMetadata_id|].
  eexists. split; [reflexivity|]. split; [|split; [|apply mergeTolerations_elem]].
  - assert (Hm : ∀ m m', (∀ k, map_entries (mergeStringMaps m m') !! k =
        match map_entries m' !! k with Some v => Some v | None => map_entries m !! k end) ∧
        (mergeStringMaps m m' = None ↔ map_entries m = ∅ ∧ map_entries m' = ∅)).
    { intros m m'. split.
      - intros k. rewrite mergeStringMaps_entries, lookup_union.
        by destruct (map_entries m' !! k), (map_entries m !! k).
      - split; [|intros [Hm Hm']; by apply mergeStringMaps_None].
        intros Hn. pose proof (mergeStringMaps_entries m m') as He. rewrite Hn in He. cbn in He.
        symmetry in He. pose proof (map_positive_l _ _ He) as Hm'. split; [|done].
        by rewrite Hm', map_empty_union in He. }
    intros proj Hproj. repeat (apply elem_of_cons in Hproj as [->|Hproj]); [apply Hm..|].
    by apply elem_of_nil in Hproj.
  - cbn [t_spec rs_env]. destruct (mergeEnvVars_env (rs_env (t_spec b)) (rs_env (t_spec o))) as [Hnd Henv].
    split; [done|]. intros e. rewrite <- env_of_given.
    replace (env_of (rs_env (t_spec b) ++ rs_env (t_spec o)))
      with (env_of (mergeEnvVars (rs_env (t_spec b)) (rs_env (t_spec o))))
      by (rewrite Henv; symmetry; apply index_app).
    split; intros He; [by apply index_elem|].
    apply index_Some in He as (e' & ? & ? & ?). destruct e, e'; simpl in *; by subst.
Qed.
End TemplateProperties.

#[local] Existing Instance map_range_default.

(** Two templates with one toleration each; they differ in the effect alone. *)
Lemma mergeRunnerTemplates_override_witness :
  let tol effect := mkToleration "dedicated" "Equal" "ci" effect in
  let template effect := mkTemplate (mkTemplateMetadata None None)
    (mkRunnerPodSpec None [tol effect] (mkResourceRequirements None None) []) in
  Forall plain_toleration [tol "NoSchedule"; tol "NoExecute"] ∧
  ∃ t, mergeRunnerTemplates (Some (template "NoSchedule")) (Some (template "NoExecute")) = Some t ∧
       tol "NoSchedule" ∈ rs_tolerations (t_spec t) ∧ tol "NoExecute" ∈ rs_tolerations (t_spec t).
Proof.
  intros tol template.
  assert (Hp : Forall plain_toleration [tol "NoSchedule"; tol "NoExecute"]) by (by repeat constructor).
  split; [exact Hp|].
  destruct (mergeRunnerTemplates_override (template "NoSchedule") (template "NoExecute"))
    as (_ & _ & _ & t & Ht & _ & _ & _ & _ & Hall).
  exists t. split; [exact Ht|]. split; apply (Hall Hp); [by left|by right; left].
Defined.
