(* ===== verification/Digest.v ===== *)
(** * internal/controller: the pod specification hash

    [computePodSpecHash] of runnerset_controller.go, with the part of the
    standard library it runs on: [encoding/json] on the template types,
    [crypto/sha256] and [encoding/hex].  The hash is what decides whether the
    runners of a RunnerSet are rolled out. *)

From S2P Require Export Types.

(** ** encoding/json: strings

    [appendString] with HTML escaping: ASCII outside the safe set is escaped,
    bytes that are not UTF-8 become [\ufffd], and U+2028, U+2029 are escaped. *)

Definition byte_val (a : ascii) : Z := Z.of_nat (nat_of_ascii a).
Definition byte_of (z : Z) : ascii := ascii_of_nat (Z.to_nat z).

Definition hex_digit (d : Z) : string :=
  String (byte_of (if (d <? 10)%Z then 48 + d else 87 + d)%Z) "".

Definition between (lo x hi : Z) : bool := (lo <=? x)%Z && (x <=? hi)%Z.

(** [utf8.DecodeRuneInString]: the length of the sequence, [None] when it is
    not a valid encoding. *)
Definition rune_length (s : string) : option nat :=
  match s with
  | String b0 s1 =>
    let c0 := byte_val b0 in
    if (c0 <? 128)%Z then Some 1
    else
      match s1 with
      | String b1 s2 =>
        let c1 := byte_val b1 in
        if between 194 c0 223 then if between 128 c1 191 then Some 2 else None
        else
          match s2 with
          | String b2 s3 =>
            let c2 := byte_val b2 in
            if between 224 c0 239 then
              let lo := if (c0 =? 224)%Z then 160%Z else 128%Z in
              let hi := if (c0 =? 237)%Z then 159%Z else 191%Z in
              if between lo c1 hi && between 128 c2 191 then Some 3 else None
            else
              match s3 with
              | String b3 _ =>
                let c3 := byte_val b3 in
                if between 240 c0 244 then
                  let lo := if (c0 =? 240)%Z then 144%Z else 128%Z in
                  let hi := if (c0 =? 244)%Z then 143%Z else 191%Z in
                  if between lo c1 hi && between 128 c2 191 && between 128 c3 191
                  then Some 4 else None
                else None
              | EmptyString => None
              end
          | EmptyString => None
          end
      | EmptyString => None
      end
  | EmptyString => None
  end.

Definition backslash : string := String (ascii_of_nat 92) "".

Definition escape_ascii (a : ascii) : string :=
  let c := byte_val a in
  if (c =? 34)%Z || (c =? 92)%Z then backslash +:+ String a ""
  else if (c =? 8)%Z then backslash +:+ "b"
  else if (c =? 12)%Z then backslash +:+ "f"
  else if (c =? 10)%Z then backslash +:+ "n"
  else if (c =? 13)%Z then backslash +:+ "r"
  else if (c =? 9)%Z then backslash +:+ "t"
  else if (c <? 32)%Z || (c =? 60)%Z || (c =? 62)%Z || (c =? 38)%Z
  then backslash +:+ "u00" +:+ hex_digit (c / 16) +:+ hex_digit (c mod 16)
  else String a "".

(** The line and paragraph separators, E2 80 A8 and E2 80 A9. *)
Definition is_separator (seq : string) : option Z :=
  match seq with
  | String a (String b (String c EmptyString)) =>
    if (byte_val a =? 226)%Z && (byte_val b =? 128)%Z &&
       ((byte_val c =? 168)%Z || (byte_val c =? 169)%Z)
    then Some (byte_val c mod 16)%Z else None
  | _ => None
  end.

(** [skip] bytes of a sequence that was written already are passed over. *)
Fixpoint escape_from (skip : nat) (s : string) : string :=
  match s with
  | EmptyString => ""
  | String a s' =>
    match skip with
    | S skip => escape_from skip s'
    | O =>
      if (byte_val a <? 128)%Z then escape_ascii a +:+ escape_from 0 s'
      else
        match rune_length s with
        | None => backslash +:+ "ufffd" +:+ escape_from 0 s'
        | Some n =>
          match is_separator (str_take n s) with
          | Some d => backslash +:+ "u202" +:+ hex_digit d
          | None => str_take n s
          end +:+ escape_from (n - 1) s'
        end
    end
  end.

Definition json_string (s : string) : string := dquote +:+ escape_from 0 s +:+ dquote.

(** ** encoding/json: maps and structs *)

(** Byte-wise order of strings, in which the keys of a map are written. *)
Fixpoint str_leb (s t : string) : bool :=
  match s, t with
  | EmptyString, _ => true
  | String _ _, EmptyString => false
  | String a s', String b t' =>
    (byte_val a <? byte_val b)%Z || ((byte_val a =? byte_val b)%Z && str_leb s' t')
  end.

Definition key_le (p q : string * string) : Prop := str_leb p.1 q.1 = true.

#[export] Instance key_le_dec p q : Decision (key_le p q).
Proof. unfold key_le. apply _. Defined.

Definition json_object (fields : list (string * string)) : string :=
  "{" +:+ Join ((λ '(k, v), json_string k +:+ ":" +:+ v) <$> fields) "," +:+ "}".

Definition json_array (xs : list string) : string := "[" +:+ Join xs "," +:+ "]".

(** [omitempty] *)
Definition omit_if (b : bool) (field : string * string) : list (string * string) :=
  if b then [] else [field].

Definition omit_str (k s : string) : list (string * string) :=
  omit_if (bool_decide (s = "")) (k, json_string s).

Section Json.
Context `{MapRange}.

Definition json_map (m : gmap string string) : string :=
  json_object ((λ '(k, v), (k, json_string v)) <$> merge_sort key_le (range m)).

Definition omit_map (k : string) (m : gomap) : list (string * string) :=
  omit_if (bool_decide (map_len m = 0)) (k, json_map (map_entries m)).

Definition json_toleration (t : Toleration) : string :=
  json_object (omit_str "key" (t_key t) ++ omit_str "operator" (t_operator t) ++
               omit_str "value" (t_value t) ++ omit_str "effect" (t_effect t)).

Definition json_env (e : EnvVar) : string :=
  json_object (("name", json_string (e_name e)) :: omit_str "value" (e_value e)).

Definition json_template (t : RunnerPodTemplate) : string :=
  let m := t_metadata t in
  let s := t_spec t in
  json_object
    [("metadata", json_object (omit_map "labels" (tm_labels m) ++
                               omit_map "annotations" (tm_annotations m)));
     ("spec", json_object
        (omit_map "nodeSelector" (rs_nodeSelector s) ++
         omit_if (bool_decide (rs_tolerations s = []))
           ("tolerations", json_array (json_toleration <$> rs_tolerations s)) ++
         [("resources", json_object (omit_map "limits" (rr_limits (rs_resources s)) ++
                                     omit_map "requests" (rr_requests (rs_resources s))))] ++
         omit_if (bool_decide (rs_env s = [])) ("env", json_array (json_env <$> rs_env s))))].

Definition json_pointer (t : option RunnerPodTemplate) : string :=
  match t with Some t => json_template t | None => "null" end.
End Json.

Record podSpecConfig : Type := mkPodSpecConfig {
  Image : string;
  RunnerSetTemplate : option RunnerPodTemplate;
  AutoscaleSetTemplate : option RunnerPodTemplate
}.

(** [json.Marshal(config)]; no value of these types makes it fail. *)
Definition json_Marshal `{MapRange} (c : podSpecConfig) : string :=
  json_object [("Image", json_string (Image c));
               ("RunnerSetTemplate", json_pointer (RunnerSetTemplate c));
               ("AutoscaleSetTemplate", json_pointer (AutoscaleSetTemplate c))].

(** ** crypto/sha256 *)

Definition word (z : Z) : Z := (z mod 2 ^ 32)%Z.
Definition rotr (n x : Z) : Z := Z.lor (Z.shiftr x n) (word (Z.shiftl x (32 - n))).
Definition not32 (x : Z) : Z := (2 ^ 32 - 1 - x)%Z.

(** The constants are "nothing up my sleeve" numbers: the first 32 bits of the
    fractional parts of the cube roots of the first 64 primes, and of the
    square roots of the first 8.  [kth_root k n r m] extends the [k]-th root
    [r] of [m] by the bits below position [n]. *)
Fixpoint kth_root (k : Z) (n : nat) (r m : Z) : Z :=
  match n with
  | O => r
  | S n =>
    let r' := (r + 2 ^ Z.of_nat n)%Z in
    kth_root k n (if (r' ^ k <=? m)%Z then r' else r) m
  end.

Definition root_fraction (k p : Z) : Z := word (kth_root k 40 0 (p * 2 ^ (32 * k))).

Definition is_prime (n : Z) : bool :=
  forallb (λ d, negb (n mod Z.of_nat d =? 0)%Z) (seq 2 (Z.to_nat n - 2)).

Definition primes (bound : nat) : list Z :=
  List.filter is_prime (Z.of_nat <$> seq 2 bound).

Definition sha_K : list Z := Eval vm_compute in root_fraction 3 <$> take 64 (primes 320).

Record sha_state : Type := mkSha {
  sa : Z; sb : Z; sc : Z; sd : Z; se : Z; sf : Z; sg : Z; sh : Z }.

Definition sha_init : sha_state := Eval vm_compute in
  match root_fraction 2 <$> primes 18 with
  | [a; b; c; d; e; f; g; h] => mkSha a b c d e f g h
  | _ => mkSha 0 0 0 0 0 0 0 0
  end.

Definition small_sigma0 (x : Z) : Z := Z.lxor (Z.lxor (rotr 7 x) (rotr 18 x)) (Z.shiftr x 3).
Definition small_sigma1 (x : Z) : Z := Z.lxor (Z.lxor (rotr 17 x) (rotr 19 x)) (Z.shiftr x 10).
Definition big_sigma0 (x : Z) : Z := Z.lxor (Z.lxor (rotr 2 x) (rotr 13 x)) (rotr 22 x).
Definition big_sigma1 (x : Z) : Z := Z.lxor (Z.lxor (rotr 6 x) (rotr 11 x)) (rotr 25 x).
Definition Ch (x y z : Z) : Z := Z.lxor (Z.land x y) (Z.land (not32 x) z).
Definition Maj (x y z : Z) : Z := Z.lxor (Z.lxor (Z.land x y) (Z.land x z)) (Z.land y z).

(** The message schedule, latest word first. *)
Fixpoint schedule (n : nat) (ws : list Z) : list Z :=
  match n with
  | O => ws
  | S n =>
    let w := word (small_sigma1 (nth 1 ws 0%Z) + nth 6 ws 0%Z +
                   small_sigma0 (nth 14 ws 0%Z) + nth 15 ws 0%Z) in
    schedule n (w :: ws)
  end.

Definition sha_round (s : sha_state) (kw : Z * Z) : sha_state :=
  let t1 := (sh s + big_sigma1 (se s) + Ch (se s) (sf s) (sg s) + kw.1 + kw.2)%Z in
  let t2 := (big_sigma0 (sa s) + Maj (sa s) (sb s) (sc s))%Z in
  mkSha (word (t1 + t2)) (sa s) (sb s) (sc s) (word (sd s + t1)) (se s) (sf s) (sg s).

Definition sha_block (s : sha_state) (block : list Z) : sha_state :=
  let ws := rev (schedule 48 (rev block)) in
  let s' := foldl sha_round s (zip sha_K ws) in
  mkSha (word (sa s + sa s')) (word (sb s + sb s')) (word (sc s + sc s')) (word (sd s + sd s'))
        (word (se s + se s')) (word (sf s + sf s')) (word (sg s + sg s')) (word (sh s + sh s')).

(** Big-endian words of four bytes, and back. *)
Fixpoint be_words (bs : list Z) : list Z :=
  match bs with
  | a :: b :: c :: d :: bs => (((a * 256 + b) * 256 + c) * 256 + d)%Z :: be_words bs
  | _ => []
  end.

Fixpoint be_bytes (n : nat) (z : Z) : list Z :=
  match n with
  | O => []
  | S n => be_bytes n (z / 256) ++ [(z mod 256)%Z]
  end.

Definition sha_pad (bs : list Z) : list Z :=
  let len := Z.of_nat (length bs) in
  bs ++ 128%Z :: replicate (Z.to_nat ((55 - len) mod 64)) 0%Z ++ be_bytes 8 (8 * len).

(** Sixteen words at a time, [n] blocks at most. *)
Fixpoint sha_blocks (n : nat) (s : sha_state) (ws : list Z) : sha_state :=
  match n with
  | O => s
  | S n => match ws with [] => s | _ => sha_blocks n (sha_block s (take 16 ws)) (drop 16 ws) end
  end.

Definition Sum256 (msg : string) : list Z :=
  let ws := be_words (sha_pad (byte_val <$> String.list_ascii_of_string msg)) in
  let s := sha_blocks (length ws) sha_init ws in
  mjoin (be_bytes 4 <$> [sa s; sb s; sc s; sd s; se s; sf s; sg s; sh s]).

(** ** encoding/hex *)

Definition EncodeToString (bs : list Z) : string :=
  Join ((λ b, hex_digit (b / 16) +:+ hex_digit (b mod 16)) <$> bs) "".

(** ** computePodSpecHash *)

Definition computePodSpecHash `{MapRange} (runnerImage : string)
    (runnerSetTemplate autoscaleSetTemplate : option RunnerPodTemplate) : string :=
  let config := mkPodSpecConfig runnerImage runnerSetTemplate autoscaleSetTemplate in
  let configBytes := json_Marshal config in
  let hash := Sum256 configBytes in
  str_take 16 (EncodeToString hash).

(** The digests of the standard's examples, of one block and of two. *)
Example Sum256_abc :
  EncodeToString (Sum256 "abc") =
  "ba7816bf8f01cfea414140de5dae2223b00361a396177a9cb410ff61f20015ad".
Proof. vm_compute. reflexivity. Qed.

Example Sum256_two_blocks :
  EncodeToString (Sum256 "abcdbcdecdefdefgefghfghighijhijkijkljklmklmnlmnomnopnopq") =
  "248d6a61d20638b8e5c026930c3e6039a33ce45964ff2167f6ecedd419db06c1".
Proof. vm_compute. reflexivity. Qed.

(** ** Lemmas *)

Lemma str_leb_total s t : str_leb s t = true ∨ str_leb t s = true.
Proof.
  revert t. induction s as [|a s IH]; intros [|b t]; simpl; [by left|by left|by right|].
  rewrite !orb_true_iff, !andb_true_iff, !Z.ltb_lt, !Z.eqb_eq.
  destruct (IH t), (Z.lt_trichotomy (byte_val a) (byte_val b)) as [?|[?|?]]; naive_solver lia.
Qed.

Lemma str_leb_trans s t u : str_leb s t = true → str_leb t u = true → str_leb s u = true.
Proof.
  revert t u. induction s as [|a s IH]; intros [|b t] [|c u]; simpl; try done.
  rewrite !orb_true_iff, !andb_true_iff, !Z.ltb_lt, !Z.eqb_eq.
  intros [?|[? Hst]] [?|[? Htu]]; [left; lia..|]. right. split; [lia|]. by eapply IH.
Qed.

Lemma str_leb_antisym s t : str_leb s t = true → str_leb t s = true → s = t.
Proof.
  revert t. induction s as [|a s IH]; intros [|b t]; simpl; try done.
  rewrite !orb_true_iff, !andb_true_iff, !Z.ltb_lt, !Z.eqb_eq.
  intros [?|[Hab Hst]] [?|[? Hts]]; try lia. f_equal; [|by apply IH].
  unfold byte_val in Hab. apply Nat2Z.inj in Hab.
  rewrite <- (ascii_nat_embedding a), <- (ascii_nat_embedding b). by rewrite Hab.
Qed.

#[export] Instance key_le_trans : Transitive key_le.
Proof. intros p q r. apply str_leb_trans. Qed.

#[export] Instance key_le_total : Total key_le.
Proof. intros p q. apply str_leb_total. Qed.

(** Sorting the entries of a map forgets the order they were listed in. *)
Lemma sorted_range (R1 R2 : MapRange) (m : gmap string string) :
  merge_sort key_le (@range R1 _ _ _ _ m) = merge_sort key_le (@range R2 _ _ _ _ m).
Proof.
  apply (StronglySorted_unique_strong key_le).
  - intros [k v] [k' v']. rewrite !merge_sort_Permutation, !range_elem_of. intros Hv Hv' H1 H2.
    assert (k = k') as <- by by apply str_leb_antisym. by simplify_eq.
  - apply StronglySorted_merge_sort; apply _.
  - apply StronglySorted_merge_sort; apply _.
  - rewrite !merge_sort_Permutation. by rewrite !range_perm.
Qed.

Lemma json_map_order (R1 R2 : MapRange) (m : gmap string string) :
  @json_map R1 m = @json_map R2 m.
Proof. unfold json_map. by rewrite (sorted_range R1 R2). Qed.

Lemma omit_map_order (R1 R2 : MapRange) k m m' :
  map_entries m = map_entries m' → @omit_map R1 k m = @omit_map R2 k m'.
Proof. unfold omit_map, map_len. intros ->. by rewrite (json_map_order R1 R2). Qed.

(** The same template up to the difference between nil and empty maps. *)
Definition same_content (s t : option RunnerPodTemplate) : Prop :=
  match s, t with
  | None, None => True
  | Some s, Some t =>
    map_entries (tm_labels (t_metadata s)) = map_entries (tm_labels (t_metadata t)) ∧
    map_entries (tm_annotations (t_metadata s)) = map_entries (tm_annotations (t_metadata t)) ∧
    map_entries (rs_nodeSelector (t_spec s)) = map_entries (rs_nodeSelector (t_spec t)) ∧
    map_entries (rr_limits (rs_resources (t_spec s))) =
      map_entries (rr_limits (rs_resources (t_spec t))) ∧
    map_entries (rr_requests (rs_resources (t_spec s))) =
      map_entries (rr_requests (rs_resources (t_spec t))) ∧
    rs_env (t_spec s) = rs_env (t_spec t) ∧
    rs_tolerations (t_spec s) = rs_tolerations (t_spec t)
  | _, _ => False
  end.

Lemma json_pointer_order (R1 R2 : MapRange) s t :
  same_content s t → @json_pointer R1 s = @json_pointer R2 t.
Proof.
  destruct s as [s|], t as [t|]; try done.
  intros (Hl & Ha & Hn & Hli & Hr & He & Ht). cbn [json_pointer]. unfold json_template.
  rewrite (omit_map_order R1 R2 _ _ _ Hl), (omit_map_order R1 R2 _ _ _ Ha),
    (omit_map_order R1 R2 _ _ _ Hn), (omit_map_order R1 R2 _ _ _ Hli),
    (omit_map_order R1 R2 _ _ _ Hr), He, Ht. done.
Qed.

Lemma be_bytes_length n z : length (be_bytes n z) = n.
Proof. revert z. induction n; intros z; simpl; [done|]. rewrite length_app, IHn. simpl. lia. Qed.

Lemma Sum256_length msg : length (Sum256 msg) = 32.
Proof. unfold Sum256. cbn [mjoin fmap list_fmap list_join]. by rewrite !length_app, !be_bytes_length. Qed.

Lemma EncodeToString_length bs : String.length (EncodeToString bs) = 2 * length bs.
Proof.
  unfold EncodeToString. induction bs as [|b bs IH]; [done|].
  rewrite fmap_cons. cbn [Join length]. destruct bs as [|b' bs]; [done|].
  rewrite fmap_cons in *. cbn [length] in *. rewrite !length_append, IH.
  cbn. lia.
Qed.

Lemma str_take_length n s : n <= String.length s → String.length (str_take n s) = n.
Proof. revert s. induction n; intros [|a s]; simpl; [done..|lia|]. intros. by rewrite IHn by lia. Qed.

(** ** Properties *)

(** C27. The pod specification hash is a function of what the templates say: the
    iteration order of the maps and the difference between a nil and an empty
    map never change it, so reconciling an unchanged RunnerSet never rolls its
    runners out; and it always has sixteen characters. *)
Theorem computePodSpecHash_stable (R1 R2 : MapRange) image s s' t t' :
  same_content s s' → same_content t t' →
  @computePodSpecHash R1 image s t = @computePodSpecHash R2 image s' t' ∧
  String.length (@computePodSpecHash R1 image s t) = 16.
Proof.
  intros Hs Ht. split.
  - unfold computePodSpecHash, json_Marshal. cbn [Image RunnerSetTemplate AutoscaleSetTemplate].
    by rewrite (json_pointer_order R1 R2 _ _ Hs), (json_pointer_order R1 R2 _ _ Ht).
  - unfold computePodSpecHash. apply str_take_length.
    rewrite EncodeToString_length, Sum256_length. lia.
Qed.

(** The entries of a map in the opposite order. *)
Definition map_range_reversed : MapRange.
Proof.
  refine {| range := λ K _ _ V m, rev (map_to_list m) |}.
  intros. apply Permutation_sym, Permutation_rev.
Defined.

Definition ci_template : RunnerPodTemplate :=
  mkTemplate (mkTemplateMetadata (Some {["team" := "ci"; "app" := "<runner>"]}) None)
    (mkRunnerPodSpec None [mkToleration "gpu" "Exists" "" ""]
       (mkResourceRequirements (Some {["cpu" := "2"]}) (Some ∅)) [mkEnvVar "A" ""; mkEnvVar "B" "1"]).

Lemma computePodSpecHash_stable_witness :
  let t' := mkTemplate (t_metadata ci_template)
              (mkRunnerPodSpec (Some ∅) (rs_tolerations (t_spec ci_template))
                 (mkResourceRequirements (rr_limits (rs_resources (t_spec ci_template))) None)
                 (rs_env (t_spec ci_template))) in
  @computePodSpecHash map_range_default "img" (Some ci_template) None =
    @computePodSpecHash map_range_reversed "img" (Some t') None ∧
  @computePodSpecHash map_range_default "img" (Some ci_template) None = "aea5cb7728facbff".
Proof.
  intros t'. split; [|vm_compute; reflexivity].
  refine (proj1 (computePodSpecHash_stable map_range_default map_range_reversed "img"
            (Some ci_template) (Some t') None None _ _)); [|done].
  repeat split.
Defined.
