(* ===== verification/Json.v ===== *)
(** * What the pod specification hash can tell apart

    A reader for the JSON that [Digest] writes, and the round trip: what
    [json.Marshal] writes determines the image and the contents of the
    templates.  The reader is no part of the controller; it is the evidence
    that the text the hash is taken of loses nothing. *)

From S2P Require Export Digest.

(** ** Strings *)

Definition hex_val (a : ascii) : option Z :=
  let c := byte_val a in
  if between 48 c 57 then Some (c - 48)%Z
  else if between 97 c 102 then Some (c - 87)%Z
  else if between 65 c 70 then Some (c - 55)%Z else None.

Definition code4 (a b c d : ascii) : option Z :=
  a ← hex_val a; b ← hex_val b; c ← hex_val c; d ← hex_val d;
  Some (((a * 16 + b) * 16 + c) * 16 + d)%Z.

(** The UTF-8 encoding of a code point of the basic plane. *)
Definition utf8_encode (z : Z) : string :=
  if (z <? 128)%Z then String (byte_of z) ""
  else if (z <? 2048)%Z
  then String (byte_of (192 + z / 64)) (String (byte_of (128 + z mod 64)) "")
  else String (byte_of (224 + z / 4096))
         (String (byte_of (128 + z / 64 mod 64)) (String (byte_of (128 + z mod 64)) "")).

Definition unescape_char (a : ascii) : option ascii :=
  let c := byte_val a in
  if (c =? 34)%Z || (c =? 92)%Z || (c =? 47)%Z then Some a
  else if (c =? 98)%Z then Some (byte_of 8)
  else if (c =? 102)%Z then Some (byte_of 12)
  else if (c =? 110)%Z then Some (byte_of 10)
  else if (c =? 114)%Z then Some (byte_of 13)
  else if (c =? 116)%Z then Some (byte_of 9)
  else None.

Definition prepend (p : string) (r : option (string * string)) : option (string * string) :=
  match r with Some (t, rest) => Some (p +:+ t, rest) | None => None end.

(** The characters up to the closing quote, and what follows it. *)
Fixpoint parse_chars (s : string) : option (string * string) :=
  match s with
  | EmptyString => None
  | String a s1 =>
    if (byte_val a =? 34)%Z then Some ("", s1)
    else if (byte_val a =? 92)%Z then
      match s1 with
      | EmptyString => None
      | String b s2 =>
        if (byte_val b =? 117)%Z then
          match s2 with
          | String c (String d (String e (String f s6))) =>
            match code4 c d e f with
            | Some z => prepend (utf8_encode z) (parse_chars s6)
            | None => None
            end
          | _ => None
          end
        else
          match unescape_char b with
          | Some c => prepend (String c "") (parse_chars s2)
          | None => None
          end
      end
    else prepend (String a "") (parse_chars s1)
  end.

(** U+FFFD *)
Definition replacement : string := utf8_encode 65533.

(** What a string is read back as: bytes that are not UTF-8 are replaced. *)
Fixpoint to_valid_from (skip : nat) (s : string) : string :=
  match s with
  | EmptyString => ""
  | String a s' =>
    match skip with
    | S skip => to_valid_from skip s'
    | O =>
      if (byte_val a <? 128)%Z then String a (to_valid_from 0 s')
      else
        match rune_length s with
        | None => replacement +:+ to_valid_from 0 s'
        | Some n => str_take n s +:+ to_valid_from (n - 1) s'
        end
    end
  end.

Definition to_valid (s : string) : string := to_valid_from 0 s.

(** [utf8.ValidString] *)
Definition valid_utf8 (s : string) : Prop := to_valid s = s.

#[export] Instance valid_utf8_dec s : Decision (valid_utf8 s).
Proof. unfold valid_utf8. apply _. Defined.

Lemma prepend_Some p t rest : prepend p (Some (t, rest)) = Some (p +:+ t, rest).
Proof. done. Qed.

Lemma parse_escaped_ascii a X :
  (byte_val a < 128)%Z → parse_chars (escape_ascii a +:+ X) = prepend (String a "") (parse_chars X).
Proof.
  intros Ha. destruct a as [[] [] [] [] [] [] [] []]; try (by vm_compute in Ha);
    vm_compute; reflexivity.
Qed.

(** Bytes outside ASCII are read as they are. *)
Lemma parse_high_byte a X :
  (128 ≤ byte_val a)%Z → parse_chars (String a X) = prepend (String a "") (parse_chars X).
Proof.
  intros Ha. cbn [parse_chars].
  rewrite (proj2 (Z.eqb_neq _ _)) by lia. rewrite (proj2 (Z.eqb_neq _ _)) by lia. done.
Qed.

Lemma prepend_prepend p q r : prepend p (prepend q r) = prepend (p +:+ q) r.
Proof. destruct r as [[t rest]|]; [|done]. simpl. by rewrite append_assoc. Qed.

Fixpoint all_high (s : string) : Prop :=
  match s with EmptyString => True | String a s => (128 ≤ byte_val a)%Z ∧ all_high s end.

Lemma parse_high s X : all_high s → parse_chars (s +:+ X) = prepend s (parse_chars X).
Proof.
  induction s as [|a s IH]; [intros _; change ("" +:+ X) with X; by destruct (parse_chars X) as [[]|]|].
  intros [Ha Hs]. change (String a s +:+ X) with (String a (s +:+ X)).
  by rewrite parse_high_byte, IH, prepend_prepend by done.
Qed.

Lemma rune_high a s n :
  (128 ≤ byte_val a)%Z → rune_length (String a s) = Some n → all_high (str_take n (String a s)).
Proof.
  unfold rune_length, between. intros Ha. rewrite (proj2 (Z.ltb_ge _ _)) by lia.
  intros Hn. repeat (case_match; simplify_eq; breflect); cbn [str_take all_high]; lia.
Qed.

Lemma separator_escaped seq d X :
  is_separator seq = Some d →
  parse_chars ((backslash +:+ "u202" +:+ hex_digit d) +:+ X) = prepend seq (parse_chars X).
Proof.
  destruct seq as [|a [|b [|c [|? ?]]]]; try done. cbn [is_separator]. intros Hd.
  destruct (_ && _) eqn:He in Hd; [|done]. apply andb_prop in He as [[Ha Hb]%andb_prop Hc].
  assert (Hbyte : ∀ x z, (byte_val x =? z)%Z = true → x = byte_of z).
  { intros x z <-%Z.eqb_eq. unfold byte_val, byte_of. by rewrite Nat2Z.id, ascii_nat_embedding. }
  apply Hbyte in Ha as ->. apply Hbyte in Hb as ->.
  apply orb_prop in Hc as [->%Hbyte| ->%Hbyte]; injection Hd as <-; reflexivity.
Qed.

Lemma parse_escape_from skip s rest :
  parse_chars (escape_from skip s +:+ dquote +:+ rest) = Some (to_valid_from skip s, rest).
Proof.
  revert skip. induction s as [|a s IH]; intros skip; [done|].
  destruct skip as [|skip]; [|apply IH]. cbn [escape_from to_valid_from].
  destruct (byte_val a <? 128)%Z eqn:Ha; breflect.
  { by rewrite append_assoc, parse_escaped_ascii, IH by done. }
  destruct (rune_length (String a s)) as [n|] eqn:Hn.
  - rewrite append_assoc. destruct (is_separator _) as [d|] eqn:Hd.
    + by rewrite (separator_escaped _ _ _ Hd), IH.
    + by rewrite parse_high, IH by by apply rune_high.
  - rewrite !append_assoc. transitivity (prepend replacement (parse_chars
      (escape_from 0 s +:+ dquote +:+ rest))); [|by rewrite IH].
    generalize (escape_from 0 s +:+ dquote +:+ rest). intros X. reflexivity.
Qed.

Definition quote_char : ascii := ascii_of_nat 34.

Lemma json_string_cons s X :
  json_string s +:+ X = String quote_char (escape_from 0 s +:+ dquote +:+ X).
Proof. unfold json_string. by rewrite !append_assoc. Qed.

(** ** Values *)

#[local] Set Warnings "-register-all".

Inductive json : Type :=
| JNull
| JStr (s : string)
| JArr (vs : list json)
| JObj (fs : list (string * json)).

(** Induction through the lists. *)
Definition json_ind_nested (P : json → Prop) (Hnull : P JNull) (Hstr : ∀ s, P (JStr s))
    (Harr : ∀ vs, Forall P vs → P (JArr vs))
    (Hobj : ∀ fs, Forall (λ f, P f.2) fs → P (JObj fs)) : ∀ v, P v :=
  fix go v :=
    match v with
    | JNull => Hnull
    | JStr s => Hstr s
    | JArr vs => Harr vs ((fix all vs : Forall P vs :=
        match vs with [] => Forall_nil_2 _ | v :: vs => Forall_cons_2 _ _ _ (go v) (all vs) end) vs)
    | JObj fs => Hobj fs ((fix all fs : Forall (λ f, P f.2) fs :=
        match fs with [] => Forall_nil_2 _ | f :: fs => Forall_cons_2 _ _ _ (go f.2) (all fs) end) fs)
    end.

Fixpoint json_print (v : json) : string :=
  match v with
  | JNull => "null"
  | JStr s => json_string s
  | JArr vs => json_array (json_print <$> vs)
  | JObj fs => json_object ((λ f, (f.1, json_print f.2)) <$> fs)
  end.

(** What a value is read back as. *)
Fixpoint json_valid (v : json) : json :=
  match v with
  | JNull => JNull
  | JStr s => JStr (to_valid s)
  | JArr vs => JArr (json_valid <$> vs)
  | JObj fs => JObj ((λ f, (to_valid f.1, json_valid f.2)) <$> fs)
  end.

(** The first character. *)
Definition starts (a : ascii) (s : string) : bool :=
  match s with String b _ => bool_decide (b = a) | EmptyString => false end.

Fixpoint parse_value (fuel : nat) (s : string) : option (json * string) :=
  match fuel, s with
  | O, _ | _, EmptyString => None
  | S fuel, String a s' =>
    if bool_decide (a = quote_char) then
      '(t, r) ← parse_chars s'; Some (JStr t, r)
    else if bool_decide (a = "["%char) then
      if starts "]" s' then Some (JArr [], str_drop 1 s')
      else '(vs, r) ← parse_elems fuel s'; Some (JArr vs, r)
    else if bool_decide (a = "{"%char) then
      if starts "}" s' then Some (JObj [], str_drop 1 s')
      else '(fs, r) ← parse_fields fuel s'; Some (JObj fs, r)
    else if HasPrefix s "null" then Some (JNull, str_drop 4 s)
    else None
  end
with parse_elems (fuel : nat) (s : string) : option (list json * string) :=
  match fuel with
  | O => None
  | S fuel =>
    '(v, r) ← parse_value fuel s;
    if starts "," r then '(vs, r) ← parse_elems fuel (str_drop 1 r); Some (v :: vs, r)
    else if starts "]" r then Some ([v], str_drop 1 r) else None
  end
with parse_fields (fuel : nat) (s : string) : option (list (string * json) * string) :=
  match fuel, s with
  | O, _ | _, EmptyString => None
  | S fuel, String a s' =>
    if bool_decide (a = quote_char) then
      '(k, r) ← parse_chars s';
      if starts ":" r then
        '(v, r) ← parse_value fuel (str_drop 1 r);
        if starts "," r then '(fs, r) ← parse_fields fuel (str_drop 1 r); Some ((k, v) :: fs, r)
        else if starts "}" r then Some ([(k, v)], str_drop 1 r) else None
      else None
    else None
  end.

Definition json_parse (s : string) : option json :=
  match parse_value (String.length s) s with
  | Some (v, EmptyString) => Some v
  | _ => None
  end.

(** The fuel a value needs. *)
Fixpoint need (v : json) : nat :=
  match v with
  | JNull | JStr _ => 1
  | JArr vs => 1 + sum_list ((λ v, 1 + need v) <$> vs)
  | JObj fs => 1 + sum_list ((λ f, 1 + need f.2) <$> fs)
  end.

Definition reads_back (v : json) : Prop :=
  ∀ fuel rest, need v ≤ fuel → parse_value fuel (json_print v +:+ rest) = Some (json_valid v, rest).

Lemma print_head v X : starts "]" (json_print v +:+ X) = false.
Proof. by destruct v. Qed.

(** Step past a separator that is there. *)
Ltac past :=
  cbn [mbind option_bind];
  repeat match goal with
         | |- context [starts ?a (String.app (String ?b EmptyString) ?X)] =>
           change (starts a (String.app (String b EmptyString) X)) with (bool_decide (b = a));
           first [rewrite (bool_decide_eq_true_2 (b = a)) by done
                 |rewrite (bool_decide_eq_false_2 (b = a)) by done]
         | |- context [str_drop 1 (String.app (String ?b EmptyString) ?X)] =>
           change (str_drop 1 (String.app (String b EmptyString) X)) with X
         end; cbn iota.

Lemma elems_read_back vs fuel rest :
  vs ≠ [] → Forall reads_back vs → sum_list ((λ v, 1 + need v) <$> vs) ≤ fuel →
  parse_elems fuel (Join (json_print <$> vs) "," +:+ "]" +:+ rest) = Some (json_valid <$> vs, rest).
Proof.
  intros Hne Hvs. revert fuel. induction Hvs as [|v vs Hv Hvs IH]; intros fuel Hf; [done|].
  destruct fuel as [|fuel]; [simpl in Hf; lia|]. simpl in Hf.
  cbn [parse_elems]. destruct vs as [|v' vs].
  - cbn [fmap list_fmap Join]. rewrite Hv by lia. by past.
  - change (Join (json_print <$> v :: v' :: vs) ",")
      with (json_print v +:+ "," +:+ Join (json_print <$> v' :: vs) ",").
    rewrite !append_assoc, Hv by lia. past. rewrite IH; [done|done|]. simpl in Hf |- *. lia.
Qed.

Lemma fields_read_back fs fuel rest :
  fs ≠ [] → Forall (λ f, reads_back f.2) fs → sum_list ((λ f, 1 + need f.2) <$> fs) ≤ fuel →
  parse_fields fuel (Join ((λ f, json_string f.1 +:+ ":" +:+ json_print f.2) <$> fs) "," +:+ "}" +:+ rest) =
    Some ((λ f, (to_valid f.1, json_valid f.2)) <$> fs, rest).
Proof.
  intros Hne Hfs. revert fuel. induction Hfs as [|[k v] fs Hv Hfs IH]; intros fuel Hf; [done|].
  destruct fuel as [|fuel]; [simpl in Hf; lia|]. simpl in Hf, Hv.
  destruct fs as [|f' fs].
  - cbn [fmap list_fmap Join fst snd]. rewrite !append_assoc, json_string_cons.
    cbn [parse_fields]. rewrite bool_decide_eq_true_2 by done.
    rewrite parse_escape_from. past. rewrite Hv by lia. by past.
  - rewrite fmap_cons. cbn [fst snd].
    change (Join (?x :: ((λ f, json_string f.1 +:+ ":" +:+ json_print f.2) <$> f' :: fs)) ",")
      with (x +:+ "," +:+ Join ((λ f, json_string f.1 +:+ ":" +:+ json_print f.2) <$> f' :: fs) ",").
    rewrite !append_assoc, json_string_cons.
    cbn [parse_fields]. rewrite bool_decide_eq_true_2 by done.
    rewrite parse_escape_from. past. rewrite Hv by lia. past.
    rewrite IH; [done|done|]. simpl in Hf |- *. lia.
Qed.

Lemma json_reads_back v : reads_back v.
Proof.
  induction v as [|s|vs IH|fs IH] using json_ind_nested; intros [|fuel] rest Hf;
    try (simpl in Hf; lia).
  - change (parse_value (S fuel) (json_print JNull +:+ rest)) with
      (if HasPrefix ("null" +:+ rest) "null" then Some (JNull, rest) else None).
    by rewrite HasPrefix_app.
  - cbn [json_print json_valid]. rewrite json_string_cons. cbn [parse_value].
    rewrite bool_decide_eq_true_2 by done. by rewrite parse_escape_from.
  - destruct vs as [|v vs]; [done|].
    assert (Hh : starts "]" (Join (json_print <$> v :: vs) "," +:+ "]" +:+ rest) = false).
    { rewrite fmap_cons. destruct (json_print <$> vs) as [|x xs]; cbn [Join];
        rewrite ?append_assoc; apply print_head. }
    cbn [json_print json_valid]. unfold json_array. rewrite !append_assoc.
    change (parse_value (S fuel) ("[" +:+ ?X)) with
      (if starts "]" X then Some (JArr [], str_drop 1 X)
       else '(vs, r) ← parse_elems fuel X; Some (JArr vs, r)).
    rewrite Hh, elems_read_back; [done|done|done|]. simpl in Hf |- *. lia.
  - destruct fs as [|f fs]; [done|].
    cbn [json_print json_valid]. unfold json_object. rewrite !append_assoc.
    rewrite <- list_fmap_compose.
    change ((λ '(k, v), json_string k +:+ ":" +:+ v) ∘ (λ f, (f.1, json_print f.2)))
      with (λ f, json_string f.1 +:+ ":" +:+ json_print f.2).
    set (body := Join ((λ f, json_string f.1 +:+ ":" +:+ json_print f.2) <$> f :: fs) ",").
    assert (Hh : starts "}" (body +:+ "}" +:+ rest) = false).
    { unfold body. rewrite fmap_cons. destruct (_ <$> fs); done. }
    change (parse_value (S fuel) ("{" +:+ ?X)) with
      (if starts "}" X then Some (JObj [], str_drop 1 X)
       else '(fs, r) ← parse_fields fuel X; Some (JObj fs, r)).
    rewrite Hh. unfold body. rewrite fields_read_back; [done|done|done|]. simpl in Hf |- *. lia.
Qed.

(** A value needs no more fuel than it has characters. *)
Lemma join_length x (xs : list string) sep :
  String.length sep = 1 →
  S (String.length (Join (x :: xs) sep)) = sum_list ((λ x, 1 + String.length x) <$> x :: xs).
Proof.
  intros Hs. revert x. induction xs as [|x' xs IH]; intros x; [simpl; lia|].
  change (Join (x :: x' :: xs) sep) with (x +:+ sep +:+ Join (x' :: xs) sep).
  rewrite !length_append, Hs, fmap_cons. specialize (IH x'). simpl in IH |- *. lia.
Qed.

(** The length of the printed parts bounds what they need. *)
Lemma need_join {X} (f : X → string) (n : X → nat) (xs : list X) :
  Forall (λ x, n x ≤ String.length (f x)) xs →
  sum_list ((λ x, 1 + n x) <$> xs) ≤ S (String.length (Join (f <$> xs) ",")).
Proof.
  intros Hn. destruct xs as [|x xs]; [simpl; lia|].
  change (Join (f <$> x :: xs) ",") with (Join (f x :: (f <$> xs)) ",").
  rewrite join_length by done. change (f x :: (f <$> xs)) with (f <$> x :: xs).
  induction Hn as [|w ws Hw _ IH]; [simpl; lia|].
  rewrite !fmap_cons. cbn [sum_list_with id]. lia.
Qed.

Lemma need_length v : need v ≤ String.length (json_print v).
Proof.
  induction v as [|s|vs IH|fs IH] using json_ind_nested; cbn [need json_print].
  - simpl. lia.
  - unfold json_string. rewrite length_append. simpl. lia.
  - unfold json_array. rewrite !length_append. pose proof (need_join _ _ _ IH). simpl String.length. lia.
  - unfold json_object. rewrite !length_append, <- list_fmap_compose.
    pose proof (need_join ((λ '(k, v), json_string k +:+ ":" +:+ v) ∘ (λ f, (f.1, json_print f.2)))
      (λ f, need f.2) fs) as Hj. simpl String.length.
    assert (Hf : Forall (λ x, need x.2 ≤ String.length
      (((λ '(k, v), json_string k +:+ ":" +:+ v) ∘ (λ f, (f.1, json_print f.2))) x)) fs).
    { eapply Forall_impl; [exact IH|]. intros [k v] Hv. simpl in Hv |- *. rewrite !length_append. lia. }
    apply Hj in Hf. lia.
Qed.

(** What is printed is read back, up to bytes that are not UTF-8. *)
Lemma json_parse_print v : json_parse (json_print v) = Some (json_valid v).
Proof.
  unfold json_parse. pose proof (json_reads_back v _ "" (need_length v)) as Hr.
  rewrite append_nil_r in Hr. by rewrite Hr.
Qed.

(** ** The value [json.Marshal] writes *)
Section Tree.
Context `{MapRange}.

Definition tree_str (k s : string) : list (string * json) :=
  if bool_decide (s = "") then [] else [(k, JStr s)].

Definition tree_map (m : gmap string string) : json :=
  JObj ((λ f, (f.1, JStr f.2)) <$> merge_sort key_le (range m)).

Definition tree_omap (k : string) (m : gomap) : list (string * json) :=
  if bool_decide (map_len m = 0) then [] else [(k, tree_map (map_entries m))].

Definition tree_list {A} (k : string) (f : A → json) (l : list A) : list (string * json) :=
  match l with [] => [] | _ => [(k, JArr (f <$> l))] end.

Definition tree_toleration (t : Toleration) : json :=
  JObj (tree_str "key" (t_key t) ++ tree_str "operator" (t_operator t) ++
        tree_str "value" (t_value t) ++ tree_str "effect" (t_effect t)).

Definition tree_env (e : EnvVar) : json :=
  JObj (("name", JStr (e_name e)) :: tree_str "value" (e_value e)).

Definition tree_metadata (m : RunnerPodTemplateMetadata) : json :=
  JObj (tree_omap "labels" (tm_labels m) ++ tree_omap "annotations" (tm_annotations m)).

Definition tree_resources (r : ResourceRequirements) : json :=
  JObj (tree_omap "limits" (rr_limits r) ++ tree_omap "requests" (rr_requests r)).

Definition tree_spec (s : RunnerPodSpec) : json :=
  JObj (tree_omap "nodeSelector" (rs_nodeSelector s) ++
        tree_list "tolerations" tree_toleration (rs_tolerations s) ++
        [("resources", tree_resources (rs_resources s))] ++
        tree_list "env" tree_env (rs_env s)).

Definition tree_template (t : option RunnerPodTemplate) : json :=
  match t with
  | None => JNull
  | Some t => JObj [("metadata", tree_metadata (t_metadata t)); ("spec", tree_spec (t_spec t))]
  end.

Definition tree_config (c : podSpecConfig) : json :=
  JObj [("Image", JStr (Image c)); ("RunnerSetTemplate", tree_template (RunnerSetTemplate c));
        ("AutoscaleSetTemplate", tree_template (AutoscaleSetTemplate c))].

Definition printed (fs : list (string * json)) : list (string * string) :=
  (λ f, (f.1, json_print f.2)) <$> fs.

Lemma printed_str k s : printed (tree_str k s) = omit_str k s.
Proof. unfold tree_str, omit_str, omit_if. by case_bool_decide. Qed.

Lemma print_map m : json_print (tree_map m) = json_map m.
Proof.
  unfold tree_map, json_map. cbn [json_print]. rewrite <- list_fmap_compose. f_equal.
  apply list_fmap_ext. by intros ? [k v] _.
Qed.

Lemma printed_map k m : printed (tree_omap k m) = omit_map k m.
Proof.
  unfold tree_omap, omit_map, omit_if. case_bool_decide; [done|].
  unfold printed. cbn [fmap list_fmap fst snd]. by rewrite print_map.
Qed.

Lemma printed_list {A} k (f : A → json) (g : A → string) l (E : Decision (l = [])) :
  (∀ x, json_print (f x) = g x) →
  printed (tree_list k f l) = omit_if (bool_decide (l = [])) (k, json_array (g <$> l)).
Proof.
  intros Hfg. destruct l as [|x l]; [by rewrite bool_decide_eq_true_2|].
  rewrite bool_decide_eq_false_2 by done.
  change (printed (tree_list k f (x :: l)))
    with [(k, json_array (json_print <$> (f <$> x :: l)))].
  assert (json_print <$> (f <$> x :: l) = g <$> x :: l) as ->; [|done].
  rewrite <- list_fmap_compose. apply list_fmap_ext. intros ? ? _. apply Hfg.
Qed.

Lemma printed_app fs gs : printed (fs ++ gs) = printed fs ++ printed gs.
Proof. apply fmap_app. Qed.

Lemma print_object fs : json_print (JObj fs) = json_object (printed fs).
Proof. done. Qed.

Lemma print_template t : json_print (tree_template t) = json_pointer t.
Proof.
  destruct t as [t|]; [|done]. cbn [tree_template json_pointer]. unfold json_template.
  rewrite print_object. cbn [printed fmap list_fmap fst snd].
  unfold tree_metadata, tree_spec, tree_resources. rewrite !print_object, !printed_app, !printed_map.
  unfold json_template. do 6 f_equal.
  assert (Ht : ∀ x, json_print (tree_toleration x) = json_toleration x).
  { intros x. unfold tree_toleration, json_toleration. by rewrite print_object, !printed_app, !printed_str. }
  assert (He : ∀ x, json_print (tree_env x) = json_env x).
  { intros x. unfold tree_env, json_env. rewrite print_object. cbn [printed fmap list_fmap].
    by rewrite <- printed_str. }
  rewrite (printed_list _ _ _ _ _ Ht), (printed_list _ _ _ _ _ He).
  cbn [printed fmap list_fmap fst snd]. by rewrite print_object, printed_app, !printed_map.
Qed.

Lemma print_config c : json_print (tree_config c) = json_Marshal c.
Proof.
  unfold tree_config, json_Marshal. rewrite print_object. cbn [printed fmap list_fmap fst snd].
  by rewrite !print_template.
Qed.
End Tree.

(** ** Reading a configuration

    As [json.Unmarshal] does: unknown fields are ignored, missing ones zero. *)
Fixpoint get (k : string) (fs : list (string * json)) : option json :=
  match fs with
  | [] => None
  | f :: fs => if bool_decide (f.1 = k) then Some f.2 else get k fs
  end.

Definition read_str (v : option json) : string :=
  match v with Some (JStr s) => s | _ => "" end.
Definition read_fields (v : option json) : list (string * json) :=
  match v with Some (JObj fs) => fs | _ => [] end.
Definition read_list {A} (f : option json → A) (v : option json) : list A :=
  match v with Some (JArr vs) => (λ v, f (Some v)) <$> vs | _ => [] end.
Definition read_map (v : option json) : gomap :=
  match v with
  | Some (JObj fs) => Some (list_to_map ((λ f, (f.1, read_str (Some f.2))) <$> fs))
  | _ => None
  end.

Definition read_toleration (v : option json) : Toleration :=
  let fs := read_fields v in
  mkToleration (read_str (get "key" fs)) (read_str (get "operator" fs))
    (read_str (get "value" fs)) (read_str (get "effect" fs)).
Definition read_env (v : option json) : EnvVar :=
  let fs := read_fields v in mkEnvVar (read_str (get "name" fs)) (read_str (get "value" fs)).
Definition read_metadata (v : option json) : RunnerPodTemplateMetadata :=
  let fs := read_fields v in
  mkTemplateMetadata (read_map (get "labels" fs)) (read_map (get "annotations" fs)).
Definition read_resources (v : option json) : ResourceRequirements :=
  let fs := read_fields v in
  mkResourceRequirements (read_map (get "limits" fs)) (read_map (get "requests" fs)).
Definition read_spec (v : option json) : RunnerPodSpec :=
  let fs := read_fields v in
  mkRunnerPodSpec (read_map (get "nodeSelector" fs))
    (read_list read_toleration (get "tolerations" fs))
    (read_resources (get "resources" fs)) (read_list read_env (get "env" fs)).
Definition read_template (v : option json) : option RunnerPodTemplate :=
  match v with
  | Some (JObj fs) => Some (mkTemplate (read_metadata (get "metadata" fs)) (read_spec (get "spec" fs)))
  | _ => None
  end.

Definition json_Unmarshal (s : string) : option podSpecConfig :=
  match json_parse s with
  | Some (JObj fs) =>
    Some (mkPodSpecConfig (read_str (get "Image" fs)) (read_template (get "RunnerSetTemplate" fs))
            (read_template (get "AutoscaleSetTemplate" fs)))
  | _ => None
  end.

(** What the encoding forgets: an empty map becomes nil. *)
Definition normal_map (m : gomap) : gomap :=
  if bool_decide (map_entries m = ∅) then None else m.

Definition normal_template (t : RunnerPodTemplate) : RunnerPodTemplate :=
  let m := t_metadata t in
  let s := t_spec t in
  mkTemplate (mkTemplateMetadata (normal_map (tm_labels m)) (normal_map (tm_annotations m)))
    (mkRunnerPodSpec (normal_map (rs_nodeSelector s)) (rs_tolerations s)
       (mkResourceRequirements (normal_map (rr_limits (rs_resources s)))
          (normal_map (rr_requests (rs_resources s)))) (rs_env s)).

Definition normal (c : podSpecConfig) : podSpecConfig :=
  mkPodSpecConfig (Image c) (normal_template <$> RunnerSetTemplate c)
    (normal_template <$> AutoscaleSetTemplate c).

Lemma map_len_zero (m : gomap) : map_len m = 0 ↔ map_entries m = ∅.
Proof. unfold map_len. apply map_size_empty_iff. Qed.

Section Reading.
Context `{MapRange}.

Lemma read_tree_map m : read_map (Some (tree_map m)) = Some m.
Proof.
  unfold read_map, tree_map. f_equal. rewrite <- list_fmap_compose.
  change (list_to_map (((λ f : string * string, (f.1, f.2))) <$> merge_sort key_le (range m)) = m).
  rewrite <- (list_to_map_to_list m) at 2.
  assert (Heq : (λ f : string * string, (f.1, f.2)) <$> merge_sort key_le (range m) ≡ₚ map_to_list m).
  { rewrite merge_sort_Permutation, range_perm. rewrite <- (list_fmap_id (map_to_list m)) at 2.
    apply Permutation_refl', list_fmap_ext. by intros ? [] _. }
  apply list_to_map_proper; [|done]. rewrite Heq. apply NoDup_fst_map_to_list.
Qed.

Lemma get_app k fs gs :
  get k (fs ++ gs) = match get k fs with Some v => Some v | None => get k gs end.
Proof. induction fs as [|f fs IH]; [done|]. simpl. by case_bool_decide. Qed.

Lemma get_omap_ne k k' m : k' ≠ k → get k (tree_omap k' m) = None.
Proof. intros Hne. unfold tree_omap. case_bool_decide; [done|]. simpl. by rewrite bool_decide_eq_false_2. Qed.

Lemma get_list_ne {A} k k' (f : A → json) l : k' ≠ k → get k (tree_list k' f l) = None.
Proof. intros Hne. destruct l; [done|]. simpl. by rewrite bool_decide_eq_false_2. Qed.

Lemma read_tree_list {A} (f : A → json) (g : option json → A) l :
  (∀ x, g (Some (f x)) = x) → read_list g (Some (JArr (f <$> l))) = l.
Proof.
  intros Hgf. unfold read_list. rewrite <- list_fmap_compose.
  rewrite <- (list_fmap_id l) at 2. apply list_fmap_ext. intros ? x _. apply Hgf.
Qed.

Lemma read_omap k m : read_map (get k (tree_omap k m)) = normal_map m.
Proof.
  unfold tree_omap, normal_map. rewrite (bool_decide_ext _ _ (map_len_zero m)).
  case_bool_decide; [done|]. simpl get. rewrite bool_decide_eq_true_2 by done.
  rewrite read_tree_map. by destruct m.
Qed.

Lemma read_olist {A} k (f : A → json) (g : option json → A) l :
  (∀ x, g (Some (f x)) = x) → read_list g (get k (tree_list k f l)) = l.
Proof.
  intros Hgf. destruct l as [|x l]; [done|]. simpl get. rewrite bool_decide_eq_true_2 by done.
  by apply (read_tree_list f g (x :: l)).
Qed.

(** Look up one of the fields an object was written with. *)
Ltac gets :=
  rewrite ?get_app; cbn [get fst snd];
  repeat match goal with
         | |- context [get ?k (tree_omap ?k' ?m)] => rewrite (get_omap_ne k k' m) by discriminate
         | |- context [get ?k (tree_list ?k' ?f ?l)] => rewrite (get_list_ne k k' f l) by discriminate
         | |- context [bool_decide (?x = ?x)] => rewrite (bool_decide_eq_true_2 (x = x)) by done
         | |- context [bool_decide (?x = ?y :> string)] =>
           rewrite (bool_decide_eq_false_2 (x = y)) by discriminate
         end.

Lemma get_again (o : option json) : match o with Some v => Some v | None => None end = o.
Proof. by destruct o. Qed.

Lemma read_tree_toleration t : read_toleration (Some (tree_toleration t)) = t.
Proof.
  destruct t as [k o v e]. unfold tree_toleration, read_toleration, tree_str.
  cbn [read_fields t_key t_operator t_value t_effect].
  by repeat case_bool_decide; subst.
Qed.

Lemma read_tree_env e : read_env (Some (tree_env e)) = e.
Proof.
  destruct e as [n v]. unfold tree_env, read_env, tree_str. cbn [read_fields e_name e_value].
  by case_bool_decide; subst.
Qed.

Lemma read_tree_metadata m :
  read_metadata (Some (tree_metadata m)) =
  mkTemplateMetadata (normal_map (tm_labels m)) (normal_map (tm_annotations m)).
Proof.
  unfold read_metadata, tree_metadata. cbn [read_fields]. f_equal; gets;
    rewrite ?get_again; apply read_omap.
Qed.

Lemma read_tree_resources r :
  read_resources (Some (tree_resources r)) =
  mkResourceRequirements (normal_map (rr_limits r)) (normal_map (rr_requests r)).
Proof.
  unfold read_resources, tree_resources. cbn [read_fields]. f_equal; gets;
    rewrite ?get_again; apply read_omap.
Qed.

Lemma read_tree_template t : read_template (Some (tree_template t)) = normal_template <$> t.
Proof.
  destruct t as [t|]; [|done]. cbn [tree_template read_template fmap option_fmap option_map].
  unfold normal_template. f_equal. gets. f_equal; [apply read_tree_metadata|].
  unfold read_spec, tree_spec. cbn [read_fields]. f_equal; gets; rewrite ?get_again.
  - apply read_omap.
  - apply read_olist, read_tree_toleration.
  - apply read_tree_resources.
  - apply read_olist, read_tree_env.
Qed.
End Reading.

(** ** Valid UTF-8

    Objects that come through the API server hold nothing else. *)
Definition valid_map (m : gomap) : Prop :=
  map_Forall (λ k v, valid_utf8 k ∧ valid_utf8 v) (map_entries m).

Definition valid_toleration (t : Toleration) : Prop :=
  valid_utf8 (t_key t) ∧ valid_utf8 (t_operator t) ∧ valid_utf8 (t_value t) ∧ valid_utf8 (t_effect t).

Definition valid_env (e : EnvVar) : Prop := valid_utf8 (e_name e) ∧ valid_utf8 (e_value e).

Record valid_template (t : RunnerPodTemplate) : Prop := {
  valid_labels : valid_map (tm_labels (t_metadata t));
  valid_annotations : valid_map (tm_annotations (t_metadata t));
  valid_nodeSelector : valid_map (rs_nodeSelector (t_spec t));
  valid_limits : valid_map (rr_limits (rs_resources (t_spec t)));
  valid_requests : valid_map (rr_requests (rs_resources (t_spec t)));
  valid_tolerations : Forall valid_toleration (rs_tolerations (t_spec t));
  valid_envs : Forall valid_env (rs_env (t_spec t))
}.

Record valid_config (c : podSpecConfig) : Prop := {
  valid_image : valid_utf8 (Image c);
  valid_rs : ∀ t, RunnerSetTemplate c = Some t → valid_template t;
  valid_as : ∀ t, AutoscaleSetTemplate c = Some t → valid_template t
}.

Definition unchanged (v : json) : Prop := json_valid v = v.
Definition field_ok (f : string * json) : Prop := valid_utf8 f.1 ∧ unchanged f.2.

Lemma unchanged_obj fs : Forall field_ok fs → unchanged (JObj fs).
Proof.
  intros Hfs. unfold unchanged. cbn [json_valid]. f_equal.
  induction Hfs as [|[k v] fs [Hk Hv] _ IH]; [done|]. rewrite fmap_cons, IH. simpl in Hk, Hv |- *.
  by rewrite Hk, Hv.
Qed.

Lemma unchanged_arr {A} (f : A → json) l : Forall (λ x, unchanged (f x)) l → unchanged (JArr (f <$> l)).
Proof.
  intros Hl. unfold unchanged. cbn [json_valid]. f_equal.
  induction Hl as [|x l Hx _ IH]; [done|]. rewrite !fmap_cons, IH. by rewrite Hx.
Qed.

Section Valid.
Context `{MapRange}.

Lemma tree_str_ok k s : valid_utf8 k → valid_utf8 s → Forall field_ok (tree_str k s).
Proof.
  intros Hk Hs. unfold tree_str. case_bool_decide; [constructor|]. apply Forall_singleton.
  split; [done|]. unfold unchanged. simpl. by rewrite Hs.
Qed.

Lemma tree_omap_ok k m : valid_utf8 k → valid_map m → Forall field_ok (tree_omap k m).
Proof.
  intros Hk Hm. unfold tree_omap. case_bool_decide; [constructor|]. apply Forall_singleton.
  split; [done|]. apply unchanged_obj, Forall_fmap, Forall_forall. intros [k' v'] Hin.
  rewrite merge_sort_Permutation, range_elem_of in Hin. destruct (Hm _ _ Hin) as [? Hv].
  split; [done|]. unfold unchanged. simpl. by rewrite Hv.
Qed.

Lemma tree_list_ok {A} k (f : A → json) l :
  valid_utf8 k → Forall (λ x, unchanged (f x)) l → Forall field_ok (tree_list k f l).
Proof.
  intros Hk Hl. destruct l as [|x l]; [constructor|]. apply Forall_singleton. split; [done|].
  by apply (unchanged_arr f (x :: l)).
Qed.

Lemma tree_toleration_ok t : valid_toleration t → unchanged (tree_toleration t).
Proof.
  intros (? & ? & ? & ?). apply unchanged_obj. rewrite !Forall_app. repeat split; by apply tree_str_ok.
Qed.

Lemma tree_env_ok e : valid_env e → unchanged (tree_env e).
Proof.
  intros [Hn ?]. apply unchanged_obj, Forall_cons. split; [|by apply tree_str_ok].
  split; [done|]. unfold unchanged. simpl. by rewrite Hn.
Qed.

Lemma tree_template_ok o : (∀ t, o = Some t → valid_template t) → unchanged (tree_template o).
Proof.
  intros Ho. destruct o as [t|]; [|done]. destruct (Ho t eq_refl).
  apply unchanged_obj. repeat (apply Forall_cons; split); [..|constructor]; (split; [done|]);
    apply unchanged_obj; rewrite !Forall_app.
  - split; by apply tree_omap_ok.
  - split; [by apply tree_omap_ok|]. split.
    { apply tree_list_ok; [done|]. eapply Forall_impl; [done|]. apply tree_toleration_ok. }
    split.
    + apply Forall_singleton. split; [done|]. apply unchanged_obj. rewrite Forall_app.
      split; by apply tree_omap_ok.
    + apply tree_list_ok; [done|]. eapply Forall_impl; [done|]. apply tree_env_ok.
Qed.

Lemma tree_config_ok c : valid_config c → unchanged (tree_config c).
Proof.
  intros [Hi Hr Ha]. apply unchanged_obj. repeat (apply Forall_cons; split); [..|constructor];
    (split; [done|]); [|by apply tree_template_ok..]. unfold unchanged. simpl. by rewrite Hi.
Qed.

Lemma Unmarshal_Marshal c : valid_config c → json_Unmarshal (json_Marshal c) = Some (normal c).
Proof.
  intros Hc. unfold json_Unmarshal.
  rewrite <- print_config, json_parse_print, (tree_config_ok _ Hc).
  unfold tree_config, normal. by rewrite <- !read_tree_template.
Qed.
End Valid.

Lemma normal_map_entries m m' : normal_map m = normal_map m' → map_entries m = map_entries m'.
Proof. unfold normal_map. repeat case_bool_decide; intros; simplify_eq; congruence. Qed.

Lemma normal_same_content s t : normal_template <$> s = normal_template <$> t → same_content s t.
Proof.
  destruct s as [s|], t as [t|]; try done. unfold normal_template. intros Heq. simpl in Heq.
  injection Heq as Hl Ha Hn Ht Hli Hr He. by repeat split; [apply normal_map_entries..| |].
Qed.

(** ** Properties *)

(** C28. [encoding/json] loses nothing of a pod specification: reading back what
    [json.Marshal] writes gives the image and both templates again, up to the
    difference between an empty and a nil map, for every iteration order of
    the maps and whatever characters the strings hold, as long as they are
    UTF-8. *)
Theorem json_Unmarshal_Marshal `{MapRange} c :
  valid_config c → json_Unmarshal (json_Marshal c) = Some (normal c).
Proof. apply Unmarshal_Marshal. Qed.

(** Texts whose hashes agree without being equal. *)
Definition collision (m m' : string) : Prop :=
  m ≠ m' ∧ str_take 16 (EncodeToString (Sum256 m)) = str_take 16 (EncodeToString (Sum256 m')).

(** C29. A changed pod specification is noticed: two configurations with the same
    hash have the same image and the same contents, or their JSON texts are
    different texts whose SHA-256 digests agree in the first 64 bits. *)
Theorem computePodSpecHash_detects (R1 R2 : MapRange) image image' s s' t t' :
  let c := mkPodSpecConfig image s t in
  let c' := mkPodSpecConfig image' s' t' in
  valid_config c → valid_config c' →
  @computePodSpecHash R1 image s t = @computePodSpecHash R2 image' s' t' →
  (image = image' ∧ same_content s s' ∧ same_content t t') ∨
  collision (@json_Marshal R1 c) (@json_Marshal R2 c').
Proof.
  intros c c' Hc Hc' Hh.
  destruct (decide (@json_Marshal R1 c = @json_Marshal R2 c')) as [Heq|Hne]; [left|right; by split].
  pose proof (@Unmarshal_Marshal R1 c Hc) as H1. rewrite Heq, (@Unmarshal_Marshal R2 c' Hc') in H1.
  injection H1 as Hi Hs Ht. split; [done|]. by split; apply normal_same_content.
Qed.

(** ** Runs *)

#[local] Instance valid_map_dec m : Decision (valid_map m).
Proof. unfold valid_map. apply _. Defined.
#[local] Instance valid_toleration_dec t : Decision (valid_toleration t).
Proof. unfold valid_toleration. apply _. Defined.
#[local] Instance valid_env_dec e : Decision (valid_env e).
Proof. unfold valid_env. apply _. Defined.

(** The same template with nil for empty maps and empty for nil ones. *)
Definition ci_template' : RunnerPodTemplate :=
  mkTemplate (mkTemplateMetadata (tm_labels (t_metadata ci_template)) (Some ∅))
    (mkRunnerPodSpec (Some ∅) (rs_tolerations (t_spec ci_template))
       (mkResourceRequirements (rr_limits (rs_resources (t_spec ci_template))) None)
       (rs_env (t_spec ci_template))).

Ltac valid_by_computation :=
  repeat match goal with
         | |- valid_config _ => split
         | |- ∀ _, _ => intros ? [=]; subst
         | |- valid_template _ => split
         | |- ?P => refine (bool_decide_unpack P _); vm_compute; exact I
         end.

(** Quotes, angle brackets, a line separator and an accent. *)
Definition exotic_image : string :=
  dquote +:+ "<img>" +:+ utf8_encode 233 +:+ utf8_encode 8232.

Lemma json_Unmarshal_Marshal_witness :
  let c := mkPodSpecConfig exotic_image (Some ci_template) None in
  valid_config c ∧
  json_Unmarshal (@json_Marshal map_range_reversed c) =
    Some (mkPodSpecConfig exotic_image (Some (normal_template ci_template)) None).
Proof.
  intros c. assert (Hc : valid_config c) by valid_by_computation.
  split; [exact Hc|]. exact (@json_Unmarshal_Marshal map_range_reversed c Hc).
Defined.

Lemma computePodSpecHash_detects_witness :
  let c := mkPodSpecConfig exotic_image (Some ci_template) None in
  let c' := mkPodSpecConfig exotic_image (Some ci_template') None in
  @json_Marshal map_range_default c = @json_Marshal map_range_reversed c' ∧
  (exotic_image = exotic_image ∧ same_content (Some ci_template) (Some ci_template') ∧
   same_content None None).
Proof.
  intros c c'. assert (Hc : valid_config c) by valid_by_computation.
  assert (Hc' : valid_config c') by valid_by_computation.
  assert (Heq : @json_Marshal map_range_default c = @json_Marshal map_range_reversed c')
    by (vm_compute; reflexivity).
  split; [exact Heq|].
  destruct (computePodSpecHash_detects map_range_default map_range_reversed exotic_image exotic_image
    (Some ci_template) (Some ci_template') None None Hc Hc') as [Hs|[Hne _]];
    [vm_compute; reflexivity|exact Hs|by destruct Hne].
Defined.

(** A byte that is not UTF-8 is where two different images share a hash. *)
Example invalid_bytes_collide :
  let image := String (byte_of 255) "" in
  image ≠ replacement ∧ ¬ valid_utf8 image ∧
  @computePodSpecHash map_range_default image None None =
    @computePodSpecHash map_range_default (String (byte_of 254) "") None None.
Proof. split; [done|]. split; vm_compute; [discriminate|reflexivity]. Qed.
