(* ===== verification/Status.v ===== *)
(** * internal/controller: what both reconcilers share

    Reconcile results, status updates (status.go), the pod index
    (cache_indexes.go), and the helpers of apimachinery and controller-runtime
    the reconcilers call on conditions and finalizers.  Those helpers are
    parameters with the laws of their documentation. *)

From S2P Require Export Labels Scaler.

(** [ctrl.Result] *)
Record Result : Type := mkResult { Requeue : bool; RequeueAfter : Duration }.

Definition no_requeue : Result := mkResult false 0%Z.
Definition requeue_now : Result := mkResult true 0%Z.
Definition requeue_after (d : Duration) : Result := mkResult false d.

(** [meta.SetStatusCondition], [meta.IsStatusConditionTrue], the finalizer
    helpers of controllerutil, and [scaleset.DefaultRunnerGroup]. *)
Class ControllerLib := {
  DefaultRunnerGroup : string;
  SetStatusCondition : list Condition → Condition → list Condition;
  IsStatusConditionTrue : list Condition → string → bool;
  ContainsFinalizer : list string → string → bool;
  AddFinalizer : list string → string → list string;
  RemoveFinalizer : list string → string → list string
}.

Definition find_condition (cs : list Condition) (type : string) : option Condition :=
  list_find (λ c, c_type c = type) cs ≫= λ x, Some x.2.

Class ControllerLaws `{ControllerLib} := {
  SetStatusCondition_find cs c type :
    find_condition (SetStatusCondition cs c) type =
    if decide (c_type c = type) then Some c else find_condition cs type;
  IsStatusConditionTrue_find cs type :
    IsStatusConditionTrue cs type =
    bool_decide (c_status <$> find_condition cs type = Some ConditionTrue);
  ContainsFinalizer_spec fs f : ContainsFinalizer fs f = bool_decide (f ∈ fs);
  AddFinalizer_spec fs f g : g ∈ AddFinalizer fs f ↔ g = f ∨ g ∈ fs;
  RemoveFinalizer_spec fs f g : g ∈ RemoveFinalizer fs f ↔ g ≠ f ∧ g ∈ fs
}.

(** ** status.go *)
Section Status.
Context {S : Type}.

Definition ErrStatusConflict : error :=
  mkError "status update conflict" None ReasonUnknown [SentinelStatusConflict].

(** The object is refetched into [obj], changed by [applyErrorCondition] and
    written back; its final content is not used by the callers. *)
Definition RefetchAndUpdateStatus {T} (get : prog S (result error T)) (applyErrorCondition : T → T)
    (statusUpdate : T → prog S (result error T)) : prog S (option error) :=
  obj ← get;
  match obj with
  | Err err => Ret (Some err)
  | Ok obj =>
    let obj := applyErrorCondition obj in
    updated ← statusUpdate obj;
    match updated with
    | Err err => if IsConflict err then Ret (Some ErrStatusConflict) else Ret (Some err)
    | Ok _ => Ret None
    end
  end.

Definition recordReconcileDuration (kind namespace name : string) (startTime : Time) : prog S unit :=
  d ← time_Since startTime;
  metric ReconciliationDuration [kind; namespace; name] (MObserveSeconds d).

Lemma recordReconcileDuration_done kind ns name t rely (s : S) tr o s' :
  exec rely (recordReconcileDuration kind ns name t) s tr o s' →
  o = Done tt ∧ s' = s ∧
  ∃ now, tr = [Ev Now now;
               Ev (Metric ReconciliationDuration [kind; ns; name] (MObserveSeconds (time_Sub now t))) tt].
Proof.
  unfold recordReconcileDuration, time_Since. intros Hx. cbn [exec prog_bind mbind mret prog_mbind prog_mret call metric] in Hx.
  destruct Hx as (now & tr' & -> & [] & tr2 & -> & -> & -> & ->). eauto.
Qed.
End Status.

(** ** cache_indexes.go *)

Definition labelIndex (labelKey : string) (labels : gomap) : list string :=
  let v := map_get labels labelKey in
  if bool_decide (v = "") then [] else [v].

Definition index_field (labelKey : string) : string := "metadata.labels." +:+ labelKey.

(** [indexer.IndexField] may refuse a field; the registered ones are returned
    with the error that ended the registration. *)
Definition SetupPodCacheIndexes (IndexField : string → option error)
  : list (string * (gomap → list string)) * option error :=
  let reg key := (index_field key, labelIndex key) in
  match IndexField (index_field LabelRunnerGroup) with
  | Some err => ([], Some err)
  | None =>
    match IndexField (index_field LabelAutoscaleSet) with
    | Some err => ([reg LabelRunnerGroup], Some err)
    | None =>
      match IndexField (index_field LabelRunnerName) with
      | Some err => ([reg LabelRunnerGroup; reg LabelAutoscaleSet], Some err)
      | None => ([reg LabelRunnerGroup; reg LabelAutoscaleSet; reg LabelRunnerName], None)
      end
    end
  end.

(** A pod is listed under [MatchingFields{index_field key: value}]. *)
Definition indexed (p : Pod) (key value : string) : Prop :=
  value ∈ labelIndex key (m_labels (p_meta p)).

Lemma indexed_spec p key value : indexed p key value ↔ pod_label p key = value ∧ value ≠ "".
Proof.
  unfold indexed, labelIndex, pod_label. case_bool_decide as Hv; [set_solver|].
  rewrite list_elem_of_singleton. naive_solver.
Qed.

(** ** The helpers of the libraries, for concrete runs *)

Fixpoint replace_condition (cs : list Condition) (c : Condition) : list Condition :=
  match cs with
  | [] => [c]
  | c' :: cs => if decide (c_type c' = c_type c) then c :: cs else c' :: replace_condition cs c
  end.

Definition controller_lib : ControllerLib := {|
  DefaultRunnerGroup := "default";
  SetStatusCondition := replace_condition;
  IsStatusConditionTrue := λ cs type,
    bool_decide (c_status <$> find_condition cs type = Some ConditionTrue);
  ContainsFinalizer := λ fs f, bool_decide (f ∈ fs);
  AddFinalizer := λ fs f, if bool_decide (f ∈ fs) then fs else fs ++ [f];
  RemoveFinalizer := λ fs f, filter (λ g, g ≠ f) fs
|}.

Lemma find_condition_cons c cs type :
  find_condition (c :: cs) type = if decide (c_type c = type) then Some c else find_condition cs type.
Proof.
  unfold find_condition. simpl. case_decide; [done|].
  by destruct (list_find _ cs) as [[]|].
Qed.

Lemma controller_laws : @ControllerLaws controller_lib.
Proof.
  split; simpl; [|done..| |].
  - intros cs c type. induction cs as [|c' cs IH]; simpl; [by rewrite find_condition_cons|].
    destruct (decide (c_type c' = c_type c)) as [Heq|Hne]; rewrite !find_condition_cons, ?IH;
      repeat case_decide; congruence.
  - intros fs f g. case_bool_decide; set_solver.
  - intros fs f g. rewrite list_elem_of_filter. done.
Qed.
