(* ===== verification/AutoscaleSetController.v ===== *)
(** * internal/controller: the AutoscaleSet reconciler

    One Definition per method of [AutoscaleSetReconciler], a program over a
    memory that holds the factory's cache.  Logging is not modelled; the scale
    set client, the API server and the event recorder are external calls.  A
    dereference of a nil pointer is [Panic]. *)

From S2P Require Export Status.

Section AutoscaleSetReconciler.
Context {S : Type} `{HasCache S, MapRange, UnicodeTables, ControllerLib}.

Definition Reconciled : Type := Result * option error.

Definition as_ns (a : AutoscaleSet) : string := m_namespace (as_meta a).
Definition as_name (a : AutoscaleSet) : string := m_name (as_meta a).
Definition as_key (a : AutoscaleSet) : NamespacedName := meta_key (as_meta a).

Definition as_set_finalizers (a : AutoscaleSet) (f : list string) : AutoscaleSet :=
  as_set_meta a (meta_set_finalizers (as_meta a) f).

Definition ready (status : ConditionStatus) (reason message : string) (m : ObjectMeta) : Condition :=
  mkCondition "Ready" status reason message (m_generation m).

(** ** updateStatusError *)

Definition applyErrorCondition (reason message : string) (obj : AutoscaleSet) : AutoscaleSet :=
  let st := as_status obj in
  as_set_status obj
    (mkASStatus (ast_scaleSetID st) "Error"
       (SetStatusCondition (ast_conditions st) (ready ConditionFalse reason message (as_meta obj)))
       (ast_currentRunners st) (ast_desiredRunners st) (ast_lastMessageID st) (ast_labels st)).

Definition updateStatusError (a : AutoscaleSet) (reason message : string) : prog S Reconciled :=
  err ← RefetchAndUpdateStatus (call (K8sGetAutoscaleSet (as_key a)))
          (applyErrorCondition reason message) (λ o, call (K8sStatusUpdateAutoscaleSet o));
  match err with
  | Some err =>
    if errors_Is err SentinelStatusConflict then Ret (requeue_now, None)
    else Ret (no_requeue, Some err)
  | None =>
    metric ScaleSetOperations [as_ns a; as_name a; "reconcile"; "error"] MInc;;
    metric AutoscaleSetTotal [as_ns a; "Error"] (MSet 1);;
    call (Eventf (as_ns a) (as_name a) EventTypeWarning reason message);;
    Ret (requeue_after RequeueErrorInterval, None)
  end.

(** ** Runner group *)

Definition getRunnerGroupID (scalesetClient : Client) (runnerGroupName : string)
  : prog S (result error Z) :=
  if bool_decide (runnerGroupName = DefaultRunnerGroup) then Ret (Ok 1%Z)
  else
    '(runnerGroup, err) ← call (GetRunnerGroupByName scalesetClient runnerGroupName);
    match err with
    | Some err => Ret (Err err)
    | None =>
      match runnerGroup with
      | Some g => Ret (Ok (rg_id g))
      | None => Panic
      end
    end.

(** ** Creation *)

(** The variable a retried closure assigned the scale set to. *)
Definition captured (r : option (option RunnerScaleSet * option error)) : option RunnerScaleSet :=
  match r with Some r => fst r | None => None end.

Definition createScaleSetInGitHub (a : AutoscaleSet) (scalesetClient : Client)
    (runnerGroupID : Z) (labels : list SSLabel) : prog S (result error (option RunnerScaleSet)) :=
  let scaleSet := mkScaleSet 0 (as_scaleSetName (as_spec a)) runnerGroupID (Some labels) true None in
  '(created, err) ← RetryWithBackoff DefaultRetryConfig
      (closure (CreateRunnerScaleSet scalesetClient scaleSet) snd);
  match err with
  | Some err => Ret (Err err)
  | None => Ret (Ok (captured created))
  end.

Definition status_labels (labels : option (list SSLabel)) (old : list ScaleSetLabel)
  : list ScaleSetLabel :=
  match labels with
  | Some ls => (λ l, mkScaleSetLabel (l_type l) (l_name l)) <$> ls
  | None => old
  end.

Definition setCreateScaleSetStatus (a : AutoscaleSet) (created : RunnerScaleSet) : AutoscaleSet :=
  let st := as_status a in
  as_set_status a
    (mkASStatus (Some (ss_id created)) PhaseActive
       (SetStatusCondition (ast_conditions st)
          (ready ConditionTrue "ScaleSetCreated" "Scale set created successfully" (as_meta a)))
       (ast_currentRunners st) (ast_desiredRunners st) (ast_lastMessageID st)
       (status_labels (ss_labels created) (ast_labels st))).

Definition unsupported_note : string :=
  ". Note: Runner scale sets are only supported for GitHub organizations and enterprises, not personal user accounts. Please ensure your githubConfigURL points to an organization.".

Definition creation_error (err : error) : string :=
  if IsScaleSetRegistrationUnsupported (Some err)
  then "Failed to create scale set: " +:+ err_text err +:+ unsupported_note
  else "Failed to create scale set: " +:+ err_text err.

Definition createScaleSet (a : AutoscaleSet) (scalesetClient : Client) (runnerGroupID : Z)
  : prog S Reconciled :=
  let labels := buildLabels a in
  created ← createScaleSetInGitHub a scalesetClient runnerGroupID labels;
  match created with
  | Err err => updateStatusError a "ScaleSetCreationFailed" (creation_error err)
  | Ok created =>
    refetched ← call (K8sGetAutoscaleSet (as_key a));
    match refetched with
    | Err err => Ret (no_requeue, Some err)
    | Ok a =>
      match created with
      | None => Panic
      | Some created =>
        updated ← call (K8sStatusUpdateAutoscaleSet (setCreateScaleSetStatus a created));
        match updated with
        | Err err =>
          if IsConflict err then Ret (requeue_now, None) else Ret (no_requeue, Some err)
        | Ok a =>
          metric ScaleSetOperations [as_ns a; as_name a; "create"; "success"] MInc;;
          metric AutoscaleSetTotal [as_ns a; ast_phase (as_status a)] (MSet 1);;
          call (Eventf (as_ns a) (as_name a) EventTypeNormal "ScaleSetCreated"
                  ("Successfully created scale set " +:+ as_scaleSetName (as_spec a) +:+
                   " with ID " +:+ Itoa (ss_id created)));;
          Ret (no_requeue, None)
        end
      end
    end
  end.

(** ** Update *)

Definition getScaleSetForUpdate (id : Z) (scalesetClient : Client)
  : prog S (option RunnerScaleSet * option error) :=
  GetCachedScaleSet id (call (GetRunnerScaleSetByID scalesetClient id)).

(** [*autoscaleSet.Status.ScaleSetID] *)
Definition deref_id {A} (a : AutoscaleSet) (k : Z → prog S A) : prog S A :=
  match ast_scaleSetID (as_status a) with Some id => k id | None => Panic end.

Definition maybeUpdateScaleSetLabels (a : AutoscaleSet) (scalesetClient : Client)
    (scaleSet : option RunnerScaleSet) : prog S (option RunnerScaleSet * option error) :=
  let desiredLabels := buildLabels a in
  match scaleSet with
  | None => Panic
  | Some ss =>
    if labelsEqual (default [] (ss_labels ss)) desiredLabels then Ret (Some ss, None)
    else deref_id a (λ id,
      let updateScaleSet := mkScaleSet 0 (as_scaleSetName (as_spec a)) (ss_runnerGroupID ss)
                              (Some desiredLabels) (ss_disableUpdate ss) None in
      '(updated, err) ← RetryWithBackoff DefaultRetryConfig
          (closure (UpdateRunnerScaleSet scalesetClient id updateScaleSet) snd);
      match err with
      | Some err => Ret (Some ss, Some err)
      | None =>
        match captured updated with
        | None => Panic
        | Some updated =>
          call (Eventf (as_ns a) (as_name a) EventTypeNormal "ScaleSetLabelsUpdated"
                  ("Updated labels for scale set " +:+ Itoa id));;
          Ret (Some updated, None)
        end
      end)
  end.

Definition setScaleSetStatistics (ns name : string) (s : option RunnerScaleSetStatistic)
  : prog S unit :=
  match s with
  | None => Ret tt
  | Some s =>
    for_each
      [("total_available_jobs", st_totalAvailableJobs s);
       ("total_acquired_jobs", st_totalAcquiredJobs s);
       ("total_assigned_jobs", st_totalAssignedJobs s);
       ("total_running_jobs", st_totalRunningJobs s);
       ("total_registered_runners", st_totalRegisteredRunners s);
       ("total_busy_runners", st_totalBusyRunners s);
       ("total_idle_runners", st_totalIdleRunners s)]
      (λ '(label, value), metric ScaleSetStatistics [ns; name; label] (MSet value))
  end.

Definition countRunnerPodsForAutoscaleSet (namespace scaleSetID : string) : prog S (result error Z) :=
  list ← call (K8sListPods namespace (MatchingLabels LabelAutoscaleSet scaleSetID));
  match list with
  | Err err => Ret (Err err)
  | Ok items => Ret (Ok (Z.of_nat (length items)))
  end.

Definition setUpdateScaleSetStatus (a : AutoscaleSet) (scaleSet : RunnerScaleSet)
  : prog S AutoscaleSet :=
  let st := as_status a in
  let labels := status_labels (ss_labels scaleSet) (ast_labels st) in
  '(current, desired) ←
    match ss_statistics scaleSet with
    | Some stats =>
      setScaleSetStatistics (as_ns a) (as_name a) (Some stats);;
      Ret (wrap32 (st_totalRegisteredRunners stats), wrap32 (st_totalAssignedJobs stats))
    | None =>
      deref_id a (λ id,
        count ← countRunnerPodsForAutoscaleSet (as_ns a) (Itoa id);
        match count with
        | Ok count => Ret (wrap32 count, ast_desiredRunners st)
        | Err _ => Ret (ast_currentRunners st, ast_desiredRunners st)
        end)
    end;
  Ret (as_set_status a
    (mkASStatus (ast_scaleSetID st) PhaseActive
       (SetStatusCondition (ast_conditions st)
          (ready ConditionTrue "ScaleSetActive" "Scale set is active" (as_meta a)))
       current desired (ast_lastMessageID st) labels)).

Definition recordUpdateScaleSetMetrics (a : AutoscaleSet) : prog S unit :=
  match as_minRunners (as_spec a) with
  | Some v => metric ScaleSetLimits [as_ns a; as_name a; "min_runners"] (MSet v)
  | None => Ret tt
  end;;
  match as_maxRunners (as_spec a) with
  | Some v => metric ScaleSetLimits [as_ns a; as_name a; "max_runners"] (MSet v)
  | None => Ret tt
  end;;
  metric AutoscaleSetTotal [as_ns a; ast_phase (as_status a)] (MSet 1).

Definition updateScaleSet (a : AutoscaleSet) (id : Z) (scalesetClient : Client) : prog S Reconciled :=
  '(scaleSet, err) ← getScaleSetForUpdate id scalesetClient;
  match err with
  | Some err => updateStatusError a "ScaleSetNotFound" ("Failed to get scale set: " +:+ err_text err)
  | None =>
    refetched ← call (K8sGetAutoscaleSet (as_key a));
    match refetched with
    | Err err => Ret (no_requeue, Some err)
    | Ok a =>
      '(scaleSet, err) ← maybeUpdateScaleSetLabels a scalesetClient scaleSet;
      match err with
      | Some err => updateStatusError a "ScaleSetUpdateFailed"
                      ("Failed to update scale set labels: " +:+ err_text err)
      | None =>
        match scaleSet with
        | None => Panic
        | Some scaleSet =>
          a ← setUpdateScaleSetStatus a scaleSet;
          updated ← call (K8sStatusUpdateAutoscaleSet a);
          match updated with
          | Err err =>
            if IsConflict err then Ret (requeue_now, None) else Ret (no_requeue, Some err)
          | Ok a =>
            recordUpdateScaleSetMetrics a;;
            metric ReconciliationRate ["autoscaleset"; "success"] MInc;;
            if bool_decide (ast_phase (as_status a) = PhaseActive) &&
               IsStatusConditionTrue (ast_conditions (as_status a)) "Ready"
            then Ret (requeue_after RequeueActiveInterval, None)
            else Ret (no_requeue, None)
          end
        end
      end
    end
  end.

Definition reconcileActive (a : AutoscaleSet) : prog S Reconciled :=
  scalesetClient ← CreateClientForAutoscaleSet a SubsystemController;
  match scalesetClient with
  | Err err => updateStatusError a "ClientCreationFailed"
                 ("Failed to create scaleset client: " +:+ err_text err)
  | Ok scalesetClient =>
    runnerGroupID ← getRunnerGroupID scalesetClient (as_runnerGroup (as_spec a));
    match runnerGroupID with
    | Err err => updateStatusError a "RunnerGroupNotFound"
                   ("Failed to get runner group: " +:+ err_text err)
    | Ok runnerGroupID =>
      match ast_scaleSetID (as_status a) with
      | None => createScaleSet a scalesetClient runnerGroupID
      | Some id => updateScaleSet a id scalesetClient
      end
    end
  end.

(** ** Deletion *)

Definition deleteScaleSetInGitHub (a : AutoscaleSet) (id : Z) : prog S Reconciled :=
  scalesetClient ← CreateClientForAutoscaleSet a SubsystemController;
  match scalesetClient with
  | Err err => Ret (requeue_after DeletionRequeueAfter, Some err)
  | Ok scalesetClient =>
    '(_, err) ← RetryWithBackoff DefaultRetryConfig
        (closure (DeleteRunnerScaleSet scalesetClient id) (λ err, err));
    match err with
    | Some err => Ret (no_requeue, Some err)
    | None =>
      call (Eventf (as_ns a) (as_name a) EventTypeNormal "ScaleSetDeleted"
              ("Successfully deleted scale set with ID " +:+ Itoa id));;
      Ret (no_requeue, None)
    end
  end.

Definition handleDeletion (a : AutoscaleSet) : prog S Reconciled :=
  if negb (ContainsFinalizer (m_finalizers (as_meta a)) FinalizerName) then Ret (no_requeue, None)
  else
    deleted ← match ast_scaleSetID (as_status a) with
      | Some id =>
        '(res, err) ← deleteScaleSetInGitHub a id;
        match err with
        | Some err => Ret (Some (res, Some err))
        | None => Ret None
        end
      | None => Ret None
      end;
    match deleted with
    | Some r => Ret r
    | None =>
      updated ← call (K8sUpdateAutoscaleSet
                        (as_set_finalizers a (RemoveFinalizer (m_finalizers (as_meta a)) FinalizerName)));
      match updated with
      | Err err => Ret (no_requeue, Some err)
      | Ok a =>
        metric ScaleSetOperations [as_ns a; as_name a; "delete"; "success"] MInc;;
        metric AutoscaleSetTotal [as_ns a; ast_phase (as_status a)] (MSet 0);;
        Ret (no_requeue, None)
      end
    end.

(** ** Reconcile *)

Definition ensureFinalizer (a : AutoscaleSet) : prog S (bool * option error) :=
  if ContainsFinalizer (m_finalizers (as_meta a)) FinalizerName then Ret (false, None)
  else
    updated ← call (K8sUpdateAutoscaleSet
                      (as_set_finalizers a (AddFinalizer (m_finalizers (as_meta a)) FinalizerName)));
    match updated with
    | Err err => Ret (true, Some err)
    | Ok _ => Ret (true, None)
    end.

Definition reconcile_body (req : NamespacedName) : prog S Reconciled :=
  got ← call (K8sGetAutoscaleSet req);
  match got with
  | Err err =>
    if IsNotFound err then
      metric ReconciliationRate ["autoscaleset"; "not_found"] MInc;; Ret (no_requeue, None)
    else
      metric ReconciliationRate ["autoscaleset"; "error"] MInc;; Ret (no_requeue, Some err)
  | Ok a =>
    if is_deleting (as_meta a) then handleDeletion a
    else
      '(finalized, err) ← ensureFinalizer a;
      if finalized : bool then Ret (no_requeue, err) else reconcileActive a
  end.

Definition Reconcile (req : NamespacedName) : prog S Reconciled :=
  startTime ← call Now;
  deferred (recordReconcileDuration "autoscaleset" (nn_namespace req) (nn_name req) startTime)
    (reconcile_body req).

(** ** Watches *)

Definition autoscaleSetReferencesSecret (a : AutoscaleSet) (secret : Secret) : bool :=
  let refMatches (ref : SecretRef) :=
    let ns := if bool_decide (sr_namespace ref = "") then as_ns a else sr_namespace ref in
    bool_decide (ns = m_namespace (s_meta secret)) && bool_decide (sr_name ref = m_name (s_meta secret)) in
  if match as_githubApp (as_spec a) with
     | Some app => refMatches (ga_privateKeySecretRef app) | None => false end
  then true
  else if match as_pat (as_spec a) with
          | Some pat => refMatches (pa_tokenSecretRef pat) | None => false end
  then true else false.

(** [obj.( *corev1.Secret)] fails for any other object. *)
Definition mapSecretToAutoscaleSets (obj : option Secret) : prog S (list NamespacedName) :=
  match obj with
  | None => Ret []
  | Some secret =>
    list ← call K8sListAutoscaleSets;
    match list with
    | Err _ => Ret []
    | Ok items =>
      Ret (foldl (λ reqs a, if autoscaleSetReferencesSecret a secret
                            then reqs ++ [as_key a] else reqs) [] items)
    end
  end.
End AutoscaleSetReconciler.

(** ** What the reconciler issues *)

(** Unfold the reconciler down to its calls. *)
Ltac unfold_reconcile_but_status :=
  unfold reconcile_body, handleDeletion, deleteScaleSetInGitHub, ensureFinalizer, reconcileActive,
    createScaleSet, updateScaleSet, createScaleSetInGitHub, maybeUpdateScaleSetLabels,
    getScaleSetForUpdate, recordUpdateScaleSetMetrics, getRunnerGroupID, deref_id,
    updateStatusError, RefetchAndUpdateStatus, recordReconcileDuration, time_Since, closure in *.

Ltac unfold_reconcile :=
  unfold_reconcile_but_status;
  unfold setUpdateScaleSetStatus, setScaleSetStatistics, countRunnerPodsForAutoscaleSet, deref_id in *.

Section Calls.
Context {S : Type} `{HasCache S, MapRange, UnicodeTables, ControllerLib}.

Lemma no_batch_reconcile_body req : no_batch (reconcile_body (S := S) req).
Proof. unfold_reconcile. cbn [for_each]. no_batch_prog. Qed.

Lemma always_Reconcile (P : ∀ R, Call R → Prop) req :
  (∀ d, P _ (SelectDoneOrAfter d)) → (∀ R (c : Call R), factory_call R c → P R c) →
  (∀ ns name d, P _ (Metric ReconciliationDuration ["autoscaleset"; ns; name] (MObserveSeconds d))) →
  always P (reconcile_body (S := S) req) → always P (Reconcile (S := S) req).
Proof.
  intros Hw Hf Hm Hb. unfold Reconcile. always_step idtac; [split; [|done]; by apply Hf|].
  apply always_deferred; [|done]. unfold recordReconcileDuration, time_Since.
  always_tac ltac:(first [by apply Hf|by apply Hm]).
Qed.

(** Every metric call of the reconciler names a registered vector with as many
    labels as it declares. *)
Definition metric_ok (R : Type) (c : Call R) : Prop :=
  match c with Metric v ls a => well_labelled v ls a = true | _ => True end.

Lemma metric_ok_factory R (c : Call R) : factory_call R c → metric_ok R c.
Proof.
  destruct c; try done. simpl. destruct ls as [|l [|? ?]]; [done| |by destruct a].
  destruct a; try done. by intros [-> | ->].
Qed.

Lemma AutoscaleSet_metrics_ok req : always metric_ok (Reconcile (S := S) req).
Proof.
  apply always_Reconcile; [done|apply metric_ok_factory|done|].
  unfold_reconcile. cbn [for_each]. 
  always_prog ltac:(first [exact I|reflexivity]) ltac:(exact metric_ok_factory).
Qed.
End Calls.

(** ** Lemmas on the operations *)
Section Lemmas.
Context {S : Type} `{HasCache S, MapRange, UnicodeTables, ControllerLib}.

(** A body that issues no update of an AutoscaleSet outside its status. *)
Definition no_update (R : Type) (c : Call R) : Prop :=
  match c with K8sUpdateAutoscaleSet _ => False | _ => True end.

Lemma no_update_factory R (c : Call R) : factory_call R c → no_update R c.
Proof. by destruct c. Qed.

(** Deleting the scale set: what went wrong, or a successful deletion among the
    calls; the object is not written either way. *)
Lemma deleteScaleSetInGitHub_spec a id (s : S) tr o s' :
  exec_seq (deleteScaleSetInGitHub a id) s tr o s' →
  Forall (event_sat no_update) tr ∧
  ∃ res err, o = Done (res, err) ∧
    (err = None → ∃ c, Ev (DeleteRunnerScaleSet c id) None ∈ tr).
Proof.
  intros Hx. split.
  { eapply always_exec; [|exact Hx]. unfold deleteScaleSetInGitHub, closure.
    always_prog ltac:(exact I) ltac:(exact no_update_factory). }
  unfold deleteScaleSetInGitHub, exec_seq in Hx.
  apply exec_bind in Hx as [(tr1 & client & s1 & tr2 & -> & Hp & Hx)|[-> Hp]].
  2: { apply CreateClientForAutoscaleSet_spec in Hp as (? & [=] & _). }
  clear Hp. destruct client as [client|e].
  2: { destruct Hx as (-> & -> & ->). by eexists _, _. }
  apply exec_bind in Hx as [(tr3 & [v err] & s2 & tr4 & -> & Hp & Hx)|[-> Hp]].
  2: { apply RetryWithBackoff_events in Hp as (_ & ? & ? & [=] & _). }
  apply RetryWithBackoff_events in Hp as (-> & v' & res & [= -> ->] & _ & Hok).
  destruct res as [e|].
  - destruct Hx as (-> & -> & ->). by eexists _, _.
  - destruct (Hok eq_refl) as (r & -> & Hr & Hin). destruct Hx as ([] & ? & -> & -> & -> & ->).
    eexists _, _. split; [done|]. intros _. exists client. rewrite Hr in Hin. set_solver.
Qed.
End Lemmas.

(** ** Properties *)
Section Properties.
Context {S : Type} `{HasCache S, MapRange, UnicodeTables, ControllerLib}.

(** The end of every reconciliation. *)
Definition duration_events (req : NamespacedName) (t0 t1 : Time) : list (event S) :=
  [Ev Now t1; Ev (Metric ReconciliationDuration ["autoscaleset"; nn_namespace req; nn_name req]
                    (MObserveSeconds (time_Sub t1 t0))) tt].

(** C10. [Reconcile] first reads the object.  A missing object is no error, any
    other failure is returned; an object being deleted is handed to the
    deletion; an object without the finalizer only gets it, without a single
    call to GitHub, so nothing is created there before the finalizer is stored;
    only an object that has it is reconciled.  The duration is recorded last on
    every path, a panic included. *)
Theorem Reconcile_spec req (s : S) tr o s' :
  exec_seq (Reconcile req) s tr o s' →
  ∃ t0 got body t1,
    tr = Ev Now t0 :: Ev (K8sGetAutoscaleSet req) got :: body ++ duration_events req t0 t1 ∧
    match got with
    | Err e =>
      body = [Ev (Metric ReconciliationRate
                    ["autoscaleset"; if IsNotFound e then "not_found" else "error"] MInc) tt] ∧
      o = Done (no_requeue, if IsNotFound e then None else Some e) ∧ s' = s
    | Ok a =>
      if is_deleting (as_meta a) then exec_seq (handleDeletion a) s body o s'
      else if ContainsFinalizer (m_finalizers (as_meta a)) FinalizerName
      then exec_seq (reconcileActive a) s body o s'
      else ∃ r,
        body = [Ev (K8sUpdateAutoscaleSet (as_set_finalizers a
                      (AddFinalizer (m_finalizers (as_meta a)) FinalizerName))) r] ∧
        o = Done (no_requeue, match r with Ok _ => None | Err e => Some e end) ∧ s' = s
    end.
Proof.
  intros (t0 & tr0 & -> & Hx). cbn [prog_bind] in Hx.
  apply exec_deferred in Hx as (tr1 & s1 & tr2 & -> & Hx & Hd).
  2: exact (no_batch_reconcile_body req).
  2: { by intros ? ? ? ? (-> & _)%recordReconcileDuration_done. }
  apply recordReconcileDuration_done in Hd as (_ & -> & t1 & ->).
  destruct Hx as (got & body & -> & Hx). exists t0, got, body, t1. split; [done|].
  exec_norm Hx. destruct got as [a|e].
  - destruct (is_deleting (as_meta a)); [exact Hx|].
    unfold ensureFinalizer in Hx.
    destruct (ContainsFinalizer (m_finalizers (as_meta a)) FinalizerName); [exact Hx|].
    destruct Hx as (r & tr' & -> & Hx). exists r.
    destruct r; by destruct Hx as (-> & -> & ->).
  - destruct (IsNotFound e); destruct Hx as ([] & tr' & -> & -> & -> & ->); done.
Qed.

(** C6. The finalizer is removed only once GitHub has confirmed the deletion of
    the scale set: an object without the finalizer is left alone; otherwise
    either the deletion failed, its error is returned and the object is not
    written, or the one write of the object removes the finalizer and, when the
    status named a scale set, a successful [DeleteRunnerScaleSet] of that scale
    set came before it. *)
Theorem handleDeletion_spec (a : AutoscaleSet) (s : S) tr o s' :
  exec_seq (handleDeletion a) s tr o s' →
  if ContainsFinalizer (m_finalizers (as_meta a)) FinalizerName then
    ∃ pre, Forall (event_sat no_update) pre ∧
      ((tr = pre ∧ ast_scaleSetID (as_status a) ≠ None ∧ ∃ res e, o = Done (res, Some e)) ∨
       (∃ r post,
          tr = pre ++ Ev (K8sUpdateAutoscaleSet (as_set_finalizers a
                   (RemoveFinalizer (m_finalizers (as_meta a)) FinalizerName))) r :: post ∧
          Forall (event_sat no_update) post ∧
          o = Done (no_requeue, match r with Ok _ => None | Err e => Some e end) ∧
          match ast_scaleSetID (as_status a) with
          | Some id => ∃ c, Ev (DeleteRunnerScaleSet c id) None ∈ pre
          | None => pre = []
          end))
  else tr = [] ∧ o = Done (no_requeue, None) ∧ s' = s.
Proof.
  unfold handleDeletion. intros Hx.
  destruct (ContainsFinalizer (m_finalizers (as_meta a)) FinalizerName); [|exact Hx].
  unfold exec_seq in Hx. cbn [negb] in Hx.
  set (upd := K8sUpdateAutoscaleSet _) in *.
  assert (Hrest : ∀ s tr o s', exec_seq (
    updated ← call upd;
    match updated with
    | Err err => Ret (no_requeue, Some err)
    | Ok a =>
      metric ScaleSetOperations [as_ns a; as_name a; "delete"; "success"] MInc;;
      metric AutoscaleSetTotal [as_ns a; ast_phase (as_status a)] (MSet 0);;
      Ret (no_requeue, None)
    end) s tr o s' → ∃ r post, tr = Ev upd r :: post ∧ Forall (event_sat (S := S) no_update) post ∧
      o = Done (no_requeue, match r with Ok _ => None | Err e => Some e end)).
  { clear s tr o s' Hx. intros s tr o s' (r & tr' & -> & Hx). exists r, tr'. split; [done|].
    destruct r; exec_run Hx; (split; [repeat constructor|done]). }
  destruct (ast_scaleSetID (as_status a)) as [id|].
  - apply bind_assoc in Hx.
    apply exec_bind in Hx as [(tr1 & [res err] & s1 & tr2 & -> & Hp & Hx)|[-> Hp]].
    2: { apply deleteScaleSetInGitHub_spec in Hp as (_ & ? & ? & [=] & _). }
    apply deleteScaleSetInGitHub_spec in Hp as (Hpre & ? & ? & [= <- <-] & Hok).
    exists tr1. split; [done|]. destruct err as [e|].
    + left. destruct Hx as (-> & -> & ->). rewrite app_nil_r. eauto.
    + right. apply Hrest in Hx as (r & post & -> & Hpost & ->). exists r, post. auto.
  - exists []. split; [done|]. right. apply Hrest in Hx as (r & post & -> & Hpost & ->).
    exists r, post. auto.
Qed.

(** GitHub is asked to change the labels of a scale set exactly when they
    differ from the ones wanted: equal labels cost no call; otherwise the one
    request, retried by the policy, carries the labels wanted, keeps the group
    and the settings of the scale set, and names the identifier in the status
    (a status without one, or a nil scale set, is a panic); a failure leaves
    the scale set as it was known, and a success is announced by one event. *)
Theorem maybeUpdateScaleSetLabels_spec (a : AutoscaleSet) c scaleSet (s : S) tr o s' :
  exec_seq (maybeUpdateScaleSetLabels a c scaleSet) s tr o s' →
  s' = s ∧
  match scaleSet with
  | None => tr = [] ∧ o = Panicked
  | Some ss =>
    if labelsEqual (default [] (ss_labels ss)) (buildLabels a)
    then tr = [] ∧ o = Done (Some ss, None)
    else
      match ast_scaleSetID (as_status a) with
      | None => tr = [] ∧ o = Panicked
      | Some id =>
        let req := UpdateRunnerScaleSet c id
          (mkScaleSet 0 (as_scaleSetName (as_spec a)) (ss_runnerGroupID ss)
             (Some (buildLabels a)) (ss_disableUpdate ss) None) in
        ∃ pre v err, retry_spec DefaultRetryConfig req snd 6 0 None pre v err ∧
          match err, captured v with
          | Some e, _ => tr = pre ∧ o = Done (Some ss, Some e)
          | None, None => tr = pre ∧ o = Panicked
          | None, Some updated =>
            tr = pre ++ [Ev (Eventf (as_ns a) (as_name a) EventTypeNormal "ScaleSetLabelsUpdated"
                               ("Updated labels for scale set " +:+ Itoa id)) tt] ∧
            o = Done (Some updated, None)
          end
      end
  end.
Proof.
  unfold maybeUpdateScaleSetLabels, deref_id. intros Hx.
  destruct scaleSet as [ss|]; [|by destruct Hx as (-> & -> & ->)].
  destruct (labelsEqual _ _); [by destruct Hx as (-> & -> & ->)|].
  destruct (ast_scaleSetID (as_status a)) as [id|]; [|by destruct Hx as (-> & -> & ->)].
  unfold exec_seq in Hx.
  apply exec_bind in Hx as [(tr1 & [v err] & s1 & tr2 & -> & Hp & Hx)|[-> Hp]].
  2: { apply RetryWithBackoff_events in Hp as (_ & ? & ? & [=] & _). }
  apply (retry_loop_spec DefaultRetryConfig _ snd _ 0 None) in Hp as (-> & v' & err' & [= <- <-] & Hs).
  destruct err as [e|].
  - destruct Hx as (-> & -> & ->). rewrite app_nil_r. split; [done|]. by exists tr1, v, (Some e).
  - destruct (captured v) as [u|] eqn:Hc.
    + destruct Hx as ([] & ? & -> & -> & -> & ->). split; [done|]. exists tr1, v, None.
      by rewrite Hc.
    + destruct Hx as (-> & -> & ->). rewrite app_nil_r. split; [done|]. exists tr1, v, None.
      by rewrite Hc.
Qed.

(** The events of a creation that reached the status. *)
Definition created_events (a : AutoscaleSet) (ss : RunnerScaleSet) : list (event S) :=
  [Ev (Metric ScaleSetOperations [as_ns a; as_name a; "create"; "success"] MInc) tt;
   Ev (Metric AutoscaleSetTotal [as_ns a; ast_phase (as_status a)] (MSet 1)) tt;
   Ev (Eventf (as_ns a) (as_name a) EventTypeNormal "ScaleSetCreated"
         ("Successfully created scale set " +:+ as_scaleSetName (as_spec a) +:+
          " with ID " +:+ Itoa (ss_id ss))) tt].

(** Creating a scale set: one request, retried by the policy, for the name,
    group and labels of the object.  After a success the object is read again
    and its status is written once, with the identifier GitHub gave; a conflict
    on that write drops the identifier, requeues at once and reports no error,
    so that the next reconciliation asks GitHub to create the set again; any
    other failure is returned.  A failed request ends in the error status. *)
Theorem createScaleSet_spec (a : AutoscaleSet) c gid (s : S) tr o s' :
  exec_seq (createScaleSet a c gid) s tr o s' →
  let req := CreateRunnerScaleSet c
    (mkScaleSet 0 (as_scaleSetName (as_spec a)) gid (Some (buildLabels a)) true None) in
  ∃ pre v err post, tr = pre ++ post ∧
    retry_spec DefaultRetryConfig req snd 6 0 None pre v err ∧
    match err with
    | Some e =>
      exec_seq (updateStatusError a "ScaleSetCreationFailed" (creation_error e)) s post o s'
    | None =>
      s' = s ∧ ∃ got rest, post = Ev (K8sGetAutoscaleSet (as_key a)) got :: rest ∧
      match got, captured v with
      | Err e, _ => rest = [] ∧ o = Done (no_requeue, Some e)
      | Ok _, None => rest = [] ∧ o = Panicked
      | Ok a', Some ss =>
        ∃ r tail, rest = Ev (K8sStatusUpdateAutoscaleSet (setCreateScaleSetStatus a' ss)) r :: tail ∧
        match r with
        | Err e => tail = [] ∧ o = Done (if IsConflict e then (requeue_now, None) else (no_requeue, Some e))
        | Ok a'' => tail = created_events a'' ss ∧ o = Done (no_requeue, None)
        end
      end
    end.
Proof.
  intros Hx req. unfold createScaleSet, createScaleSetInGitHub, exec_seq in Hx.
  apply bind_assoc in Hx.
  apply exec_bind in Hx as [(tr1 & [v err] & s1 & tr2 & -> & Hp & Hx)|[-> Hp]].
  2: { apply RetryWithBackoff_events in Hp as (_ & ? & ? & [=] & _). }
  apply (retry_loop_spec DefaultRetryConfig _ snd _ 0 None) in Hp as (-> & v' & err' & [= <- <-] & Hs).
  exists tr1, v, err, tr2. split; [done|]. split; [done|].
  destruct err as [e|]; [exact Hx|].
  destruct Hx as (got & rest & -> & Hx). destruct got as [a'|e].
  2: { destruct Hx as (-> & -> & ->). split; [done|]. by eexists _, _. }
  exec_norm Hx. destruct (captured v) as [ss|] eqn:Hc.
  - destruct Hx as (r & tail & -> & Hx).
    assert (Ht : s' = s ∧ match r with
      | Err e => tail = [] ∧ o = Done (if IsConflict e then (requeue_now, None) else (no_requeue, Some e))
      | Ok a'' => tail = created_events a'' ss ∧ o = Done (no_requeue, None)
      end).
    { destruct r as [a''|e]; [exec_run Hx; by repeat match goal with u : unit |- _ => destruct u end|].
      destruct (IsConflict e); by destruct Hx as (-> & -> & ->). }
    destruct Ht as [-> Ht]. split; [done|]. do 2 eexists. split; [done|].
    by exists r, tail.
  - destruct Hx as (-> & -> & ->). split; [done|]. by do 2 eexists.
Qed.

(** The secrets the specification names. *)
Definition credential_refs (a : AutoscaleSet) : list SecretRef :=
  match as_githubApp (as_spec a) with Some app => [ga_privateKeySecretRef app] | None => [] end ++
  match as_pat (as_spec a) with Some pat => [pa_tokenSecretRef pat] | None => [] end.

(** The object the factory reads for one of them. *)
Definition reads_secret (a : AutoscaleSet) (key : NamespacedName) : Prop :=
  Exists (λ ref, secretKey (as_ns a) (secret_ref ref) = key) (credential_refs a).

#[export] Instance reads_secret_dec a key : Decision (reads_secret a key).
Proof. unfold reads_secret. apply _. Defined.

Lemma autoscaleSetReferencesSecret_spec a secret :
  autoscaleSetReferencesSecret a secret = bool_decide (reads_secret a (meta_key (s_meta secret))).
Proof.
  assert (Href : ∀ ref,
    bool_decide ((if bool_decide (sr_namespace ref = "") then as_ns a else sr_namespace ref) =
                 m_namespace (s_meta secret)) && bool_decide (sr_name ref = m_name (s_meta secret)) =
    bool_decide (secretKey (as_ns a) (secret_ref ref) = meta_key (s_meta secret))).
  { intros ref. unfold secretKey, secret_ref, meta_key. simpl.
    repeat case_bool_decide; simplify_eq/=; try done; try congruence; exfalso;
      repeat match goal with H : ¬ _ |- _ => apply H end; congruence. }
  assert (Hiff : autoscaleSetReferencesSecret a secret = true ↔
                 reads_secret a (meta_key (s_meta secret))).
  { unfold autoscaleSetReferencesSecret, reads_secret, credential_refs. cbv zeta beta.
    destruct (as_githubApp (as_spec a)) as [gh|], (as_pat (as_spec a)) as [pat|]; cbn [app];
      rewrite ?Exists_cons, ?Exists_nil, ?Href; repeat case_bool_decide; naive_solver. }
  destruct (autoscaleSetReferencesSecret a secret); symmetry;
    [apply bool_decide_eq_true_2|apply bool_decide_eq_false_2]; naive_solver.
Qed.

(** A changed secret enqueues exactly the AutoscaleSets whose client would
    be built from it: those that name, among their credentials, the very object
    the factory reads for them; a failed list enqueues nothing. *)
Theorem mapSecretToAutoscaleSets_spec secret (s : S) tr o s' :
  exec_seq (mapSecretToAutoscaleSets (Some secret)) s tr o s' →
  s' = s ∧ ∃ list, tr = [Ev K8sListAutoscaleSets list] ∧
  o = Done (match list with
            | Ok items => as_key <$> filter (λ a, reads_secret a (meta_key (s_meta secret))) items
            | Err _ => []
            end).
Proof.
  intros (list & tr' & -> & Hx). cbn [prog_bind] in Hx. 
  destruct list as [items|e]; destruct Hx as (-> & -> & ->); (split; [done|]);
    eexists; (split; [done|]); [|done].
  f_equal. induction items as [|a items IH] using rev_ind; [done|].
  rewrite foldl_snoc, IH, filter_app, fmap_app, autoscaleSetReferencesSecret_spec.
  rewrite filter_cons. case_bool_decide; case_decide; try done. by rewrite app_nil_r.
Qed.

(** What a status the reconciler writes may say, and what it never touches. *)
Definition status_truthful (R : Type) (c : Call R) : Prop :=
  match c with
  | K8sStatusUpdateAutoscaleSet a =>
    ∃ r, find_condition (ast_conditions (as_status a)) "Ready" = Some r ∧
      c_observedGeneration r = m_generation (as_meta a) ∧
      (ast_phase (as_status a) = PhaseActive ∧ c_status r = ConditionTrue ∨
       ast_phase (as_status a) = "Error" ∧ c_status r = ConditionFalse)
  | K8sCreatePod _ | K8sUpdatePod _ | K8sDeletePod _ _ | K8sUpdateRunnerSet _
  | K8sStatusUpdateRunnerSet _ | RemoveRunner _ _ => False
  | _ => True
  end.

Lemma status_truthful_factory R (c : Call R) : factory_call R c → status_truthful R c.
Proof. by destruct c. Qed.

(** C13. Every status the reconciler writes agrees with itself: the phase is
    Active with a true Ready condition, or Error with a false one, and the
    condition observes the generation of the very object it is written to; and
    the reconciler never touches a pod, a RunnerSet or a runner. *)
Theorem Reconcile_status_truthful `{!ControllerLaws} rely req (s : S) tr o s' :
  exec rely (Reconcile req) s tr o s' → Forall (event_sat status_truthful) tr.
Proof.
  apply always_exec, always_Reconcile; [done|exact status_truthful_factory|done|].
  assert (Hset : ∀ cs st r m g, find_condition
            (SetStatusCondition cs (mkCondition "Ready" st r m g)) "Ready" =
            Some (mkCondition "Ready" st r m g)).
  { intros. rewrite SetStatusCondition_find. by case_decide. }
  assert (Hupd : ∀ a ss, returns (λ a, status_truthful _ (K8sStatusUpdateAutoscaleSet a))
                           (setUpdateScaleSetStatus (S := S) a ss)).
  { intros a ss. refine (returns_bind _ _ _ _). intros [current desired].
    eexists. split; [apply Hset|]. split; [done|]. by left. }
  unfold_reconcile_but_status.
  unfold applyErrorCondition, setCreateScaleSetStatus, ready.
  repeat first
    [ refine (always_bind_returns _ _ (setUpdateScaleSetStatus _ _) _ _ (Hupd _ _) _);
      [|intros ? ?]
    | always_prog_step ltac:(first [exact I | eassumption | eexists; split; [apply Hset|];
        split; [done|]; first [by left|by right]]) ltac:(exact status_truthful_factory)
    | unfold setUpdateScaleSetStatus, setScaleSetStatistics, deref_id,
        countRunnerPodsForAutoscaleSet; cbn [for_each] ].
Qed.
End Properties.

(** ** Runs *)

#[local] Existing Instance map_range_default.
#[local] Existing Instance ascii_tables.
#[local] Existing Instance controller_lib.
#[local] Existing Instance controller_laws.

(** An API server that stores what it is given, and a GitHub that creates scale
    set 7. *)
Definition gh_env (a : AutoscaleSet) (R : Type) (c : Call R) (n : nat) : R :=
  match c in Call R0 return R0 with
  | K8sGetAutoscaleSet _ => Ok a
  | K8sUpdateAutoscaleSet a | K8sStatusUpdateAutoscaleSet a => Ok a
  | K8sListAutoscaleSets => Ok [a]
  | CreateRunnerScaleSet _ ss => (Some (mkScaleSet 7 (ss_name ss) (ss_runnerGroupID ss) (ss_labels ss) true None), None)
  | UpdateRunnerScaleSet _ id ss => (Some (mkScaleSet id (ss_name ss) (ss_runnerGroupID ss) (ss_labels ss) true None), None)
  | DeleteRunnerScaleSet _ _ => None
  | c' => secret_env token_secret _ c' n
  end.

Definition finalized (a : AutoscaleSet) (id : option Z) (deleted : option Time) : AutoscaleSet :=
  mkAutoscaleSet (as_apiVersion a) (as_kind a)
    (mkObjectMeta "set" "" "ns" "u" "1" 3%Z 0%Z deleted None None [] [FinalizerName])
    (as_spec a) (mkASStatus id "" [] 0 0 0 []).

Lemma Reconcile_spec_witness :
  let a := as_set_finalizers (finalized pat_set None None) [] in
  let x := run (gh_env a) (Reconcile (as_key a)) NewCache 0 in
  x.1.2 = Done (no_requeue, None) ∧ length x.1.1 = 5 ∧ ∃ t0 got rest, x.1.1 = Ev Now t0 :: Ev (K8sGetAutoscaleSet (as_key a)) got :: rest.
Proof.
  intros a x. split; [vm_compute; reflexivity|]. split; [vm_compute; reflexivity|].
  destruct (Reconcile_spec (as_key a) NewCache _ _ _ (run_exec (gh_env a) _ NewCache 0))
    as (t0 & got & body & t1 & Htr & _). eauto.
Defined.

Lemma handleDeletion_spec_witness :
  let a := finalized pat_set (Some 42%Z) (Some 9%Z) in
  let x := run (gh_env a) (handleDeletion a) NewCache 0 in
  x.1.2 = Done (no_requeue, None) ∧ ∃ c, Ev (DeleteRunnerScaleSet c 42) None ∈ x.1.1.
Proof.
  intros a x. assert (Ho : x.1.2 = Done (no_requeue, None)) by (vm_compute; reflexivity).
  split; [exact Ho|].
  destruct (handleDeletion_spec a NewCache _ _ _ (run_exec (gh_env a) _ NewCache 0))
    as (pre & _ & [(_ & _ & res & e & He)|(r & post & Htr & _ & _ & c & Hc)]).
  - fold x in He. rewrite Ho in He. discriminate He.
  - exists c. fold x in Htr. rewrite Htr. apply elem_of_app. by left.
Defined.

Lemma maybeUpdateScaleSetLabels_spec_witness :
  let a := finalized pat_set (Some 42%Z) None in
  let ss := mkScaleSet 42 "set" 1 None true None in
  let x := run (gh_env a) (maybeUpdateScaleSetLabels a 0 (Some ss)) NewCache 0 in
  labelsEqual [] (buildLabels a) = false ∧ x.2 = NewCache ∧
  x.1.2 = Done (Some (mkScaleSet 42 "set" 1 (Some (buildLabels a)) true None), None).
Proof.
  intros a ss x. split; [vm_compute; reflexivity|]. split; [|vm_compute; reflexivity].
  exact (proj1 (maybeUpdateScaleSetLabels_spec a 0 (Some ss) NewCache _ _ _
                  (run_exec (gh_env a) _ NewCache 0))).
Defined.

(** GitHub creates the set, the status write conflicts, the identifier is lost. *)
Lemma createScaleSet_spec_witness :
  let a := finalized pat_set None None in
  let env R (c : Call R) n := match c in Call R0 return R0 with
    | K8sStatusUpdateAutoscaleSet _ => Err (mkError "conflict" None ReasonConflict [])
    | c' => gh_env a _ c' n end in
  let x := run env (createScaleSet a 0 1) NewCache 0 in
  x.1.2 = Done (requeue_now, None) ∧
  ∃ pre v err post, x.1.1 = pre ++ post ∧
    retry_spec DefaultRetryConfig (CreateRunnerScaleSet 0
      (mkScaleSet 0 "set" 1 (Some (buildLabels a)) true None)) snd 6 0 None pre v err.
Proof.
  intros a env x. split; [vm_compute; reflexivity|].
  destruct (createScaleSet_spec a 0 1 NewCache _ _ _ (run_exec env _ NewCache 0))
    as (pre & v & err & post & Htr & Hs & _). by exists pre, v, err, post.
Defined.

Lemma mapSecretToAutoscaleSets_spec_witness :
  let a := finalized pat_set None None in
  let secret := mkSecret (mkObjectMeta "app" "" "ns" "" "" 0%Z 0%Z None None None [] []) ∅ in
  let x := run (gh_env a) (mapSecretToAutoscaleSets (Some secret)) NewCache 0 in
  x.1.2 = Done [mkNN "ns" "set"] ∧ x.2 = NewCache.
Proof.
  intros a secret x. split; [vm_compute; reflexivity|].
  exact (proj1 (mapSecretToAutoscaleSets_spec secret NewCache _ _ _
                  (run_exec (gh_env a) _ NewCache 0))).
Defined.

Lemma Reconcile_status_truthful_witness :
  let a := finalized pat_set None None in
  let x := run (gh_env a) (Reconcile (as_key a)) NewCache 0 in
  x.1.2 = Done (no_requeue, None) ∧ Forall (event_sat status_truthful) x.1.1.
Proof.
  intros a x. split; [vm_compute; reflexivity|].
  exact (Reconcile_status_truthful eq (as_key a) NewCache _ _ _ (run_exec (gh_env a) _ NewCache 0)).
Defined.
