(* ===== verification/RunnerSetController.v ===== *)
(** * internal/controller: the RunnerSet reconciler

    One Definition per method of [RunnerSetReconciler], a program over a memory
    that holds the factory's cache and the listener manager, which the other
    reconciliations and the goroutines of the listeners share.  [ClientFactory]
    is the reconciler's field of that name. *)

From S2P Require Export AutoscaleSetController Listener Templates Digest.

(** The cache and the manager are different objects of the process. *)
Class SeparateMemory (S : Type) `{HasCache S, HasManager S} := {
  manager_of_with_cache c s : manager_of (with_cache c s) = manager_of s;
  cache_of_with_manager m s : cache_of (with_manager m s) = cache_of s
}.

(** The memory of the controller process. *)
Record Memory : Type := mkMemory { mem_cache : Cache; mem_manager : Manager }.

#[export] Instance Memory_HasCache : HasCache Memory :=
  {| cache_of := mem_cache; with_cache := λ c m, mkMemory c (mem_manager m);
     cache_of_with := λ _ _, eq_refl; with_cache_with := λ _ _ _, eq_refl;
     with_cache_of := λ m, match m with mkMemory _ _ => eq_refl end |}.

#[export] Instance Memory_HasManager : HasManager Memory :=
  {| manager_of := mem_manager; with_manager := λ l m, mkMemory (mem_cache m) l;
     manager_of_with := λ _ _, eq_refl |}.

#[export] Instance Memory_separate : SeparateMemory Memory.
Proof. by split. Qed.

Section RunnerSetReconciler.
Context {S : Type} `{HasCache S, HasManager S, MapRange, ControllerLib, ListenerLib}.

Definition rs_ns (r : RunnerSet) : string := m_namespace (rs_meta r).
Definition rs_name (r : RunnerSet) : string := m_name (rs_meta r).
Definition rs_key (r : RunnerSet) : NamespacedName := meta_key (rs_meta r).
Definition rs_group (r : RunnerSet) : string := rss_runnerGroup (rs_spec r).
Definition rs_ref (r : RunnerSet) : AutoscaleSetRef := rss_autoscaleSetRef (rs_spec r).

Definition rs_set_finalizers (r : RunnerSet) (f : list string) : RunnerSet :=
  rs_set_meta r (meta_set_finalizers (rs_meta r) f).

(** The label a RunnerSet's metrics carry for its AutoscaleSet. *)
Definition autoscaleSetName (r : RunnerSet) : string :=
  if bool_decide (ref_name (rs_ref r) = "") then LabelValueUnknown else ref_name (rs_ref r).

(** Critical sections of the listener manager. *)
Definition manager_HasListener (key : ListenerKey) : prog S bool :=
  atomic (λ s, (HasListener key (manager_of s), s)).
Definition manager_StopListener (key : ListenerKey) : prog S (option error) :=
  atomic (λ s, let '(err, m) := StopListener key (manager_of s) in (err, with_manager m s)).
Definition manager_StartListener (key : ListenerKey) (sessionClient : SessionClient)
    (scaleSetID maxRunners : Z) (sc : ListenerScaler) : prog S (option error) :=
  atomic (λ s, let '(err, m) := StartListener key sessionClient scaleSetID maxRunners sc (manager_of s)
               in (err, with_manager m s)).

(** ** Status *)

Definition rs_set_conditions (r : RunnerSet) (cs : list Condition) : RunnerSet :=
  let st := rs_status r in
  rs_set_status r (mkRSStatus (rst_runnerCount st) (rst_idleRunners st) (rst_busyRunners st) cs
                     (rst_lastMessageID st)).

Definition rs_error_condition (reason message : string) (obj : RunnerSet) : RunnerSet :=
  rs_set_conditions obj (SetStatusCondition (rst_conditions (rs_status obj))
    (ready ConditionFalse reason message (rs_meta obj))).

Definition rs_updateStatusError (r : RunnerSet) (reason message : string) : prog S Reconciled :=
  err ← RefetchAndUpdateStatus (call (K8sGetRunnerSet (rs_key r)))
          (rs_error_condition reason message) (λ o, call (K8sStatusUpdateRunnerSet o));
  match err with
  | Some err =>
    if errors_Is err SentinelStatusConflict then Ret (requeue_now, None)
    else Ret (no_requeue, Some err)
  | None =>
    call (Eventf (rs_ns r) (rs_name r) EventTypeWarning reason message);;
    Ret (requeue_after RequeueErrorInterval, None)
  end.

Record runnerStatusSummary : Type := mkSummary {
  IdleCount : Z;
  BusyCount : Z;
  PodStatusCounts : gmap string Z
}.

(** One turn of the loop of [computeRunnerStatusFromPods]: the counters. *)
Definition count_pod (s : runnerStatusSummary) (pod : Pod) : runnerStatusSummary :=
  let state := pod_label pod LabelRunnerState in
  let idle := if bool_decide (state = RunnerStateIdle) then wrap32 (IdleCount s + 1) else IdleCount s in
  let busy :=
    if bool_decide (state = RunnerStateIdle) then BusyCount s
    else if bool_decide (state = RunnerStateBusy) then wrap32 (BusyCount s + 1) else BusyCount s in
  let phase := if bool_decide (p_phase pod = "") then "Unknown" else p_phase pod in
  mkSummary idle busy
    (<[phase := wrap32 (default 0%Z (PodStatusCounts s !! phase) + 1)]> (PodStatusCounts s)).

(** ... and the age of the pod. *)
Definition observe_age (now : Time) (namespace asName runnerGroup : string) (pod : Pod) : prog S unit :=
  if negb (IsZero (m_creationTimestamp (p_meta pod))) then
    let state := pod_label pod LabelRunnerState in
    let state := if bool_decide (state = "") then LabelValueUnknown else state in
    metric RunnerPodAge [namespace; asName; runnerGroup; state]
      (MObserveSeconds (time_Sub now (m_creationTimestamp (p_meta pod))))
  else Ret tt.

Fixpoint status_loop (now : Time) (namespace asName runnerGroup : string) (pods : list Pod)
    (s : runnerStatusSummary) : prog S runnerStatusSummary :=
  match pods with
  | [] => Ret s
  | pod :: pods =>
    observe_age now namespace asName runnerGroup pod;;
    status_loop now namespace asName runnerGroup pods (count_pod s pod)
  end.

Definition computeRunnerStatusFromPods (pods : list Pod) (namespace asName runnerGroup : string)
  : prog S runnerStatusSummary :=
  now ← call Now;
  status_loop now namespace asName runnerGroup pods (mkSummary 0 0 ∅).

Definition recordRunnerSetMetrics (s : runnerStatusSummary) (namespace asName runnerGroup : string)
  : prog S unit :=
  metric RunnerSetTotal [namespace; "active"] (MSet 1);;
  metric RunnerPodsTotal [namespace; asName; runnerGroup; "idle"] (MSet (IdleCount s));;
  metric RunnerPodsTotal [namespace; asName; runnerGroup; "busy"] (MSet (BusyCount s));;
  metric RunnerPodsIdle [namespace; asName; runnerGroup] (MSet (IdleCount s));;
  metric RunnerPodsBusy [namespace; asName; runnerGroup] (MSet (BusyCount s));;
  metric ListenerStatus [namespace; asName; runnerGroup] (MSet 1);;
  for_each (range (PodStatusCounts s)) (λ '(phase, count),
    metric RunnerPodStatus [namespace; asName; runnerGroup; phase] (MSet count));;
  metric ReconciliationRate ["runnerset"; "success"] MInc.

(** [runnerset_controller.go]'s own [getRunnerPods]. *)
Definition rs_getRunnerPods (r : RunnerSet) : prog S (result error (list Pod)) :=
  call (K8sListPods (rs_ns r) (MatchingFields (index_field LabelRunnerGroup) (rs_group r))).

Definition set_runner_status (r : RunnerSet) (count : Z) (summary : runnerStatusSummary) : RunnerSet :=
  let st := rs_status r in
  rs_set_status r
    (mkRSStatus (wrap32 count) (IdleCount summary) (BusyCount summary)
       (SetStatusCondition (rst_conditions st)
          (ready ConditionTrue "ListenerActive" "Listener is active" (rs_meta r)))
       (rst_lastMessageID st)).

Definition updateStatus (r : RunnerSet) : prog S Reconciled :=
  pods ← rs_getRunnerPods r;
  match pods with
  | Err err => Ret (no_requeue, Some err)
  | Ok pods =>
    let asName := autoscaleSetName r in
    let group := rs_group r in
    summary ← computeRunnerStatusFromPods pods (rs_ns r) asName group;
    got ← call (K8sGetRunnerSet (rs_key r));
    match got with
    | Err err => Ret (no_requeue, Some err)
    | Ok r =>
      updated ← call (K8sStatusUpdateRunnerSet
                        (set_runner_status r (Z.of_nat (length pods)) summary));
      match updated with
      | Err err => if IsConflict err then Ret (requeue_now, None) else Ret (no_requeue, Some err)
      | Ok r =>
        recordRunnerSetMetrics summary (rs_ns r) asName (rs_group r);;
        if (0 <? rst_runnerCount (rs_status r))%Z ||
           IsStatusConditionTrue (rst_conditions (rs_status r)) "Ready"
        then Ret (requeue_after RequeueActiveInterval, None)
        else Ret (requeue_after RequeueScaleSetIDWait, None)
      end
    end
  end.

(** ** The AutoscaleSet a RunnerSet refers to *)

Definition autoscaleSet_key (r : RunnerSet) : NamespacedName :=
  let ns := ref_namespace (rs_ref r) in
  mkNN (if bool_decide (ns = "") then rs_ns r else ns) (ref_name (rs_ref r)).

Definition getAutoscaleSet (r : RunnerSet) : prog S (result error AutoscaleSet) :=
  got ← call (K8sGetAutoscaleSet (autoscaleSet_key r));
  match got with
  | Err err => Ret (Err err)
  | Ok a => Ret (Ok a)
  end.

Definition reconcileAutoscaleSetError (r : RunnerSet) (err : error) : prog S Reconciled :=
  if IsNotFound err then
    rs_updateStatusError r "AutoscaleSetNotFound"
      ("AutoscaleSet " +:+ ref_namespace (rs_ref r) +:+ "/" +:+ ref_name (rs_ref r) +:+ " not found")
  else rs_updateStatusError r "AutoscaleSetError" ("Failed to get AutoscaleSet: " +:+ err_text err).

(** The key a RunnerSet's listener is registered under. *)
Definition listener_key (a : AutoscaleSet) (r : RunnerSet) : ListenerKey :=
  mkListenerKey (mkNN (as_ns a) (as_name a)) (rs_group r).

(** ** Rollout *)

(** The loop over the pods: idle ones are deleted, the others left alone. *)
Fixpoint rollout_loop (pods : list Pod) (deletedCount : Z) : prog S Z :=
  match pods with
  | [] => Ret deletedCount
  | pod :: pods =>
    if bool_decide (pod_label pod LabelRunnerState = RunnerStateIdle) then
      err ← call (K8sDeletePod pod None);
      match err with
      | Some err =>
        if negb (IsNotFound err) then rollout_loop pods deletedCount
        else rollout_loop pods (deletedCount +! 1)
      | None => rollout_loop pods (deletedCount +! 1)
      end
    else rollout_loop pods deletedCount
  end.

Definition rolloutRunnerPods (r : RunnerSet) : prog S (option error) :=
  pods ← rs_getRunnerPods r;
  match pods with
  | Err err => Ret (Some (Errorf "failed to get runner pods: " err))
  | Ok pods =>
    deletedCount ← rollout_loop pods 0;
    (if (0 <? deletedCount)%Z then
       call (Eventf (rs_ns r) (rs_name r) EventTypeNormal "RunnerPodsRolledOut"
               ("Rolled out " +:+ Itoa deletedCount +:+ " idle runner pods"))
     else Ret tt);;
    Ret None
  end.

(** ** Starting a listener *)

Definition set_annotations (r : RunnerSet) (hash : string) (generation : Z) : RunnerSet :=
  let annotations := map_entries (m_annotations (rs_meta r)) in
  rs_set_meta r (meta_set_annotations (rs_meta r)
    (Some (<[AnnotationLastAutoscaleSetGeneration := Itoa generation]>
             (<[AnnotationPodSpecHash := hash]> annotations)))).

Definition pod_spec_hash (a : AutoscaleSet) (r : RunnerSet) : string :=
  computePodSpecHash (as_runnerImage (as_spec a)) (rss_runnerTemplate (rs_spec r))
    (as_runnerTemplate (as_spec a)).

(** The refetched and updated object is what the caller goes on with. *)
Definition setRunnerSetListenerAnnotations (r : RunnerSet) (a : AutoscaleSet)
  : prog S (result error RunnerSet) :=
  got ← call (K8sGetRunnerSet (rs_key r));
  match got with
  | Err err => Ret (Err err)
  | Ok r => call (K8sUpdateRunnerSet (set_annotations r (pod_spec_hash a r) (m_generation (as_meta a))))
  end.

(** [(sessionClient, res, err)]: a client, or a result to return at once. *)
Definition createMessageSession (r : RunnerSet) (a : AutoscaleSet) (scalesetClient : Client)
    (key : ListenerKey) : prog S (option SessionClient * option Result * option error) :=
  host ← call Hostname;
  let hostname := match host with
                  | Ok h => h
                  | Err _ => "controller-" +:+ m_uid (rs_meta r)
                  end in
  deref_id a (λ id,
    session ← call (MessageSessionClient scalesetClient id hostname);
    match session with
    | Ok sessionClient =>
      metric SessionOperations [rs_ns r; as_name a; rs_group r; "create"; "success"] MInc;;
      Ret (Some sessionClient, None, None)
    | Err err =>
      if IsSessionConflict (Some err) then
        metric SessionOperations [rs_ns r; as_name a; rs_group r; "create"; "conflict"] MInc;;
        metric SessionConflicts [rs_ns r; as_name a; rs_group r; hostname] MInc;;
        running ← manager_HasListener key;
        if running : bool then
          '(res, _) ← updateStatus r;
          Ret (None, Some res, None)
        else Ret (None, Some (requeue_after SessionConflictRequeueAfter), None)
      else
        metric SessionOperations [rs_ns r; as_name a; rs_group r; "create"; "error"] MInc;;
        '(res, updateErr) ← rs_updateStatusError r "SessionCreationFailed"
                              ("Failed to create message session: " +:+ err_text err);
        Ret (None, Some res, updateErr)
    end).

(** The scaler a new listener drives. *)
Definition listener_scaler (f : ClientFactory) (a : AutoscaleSet) (r : RunnerSet)
    (scalesetClient : Client) (id : Z) : ListenerScaler :=
  let minRunners := default DefaultMinRunners (as_minRunners (as_spec a)) in
  let maxRunners := default DefaultMaxRunners (as_maxRunners (as_spec a)) in
  let podTemplate := mergeRunnerTemplates (as_runnerTemplate (as_spec a)) (rss_runnerTemplate (rs_spec r)) in
  let kubernetesScaler :=
    NewKubernetesScaler scalesetClient id (rs_ns r) (as_runnerImage (as_spec a)) (rs_group r)
      minRunners maxRunners podTemplate (GetRateLimiter f) in
  let kubernetesScaler :=
    SetOwnerReference (as_meta a) (as_apiVersion a) (as_kind a) kubernetesScaler in
  mkListenerScaler kubernetesScaler DebounceWindow.

Definition startListener (f : ClientFactory) (r : RunnerSet) (a : AutoscaleSet) (key : ListenerKey)
  : prog S Reconciled :=
  scalesetClient ← CreateClientForAutoscaleSet a SubsystemListener;
  match scalesetClient with
  | Err err => rs_updateStatusError r "ClientCreationFailed"
                 ("Failed to create scaleset client: " +:+ err_text err)
  | Ok scalesetClient =>
    '(sessionClient, res, err) ← createMessageSession r a scalesetClient key;
    match res, err with
    | Some res, _ => Ret (res, err)
    | None, Some err => Ret (no_requeue, Some err)
    | None, None =>
      deref_id a (λ id,
        let maxRunners := default DefaultMaxRunners (as_maxRunners (as_spec a)) in
        err ← match sessionClient with
              | Some sessionClient =>
                manager_StartListener key sessionClient id maxRunners
                  (listener_scaler f a r scalesetClient id)
              | None => Panic
              end;
        match err with
        | Some err => rs_updateStatusError r "ListenerStartFailed"
                        ("Failed to start listener: " +:+ err_text err)
        | None =>
          call (Eventf (rs_ns r) (rs_name r) EventTypeNormal "ListenerStarted"
                  ("Started listener for runner group " +:+ rs_group r));;
          annotated ← setRunnerSetListenerAnnotations r a;
          match annotated with
          | Err err => Ret (no_requeue, Some err)
          | Ok r =>
            metric ListenerStatus [rs_ns r; autoscaleSetName r; rs_group r] (MSet 1);;
            updateStatus r
          end
        end)
    end
  end.

Definition reconcileExistingListener (f : ClientFactory) (r : RunnerSet) (a : AutoscaleSet)
    (key : ListenerKey) : prog S Reconciled :=
  let currentPodSpecHash := pod_spec_hash a r in
  let needsRollout :=
    bool_decide (m_annotations (rs_meta r) = None) ||
    bool_decide (map_get (m_annotations (rs_meta r)) AnnotationPodSpecHash ≠ currentPodSpecHash) in
  if negb needsRollout then updateStatus r
  else
    rolloutRunnerPods r;;
    manager_StopListener key;;
    let r := set_annotations r currentPodSpecHash (m_generation (as_meta a)) in
    updated ← call (K8sUpdateRunnerSet r);
    let r := match updated with Ok r => r | Err _ => r end in
    startListener f r a key.

(** ** Deletion *)

Definition rs_handleDeletion (r : RunnerSet) : prog S (option error) :=
  if negb (ContainsFinalizer (m_finalizers (rs_meta r)) RunnerSetFinalizerName) then Ret None
  else
    autoscaleSet ← getAutoscaleSet r;
    match autoscaleSet with
    | Ok a =>
      if bool_decide (ast_scaleSetID (as_status a) ≠ None) then
        let key := listener_key a r in
        running ← manager_HasListener key;
        if running : bool then
          manager_StopListener key;;
          call (Eventf (rs_ns r) (rs_name r) EventTypeNormal "ListenerStopped"
                  ("Stopped listener for runner group " +:+ rs_group r))
        else Ret tt
      else Ret tt
    | Err _ => Ret tt
    end;;
    updated ← call (K8sUpdateRunnerSet
                      (rs_set_finalizers r (RemoveFinalizer (m_finalizers (rs_meta r)) RunnerSetFinalizerName)));
    match updated with
    | Err err => Ret (Some err)
    | Ok r =>
      metric RunnerSetTotal [rs_ns r; "deleted"] (MSet 0);;
      metric ListenerStatus [rs_ns r; autoscaleSetName r; rs_group r] (MSet 0);;
      Ret None
    end.

(** ** Reconcile *)

Definition rs_reconcile_body (f : ClientFactory) (req : NamespacedName) : prog S Reconciled :=
  got ← call (K8sGetRunnerSet req);
  match got with
  | Err err =>
    if IsNotFound err then
      metric ReconciliationRate ["runnerset"; "not_found"] MInc;; Ret (no_requeue, None)
    else
      metric ReconciliationRate ["runnerset"; "error"] MInc;; Ret (no_requeue, Some err)
  | Ok r =>
    if is_deleting (rs_meta r) then
      err ← rs_handleDeletion r;
      match err with
      | Some err => Ret (no_requeue, Some err)
      | None => Ret (no_requeue, None)
      end
    else if negb (ContainsFinalizer (m_finalizers (rs_meta r)) RunnerSetFinalizerName) then
      updated ← call (K8sUpdateRunnerSet
                        (rs_set_finalizers r (AddFinalizer (m_finalizers (rs_meta r)) RunnerSetFinalizerName)));
      match updated with
      | Err err => Ret (no_requeue, Some err)
      | Ok _ => Ret (no_requeue, None)
      end
    else
      autoscaleSet ← getAutoscaleSet r;
      match autoscaleSet with
      | Err err => reconcileAutoscaleSetError r err
      | Ok a =>
        if is_deleting (as_meta a) then
          rs_updateStatusError r "AutoscaleSetDeleting"
            ("AutoscaleSet " +:+ as_ns a +:+ "/" +:+ as_name a +:+ " is being deleted")
        else if bool_decide (ast_scaleSetID (as_status a) = None)
        then Ret (requeue_after RequeueScaleSetIDWait, None)
        else
          let key := listener_key a r in
          running ← manager_HasListener key;
          if running : bool then reconcileExistingListener f r a key
          else startListener f r a key
      end
  end.

Definition rs_Reconcile (f : ClientFactory) (req : NamespacedName) : prog S Reconciled :=
  startTime ← call Now;
  deferred (recordReconcileDuration "runnerset" (nn_namespace req) (nn_name req) startTime)
    (rs_reconcile_body f req).

(** ** Watches *)

(** [obj.( *AutoscaleSet)] fails for any other object. *)
Definition mapAutoscaleSetToRunnerSets (obj : option AutoscaleSet) : prog S (list NamespacedName) :=
  match obj with
  | None => Ret []
  | Some a =>
    list ← call K8sListRunnerSets;
    match list with
    | Err _ => Ret []
    | Ok items =>
      Ret (foldl (λ requests r,
             let refNamespace := if bool_decide (ref_namespace (rs_ref r) = "") then rs_ns r
                                 else ref_namespace (rs_ref r) in
             if bool_decide (ref_name (rs_ref r) = as_name a) && bool_decide (refNamespace = as_ns a)
             then requests ++ [rs_key r] else requests) [] items)
    end
  end.
End RunnerSetReconciler.

(** ** What the reconciler issues *)

Ltac unfold_rs :=
  unfold rs_reconcile_body, rs_handleDeletion, reconcileExistingListener, startListener,
    createMessageSession, setRunnerSetListenerAnnotations, rolloutRunnerPods,
    reconcileAutoscaleSetError, getAutoscaleSet, updateStatus, rs_getRunnerPods,
    recordRunnerSetMetrics, computeRunnerStatusFromPods, rs_updateStatusError,
    RefetchAndUpdateStatus, manager_HasListener, manager_StopListener, manager_StartListener,
    deref_id in *.

Section Calls.
Context {S : Type} `{HasCache S, HasManager S, MapRange, ControllerLib, ListenerLib}.

Lemma always_status_loop (P : ∀ R, Call R → Prop) now ns asn g pods sm :
  (∀ pod, always P (observe_age (S := S) now ns asn g pod)) →
  always P (status_loop (S := S) now ns asn g pods sm).
Proof.
  intros Hobs. revert sm. induction pods as [|pod pods IH]; intros sm; [done|]. cbn [status_loop].
  apply always_bind; [apply Hobs|intros _; apply IH].
Qed.

Lemma no_batch_status_loop now ns asn g pods sm :
  no_batch (status_loop (S := S) now ns asn g pods sm).
Proof.
  revert sm. induction pods as [|pod pods IH]; intros sm; [done|]. cbn [status_loop]. unfold observe_age.
  apply no_batch_bind; [no_batch_tac|intros _; apply IH].
Qed.

Lemma always_rollout_loop (P : ∀ R, Call R → Prop) pods n :
  (∀ pod, pod_label pod LabelRunnerState = RunnerStateIdle → P _ (K8sDeletePod pod None)) →
  always P (rollout_loop (S := S) pods n).
Proof.
  intros HP. revert n. induction pods as [|pod pods IH]; intros n; [done|]. cbn [rollout_loop].
  case_bool_decide; [|apply IH].
  always_tac ltac:(by apply HP); apply IH.
Qed.

Lemma no_batch_rollout_loop pods n : no_batch (rollout_loop (S := S) pods n).
Proof.
  revert n. induction pods as [|pod pods IH]; intros n; [done|]. cbn [rollout_loop].
  repeat first [apply IH|no_batch_step].
Qed.

Lemma no_batch_for_each {X} (xs : list X) (body : X → prog S unit) :
  (∀ x, no_batch (body x)) → no_batch (for_each xs body).
Proof. intros Hb. induction xs; [done|]. by apply no_batch_bind. Qed.

End Calls.

(** The structural steps through the reconciler; [tac] is for the calls, [fac]
    for the calls of the factory, [del] for the deletions of the rollout. *)
Ltac always_rs tac fac del :=
  repeat first
    [ apply always_status_loop; intros ?; unfold observe_age
    | apply always_rollout_loop; del
    | always_prog_step tac fac ].

Section Reconciling.
Context {S : Type} `{HasCache S, HasManager S, MapRange, ControllerLib, ListenerLib}.

Lemma no_batch_rs_reconcile_body f req : no_batch (rs_reconcile_body (S := S) f req).
Proof.
  unfold_rs.
  repeat first
    [ apply no_batch_status_loop | apply no_batch_rollout_loop
    | apply no_batch_for_each; intros ? | apply no_batch_CreateClientForAutoscaleSet
    | no_batch_step ].
Qed.

Lemma always_rs_Reconcile (P : ∀ R, Call R → Prop) f req :
  (∀ R (c : Call R), factory_call R c → P R c) →
  (∀ ns name d, P _ (Metric ReconciliationDuration ["runnerset"; ns; name] (MObserveSeconds d))) →
  always P (rs_reconcile_body (S := S) f req) → always P (rs_Reconcile (S := S) f req).
Proof.
  intros Hf Hm Hb. unfold rs_Reconcile. always_step idtac; [split; [|done]; by apply Hf|].
  apply always_deferred; [|done]. unfold recordReconcileDuration, time_Since.
  always_tac ltac:(first [by apply Hf|by apply Hm]).
Qed.

Lemma RunnerSet_metrics_ok f req : always metric_ok (rs_Reconcile (S := S) f req).
Proof.
  apply always_rs_Reconcile; [apply metric_ok_factory|done|]. unfold_rs.
  always_rs ltac:(first [exact I|reflexivity]) ltac:(exact metric_ok_factory) ltac:(intros ? ?; exact I).
Qed.
End Reconciling.

(** ** Lemmas on the operations *)
Section Lemmas.
Context {S : Type} `{HasCache S, HasManager S, MapRange, ControllerLib, ListenerLib}.

(** The rollout deletes the idle pods of the list in order, and counts the ones
    that are gone. *)
Lemma exec_rollout_loop pods n (s : S) tr o s' :
  exec_seq (rollout_loop pods n) s tr o s' →
  s' = s ∧ ∃ answers,
    length answers = length (filterIdlePods pods) ∧
    tr = zip_with (λ p r, Ev (K8sDeletePod p None) r) (filterIdlePods pods) answers ∧
    o = Done (foldl (λ n r, if match r with Some e => negb (IsNotFound e) | None => false end
                            then n else n +! 1) n answers).
Proof.
  revert n tr. induction pods as [|pod pods IH]; intros n tr Hx.
  - destruct Hx as (-> & -> & ->). split; [done|]. by exists [].
  - cbn [rollout_loop] in Hx. unfold filterIdlePods. rewrite filter_cons.
    case_bool_decide as Hi; case_decide; try done; [|by apply IH].
    destruct Hx as (r & tr' & -> & Hx). exec_norm Hx.
    assert (Hx' : exec_seq (rollout_loop pods
       (if match r with Some e => negb (IsNotFound e) | None => false end then n else n +! 1)) s tr' o s').
    { destruct r as [e|]; [|exact Hx]. destruct (IsNotFound e); exact Hx. }
    apply IH in Hx' as (-> & answers & Hlen & -> & ->). split; [done|].
    exists (r :: answers). split; [simpl; by f_equal|done].
Qed.

(** Operations that leave the shared memory alone. *)
Lemma rs_updateStatusError_state r reason msg (s : S) tr o s' :
  exec_seq (rs_updateStatusError r reason msg) s tr o s' → s' = s ∧ ∃ res, o = Done res.
Proof.
  unfold rs_updateStatusError, RefetchAndUpdateStatus. intros Hx. exec_run Hx; eauto.
Qed.

Lemma status_loop_state now ns asn g pods sm (s : S) tr o s' :
  exec_seq (status_loop now ns asn g pods sm) s tr o s' →
  s' = s ∧ o = Done (foldl count_pod sm pods).
Proof.
  revert sm tr. induction pods as [|pod pods IH]; intros sm tr Hx; [by destruct Hx as (_ & -> & ->)|].
  cbn [status_loop] in Hx. unfold observe_age in Hx.
  destruct (negb (IsZero _)); [destruct Hx as ([] & ? & -> & Hx)|]; by apply IH in Hx.
Qed.

Lemma recordRunnerSetMetrics_state sm ns asn g (s : S) tr o s' :
  exec_seq (recordRunnerSetMetrics sm ns asn g) s tr o s' → s' = s ∧ o = Done tt.
Proof.
  assert (Hloop : ∀ (l : list (string * Z)) s tr o s', exec_seq (S := S) (for_each l (λ '(phase, count),
    metric RunnerPodStatus [ns; asn; g; phase] (MSet count))) s tr o s' → s' = s ∧ o = Done tt).
  { induction l as [|[p c] l IH]; intros s0 tr0 o0 s0' Hx; [by destruct Hx as (_ & -> & ->)|].
    destruct Hx as ([] & ? & -> & Hx). by apply IH in Hx. }
  unfold recordRunnerSetMetrics. intros Hx. do 6 (destruct Hx as ([] & ? & -> & Hx)).
  unfold exec_seq in Hx. exec_norm Hx.
  apply exec_bind in Hx as [(tr1 & [] & s1 & tr2 & -> & Hp & Hx)|[-> Hp]].
  - apply Hloop in Hp as [-> _]. destruct Hx as ([] & ? & -> & -> & -> & ->). done.
  - by apply Hloop in Hp as [_ [=]].
Qed.

Lemma updateStatus_state r (s : S) tr o s' :
  exec_seq (updateStatus r) s tr o s' → s' = s ∧ ∃ res, o = Done res.
Proof.
  unfold updateStatus, rs_getRunnerPods, computeRunnerStatusFromPods. intros (pods & tr1 & -> & Hx).
  exec_norm Hx. destruct pods as [pods|e]; [|exec_run Hx; eauto].
  destruct Hx as (now & tr2 & -> & Hx). exec_norm Hx.
  apply exec_bind in Hx as [(tr3 & sm & s1 & tr4 & -> & Hp & Hx)|[-> Hp]].
  2: { by apply status_loop_state in Hp as [_ [=]]. }
  apply status_loop_state in Hp as [-> _]. destruct Hx as (got & tr5 & -> & Hx). exec_norm Hx.
  destruct got as [r'|e]; [|exec_run Hx; eauto].
  destruct Hx as (up & tr6 & -> & Hx). exec_norm Hx.
  destruct up as [r''|e]; [|exec_run Hx; eauto].
  apply exec_bind in Hx as [(tr7 & [] & s2 & tr8 & -> & Hp & Hx)|[-> Hp]].
  - apply recordRunnerSetMetrics_state in Hp as [-> _]. destruct (_ || _); exec_run Hx; eauto.
  - by apply recordRunnerSetMetrics_state in Hp as [_ [=]].
Qed.
End Lemmas.

(** ** Properties *)
Section Properties.
Context {S : Type} `{HasCache S, HasManager S, MapRange, ControllerLib, ListenerLib}.

(** What the reconciler may do to pods, statuses and GitHub. *)
Definition rs_call_ok (R : Type) (c : Call R) : Prop :=
  match c with
  | K8sDeletePod p g => pod_label p LabelRunnerState = RunnerStateIdle ∧ g = None
  | K8sStatusUpdateRunnerSet r =>
    ∃ c, find_condition (rst_conditions (rs_status r)) "Ready" = Some c ∧
      c_observedGeneration c = m_generation (rs_meta r) ∧
      (c_status c = ConditionTrue ∧ c_reason c = "ListenerActive" ∨ c_status c = ConditionFalse)
  | K8sCreatePod _ | K8sUpdatePod _ | K8sUpdateAutoscaleSet _ | K8sStatusUpdateAutoscaleSet _
  | CreateRunnerScaleSet _ _ | UpdateRunnerScaleSet _ _ _ | DeleteRunnerScaleSet _ _
  | RemoveRunner _ _ => False
  | _ => True
  end.

Lemma rs_call_ok_factory R (c : Call R) : factory_call R c → rs_call_ok R c.
Proof. by destruct c. Qed.

Lemma rs_Reconcile_calls `{!ControllerLaws} f req : always rs_call_ok (rs_Reconcile (S := S) f req).
Proof.
  apply always_rs_Reconcile; [exact rs_call_ok_factory|done|].
  assert (Hset : ∀ cs st r m g, find_condition
            (SetStatusCondition cs (mkCondition "Ready" st r m g)) "Ready" =
            Some (mkCondition "Ready" st r m g)).
  { intros. rewrite SetStatusCondition_find. by case_decide. }
  unfold_rs. unfold rs_error_condition, set_runner_status, rs_set_conditions, ready.
  always_rs ltac:(first [exact I | eexists; split; [apply Hset|]; split; [done|];
                         first [by left|by right]])
    ltac:(exact rs_call_ok_factory) ltac:(intros ? Hidle; by split).
Qed.

(** The end of every reconciliation. *)
Definition rs_duration_events (req : NamespacedName) (t0 t1 : Time) : list (event S) :=
  [Ev Now t1; Ev (Metric ReconciliationDuration ["runnerset"; nn_namespace req; nn_name req]
                    (MObserveSeconds (time_Sub t1 t0))) tt].

(** C11. [Reconcile] of a RunnerSet, branch by branch: a missing object is no
    error; a deletion, a missing finalizer, a missing or deleted AutoscaleSet
    and a scale set that is not created yet end the reconciliation in their own
    way; otherwise the listener registered under the set's key decides between
    checking the running listener and starting one.  The duration is recorded
    last on every path. *)
Theorem rs_Reconcile_spec f req (s : S) tr o s' :
  exec_seq (rs_Reconcile f req) s tr o s' →
  ∃ t0 got body t1,
    tr = Ev Now t0 :: Ev (K8sGetRunnerSet req) got :: body ++ rs_duration_events req t0 t1 ∧
    match got with
    | Err e =>
      body = [Ev (Metric ReconciliationRate
                    ["runnerset"; if IsNotFound e then "not_found" else "error"] MInc) tt] ∧
      o = Done (no_requeue, if IsNotFound e then None else Some e) ∧ s' = s
    | Ok r =>
      if is_deleting (rs_meta r) then
        ∃ o', exec_seq (rs_handleDeletion r) s body o' s' ∧
          o = match o' with Done err => Done (no_requeue, err) | Panicked => Panicked end
      else if ContainsFinalizer (m_finalizers (rs_meta r)) RunnerSetFinalizerName then
        ∃ gota rest, body = Ev (K8sGetAutoscaleSet (autoscaleSet_key r)) gota :: rest ∧
        match gota with
        | Err e => exec_seq (reconcileAutoscaleSetError r e) s rest o s'
        | Ok a =>
          if is_deleting (as_meta a) then
            exec_seq (rs_updateStatusError r "AutoscaleSetDeleting"
              ("AutoscaleSet " +:+ as_ns a +:+ "/" +:+ as_name a +:+ " is being deleted")) s rest o s'
          else if bool_decide (ast_scaleSetID (as_status a) = None) then
            rest = [] ∧ o = Done (requeue_after RequeueScaleSetIDWait, None) ∧ s' = s
          else if HasListener (listener_key a r) (manager_of s)
          then exec_seq (reconcileExistingListener f r a (listener_key a r)) s rest o s'
          else exec_seq (startListener f r a (listener_key a r)) s rest o s'
        end
      else ∃ u,
        body = [Ev (K8sUpdateRunnerSet (rs_set_finalizers r
                      (AddFinalizer (m_finalizers (rs_meta r)) RunnerSetFinalizerName))) u] ∧
        o = Done (no_requeue, match u with Ok _ => None | Err e => Some e end) ∧ s' = s
    end.
Proof.
  intros (t0 & tr0 & -> & Hx). cbn [prog_bind] in Hx.
  apply exec_deferred in Hx as (tr1 & s1 & tr2 & -> & Hx & Hd).
  2: exact (no_batch_rs_reconcile_body f req).
  2: { by intros ? ? ? ? (-> & _)%recordReconcileDuration_done. }
  apply recordReconcileDuration_done in Hd as (_ & -> & t1 & ->).
  destruct Hx as (got & body & -> & Hx). exists t0, got, body, t1. split; [done|].
  exec_norm Hx. destruct got as [r|e].
  - destruct (is_deleting (rs_meta r)).
    { apply exec_bind in Hx as [(tra & err & s2 & trb & -> & Hp & Hx)|[-> Hp]];
        [|by exists Panicked].
      destruct err; destruct Hx as (-> & -> & ->); rewrite app_nil_r; eexists; by split. }
    destruct (ContainsFinalizer (m_finalizers (rs_meta r)) RunnerSetFinalizerName); cbn [negb] in Hx.
    + unfold getAutoscaleSet in Hx. destruct Hx as (gota & rest & -> & Hx).
      exists gota, rest. split; [done|]. destruct gota as [a|e]; [|exact Hx].
      exec_norm Hx. destruct (is_deleting (as_meta a)); [exact Hx|].
      destruct (bool_decide _); [destruct Hx as (-> & -> & ->); done|].
      destruct Hx as (s2 & <- & Hx). cbn [fst snd] in Hx. exec_norm Hx.
      by destruct (HasListener _ _).
    + destruct Hx as (u & tr' & -> & Hx). exists u. destruct u; by destruct Hx as (-> & -> & ->).
  - destruct (IsNotFound e); destruct Hx as ([] & tr' & -> & -> & -> & ->); done.
Qed.

Lemma map_get_set_annotations r hash gen :
  map_get (m_annotations (rs_meta (set_annotations r hash gen))) AnnotationPodSpecHash = hash.
Proof.
  unfold set_annotations. cbn [rs_meta rs_set_meta meta_set_annotations m_annotations].
  rewrite map_get_insert_ne by done. apply map_get_insert_eq.
Qed.

(** C15. While the annotation of a RunnerSet holds the hash of what its runners
    are built from, reconciling it only refreshes its status: no pod is deleted,
    the object is not written, no session is opened and the shared memory, with
    the running listener and its scaler, is left as it is; whatever the
    iteration order of the maps was when the hash was stored, and whatever else
    changed in the AutoscaleSet, its limits on the number of runners included. *)
Theorem reconcileExistingListener_quiet f r a a0 r0 key :
  (∃ R', map_get (m_annotations (rs_meta r)) AnnotationPodSpecHash = @pod_spec_hash R' a0 r0) →
  as_runnerImage (as_spec a) = as_runnerImage (as_spec a0) →
  same_content (rss_runnerTemplate (rs_spec r)) (rss_runnerTemplate (rs_spec r0)) →
  same_content (as_runnerTemplate (as_spec a)) (as_runnerTemplate (as_spec a0)) →
  reconcileExistingListener (S := S) f r a key = updateStatus r ∧
  ∀ (s : S) tr o s', exec_seq (reconcileExistingListener f r a key) s tr o s' → s' = s.
Proof.
  intros Hstored Himg Hr Ha. set (hash := pod_spec_hash a r).
  assert (Hh : ∀ R', hash = @pod_spec_hash R' a0 r0).
  { intros R'. subst hash. unfold pod_spec_hash. rewrite Himg. by apply computePodSpecHash_stable. }
  assert (Hlen : String.length hash = 16)
    by by apply (computePodSpecHash_stable _ _ _ _ _ _ _ Hr Ha).
  assert (Heq : reconcileExistingListener (S := S) f r a key = updateStatus r).
  { unfold reconcileExistingListener. fold hash. destruct Hstored as [R' Hann].
    rewrite <- Hh in Hann. clearbody hash.
    rewrite (bool_decide_eq_false_2 (m_annotations (rs_meta r) = None)).
    2: { intros Hn. rewrite Hn in Hann. change ("" = hash) in Hann. by subst hash. }
    rewrite bool_decide_eq_false_2; [done|]. rewrite Hann. by intros []. }
  split; [done|]. intros s tr o s' Hx. rewrite Heq in Hx. by apply updateStatus_state in Hx as [-> _].
Qed.

Definition gone (r : option error) : bool :=
  match r with Some e => IsNotFound e | None => true end.

(** C30. A rollout deletes exactly the pods of the list that are labelled idle,
    each once and in order, whatever AutoscaleSet they belong to: the list is
    that of the runner group in the namespace.  A pod that cannot be deleted
    does not stop it; the event counts the ones that are gone and is missing
    when there are none; only a failed list is an error. *)
Theorem rolloutRunnerPods_spec r (s : S) tr o s' :
  exec_seq (rolloutRunnerPods r) s tr o s' →
  s' = s ∧ ∃ listed rest,
    tr = Ev (K8sListPods (rs_ns r)
               (MatchingFields (index_field LabelRunnerGroup) (rs_group r))) listed :: rest ∧
    match listed with
    | Err e => rest = [] ∧ o = Done (Some (Errorf "failed to get runner pods: " e))
    | Ok pods =>
      (Z.of_nat (length pods) < 2 ^ 31)%Z →
      o = Done None ∧ ∃ answers,
        length answers = length (filterIdlePods pods) ∧
        let n := length (filter (λ r, gone r = true) answers) in
        rest = zip_with (λ p r, Ev (K8sDeletePod p None) r) (filterIdlePods pods) answers ++
          if bool_decide (n = 0) then []
          else [Ev (Eventf (rs_ns r) (rs_name r) EventTypeNormal "RunnerPodsRolledOut"
                      ("Rolled out " +:+ Itoa (Z.of_nat n) +:+ " idle runner pods")) tt]
    end.
Proof.
  intros (listed & rest & -> & Hx). exec_norm Hx. destruct listed as [pods|e].
  2: { destruct Hx as (-> & -> & ->). split; [done|]. by do 2 eexists. }
  apply exec_bind in Hx as [(tr1 & n & s1 & tr2 & -> & Hp & Hx)|[-> Hp]].
  2: { by apply exec_rollout_loop in Hp as (_ & ? & _ & _ & [=]). }
  apply exec_rollout_loop in Hp as (-> & answers & Hlen & -> & [= ->]).
  set (step := λ (n : Z) (r : option error), _) in Hx.
  assert (Hs : s' = s ∧ o = Done None ∧ tr2 =
    if (0 <? foldl step 0%Z answers)%Z then
      [Ev (Eventf (rs_ns r) (rs_name r) EventTypeNormal "RunnerPodsRolledOut"
             ("Rolled out " +:+ Itoa (foldl step 0%Z answers) +:+ " idle runner pods")) tt]
    else []).
  { destruct (0 <? _)%Z; [destruct Hx as ([] & ? & -> & Hx)|]; by destruct Hx as (-> & -> & ->). }
  destruct Hs as (-> & -> & ->). split; [done|]. do 2 eexists. split; [done|]. intros Hsmall.
  split; [done|]. exists answers. split; [done|]. cbn zeta.
  assert (Hidle : length (filterIdlePods pods) ≤ length pods) by apply length_filter.
  assert (Hcount : ∀ l z, (0 ≤ z)%Z → (z + Z.of_nat (length l) < 2 ^ 32)%Z →
    foldl step z l = (z + Z.of_nat (length (filter (λ r, gone r = true) l)))%Z).
  { clear -S. induction l as [|x l IH]; intros z Hz Hl; [simpl; lia|].
    cbn [foldl length] in *. rewrite filter_cons. unfold step at 2.
    assert (Hg : match x with Some e => negb (IsNotFound e) | None => false end = negb (gone x))
      by by destruct x. rewrite Hg.
    destruct (gone x); cbn [negb]; rewrite IH;
      rewrite ?wrap64_small by (unfold min_int64, max_int64; lia); try lia.
    - destruct (decide (true = true)); [|done]. cbn [length]. lia.
    - destruct (decide (false = true)); [done|]. lia. }
  rewrite Hcount by lia. rewrite Z.add_0_l. f_equal.
  generalize (length (filter (λ r, gone r = true) answers)) as n. clear. by intros [|n].
Qed.

(** A changed AutoscaleSet enqueues exactly the RunnerSets whose reference,
    read the way reconciling them reads it, names it; a failed list enqueues
    nothing. *)
Theorem mapAutoscaleSetToRunnerSets_spec a (s : S) tr o s' :
  exec_seq (mapAutoscaleSetToRunnerSets (Some a)) s tr o s' →
  s' = s ∧ ∃ list, tr = [Ev K8sListRunnerSets list] ∧
  o = Done (match list with
            | Ok items => rs_key <$> filter (λ r, autoscaleSet_key r = as_key a) items
            | Err _ => []
            end).
Proof.
  intros (list & tr' & -> & Hx). cbn [prog_bind] in Hx.
  destruct list as [items|e]; destruct Hx as (-> & -> & ->); (split; [done|]);
    eexists; (split; [done|]); [|done].
  f_equal. induction items as [|r items IH] using rev_ind; [done|].
  rewrite foldl_snoc, IH, filter_app, fmap_app, filter_cons.
  destruct (decide (autoscaleSet_key r = as_key a)) as [Heq|Hne].
  - injection Heq as Hns Hn. by rewrite !(bool_decide_eq_true_2 (_ = _ a)) by done.
  - rewrite filter_nil, fmap_nil, app_nil_r.
    destruct (bool_decide (ref_name (rs_ref r) = as_name a)) eqn:Hn; [|done].
    destruct (bool_decide (_ = as_ns a)) eqn:Hns; [|done]. breflect.
    destruct Hne. unfold autoscaleSet_key, as_key, meta_key. by f_equal.
Qed.

(** The object the status is computed for. *)
Lemma foldl_count_pod pods sm :
  (0 ≤ IdleCount sm)%Z → (0 ≤ BusyCount sm)%Z →
  (∀ ph n, PodStatusCounts sm !! ph = Some n → 0 ≤ n)%Z →
  (IdleCount sm + Z.of_nat (length pods) < 2 ^ 31)%Z →
  (BusyCount sm + Z.of_nat (length pods) < 2 ^ 31)%Z →
  (∀ ph, default 0%Z (PodStatusCounts sm !! ph) + Z.of_nat (length pods) < 2 ^ 31)%Z →
  let sm' := foldl count_pod sm pods in
  IdleCount sm' = (IdleCount sm + Z.of_nat (length (filter (λ p, pod_label p LabelRunnerState = RunnerStateIdle) pods)))%Z ∧
  BusyCount sm' = (BusyCount sm + Z.of_nat (length (filter (λ p, pod_label p LabelRunnerState = RunnerStateBusy) pods)))%Z ∧
  ∀ ph, default 0%Z (PodStatusCounts sm' !! ph) =
    (default 0%Z (PodStatusCounts sm !! ph) +
     Z.of_nat (length (filter (λ p, (if bool_decide (p_phase p = "") then "Unknown" else p_phase p) = ph) pods)))%Z.
Proof.
  revert sm. induction pods as [|p pods IH]; intros sm Hi Hb Hp Hi' Hb' Hp'; cbn zeta.
  { cbn [foldl filter list_filter length]. split; [lia|]. split; [lia|]. intros ph. lia. }
  cbn [foldl length] in *.
  assert (Hphase : ∀ ph, (0 ≤ default 0 (PodStatusCounts sm !! ph))%Z).
  { intros ph. destruct (PodStatusCounts sm !! ph) eqn:Hph; [by eapply Hp|done]. }
  set (phase := if bool_decide (p_phase p = "") then "Unknown" else p_phase p) in *.
  assert (Hc : count_pod sm p = mkSummary
    (if bool_decide (pod_label p LabelRunnerState = RunnerStateIdle) then IdleCount sm + 1 else IdleCount sm)
    (if bool_decide (pod_label p LabelRunnerState = RunnerStateBusy) then BusyCount sm + 1 else BusyCount sm)
    (<[phase := (default 0 (PodStatusCounts sm !! phase) + 1)%Z]> (PodStatusCounts sm))).
  { specialize (Hp' phase). specialize (Hphase phase).
    unfold count_pod. fold phase. rewrite !wrap32_small by lia. f_equal.
    assert (Hne : RunnerStateIdle ≠ RunnerStateBusy) by done.
    repeat case_bool_decide; congruence. }
  rewrite Hc. clear Hc. destruct (IH (mkSummary
    (if bool_decide (pod_label p LabelRunnerState = RunnerStateIdle) then IdleCount sm + 1 else IdleCount sm)
    (if bool_decide (pod_label p LabelRunnerState = RunnerStateBusy) then BusyCount sm + 1 else BusyCount sm)
    (<[phase := (default 0 (PodStatusCounts sm !! phase) + 1)%Z]> (PodStatusCounts sm))))
    as (IHi & IHb & IHp); cbn [IdleCount BusyCount PodStatusCounts] in *.
  - case_bool_decide; lia.
  - case_bool_decide; lia.
  - intros ph n [[<- <-]|[_ Hn]]%lookup_insert_Some; [specialize (Hphase phase); lia|by eapply Hp].
  - case_bool_decide; lia.
  - case_bool_decide; lia.
  - intros ph. specialize (Hp' ph). rewrite lookup_insert. case_decide; subst; simpl; lia.
  - split; [|split].
    + rewrite IHi, filter_cons. clear IHi IHb IHp. case_bool_decide; case_decide; try done; cbn [length]; lia.
    + rewrite IHb, filter_cons. clear IHi IHb IHp. case_bool_decide; case_decide; try done; cbn [length]; lia.
    + intros ph. rewrite IHp, filter_cons, lookup_insert. fold phase.
      clearbody phase.
      repeat case_decide; try done; subst; simpl; lia.
Qed.

(** The status counts of a RunnerSet are those of the pods listed: as many
    idle as are labelled idle, as many busy as are labelled busy, and for every
    phase the pods in it, an empty phase read as Unknown. *)
Theorem computeRunnerStatusFromPods_spec pods ns asn g (s : S) tr o s' :
  (Z.of_nat (length pods) < 2 ^ 31)%Z →
  exec_seq (computeRunnerStatusFromPods pods ns asn g) s tr o s' →
  s' = s ∧ ∃ sm, o = Done sm ∧
    IdleCount sm = Z.of_nat (length (filterIdlePods pods)) ∧
    BusyCount sm = Z.of_nat (length (filter (λ p, pod_label p LabelRunnerState = RunnerStateBusy) pods)) ∧
    ∀ phase, default 0%Z (PodStatusCounts sm !! phase) = Z.of_nat (length (filter
      (λ p, (if bool_decide (p_phase p = "") then "Unknown" else p_phase p) = phase) pods)).
Proof.
  intros Hlen (now & tr' & -> & Hx). exec_norm Hx.
  apply status_loop_state in Hx as [-> ->]. split; [done|]. eexists. split; [done|].
  destruct (foldl_count_pod pods (mkSummary 0 0 ∅)) as (Hi & Hb & Hp); cbn in *; try lia.
  - intros ph n. by rewrite lookup_empty.
  - intros ph. rewrite lookup_empty. simpl. lia.
  - rewrite Hi, Hb. split; [done|]. split; [done|]. intros ph. by rewrite Hp, lookup_empty.
Qed.

Lemma createMessageSession_state r a c key (s : S) tr o s' :
  exec_seq (createMessageSession r a c key) s tr o s' →
  s' = s ∧ match o with
           | Done (session, res, err) =>
             match session with
             | Some _ => res = None ∧ err = None
             | None => ∃ r, res = Some r
             end
           | Panicked => ast_scaleSetID (as_status a) = None
           end.
Proof.
  unfold createMessageSession, deref_id, manager_HasListener.
  intros (host & tr1 & -> & Hx). exec_norm Hx.
  destruct (ast_scaleSetID (as_status a)) as [id|]; [|by destruct Hx as (-> & -> & ->)].
  destruct Hx as (session & tr2 & -> & Hx). exec_norm Hx. destruct session as [c'|e].
  - exec_run Hx. done.
  - destruct (IsSessionConflict (Some e)); exec_norm Hx.
    + destruct Hx as ([] & ? & -> & [] & ? & -> & ? & <- & Hx). cbn [fst snd] in Hx.
      destruct (HasListener key (manager_of s)); [|exec_run Hx; eauto].
      apply exec_bind in Hx as [(? & [res err] & ? & ? & -> & Hp & Hx)|[-> Hp]];
        apply updateStatus_state in Hp as [-> [? [=]]]; exec_run Hx; eauto.
    + destruct Hx as ([] & ? & -> & Hx).
      apply exec_bind in Hx as [(? & [res err] & ? & ? & -> & Hp & Hx)|[-> Hp]];
        apply rs_updateStatusError_state in Hp as [-> [? [=]]]; exec_run Hx; eauto.
Qed.

(** The scaler the two objects ask for, field by field: the AutoscaleSet's
    image, limits (0 and 10 by default) and owner, its template under the
    RunnerSet's, the RunnerSet's namespace and group, the rate limiter of the
    factory, and a debouncer that waits two seconds. *)
Record described (f : ClientFactory) (a : AutoscaleSet) (r : RunnerSet) (c : Client) (id : Z)
    (sc : ListenerScaler) : Prop := mkDescribed {
  ds_client : k_scalesetClient (lsc_inner sc) = c;
  ds_scaleSetID : k_scaleSetID (lsc_inner sc) = id;
  ds_namespace : k_namespace (lsc_inner sc) = m_namespace (rs_meta r);
  ds_image : k_runnerImage (lsc_inner sc) = as_runnerImage (as_spec a);
  ds_group : k_runnerGroup (lsc_inner sc) = rss_runnerGroup (rs_spec r);
  ds_min : k_minRunners (lsc_inner sc) = default 0%Z (as_minRunners (as_spec a));
  ds_max : k_maxRunners (lsc_inner sc) = default 10%Z (as_maxRunners (as_spec a));
  ds_template : k_template (lsc_inner sc) =
    mergeRunnerTemplates (as_runnerTemplate (as_spec a)) (rss_runnerTemplate (rs_spec r));
  ds_owner : k_ownerRef (lsc_inner sc) =
    Some (mkOwnerReference (as_apiVersion a) (as_kind a) (m_name (as_meta a)) (m_uid (as_meta a))
            (Some false) (Some true));
  ds_limiter : k_rateLimiter (lsc_inner sc) = f_rateLimiter f;
  ds_window : lsc_window sc = (2 * 1000000000)%Z
}.

Lemma listener_scaler_described f a r c id : described f a r c id (listener_scaler f a r c id).
Proof. by split. Qed.

(** C12. Starting a listener registers at most one, and only as the manager allows
    it: either the manager is left as it was, or the key was free and now has a
    new listener for the scale set in the status, which may hold as many runners
    as the specification says (10 by default) and drives, through the debouncer,
    the scaler that [described] spells out: namespace and group of the
    RunnerSet, limits, image and owner of the AutoscaleSet, both templates
    merged, and the rate limiter of the factory. *)
Theorem startListener_registers `{!SeparateMemory S} f r a key (s : S) tr o s' :
  exec_seq (startListener f r a key) s tr o s' →
  manager_of s' = manager_of s ∨
  ∃ id c session sc, ast_scaleSetID (as_status a) = Some id ∧
    HasListener key (manager_of s) = false ∧ described f a r c id sc ∧
    StartListener key session id (default 10%Z (as_maxRunners (as_spec a))) sc (manager_of s) =
      (None, manager_of s').
Proof.
  unfold startListener. intros Hx. unfold exec_seq in Hx.
  apply exec_bind in Hx as [(tr1 & client & s1 & tr2 & -> & Hp & Hx)|[-> Hp]].
  2: { apply CreateClientForAutoscaleSet_spec in Hp as (? & [=] & _). }
  assert (Hm : manager_of s1 = manager_of s).
  { refine (preserves_exec (λ s s', manager_of s' = manager_of s) _ _ _ _ _ _ Hp).
    { split; [by intros ?|]. intros ??? Ha Hb. by rewrite Hb. }
    apply preserves_CreateClientForAutoscaleSet; [by intros ?|]. intros. apply manager_of_with_cache. }
  rewrite <- Hm. clear Hm Hp. destruct client as [c|e].
  2: { apply rs_updateStatusError_state in Hx as [-> _]. by left. }
  apply exec_bind in Hx as [(tr3 & [[session res] err] & s2 & tr4 & -> & Hp & Hx)|[-> Hp]];
    apply createMessageSession_state in Hp as [-> Hsess]; [|by left].
  destruct session as [session|].
  2: { destruct Hsess as [? ->]. destruct Hx as (_ & _ & ->). by left. }
  destruct Hsess as [-> ->]. unfold deref_id in Hx.
  destruct (ast_scaleSetID (as_status a)) as [id|] eqn:Hid; [|destruct Hx as (_ & _ & ->); by left].
  unfold manager_StartListener in Hx. exec_norm Hx. destruct Hx as (? & <- & Hx).
  destruct (StartListener key session id _ _ (manager_of s1)) as [err m] eqn:Hst. cbn [fst snd] in Hx.
  pose proof (StartListener_cases key session id (default DefaultMaxRunners (as_maxRunners (as_spec a)))
    (listener_scaler f a r c id) (manager_of s1)) as Hcases. rewrite Hst in Hcases.
  destruct err as [e|].
  - apply rs_updateStatusError_state in Hx as [-> _]. left. by rewrite manager_of_with.
  - right. exists id, c, session, (listener_scaler f a r c id). split; [done|]. split; [done|].
    split; [apply listener_scaler_described|].
    change (default 10%Z) with (default DefaultMaxRunners). rewrite Hst. f_equal.
    rewrite <- (manager_of_with m s1). destruct Hx as ([] & ? & -> & Hx). unfold setRunnerSetListenerAnnotations in Hx.
    destruct Hx as (got & ? & -> & Hx). exec_norm Hx. destruct got as [r'|e]; [|by destruct Hx as (_ & _ & ->)].
    destruct Hx as (up & ? & -> & Hx). exec_norm Hx. destruct up as [r''|e]; [|by destruct Hx as (_ & _ & ->)].
    destruct Hx as ([] & ? & -> & Hx). by apply updateStatus_state in Hx as [-> _].
Qed.

(** The write that takes the finalizer off. *)
Definition rs_release (r : RunnerSet) : Call (result error RunnerSet) :=
  K8sUpdateRunnerSet
    (rs_set_finalizers r (RemoveFinalizer (m_finalizers (rs_meta r)) RunnerSetFinalizerName)).

(** C14. Deleting a RunnerSet stops its listener before the finalizer goes, when
    the AutoscaleSet can still be read and names a scale set; when it cannot,
    or was never created, the finalizer goes all the same and the manager is not
    touched: a listener registered under the key of the set keeps running.  Only
    the write of the object can fail the deletion. *)
Theorem rs_handleDeletion_spec r (s : S) tr o s' :
  exec_seq (rs_handleDeletion r) s tr o s' →
  if ContainsFinalizer (m_finalizers (rs_meta r)) RunnerSetFinalizerName then
    ∃ got stopped u rest,
      tr = Ev (K8sGetAutoscaleSet (autoscaleSet_key r)) got :: stopped ++ Ev (rs_release r) u :: rest ∧
      o = Done (match u with Ok _ => None | Err e => Some e end) ∧
      let stops := match got with
                   | Ok a => bool_decide (ast_scaleSetID (as_status a) ≠ None) &&
                             HasListener (listener_key a r) (manager_of s)
                   | Err _ => false
                   end in
      match got with
      | Ok a =>
        if stops then
          HasListener (listener_key a r) (manager_of s') = false ∧
          manager_of s' = (StopListener (listener_key a r) (manager_of s)).2 ∧
          stopped = [Ev (Eventf (rs_ns r) (rs_name r) EventTypeNormal "ListenerStopped"
                           ("Stopped listener for runner group " +:+ rs_group r)) tt]
        else s' = s ∧ stopped = []
      | Err _ => s' = s ∧ stopped = []
      end
  else tr = [] ∧ o = Done None ∧ s' = s.
Proof.
  unfold rs_handleDeletion. intros Hx.
  destruct (ContainsFinalizer _ _); cbn [negb] in Hx; [|exact Hx].
  assert (Hrest : ∀ s tr o s', exec_seq (S := S) (
    updated ← call (rs_release r);
    match updated with
    | Err err => Ret (Some err)
    | Ok r =>
      metric RunnerSetTotal [rs_ns r; "deleted"] (MSet 0);;
      metric ListenerStatus [rs_ns r; autoscaleSetName r; rs_group r] (MSet 0);;
      Ret None
    end) s tr o s' → s' = s ∧ ∃ u rest, tr = Ev (rs_release r) u :: rest ∧
      o = Done (match u with Ok _ => None | Err e => Some e end)).
  { clear s tr o s' Hx. intros s tr o s' (u & rest & -> & Hx).
    destruct u; exec_run Hx; eauto. }
  unfold getAutoscaleSet in Hx. destruct Hx as (got & tr1 & -> & Hx). exec_norm Hx.
  destruct got as [a|e].
  2: { apply Hrest in Hx as (-> & u & rest & -> & ->). by exists (Err e), [], u, rest. }
  exec_norm Hx. destruct (bool_decide (ast_scaleSetID (as_status a) ≠ None)) eqn:Hid.
  2: { apply Hrest in Hx as (-> & u & rest & -> & ->). exists (Ok a), [], u, rest. by rewrite Hid. }
  unfold manager_HasListener in Hx. exec_norm Hx. destruct Hx as (? & <- & Hx). cbn [fst snd] in Hx.
  destruct (HasListener (listener_key a r) (manager_of s)) eqn:Hl.
  2: { apply Hrest in Hx as (-> & u & rest & -> & ->). exists (Ok a), [], u, rest. by rewrite Hid, Hl. }
  unfold manager_StopListener in Hx. exec_norm Hx. destruct Hx as (? & <- & Hx).
  destruct (StopListener (listener_key a r) (manager_of s)) as [err m] eqn:Hst. cbn [fst snd] in Hx.
  destruct Hx as ([] & tr2 & -> & Hx). apply Hrest in Hx as (-> & u & rest & -> & ->).
  eexists (Ok a), [_], u, rest. split; [reflexivity|]. split; [done|]. cbn zeta. rewrite Hid, Hl.
  cbn [andb]. rewrite manager_of_with, Hst. split; [|done].
  pose proof (StopListener_frees (listener_key a r) (manager_of s)) as Hf. by rewrite Hst in Hf.
Qed.

(** The pods a registered scaler creates are the ones both lists look for:
    they live in the RunnerSet's namespace, the scaler's own index on the scale
    set finds them, the index on the runner name finds each under its name, and
    the reconciler's index on the runner group finds them, unless the group has
    an empty name, in which case no RunnerSet ever counts or rolls them out.
    No template can change that. *)
Theorem registered_scaler_pods_listed `{QuantityParser} f a r c id name jit :
  let k := lsc_inner (listener_scaler f a r c id) in
  let pod := runner_pod k name jit in
  m_namespace (p_meta pod) = rs_ns r ∧ setID k = Itoa id ∧
  indexed pod LabelAutoscaleSet (setID k) ∧
  (indexed pod LabelRunnerName name ↔ name ≠ "") ∧
  (indexed pod LabelRunnerGroup (rs_group r) ↔ rs_group r ≠ "") ∧
  pod_label pod LabelRunnerState = RunnerStateIdle.
Proof.
  intros k pod. split; [done|]. split; [done|].
  assert (Hl : ∀ key, pod_label pod key = default "" (buildPodLabels k name !! key)) by done.
  rewrite !indexed_spec, !Hl, !buildPodLabels_lookup.
  assert (Hid : setID k ≠ "").
  { apply Itoa_nonempty. }
  repeat (rewrite bool_decide_eq_true_2 by (apply (bool_decide_unpack _); exact I)).
  unfold system_label. change (k_runnerGroup k) with (rs_group r). change (Itoa (k_scaleSetID k)) with (setID k).
  simpl. destruct (decide (rs_group r = "")) as [Hg|Hg].
  - rewrite Hg. repeat case_bool_decide; naive_solver.
  - repeat case_bool_decide; naive_solver.
Qed.
End Properties.

(** ** Runs *)

#[local] Existing Instance map_range_default.
#[local] Existing Instance ascii_tables.
#[local] Existing Instance controller_lib.
#[local] Existing Instance controller_laws.
#[local] Existing Instance any_config.

(** An API server with one RunnerSet, one AutoscaleSet and some pods, and a
    GitHub that opens every session. *)
Definition rs_env (pods : list Pod) (r : RunnerSet) (a : AutoscaleSet) (R : Type) (c : Call R) (n : nat) : R :=
  match c in Call R0 return R0 with
  | K8sGetRunnerSet _ => Ok r
  | K8sUpdateRunnerSet r | K8sStatusUpdateRunnerSet r => Ok r
  | K8sListRunnerSets => Ok [r]
  | K8sListPods _ _ => Ok pods
  | K8sDeletePod _ _ => None
  | MessageSessionClient _ _ _ => Ok 5
  | c' => gh_env a _ c' n
  end.

Definition sample_meta (name : string) (labels annotations : gomap) (finalizers : list string) : ObjectMeta :=
  mkObjectMeta name "" "ns" name "1" 1%Z 0%Z None labels annotations [] finalizers.

Definition sample_rs (annotations : gomap) : RunnerSet :=
  mkRunnerSet (sample_meta "runners" None annotations [RunnerSetFinalizerName])
    (mkRSSpec (mkASRef "set" "") "default" (Some ci_template)) (mkRSStatus 0 0 0 [] 0).

Definition sample_as : AutoscaleSet := finalized pat_set (Some 42%Z) None.

(** A pod of scale set [id]. *)
Definition labelled_pod (name state : string) (id : Z) : Pod :=
  mkPod (sample_meta name (Some {[LabelRunnerState := state; LabelRunnerGroup := "default";
                                  LabelAutoscaleSet := Itoa id]}) None [])
    (mkPodSpec "Never" [] None [] None) PodRunning.

(** The last of these belongs to another scale set of the same group. *)
Definition group_pods : list Pod :=
  [labelled_pod "a" "idle" 42; labelled_pod "b" "busy" 42; labelled_pod "c" "idle" 43].

Definition fresh_memory : Memory := mkMemory NewCache NewManager.

Lemma rs_Reconcile_spec_witness :
  let r := sample_rs None in
  let x := run (rs_env [] r sample_as) (rs_Reconcile (mkClientFactory None) (rs_key r)) fresh_memory 0 in
  HasListener (listener_key sample_as r) (manager_of x.2) = true ∧
  ∃ t0 got body t1, x.1.1 =
    Ev Now t0 :: Ev (K8sGetRunnerSet (rs_key r)) got :: body ++ rs_duration_events (rs_key r) t0 t1.
Proof.
  intros r x. split; [vm_compute; reflexivity|].
  destruct (rs_Reconcile_spec (mkClientFactory None) (rs_key r) fresh_memory _ _ _
    (run_exec (rs_env [] r sample_as) _ fresh_memory 0)) as (t0 & got & body & t1 & Htr & _).
  by exists t0, got, body, t1.
Defined.

(** The limits change while the listener runs: nothing happens. *)
Lemma reconcileExistingListener_quiet_witness :
  let r0 := sample_rs None in
  let r := set_annotations r0 (@pod_spec_hash map_range_reversed sample_as r0) 1 in
  let sp := as_spec sample_as in
  let a := as_set_spec sample_as
    (mkASSpec (as_githubConfigURL sp) (as_scaleSetName sp) (as_runnerGroup sp) (as_labels sp)
       (Some 3%Z) (Some 50%Z) (as_runnerImage sp) (as_githubApp sp) (as_pat sp) (as_runnerTemplate sp)) in
  reconcileExistingListener (S := Memory) (mkClientFactory None) r a (listener_key a r) = updateStatus r.
Proof.
  intros r0 r sp a.
  assert (Hann : map_get (m_annotations (rs_meta r)) AnnotationPodSpecHash =
                 @pod_spec_hash map_range_reversed sample_as r0)
    by (apply (map_get_set_annotations r0 _ 1%Z)).
  assert (Hr : same_content (rss_runnerTemplate (rs_spec r)) (rss_runnerTemplate (rs_spec r0)))
    by (repeat split).
  exact (proj1 (reconcileExistingListener_quiet (S := Memory) (mkClientFactory None)
    r a sample_as r0 (listener_key a r) (ex_intro _ _ Hann) eq_refl Hr I)).
Defined.

(** The idle pod of scale set 43 is deleted with the others. *)
Lemma rolloutRunnerPods_spec_witness :
  let r := sample_rs None in
  let x := run (rs_env group_pods r sample_as) (rolloutRunnerPods r) fresh_memory 0 in
  x.1.2 = Done None ∧ x.2 = fresh_memory ∧
  filterIdlePods group_pods = [labelled_pod "a" "idle" 42; labelled_pod "c" "idle" 43].
Proof.
  intros r x. split; [vm_compute; reflexivity|]. split; [|vm_compute; reflexivity].
  exact (proj1 (rolloutRunnerPods_spec r fresh_memory _ _ _
                  (run_exec (rs_env group_pods r sample_as) _ fresh_memory 0))).
Defined.

Lemma mapAutoscaleSetToRunnerSets_spec_witness :
  let r := sample_rs None in
  let x := run (rs_env [] r sample_as) (mapAutoscaleSetToRunnerSets (Some sample_as)) fresh_memory 0 in
  x.1.2 = Done [mkNN "ns" "runners"] ∧ x.2 = fresh_memory.
Proof.
  intros r x. split; [vm_compute; reflexivity|].
  exact (proj1 (mapAutoscaleSetToRunnerSets_spec sample_as fresh_memory _ _ _
                  (run_exec (rs_env [] r sample_as) _ fresh_memory 0))).
Defined.

Lemma computeRunnerStatusFromPods_spec_witness :
  let x := run (rs_env [] (sample_rs None) sample_as)
             (computeRunnerStatusFromPods group_pods "ns" "set" "default") fresh_memory 0 in
  (Z.of_nat (length group_pods) < 2 ^ 31)%Z ∧ ∃ sm, x.1.2 = Done sm ∧ IdleCount sm = 2%Z ∧ BusyCount sm = 1%Z.
Proof.
  intros x. split; [vm_compute; reflexivity|].
  destruct (computeRunnerStatusFromPods_spec group_pods "ns" "set" "default" fresh_memory _ _ _
    ltac:(vm_compute; reflexivity) (run_exec (rs_env [] (sample_rs None) sample_as) _ fresh_memory 0))
    as (_ & sm & Ho & Hi & Hb & _).
  exists sm. split; [exact Ho|]. split; [exact Hi|exact Hb].
Defined.

Lemma startListener_registers_witness :
  let r := sample_rs None in
  let key := listener_key sample_as r in
  let x := run (rs_env [] r sample_as) (startListener (mkClientFactory None) r sample_as key) fresh_memory 0 in
  HasListener key (manager_of x.2) = true ∧
  (manager_of x.2 = manager_of fresh_memory ∨
   ∃ id c session sc, ast_scaleSetID (as_status sample_as) = Some id ∧
     HasListener key (manager_of fresh_memory) = false ∧
     described (mkClientFactory None) sample_as r c id sc ∧
     StartListener key session id 10 sc (manager_of fresh_memory) = (None, manager_of x.2)).
Proof.
  intros r key x. split; [vm_compute; reflexivity|].
  exact (startListener_registers (mkClientFactory None) r sample_as key fresh_memory _ _ _
           (run_exec (rs_env [] r sample_as) _ fresh_memory 0)).
Defined.

(** The AutoscaleSet is gone: the finalizer goes, the listener stays. *)
Lemma rs_handleDeletion_spec_witness :
  let r := sample_rs None in
  let key := listener_key sample_as r in
  let m := (StartListener key 5 42 10 ci_scaler NewManager).2 in
  let env R (c : Call R) n := match c in Call R0 return R0 with
    | K8sGetAutoscaleSet _ => Err (mkError "not found" None ReasonNotFound [])
    | c' => rs_env [] r sample_as _ c' n end in
  let x := run env (rs_handleDeletion r) (mkMemory NewCache m) 0 in
  x.1.2 = Done None ∧ HasListener key (manager_of x.2) = true ∧
  ∃ got stopped u rest, x.1.1 =
    Ev (K8sGetAutoscaleSet (autoscaleSet_key r)) got :: stopped ++ Ev (rs_release r) u :: rest.
Proof.
  intros r key m env x. split; [vm_compute; reflexivity|]. split; [vm_compute; reflexivity|].
  destruct (rs_handleDeletion_spec r (mkMemory NewCache m) _ _ _ (run_exec env _ (mkMemory NewCache m) 0))
    as (got & stopped & u & rest & Htr & _).
  by exists got, stopped, u, rest.
Defined.
