(* ===== verification/RunnerScope.v ===== *)
(** * internal/controller: what reconciling a RunnerSet may reach

    Whose objects the reconciler of RunnerSetController writes and deletes.
    That depends on what the API server answered before, so this file reads a
    program under an assumption about the responses ([traced]). *)

From S2P Require Export RunnerSetController.

(** ** Programs under an assumption on the responses

    [traced A P p Q]: as long as every response satisfies [A], every call of [p]
    satisfies [P] and what [p] returns satisfies [Q]. *)
Section Traced.
Context {S : Type}.
Context (A : ∀ R, Call R → R → Prop) (P : ∀ R, Call R → Prop).

Fixpoint traced {T : Type} (p : prog S T) (Q : T → Prop) : Prop :=
  match p with
  | Ret a => Q a
  | Panic => True
  | Vis c k => P _ c ∧ ∀ r, A _ c r → traced (k r) Q
  | Atomic f k => ∀ r, traced (k r) Q
  | Go b k => always P b ∧ traced k Q
  | Batch _ _ _ _ _ => False
  end.

Lemma traced_mono {T} (p : prog S T) (Q Q' : T → Prop) :
  (∀ a, Q a → Q' a) → traced p Q → traced p Q'.
Proof. intros HQ. induction p; simpl; naive_solver. Qed.

Lemma traced_bind {T U} (p : prog S T) (f : T → prog S U) Q :
  traced p (λ a, traced (f a) Q) → traced (prog_bind p f) Q.
Proof. induction p; simpl; naive_solver. Qed.

Lemma traced_call {T R} (c : Call R) (f : R → prog S T) Q :
  P R c → (∀ r, A R c r → traced (f r) Q) → traced (prog_bind (call c) f) Q.
Proof. by split. Qed.

Lemma traced_deferred {T} (d : prog S unit) (p : prog S T) Q :
  traced d (λ _, True) → traced p Q → traced (deferred d p) Q.
Proof.
  intros Hd. induction p; simpl; try naive_solver; intros HQ;
    apply traced_bind; eapply traced_mono; try exact Hd; done.
Qed.

(** Nothing needs to be assumed of calls that are fine whatever is answered. *)
Lemma traced_always {T} (p : prog S T) : no_batch p → always P p → traced p (λ _, True).
Proof. induction p; simpl; naive_solver. Qed.

(** What the responses of a trace satisfy. *)
Definition responses_ok (e : event S) : Prop :=
  match e with Ev c r => A _ c r | EvGo _ => True end.

Lemma traced_exec {T} (p : prog S T) Q rely s tr o s' :
  traced p Q → exec rely p s tr o s' → Forall responses_ok tr → Forall (event_sat P) tr.
Proof.
  revert Q s tr. induction p as [? a|?|? R c k IH|? R h k IH|? b ? k IH|? lim n st t IHt k IH];
    intros Q s tr; simpl; intros Hp Hx Hok; [by destruct Hx as [-> _]..| | | |done].
  - destruct Hp as [Hc Hp], Hx as (r & tr' & -> & Hx). apply Forall_cons in Hok as [Hr Hok].
    constructor; [done|]. by eapply IH; [apply Hp| |].
  - destruct Hx as (s1 & _ & Hx). by eapply IH; [apply Hp| |].
  - destruct Hp as [Hb Hp], Hx as (tr' & -> & Hx). apply Forall_cons in Hok as [_ Hok].
    constructor; [done|]. by eapply IH; [apply Hp| |].
Qed.
End Traced.

(** ** The reach of a reconciliation *)
Section Scope.
Context {S : Type} `{HasCache S, HasManager S, MapRange, ControllerLib, ListenerLib}.
Context (req : NamespacedName) (listed : Pod → Prop).

(** The API server answers under the names it was asked for, and [listed] holds
    of the pods it lists in the namespace of the request. *)
Definition named (R : Type) (c : Call R) : R → Prop :=
  match c in Call R0 return R0 → Prop with
  | K8sGetRunnerSet k => λ x, ∀ r, x = Ok r → rs_key r = k
  | K8sUpdateRunnerSet b => λ x, ∀ r, x = Ok r → rs_key r = rs_key b
  | K8sListPods ns _ => λ x, ∀ pods, x = Ok pods → ns = nn_namespace req → ∀ p, p ∈ pods → listed p
  | _ => λ _, True
  end.

Definition own (R : Type) (c : Call R) : Prop :=
  match c with
  | K8sGetRunnerSet k => k = req
  | K8sUpdateRunnerSet r | K8sStatusUpdateRunnerSet r => rs_key r = req
  | K8sListPods ns _ => ns = nn_namespace req
  | K8sDeletePod p _ => listed p
  | _ => True
  end.

#[local] Notation traced := (traced named own).

Lemma own_factory R (c : Call R) : factory_call R c → own R c.
Proof. by destruct c. Qed.

Lemma own_namespace r : rs_key r = req → rs_ns r = nn_namespace req.
Proof. by intros <-. Qed.

(** The names of the objects at hand are that of the request, by conversion. *)
Ltac own_keys :=
  repeat match goal with
  | Ha : named _ ?c (Ok ?x), Hr : rs_key _ = req |- _ =>
    let Hx := fresh "Hx" in
    assert (Hx : rs_key x = req) by exact (eq_trans (Ha x eq_refl) Hr); clear Ha
  end.

Ltac own_tac :=
  first
    [ exact I
    | own_keys; match goal with Hr : rs_key _ = req |- _ => first [exact Hr|exact (own_namespace _ Hr)] end ].

Ltac traced_step :=
  cbn beta iota; lazymatch goal with
  | |- traced (Ret ?a) ?Q => change (Q a)
  | |- traced Panic _ => exact I
  | |- traced (metric _ _ _) _ => unfold metric
  | |- traced (call _) _ => split; [own_tac|intros ? ?]
  | |- traced (atomic _) _ => intros ?
  | |- traced (@mbind _ _ _ _ ?f ?p) _ => refine (traced_bind _ _ p f _ _)
  | |- traced (prog_bind ?p ?f) _ => refine (traced_bind _ _ p f _ _)
  | |- traced (match ?x with _ => _ end) _ => destruct x
  | |- True => exact I
  end.

(** A part whose calls are fine whatever is answered. *)
Lemma traced_free {T} (p : prog S T) (Q : T → Prop) :
  no_batch p → always own p → (∀ a, Q a) → traced p Q.
Proof. intros Hb Ha HQ. eapply traced_mono; [|by apply traced_always]. auto. Qed.

Lemma traced_rs_updateStatusError r reason msg (Q : Reconciled → Prop) :
  rs_key r = req → (∀ a, Q a) → traced (rs_updateStatusError (S := S) r reason msg) Q.
Proof. intros Hr HQ. unfold rs_updateStatusError, RefetchAndUpdateStatus. repeat traced_step; auto. Qed.

Lemma traced_status_counts pods ns asn g Q :
  (∀ a, Q a) → traced (computeRunnerStatusFromPods (S := S) pods ns asn g) Q.
Proof.
  apply traced_free; unfold computeRunnerStatusFromPods.
  - apply no_batch_bind; [no_batch_tac|intros; apply no_batch_status_loop].
  - always_rs ltac:(exact I) ltac:(exact own_factory) idtac.
Qed.

Lemma traced_runner_metrics sm ns asn g Q :
  (∀ a, Q a) → traced (recordRunnerSetMetrics (S := S) sm ns asn g) Q.
Proof.
  apply traced_free; unfold recordRunnerSetMetrics.
  - repeat first [apply no_batch_for_each; intros ?|no_batch_step].
  - always_rs ltac:(exact I) ltac:(exact own_factory) idtac.
Qed.

Lemma traced_updateStatus r (Q : Reconciled → Prop) :
  rs_key r = req → (∀ a, Q a) → traced (updateStatus (S := S) r) Q.
Proof.
  intros Hr HQ. unfold updateStatus, rs_getRunnerPods.
  repeat first [ apply traced_status_counts; intros ? | apply traced_runner_metrics; intros ? | traced_step ];
    auto.
Qed.

Lemma traced_rollout_loop pods n (Q : Z → Prop) :
  (∀ p, p ∈ pods → listed p) → (∀ a, Q a) → traced (rollout_loop (S := S) pods n) Q.
Proof.
  revert n. induction pods as [|pod pods IH]; intros n Hp HQ; [apply HQ|]. cbn [rollout_loop].
  assert (Hrest : ∀ n, traced (rollout_loop (S := S) pods n) Q) by (intros; apply IH; set_solver).
  case_bool_decide; [|apply Hrest]. apply traced_bind. split; [apply Hp; by left|]. intros r _.
  change (traced (match r with
    | Some err => if negb (IsNotFound err) then rollout_loop (S := S) pods n else rollout_loop pods (n +! 1)
    | None => rollout_loop pods (n +! 1) end) Q).
  repeat case_match; apply Hrest.
Qed.

Lemma traced_rolloutRunnerPods r (Q : option error → Prop) :
  rs_key r = req → (∀ a, Q a) → traced (rolloutRunnerPods (S := S) r) Q.
Proof.
  intros Hr HQ. unfold rolloutRunnerPods, rs_getRunnerPods. apply traced_bind.
  split; [own_tac|]. intros pods Hpods. cbn [traced]. destruct pods as [pods|e]; [|apply HQ].
  apply traced_bind, traced_rollout_loop.
  - by apply (Hpods pods eq_refl), own_namespace.
  - intros n. repeat traced_step; auto.
Qed.

Lemma traced_createMessageSession r a c key Q :
  rs_key r = req → (∀ x, Q x) → traced (createMessageSession (S := S) r a c key) Q.
Proof.
  intros Hr HQ. unfold createMessageSession, deref_id, manager_HasListener.
  repeat first
    [ apply traced_updateStatus; [done|]; intros ?
    | apply traced_rs_updateStatusError; [done|]; intros ?
    | traced_step ]; auto.
Qed.

Lemma traced_startListener f r a key Q :
  rs_key r = req → (∀ x, Q x) → traced (startListener (S := S) f r a key) Q.
Proof.
  intros Hr HQ. unfold startListener, deref_id, manager_StartListener, setRunnerSetListenerAnnotations.
  apply traced_bind, traced_free;
    [apply no_batch_CreateClientForAutoscaleSet|apply always_CreateClientForAutoscaleSet, own_factory|].
  intros client.
  repeat first
    [ apply traced_createMessageSession; [done|]; intros ?
    | apply traced_updateStatus; [own_tac|]; intros ?
    | apply traced_rs_updateStatusError; [done|]; intros ?
    | traced_step ]; auto.
Qed.

Lemma traced_rs_reconcile_body f : traced (rs_reconcile_body (S := S) f req) (λ _, True).
Proof.
  unfold rs_reconcile_body, rs_handleDeletion, getAutoscaleSet, reconcileAutoscaleSetError,
    reconcileExistingListener, manager_HasListener, manager_StopListener.
  apply traced_bind. split; [done|]. intros got Hgot. cbn [traced].
  assert (Hr : ∀ r, got = Ok r → rs_key r = req) by exact Hgot. clear Hgot.
  destruct got as [r|e]; [|repeat traced_step; done]. specialize (Hr r eq_refl).
  repeat first
    [ apply traced_startListener; [own_tac|]; intros ?
    | apply traced_updateStatus; [done|]; intros ?
    | apply traced_rolloutRunnerPods; [done|]; intros ?
    | apply traced_rs_updateStatusError; [done|]; intros ?
    | traced_step ]; [|done..].
  destruct r1 as [r2|e]; apply traced_startListener; first [done|own_tac].
Qed.

End Scope.

Section Properties.
Context {S : Type} `{HasCache S, HasManager S, MapRange, ControllerLib, ListenerLib}.

(** The API server answers under the names it was asked for. *)
Definition by_name (R : Type) (c : Call R) : R → Prop :=
  match c in Call R0 return R0 → Prop with
  | K8sGetRunnerSet k => λ x, match x with Ok r => rs_key r = k | Err _ => True end
  | K8sUpdateRunnerSet b => λ x, match x with Ok r => rs_key r = rs_key b | Err _ => True end
  | _ => λ _, True
  end.

(** C7. Reconciling a RunnerSet never deletes a pod that was not listed as idle;
    it creates and changes no pod, writes no AutoscaleSet, no scale set and no
    registered runner; and every status it writes carries a Ready condition for
    the generation it is written to, true only as ListenerActive.  Provided the
    API server answers under the names it was asked for, the RunnerSet it writes
    is the one of the request and no other, and every pod it deletes is one the
    server listed in the namespace of the request: whether that pod belongs to
    the same AutoscaleSet is not checked (see [rolloutRunnerPods_spec]). *)
Theorem rs_Reconcile_safe `{!ControllerLaws} rely f req (s : S) tr o s' :
  exec rely (rs_Reconcile f req) s tr o s' →
  Forall (event_sat rs_call_ok) tr ∧
  (Forall (responses_ok by_name) tr →
   (∀ r x, Ev (K8sUpdateRunnerSet r) x ∈ tr ∨ Ev (K8sStatusUpdateRunnerSet r) x ∈ tr → rs_key r = req) ∧
   ∀ p grace x, Ev (K8sDeletePod p grace) x ∈ tr →
     ∃ selector pods, Ev (K8sListPods (nn_namespace req) selector) (Ok pods) ∈ tr ∧ p ∈ pods).
Proof.
  intros Hx. split; [eapply always_exec, Hx; apply rs_Reconcile_calls|]. intros Hok.
  set (listed p := ∃ selector pods, Ev (K8sListPods (nn_namespace req) selector) (Ok pods) ∈ tr ∧ p ∈ pods).
  assert (Hown : Forall (event_sat (own req listed)) tr).
  { refine (traced_exec (named req listed) _ _ (λ _, True) _ _ _ _ _ _ Hx _).
    - unfold rs_Reconcile. apply traced_bind. split; [exact I|]. intros t0 _.
      apply traced_deferred; [|apply traced_rs_reconcile_body].
      unfold recordReconcileDuration, time_Since. by repeat split.
    - rewrite Forall_forall in *. intros [R c x|b] Hin; [|done]. pose proof (Hok _ Hin) as Hn.
      destruct c; try exact I; cbn in Hn |- *;
        first [by intros ? -> | intros pods -> -> p Hp; by exists sel, pods]. }
  rewrite Forall_forall in Hown.
  split; [intros r x [Hin|Hin]|intros p grace x Hin]; exact (Hown _ Hin).
Qed.
End Properties.

(** ** A run *)

#[local] Existing Instance map_range_default.
#[local] Existing Instance ascii_tables.
#[local] Existing Instance controller_lib.
#[local] Existing Instance controller_laws.
#[local] Instance any_listener_config : ListenerLib := {| listener_New := λ _ _, None |}.

(** [by_name], decided on one event. *)
Definition by_nameb {S} (e : event S) : bool :=
  match e with
  | Ev c x =>
    match c in Call R0 return R0 → bool with
    | K8sGetRunnerSet k => λ x, match x with Ok r => bool_decide (rs_key r = k) | Err _ => true end
    | K8sUpdateRunnerSet b =>
      λ x, match x with Ok r => bool_decide (rs_key r = rs_key b) | Err _ => true end
    | _ => λ _, true
    end x
  | EvGo _ => true
  end.

Lemma by_nameb_spec {S} (tr : list (event S)) :
  forallb by_nameb tr = true → Forall (responses_ok by_name) tr.
Proof.
  intros Ht. apply Forall_forall. intros e Hin%list_elem_of_In.
  pose proof (proj1 (forallb_forall _ _) Ht e Hin) as He.
  destruct e as [R c x|b]; [|done].
  destruct c; try done; simpl in *; (destruct x; [by apply bool_decide_eq_true in He|done]).
Qed.

(** The listener runs and the pod specification changed: the rollout deletes
    two pods. *)
Lemma rs_Reconcile_safe_witness :
  let r := sample_rs None in
  let m := (StartListener (listener_key sample_as r) 5 42 10 ci_scaler NewManager).2 in
  let x := run (rs_env group_pods r sample_as) (rs_Reconcile (mkClientFactory None) (rs_key r)) (mkMemory NewCache m) 0 in
  x.1.2 = Done (requeue_after RequeueActiveInterval, None) ∧ Forall (event_sat rs_call_ok) x.1.1 ∧
  ∃ selector pods, Ev (K8sListPods "ns" selector) (Ok pods) ∈ x.1.1 ∧ labelled_pod "a" "idle" 42 ∈ pods.
Proof.
  intros r m x. split; [vm_compute; reflexivity|].
  destruct (rs_Reconcile_safe eq (mkClientFactory None) (rs_key r) (mkMemory NewCache m) _ _ _
           (run_exec (rs_env group_pods r sample_as) _ (mkMemory NewCache m) 0)) as [Hc Hs].
  split; [exact Hc|].
  destruct Hs as [_ Hd]; [apply by_nameb_spec; vm_compute; reflexivity|].
  apply (Hd (labelled_pod "a" "idle" 42) None None).
  apply (list_elem_of_lookup_2 _ 4). vm_compute. reflexivity.
Defined.
