(* ===== verification/Observability.v ===== *)
(** * The metrics, across the components

    [WithLabelValues] panics on a wrong number of label values, so a metric
    call is a place where the controller can crash.  This file covers every
    program that reports metrics, with the goroutines and workers it starts. *)

From S2P Require Export RunnerSetController.

(** A program of which no metric call, in any execution and in any goroutine or
    worker it starts, makes [WithLabelValues] panic. *)
Definition metrics_fit {S A : Type} (p : prog S A) : Prop := always metric_ok p.

(** One step through the scaler's programs. *)
Ltac always_scaler tac :=
  repeat first
    [ match goal with
      | |- always _ (spawn _) => split; [|exact I]
      | |- always _ (batch _ _ _ _) => split; [intros ?|intros ?; exact I]
      end
    | apply always_RetryWithBackoff; [intros ?; exact I|]
    | always_step tac ].

Section Scaler.
Context {S : Type} `{MapRange, QuantityParser}.
Implicit Types k : KubernetesScaler.

Ltac metric_calls := first [exact I|reflexivity].

Lemma removeRunnerFromGitHub_metrics k name : always metric_ok (removeRunnerFromGitHub (S := S) k name).
Proof.
  unfold removeRunnerFromGitHub, waitForRateLimit, Wait, closure. always_scaler metric_calls.
Qed.

Lemma deleteRunnerPod_metrics k pod : always metric_ok (deleteRunnerPod (S := S) k pod).
Proof.
  unfold deleteRunnerPod.
  repeat first [simple apply removeRunnerFromGitHub_metrics | progress always_scaler metric_calls].
Qed.

Lemma cleanup_pods_metrics k pods : always metric_ok (cleanup_pods (S := S) k pods).
Proof.
  induction pods as [|pod pods IH]; [exact I|]. cbn [cleanup_pods].
  repeat first [simple apply IH | simple apply deleteRunnerPod_metrics | always_step metric_calls].
Qed.

Lemma classify_loop_metrics items a c : always metric_ok (classify_loop (S := S) items a c).
Proof.
  revert a c. induction items as [|pod items IH]; intros a c; [exact I|].
  cbn [classify_loop]. unfold time_Since. repeat first [simple apply IH | always_step metric_calls].
Qed.

Lemma createRunnerPod_metrics k : always metric_ok (createRunnerPod (S := S) k).
Proof.
  unfold createRunnerPod, generateJITConfig, waitForRateLimit, Wait, time_Since.
  always_scaler metric_calls.
Qed.

Lemma HandleDesiredRunnerCount_metrics k count :
  always metric_ok (HandleDesiredRunnerCount (S := S) k count).
Proof.
  unfold HandleDesiredRunnerCount, getRunnerPods, classifyRunnerPods, cleanupTerminatedPodsInBackground,
    handleScaleUp, handleScaleDown, batchCreateRunnerPods, batchDeleteRunnerPods, create_task, delete_task.
  repeat first
    [ simple apply classify_loop_metrics | simple apply cleanup_pods_metrics | simple apply createRunnerPod_metrics
    | simple apply deleteRunnerPod_metrics
    | match goal with
      | |- always _ (spawn _) => split; [|exact I]
      | |- always _ (batch _ _ _ _) => split; [intros ?|intros ?; exact I]
      end
    | always_step metric_calls ].
Qed.

Lemma job_handlers_metrics k js jc :
  always metric_ok (HandleJobStarted (S := S) k js) ∧ always metric_ok (HandleJobCompleted (S := S) k jc).
Proof.
  split; unfold HandleJobStarted, HandleJobCompleted, findRunnerPod;
    repeat first [simple apply deleteRunnerPod_metrics | always_step metric_calls].
Qed.
End Scaler.

(** C31. No metric call of the controller can panic: every one the two
    reconcilers, the scaling decision with its workers and the job handlers can
    reach, in any execution and in every goroutine they start, names a
    registered vector, gives it as many label values as it declares and uses it
    as what it is, a counter, a gauge or a histogram. *)
Theorem metrics_never_panic {S : Type} `{HasCache S, HasManager S, MapRange, UnicodeTables,
    ControllerLib, ListenerLib, QuantityParser} f req k count js jc :
  metrics_fit (Reconcile (S := S) req) ∧
  metrics_fit (rs_Reconcile (S := S) f req) ∧
  metrics_fit (HandleDesiredRunnerCount (S := S) k count) ∧
  metrics_fit (HandleJobStarted (S := S) k js) ∧
  metrics_fit (HandleJobCompleted (S := S) k jc).
Proof.
  split; [apply AutoscaleSet_metrics_ok|]. split; [apply RunnerSet_metrics_ok|].
  split; [apply HandleDesiredRunnerCount_metrics|]. apply job_handlers_metrics.
Qed.
