(* ===== verification/World.v ===== *)
(** * World: programs and the systems they call

    [exec] lets every response be anything.  Here the calls of a program are
    answered by a system with a state [W] of its own: [answers w c r w'] says
    that the system in state [w] may answer [c] with [r] and be in [w'] after,
    and [others] what the rest of the world may do to that state between two
    calls.  [wrun] reads a trace as a run of the system; [wp] is a program
    logic for it, with the usual rules, proved sound for the executions of
    [Effects] whose trace is such a run. *)

From S2P Require Export Client.

Section World.
Context {S W : Type}.
Context (rely : S → S → Prop) (others : W → W → Prop).
Context (answers : W → ∀ R, Call R → R → W → Prop).

Fixpoint wrun (w : W) (tr : list (event S)) (w' : W) : Prop :=
  match tr with
  | [] => w' = w
  | Ev c r :: tr => ∃ w1 w2, others w w1 ∧ answers w1 _ c r w2 ∧ wrun w2 tr w'
  | EvGo _ :: tr => wrun w tr w'
  end.

Definition post (A : Type) : Type := list (event S) → outcome A → S → W → Prop.

(** Every execution of [p] from [s] and [w] ends in [Q]; a program with worker
    batches is outside this logic. *)
Fixpoint wp {A : Type} (p : prog S A) (Q : post A) (s : S) (w : W) : Prop :=
  match p with
  | Ret a => Q [] (Done a) s w
  | Panic => Q [] Panicked s w
  | Vis c k => ∀ w1 r w2, others w w1 → answers w1 _ c r w2 →
      wp (k r) (λ tr, Q (Ev c r :: tr)) s w2
  | Atomic f k => ∀ s1, rely s s1 → wp (k (f s1).1) Q (f s1).2 w
  | Go b k => wp k (λ tr, Q (EvGo b :: tr)) s w
  | Batch _ _ _ _ _ => False
  end.

Lemma wrun_app w tr1 tr2 w' :
  wrun w (tr1 ++ tr2) w' ↔ ∃ w1, wrun w tr1 w1 ∧ wrun w1 tr2 w'.
Proof.
  revert w. induction tr1 as [|[R c r|b] tr1 IH]; intros w; simpl; [naive_solver| |apply IH].
  setoid_rewrite IH. naive_solver.
Qed.

Theorem wp_sound {A} (p : prog S A) Q s w tr o s' w' :
  wp p Q s w → exec rely p s tr o s' → wrun w tr w' → Q tr o s' w'.
Proof.
  revert Q s w tr.
  induction p as [? a|?|? R c k IH|? R h k IH|? b ? k IH|? lim n st t IHt k IH];
    intros Q s w tr; simpl; intros Hw Hx Hr.
  - by destruct Hx as (-> & -> & ->), Hr.
  - by destruct Hx as (-> & -> & ->), Hr.
  - destruct Hx as (r & tr' & -> & Hx), Hr as (w1 & w2 & Ho & Ha & Hr).
    exact (IH r _ (λ tr, Q (Ev c r :: tr)) s w2 tr' (Hw w1 r w2 Ho Ha) Hx Hr).
  - destruct Hx as (s1 & Hs & Hx). exact (IH _ _ Q _ w tr (Hw s1 Hs) Hx Hr).
  - destruct Hx as (tr' & -> & Hx). exact (IH _ (λ tr, Q (EvGo b :: tr)) _ _ _ Hw Hx Hr).
  - done.
Qed.

Lemma wp_mono {A} (p : prog S A) (Q Q' : post A) s w :
  (∀ tr o s w, Q tr o s w → Q' tr o s w) → wp p Q s w → wp p Q' s w.
Proof.
  revert Q Q' s w.
  induction p as [? a|?|? R c k IH|? R h k IH|? b ? k IH|? lim n st t IHt k IH];
    intros Q Q' s w HQ; simpl; [by auto..| | | |done].
  - intros Hw w1 r w2 Ho Ha. eapply IH; [|exact (Hw w1 r w2 Ho Ha)]. auto.
  - intros Hw s1 Hs. eapply IH; [|exact (Hw s1 Hs)]. done.
  - apply IH. auto.
Qed.

Lemma wp_bind {A B} (p : prog S A) (f : A → prog S B) (Q : post B) s w :
  wp p (λ tr o s w,
    match o with
    | Done a => wp (f a) (λ tr', Q (tr ++ tr')) s w
    | Panicked => Q tr Panicked s w
    end) s w → wp (prog_bind p f) Q s w.
Proof.
  revert Q s w.
  induction p as [? a|?|? R c k IH|? R h k IH|? b ? k IH|? lim n st t IHt k IH];
    intros Q s w; simpl; [done..| | | |done].
  - intros Hw w1 r w2 Ho Ha. apply (IH r f (λ tr, Q (Ev c r :: tr))), (Hw w1 r w2 Ho Ha).
  - intros Hw s1 Hs. apply IH, (Hw s1 Hs).
  - apply (IH f (λ tr, Q (EvGo b :: tr))).
Qed.

Lemma wp_call_bind {R B} (c : Call R) (f : R → prog S B) (Q : post B) s w :
  (∀ w1 r w2, others w w1 → answers w1 _ c r w2 → wp (f r) (λ tr, Q (Ev c r :: tr)) s w2) →
  wp (prog_bind (call c) f) Q s w.
Proof. done. Qed.

Lemma wp_atomic_bind {R B} (g : S → R * S) (f : R → prog S B) (Q : post B) s w :
  (∀ s1, rely s s1 → wp (f (g s1).1) Q (g s1).2 w) → wp (prog_bind (atomic g) f) Q s w.
Proof. done. Qed.

(** The deferred call runs whatever the outcome. *)
Lemma wp_deferred {A} (d : prog S unit) (p : prog S A) (Q : post A) s w :
  wp p (λ tr o s w, wp d (λ tr' od, Q (tr ++ tr') (match od with Done _ => o | Panicked => Panicked end)) s w) s w →
  wp (deferred d p) Q s w.
Proof.
  revert Q s w.
  induction p as [? a|?|? R c k IH|? R h k IH|? b ? k IH|? lim n st t IHt k IH];
    intros Q s w; simpl; [| | | | |done].
  - intros Hw. apply wp_bind. eapply wp_mono; [|exact Hw].
    intros tr [[]|] s1 w1; simpl; rewrite ?app_nil_r; done.
  - intros Hw. apply wp_bind. eapply wp_mono; [|exact Hw].
    intros tr [[]|] s1 w1; simpl; rewrite ?app_nil_r; done.
  - intros Hw w1 r w2 Ho Ha. apply (IH r (λ tr, Q (Ev c r :: tr))), (Hw w1 r w2 Ho Ha).
  - intros Hw s1 Hs. apply IH, (Hw s1 Hs).
  - apply (IH (λ tr, Q (EvGo b :: tr))).
Qed.

(** What the world and every call a program may issue maintain holds to its
    end. *)
Lemma wp_always (P : ∀ R, Call R → Prop) (I : W → Prop) {A} (p : prog S A) s w :
  (∀ w w', others w w' → I w → I w') →
  (∀ R (c : Call R) w r w', P R c → answers w R c r w' → I w → I w') →
  no_batch p → always P p → I w → wp p (λ _ _ _ w', I w') s w.
Proof.
  intros Ho Ha. revert s w.
  induction p as [? a|?|? R c k IH|? R h k IH|? b ? k IH|? lim n st t IHt k IH];
    intros s w; simpl; [done..| | | |done].
  - intros Hb [Hc Hk] HI w1 r w2 H1 H2. apply IH; [done..|]. eauto.
  - intros Hb Hk HI s1 Hs. by apply IH.
  - intros Hb [_ Hk] HI. by apply IH.
Qed.

(** Two conclusions about one program. *)
Lemma wp_and {A} (p : prog S A) (Q Q' : post A) s w :
  wp p Q s w → wp p Q' s w → wp p (λ tr o s w, Q tr o s w ∧ Q' tr o s w) s w.
Proof.
  revert Q Q' s w.
  induction p as [? a|?|? R c k IH|? R h k IH|? b ? k IH|? lim n st t IHt k IH];
    intros Q Q' s w; simpl; [done..| | | |done].
  - intros H1 H2 w1 r w2 Ho Ha. apply (IH r (λ tr, Q (Ev c r :: tr)) (λ tr, Q' (Ev c r :: tr)));
      [exact (H1 w1 r w2 Ho Ha)|exact (H2 w1 r w2 Ho Ha)].
  - intros H1 H2 s1 Hs. apply IH; [exact (H1 s1 Hs)|exact (H2 s1 Hs)].
  - apply (IH (λ tr, Q (EvGo b :: tr)) (λ tr, Q' (EvGo b :: tr))).
Qed.

(** A conclusion about the results alone. *)
Lemma wp_returns {A} (F : A → Prop) (p : prog S A) s w :
  no_batch p → returns F p → wp p (λ _ o _ _, ∀ a, o = Done a → F a) s w.
Proof.
  revert s w.
  induction p as [? a|?|? R c k IH|? R h k IH|? b ? k IH|? lim n st t IHt k IH];
    intros s w; simpl; [by intros _ ? ? [= <-]|done| | | |done]; auto.
Qed.

(** What the critical sections of a program, and the other goroutines, do to
    the memory. *)
Lemma wp_preserves (Q : S → S → Prop) `{!PreOrder Q} {A} (p : prog S A) s w :
  (∀ s s', rely s s' → Q s s') → no_batch p → preserves Q p → wp p (λ _ _ s' _, Q s s') s w.
Proof.
  intros Hrely. revert s w.
  induction p as [? a|?|? R c k IH|? R h k IH|? b ? k IH|? lim n st t IHt k IH];
    intros s w; simpl; [done..| | | |done].
  - intros Hb HP w1 r w2 _ _. by apply IH.
  - intros Hb [Hh HP] s1 Hs. eapply wp_mono; [|by apply IH].
    intros tr o s2 w2 H2. etrans; [by apply Hrely|]. etrans; [apply Hh|done].
  - intros Hb HP. by apply IH.
Qed.

Lemma no_batch_deferred {A} (d : prog S unit) (p : prog S A) :
  no_batch d → no_batch p → no_batch (deferred d p).
Proof. intros Hd. induction p; simpl; try naive_solver; intros _; by apply no_batch_bind. Qed.

Lemma preserves_deferred (Q : S → S → Prop) {A} (d : prog S unit) (p : prog S A) :
  preserves Q d → preserves Q p → preserves Q (deferred d p).
Proof. intros Hd. induction p; simpl; try naive_solver; intros _; by apply preserves_bind. Qed.

(** A retried call.  [I b] holds before every attempt, where [b] says whether
    one has failed before, [J] after a failed one; the loop ends with [J], or
    with [G b] after the attempt that succeeded. *)
Section Retry.
Context {R : Type} (c : Call R) (err_of : R → option error).
Context (I : bool → W → Prop) (J : W → Prop) (G : bool → R → W → Prop).
Hypothesis call_ok : ∀ b w w1 r w2, I b w → others w w1 → answers w1 R c r w2 →
  match err_of r with None => G b r w2 | Some _ => J w2 end.
Hypothesis wait_ok : ∀ w w1 d r w2, J w → others w w1 → answers w1 _ (SelectDoneOrAfter d) r w2 → J w2.
Hypothesis again : ∀ w, J w → I true w.

(** The trace has an attempt that failed. *)
Definition tried (tr : list (event S)) : Prop := ∃ r, Ev c r ∈ tr ∧ is_Some (err_of r).

(** How a retry ends, that started after a failed attempt or not. *)
Definition retried (b0 : bool) : post (option R * option error) := λ tr o _ w,
  ∃ v e, o = Done (v, e) ∧
    match e with
    | None => ∃ r pre b, v = Some r ∧ err_of r = None ∧ tr = pre ++ [Ev c r] ∧
                         (b = true → b0 = true ∨ tried pre) ∧ G b r w
    | Some _ => J w ∧ (b0 = true ∨ tried tr)
    end.

Lemma tried_suffix pre tr : tried tr → tried (pre ++ tr).
Proof. intros (r & Hr & He). exists r. split; [set_solver|done]. Qed.

Lemma retried_again tr r tr' o s w :
  is_Some (err_of r) → retried true tr' o s w → retried false (tr ++ Ev c r :: tr') o s w.
Proof.
  intros He (v & e & -> & Hv). exists v, e. split; [done|].
  assert (Ht : ∀ t, tried (tr ++ Ev c r :: t)) by (intros t; exists r; split; [set_solver|done]).
  destruct e as [e|]; [split; [apply Hv|by right]|].
  destruct Hv as (r' & pre & b & -> & He' & -> & _ & HG).
  exists r', (tr ++ Ev c r :: pre), b. split_and!; try done; [|by right].
  by rewrite <- app_assoc.
Qed.

Lemma retried_weaken b0 tr o s w : retried false tr o s w → retried b0 tr o s w.
Proof.
  intros (v & e & -> & Hv). exists v, e. split; [done|].
  destruct e as [e|]; [destruct Hv as [? [?|?]]; [done|]; split; [done|by right]|].
  destruct Hv as (r' & pre & b & -> & He' & -> & Hb & HG). exists r', pre, b. split_and!; try done.
  intros ?. right. by destruct (Hb ltac:(done)).
Qed.

Lemma wp_retry_loop config n attempt backoff lst lastErr b0 s w :
  I b0 w → ((0 < attempt)%Z ∨ n = 0 → J w ∧ b0 = true) → (0 ≤ attempt)%Z →
  wp (retry_loop config (closure c err_of) n attempt backoff lst lastErr)
     (λ tr o s' w', retried b0 tr o s' w' ∧ s' = s) s w.
Proof.
  revert attempt backoff lst lastErr b0 w.
  induction n as [|n IH]; intros attempt backoff lst lastErr b0 w HI HJ Hge.
  { split; [|done]. destruct HJ as [HJ ->]; [by right|].
    eexists _, _. split; [done|]. split; [done|by left]. }
  cbn [retry_loop]. apply wp_bind.
  eapply (wp_mono _ (λ _ o s' w', s' = s ∧ I b0 w' ∧
    ∃ x, o = Done x ∧ (is_ok x = false → J w' ∧ b0 = true))).
  2: { destruct (0 <? attempt)%Z eqn:Ha; breflect; [|by split; [|split; [|eexists; split]]].
       destruct HJ as [HJ ->]; [by left|]. intros w1 d w2 Ho Hans.
       assert (J w2) by (by eapply wait_ok).
       destruct d; (split; [done|]); (split; [by apply again|]); by eexists. }
  intros tr o s1 w1 (-> & HI1 & x & -> & HJ1). destruct x as [b|e].
  2: { split; [|done]. destruct (HJ1 eq_refl) as [HJ2 ->]. eexists _, _. split; [done|].
       split; [done|by left]. }
  intros w2 r w3 Ho Hans. pose proof (call_ok _ _ _ _ _ HI1 Ho Hans) as Hr. cbn.
  destruct (err_of r) as [e|] eqn:He.
  - destruct (negb (isRetryableError (Some e))).
    + split; [|done]. eexists _, _. split; [done|]. split; [done|]. right.
      exists r. split; [set_solver|by rewrite He].
    + eapply wp_mono; [|apply (IH _ _ _ _ true); [by apply again|done|lia]].
      intros tr' o s2 w4 [Hv ->]. split; [|done]. apply retried_weaken.
      apply retried_again; [by rewrite He|done].
  - split; [|done]. eexists _, _. split; [done|]. exists r, tr, b0. split_and!; try done. by left.
Qed.

Lemma wp_RetryWithBackoff config s w :
  (0 ≤ MaxRetries config)%Z → I false w →
  wp (RetryWithBackoff config (closure c err_of))
     (λ tr o s' w', retried false tr o s' w' ∧ s' = s) s w.
Proof.
  intros Hm HI. unfold RetryWithBackoff. apply wp_retry_loop; [done| |lia].
  intros [?|?]; lia.
Qed.
End Retry.
End World.

Arguments wp {S W} rely others answers {A} p Q s w : simpl nomatch.

(** ** Concrete runs

    [meddle] is what the world does before a call, [respond] how the system
    answers it. *)
Section Run.
Context {S W : Type} (others : W → W → Prop) (answers : W → ∀ R, Call R → R → W → Prop).
Context (meddle : ∀ R, Call R → W → W) (respond : W → ∀ R, Call R → R * W).

Fixpoint run_world {A} (p : prog S A) (s : S) (w : W) : list (event S) * outcome A * S * W :=
  match p with
  | Ret a => ([], Done a, s, w)
  | Panic => ([], Panicked, s, w)
  | Vis c k =>
    let '(r, w2) := respond (meddle _ c w) _ c in
    let '(tr, o, s', w') := run_world (k r) s w2 in (Ev c r :: tr, o, s', w')
  | Atomic f k => run_world (k (f s).1) (f s).2 w
  | Go b k => let '(tr, o, s', w') := run_world k s w in (EvGo b :: tr, o, s', w')
  | Batch _ _ _ _ _ => ([], Panicked, s, w)
  end.

Context (I : W → Prop).
Hypothesis meddle_ok : ∀ R (c : Call R) w, I w → others w (meddle R c w) ∧ I (meddle R c w).
Hypothesis respond_ok : ∀ w R (c : Call R), I w →
  answers w R c (respond w R c).1 (respond w R c).2 ∧ I (respond w R c).2.

Lemma run_world_ok {A} (p : prog S A) s w :
  no_batch p → I w →
  let x := run_world p s w in
  exec eq p s x.1.1.1 x.1.1.2 x.1.2 ∧ wrun others answers w x.1.1.1 x.2 ∧ I x.2.
Proof.
  revert s w. induction p as [? a|?|? R c k IH|? R h k IH|? b ? k IH|? lim n st t IHt k IH];
    intros s w; simpl; intros Hb HI; [done..| | | |done].
  - destruct (meddle_ok R c w HI) as [Hm HI1]. destruct (respond_ok _ R c HI1) as [Hr HI2].
    destruct (respond (meddle R c w) R c) as [r w2]. specialize (IH r s w2 (Hb r) HI2).
    destruct (run_world (k r) s w2) as [[[tr o] s'] w']. naive_solver.
  - destruct (IH _ (h s).2 w (Hb (h s).1) HI) as (Hx & Hw & HI'). by split; [exists s|].
  - specialize (IH s w Hb HI). destruct (run_world k s w) as [[[tr o] s'] w']. naive_solver.
Qed.
End Run.

(** Symbolic execution: open a sequence; pass a call at the head of one; end. *)
Ltac wp_bind := cbn beta iota; match goal with
  | |- wp _ _ _ (@mbind _ _ _ _ ?f ?p) ?Q ?s ?w => refine (wp_bind _ _ _ p f Q s w _)
  | |- wp _ _ _ (prog_bind ?p ?f) ?Q ?s ?w => refine (wp_bind _ _ _ p f Q s w _)
  end.

Ltac wp_ret := cbn beta iota; match goal with
  | |- wp _ _ _ (Ret ?a) ?Q ?s ?w => change (Q [] (Done a) s w)
  end; cbn beta iota.

Tactic Notation "wp_call" ident(w1) ident(r) ident(w2) ident(Hu) ident(Ha) :=
  cbn beta iota; match goal with
  | |- wp _ _ _ (@mbind _ _ _ _ ?f (call ?c)) ?Q ?s ?w =>
      refine (wp_call_bind _ _ _ c f Q s w _)
  | |- wp _ _ _ (@mbind _ _ _ _ ?f (metric ?v ?ls ?a)) ?Q ?s ?w =>
      refine (wp_call_bind _ _ _ (Metric v ls a) f Q s w _)
  | |- wp _ _ _ (prog_bind (call ?c) ?f) ?Q ?s ?w =>
      refine (wp_call_bind _ _ _ c f Q s w _)
  end; intros w1 r w2 Hu Ha; cbn beta iota.

Tactic Notation "wp_atomic" ident(s1) :=
  cbn beta iota; match goal with
  | |- wp _ _ _ (@mbind _ _ _ _ ?f (atomic ?g)) ?Q ?s ?w =>
      refine (wp_atomic_bind _ _ _ g f Q s w _)
  | |- wp _ _ _ (prog_bind (atomic ?g) ?f) ?Q ?s ?w =>
      refine (wp_atomic_bind _ _ _ g f Q s w _)
  end; intros s1 _; cbn [fst snd].
