(* ===== verification/Watches.v ===== *)
(** * internal/controller: what the two controllers are registered for

    [SetupWithManager] of both reconcilers.  The builder of controller-runtime
    and its predicates are library code: [WatchLib] has what the code uses of
    them, [WatchLaws] what their documentation says of it. *)

From S2P Require Export RunnerSetController.

(** ** Watch events *)

Inductive Kind : Type := KindAutoscaleSet | KindRunnerSet | KindSecret.

#[export] Instance Kind_eq_dec : EqDecision Kind.
Proof. solve_decision. Defined.

(** The metadata of the objects an event of a watch carries. *)
Inductive WatchEvent : Type :=
| CreateEvent (m : ObjectMeta)
| UpdateEvent (old new : ObjectMeta)
| DeleteEvent (m : ObjectMeta).

(** The objects the map functions of the watches are given. *)
Inductive Object : Type :=
| ObjAutoscaleSet (a : AutoscaleSet)
| ObjSecret (s : Secret)
| ObjOther.

Class WatchLib := {
  Predicate : Type;
  GenerationChangedPredicate : Predicate;
  ResourceVersionChangedPredicate : Predicate;
  admits : Predicate → WatchEvent → bool;
  (** Does a source with these filters of the controller and of its own pass
      an event on to its handler? *)
  delivers : list Predicate → list Predicate → WatchEvent → bool
}.

Class WatchLaws `{WatchLib} := {
  (** "skips update events that have no change in the object's
      metadata.generation field" *)
  generation_changed e : admits GenerationChangedPredicate e =
    match e with
    | UpdateEvent old new => bool_decide (m_generation new ≠ m_generation old)
    | _ => true
    end;
  (** "skips update events that have no change in the object's
      resource version" *)
  resource_version_changed e : admits ResourceVersionChangedPredicate e =
    match e with
    | UpdateEvent old new => bool_decide (m_resourceVersion new ≠ m_resourceVersion old)
    | _ => true
    end;
  (** The filters of the controller apply to every watched object; an event
      must pass all of them and all of the watch's own. *)
  delivers_all filters own e : delivers filters own e = forallb (λ p, admits p e) (filters ++ own)
}.

(** ** The registrations *)
Section Setup.
Context {S : Type} `{HasCache S, HasManager S, MapRange, UnicodeTables, ControllerLib, ListenerLib, WatchLib}.

Record Watch : Type := mkWatch {
  wt_kind : Kind;
  wt_map : Object → prog S (list NamespacedName);
  wt_predicates : list Predicate
}.

Record ControllerSpec : Type := mkControllerSpec {
  ct_for : Kind;
  ct_name : string;
  ct_maxConcurrentReconciles : Z;
  ct_eventFilters : list Predicate;
  ct_watches : list Watch;
  ct_reconciler : NamespacedName → prog S Reconciled
}.

Definition AutoscaleSetRegistration : ControllerSpec :=
  mkControllerSpec KindAutoscaleSet "autoscaleset" 10 [GenerationChangedPredicate]
    [mkWatch KindSecret
       (λ obj, mapSecretToAutoscaleSets match obj with ObjSecret s => Some s | _ => None end)
       [ResourceVersionChangedPredicate]]
    Reconcile.

Definition RunnerSetRegistration (f : ClientFactory) : ControllerSpec :=
  mkControllerSpec KindRunnerSet "runnerset" 10 [GenerationChangedPredicate]
    [mkWatch KindAutoscaleSet
       (λ obj, mapAutoscaleSetToRunnerSets match obj with ObjAutoscaleSet a => Some a | _ => None end)
       [ResourceVersionChangedPredicate]]
    (rs_Reconcile f).

(** [Complete] registers the controller with the manager; its result is the
    function's. *)
Definition SetupWithManager {A : Type} (Complete : ControllerSpec → A) : A :=
  Complete AutoscaleSetRegistration.

Definition rs_SetupWithManager {A : Type} (f : ClientFactory) (Complete : ControllerSpec → A)
  : A :=
  Complete (RunnerSetRegistration f).

(** The events that reach the handler of the controller's own kind, and the
    handler of one of its watches. *)
Definition own_event (c : ControllerSpec) (e : WatchEvent) : bool :=
  delivers (ct_eventFilters c) [] e.
Definition watch_event (c : ControllerSpec) (w : Watch) (e : WatchEvent) : bool :=
  delivers (ct_eventFilters c) (wt_predicates w) e.
End Setup.

Arguments Watch S {_}.
Arguments ControllerSpec S {_}.

(** The event is an update that leaves the generation as it was. *)
Definition same_generation (e : WatchEvent) : bool :=
  match e with
  | UpdateEvent old new => bool_decide (m_generation new = m_generation old)
  | _ => false
  end.

Definition same_version (e : WatchEvent) : bool :=
  match e with
  | UpdateEvent old new => bool_decide (m_resourceVersion new = m_resourceVersion old)
  | _ => false
  end.

(** ** What reaches the reconcilers *)
Section Delivery.
Context {S : Type} `{HasCache S, HasManager S, MapRange, UnicodeTables, ControllerLib, ListenerLib}.
Context `{WatchLaws}.

Lemma admits_generation e : admits GenerationChangedPredicate e = negb (same_generation e).
Proof. rewrite generation_changed. destruct e; [done| |done]. simpl. by rewrite bool_decide_not. Qed.

Lemma admits_version e : admits ResourceVersionChangedPredicate e = negb (same_version e).
Proof. rewrite resource_version_changed. destruct e; [done| |done]. simpl. by rewrite bool_decide_not. Qed.

(** The AutoscaleSet controller is told of its own objects unless the
    generation stayed the same. *)
Lemma own_event_autoscaleset e :
  own_event (AutoscaleSetRegistration (S := S)) e = negb (same_generation e).
Proof. unfold own_event. rewrite delivers_all. simpl. by rewrite admits_generation, andb_true_r. Qed.

Lemma own_event_runnerset f e :
  own_event (RunnerSetRegistration (S := S) f) e = negb (same_generation e).
Proof. unfold own_event. rewrite delivers_all. simpl. by rewrite admits_generation, andb_true_r. Qed.

Lemma watch_event_registered f (c : ControllerSpec S) w e :
  c = AutoscaleSetRegistration ∨ c = RunnerSetRegistration f → w ∈ ct_watches c →
  watch_event c w e = negb (same_generation e) && negb (same_version e).
Proof.
  intros [-> | ->] ->%list_elem_of_singleton; unfold watch_event; rewrite delivers_all; simpl;
    by rewrite admits_generation, admits_version, andb_true_r.
Qed.

(** C20. The event filter of a controller covers its watches too: whichever
    controller and whichever watch, an update is delivered only when it changed
    the generation of the object, and creations and deletions always are.  So
    the RunnerSet controller never learns from its watch that an AutoscaleSet
    was registered (a status write), and the AutoscaleSet controller never
    learns of a changed secret, an object whose generation does not move. *)
Theorem watches_deliver f (c : ControllerSpec S) w e :
  c = AutoscaleSetRegistration ∨ c = RunnerSetRegistration f →
  w ∈ ct_watches c →
  own_event c e = negb (same_generation e) ∧
  watch_event c w e = negb (same_generation e) && negb (same_version e).
Proof.
  intros Hc Hw. split; [|by eapply watch_event_registered].
  destruct Hc as [-> | ->]; [apply own_event_autoscaleset|apply own_event_runnerset].
Qed.
End Delivery.

(** ** The library, for concrete runs *)

Inductive the_predicates : Type := ByGeneration | ByVersion.

Definition watch_lib : WatchLib :=
  let passes p e := match p with
    | ByGeneration => negb (same_generation e) | ByVersion => negb (same_version e) end in
  {| Predicate := the_predicates;
     GenerationChangedPredicate := ByGeneration;
     ResourceVersionChangedPredicate := ByVersion;
     admits := passes;
     delivers := λ filters own e, forallb (λ p, passes p e) (filters ++ own) |}.

Lemma watch_laws : @WatchLaws watch_lib.
Proof.
  split; [| |done]; intros [|old new|]; simpl; [done| |done|done| |done]; by rewrite bool_decide_not.
Qed.

#[local] Existing Instance map_range_default.
#[local] Existing Instance ascii_tables.
#[local] Existing Instance controller_lib.
#[local] Instance any_listener : ListenerLib := {| listener_New := λ _ _, None |}.
#[local] Existing Instance watch_lib.
#[local] Existing Instance watch_laws.

(** A rotated token: the secret has a new resource version, and nobody is told. *)
Lemma watches_deliver_witness :
  let c := AutoscaleSetRegistration (S := Memory) in
  let version v := mkObjectMeta "app" "" "ns" "u" v 0%Z 0%Z None None None [] [] in
  let e := UpdateEvent (version "1") (version "2") in
  ∃ w, w ∈ ct_watches c ∧ wt_kind w = KindSecret ∧ same_version e = false ∧ watch_event c w e = false.
Proof.
  intros c version e. eexists. split; [by apply list_elem_of_singleton|]. split; [done|]. split; [done|].
  eapply (eq_trans (proj2 (watches_deliver (mkClientFactory None) c _ e (or_introl eq_refl) _))).
  Unshelve. all: [> vm_compute; reflexivity | by apply list_elem_of_singleton].
Defined.
