(* ===== verification/Contract.v ===== *)
(** * Contract: the systems around the AutoscaleSet reconciler

    The systems the reconciler of AutoscaleSetController calls: an API server
    that stores one AutoscaleSet, the manager's cache through which it is read,
    users who edit it at any moment, and GitHub with the scale sets created for
    it.  [answers] is the contract of those systems, as their documentation
    gives it, under [Conditions] that say what may go wrong: calls may be
    refused, replies may be lost after the call took effect, and the cache may
    be behind the server.  Scale sets made for other objects are not in the
    picture. *)

From S2P Require Export World Watches.

(** ** The state of the systems *)

Record World : Type := mkWorld {
  w_object : option AutoscaleSet;
  w_sets : gmap Z RunnerScaleSet;
  w_secrets : gmap NamespacedName Secret;
  w_groups : gmap string RunnerGroup;
  w_runners : gmap NamespacedName RunnerSet;
  w_notes : list WatchEvent;
  w_past : list AutoscaleSet   (* what was stored before the present object *)
}.

Definition with_sets (m : gmap Z RunnerScaleSet) (w : World) : World :=
  mkWorld (w_object w) m (w_secrets w) (w_groups w) (w_runners w) (w_notes w) (w_past w).

Definition with_runners (m : gmap NamespacedName RunnerSet) (w : World) : World :=
  mkWorld (w_object w) (w_sets w) (w_secrets w) (w_groups w) m (w_notes w) (w_past w).

(** An object that is being deleted goes with its last finalizer. *)
Definition survives (m : ObjectMeta) : bool :=
  negb (is_deleting m && bool_decide (m_finalizers m = [])).

(** Storing [a] in place of [old] notifies the watchers and makes [old] a
    version of the past. *)
Definition stored (old a : AutoscaleSet) (w : World) : World :=
  mkWorld (if survives (as_meta a) then Some a else None) (w_sets w) (w_secrets w) (w_groups w) (w_runners w)
    (w_notes w ++ [if survives (as_meta a) then UpdateEvent (as_meta old) (as_meta a)
                   else DeleteEvent (as_meta old)]) (old :: w_past w).

(** ** The contract *)

Definition version (a : AutoscaleSet) : string := m_resourceVersion (as_meta a).
Definition generation (a : AutoscaleSet) : Z := m_generation (as_meta a).

(** The server gives every stored object a version no object had before. *)
Definition fresh_version (w : World) (a : AutoscaleSet) : Prop :=
  ∀ b, w_object w = Some b ∨ b ∈ w_past w → version b ≠ version a.

(** What may go wrong.  [faults]: a call may be refused, without effect.
    [lost]: a call may take effect and its reply be lost, so that the caller
    sees an error, a timeout for instance.  [behind]: the manager's cache, which
    answers the reads, may be behind the server. *)
Record Conditions : Type := mkConditions { faults : Prop; lost : Prop; behind : Prop }.

(** Systems that answer every call, and a cache that has caught up. *)
Definition calm : Conditions := mkConditions False False False.

(** Metadata that no client writes. *)
Definition same_identity (old a : AutoscaleSet) : Prop :=
  as_key a = as_key old ∧ m_deletionTimestamp (as_meta a) = m_deletionTimestamp (as_meta old).

(** [a'] is what the main resource is after [a] was written over [old]: the
    status is not part of it, and the generation counts changes of the
    specification, not of the metadata. *)
Definition spec_write (old a a' : AutoscaleSet) : Prop :=
  same_identity old a' ∧ m_finalizers (as_meta a') = m_finalizers (as_meta a) ∧
  as_spec a' = as_spec a ∧ as_status a' = as_status old ∧
  (as_spec a = as_spec old → generation a' = generation old).

(** The same for the status subresource, which is nothing but the status. *)
Definition status_write (old a a' : AutoscaleSet) : Prop :=
  same_identity old a' ∧ m_finalizers (as_meta a') = m_finalizers (as_meta old) ∧
  as_spec a' = as_spec old ∧ as_status a' = as_status a ∧ generation a' = generation old.

(** A write that is accepted: it carries the version of the stored object. *)
Definition accepted (write : AutoscaleSet → AutoscaleSet → AutoscaleSet → Prop)
    (w : World) (a a' : AutoscaleSet) (w' : World) : Prop :=
  ∃ old, w_object w = Some old ∧ version old = version a ∧ write old a a' ∧
         fresh_version w a' ∧ w' = stored old a' w.

(** It is refused for any other version. *)
Definition writes (cd : Conditions) (write : AutoscaleSet → AutoscaleSet → AutoscaleSet → Prop)
    (w : World) (a : AutoscaleSet) (r : result error AutoscaleSet) (w' : World) : Prop :=
  match r with
  | Ok a' => accepted write w a a' w'
  | Err _ => w' = w ∧ (faults cd ∨ ∀ old, w_object w = Some old → version old ≠ version a) ∨
             lost cd ∧ ∃ a', accepted write w a a' w'
  end.

(** The same for RunnerSets, by their names. *)
Definition rs_stored (k : NamespacedName) (r : RunnerSet) (w : World) : World :=
  with_runners (if survives (rs_meta r) then <[k := r]> (w_runners w) else delete k (w_runners w)) w.

Definition rs_same_identity (old r : RunnerSet) : Prop :=
  rs_key r = rs_key old ∧ m_deletionTimestamp (rs_meta r) = m_deletionTimestamp (rs_meta old).

Definition rs_spec_write (old r r' : RunnerSet) : Prop :=
  rs_same_identity old r' ∧ m_finalizers (rs_meta r') = m_finalizers (rs_meta r) ∧
  m_annotations (rs_meta r') = m_annotations (rs_meta r) ∧
  rs_spec r' = rs_spec r ∧ rs_status r' = rs_status old.

Definition rs_status_write (old r r' : RunnerSet) : Prop :=
  rs_same_identity old r' ∧ m_finalizers (rs_meta r') = m_finalizers (rs_meta old) ∧
  m_annotations (rs_meta r') = m_annotations (rs_meta old) ∧
  rs_spec r' = rs_spec old ∧ rs_status r' = rs_status r.

Definition rs_accepted (write : RunnerSet → RunnerSet → RunnerSet → Prop)
    (w : World) (r r' : RunnerSet) (w' : World) : Prop :=
  ∃ old, w_runners w !! rs_key r = Some old ∧
    m_resourceVersion (rs_meta old) = m_resourceVersion (rs_meta r) ∧ write old r r' ∧
    w' = rs_stored (rs_key r) r' w.

Definition rs_writes (cd : Conditions) (write : RunnerSet → RunnerSet → RunnerSet → Prop)
    (w : World) (r : RunnerSet) (res : result error RunnerSet) (w' : World) : Prop :=
  match res with
  | Ok r' => rs_accepted write w r r' w'
  | Err _ => w' = w ∧ (faults cd ∨ ∀ old, w_runners w !! rs_key r = Some old →
                         m_resourceVersion (rs_meta old) ≠ m_resourceVersion (rs_meta r)) ∨
             lost cd ∧ ∃ r', rs_accepted write w r r' w'
  end.

Section Contract.
Context (cd : Conditions) (key : NamespacedName).

(** GitHub answers with a value or an error; what it refuses it has not done,
    but its answer may be lost. *)
Definition github {A} (ok : A → World → Prop) (absent : Prop) (w : World)
    (r : option A * option error) (w' : World) : Prop :=
  match r.2 with
  | None => ∃ v, r.1 = Some v ∧ ok v w'
  | Some _ => w' = w ∧ (faults cd ∨ absent) ∨ lost cd ∧ ∃ v, ok v w'
  end.

(** The reads of Kubernetes objects go through the manager's cache.  What it
    holds of the AutoscaleSet when it is behind is the present object, one of
    the past, or nothing; for other objects the model keeps no past, and an
    answer from behind may be anything of that name. *)
Definition answers (w : World) (R : Type) (c : Call R) : R → World → Prop :=
  match c in Call R0 return R0 → World → Prop with
  | K8sGetAutoscaleSet k => λ r w', w' = w ∧
      match r with
      | Ok a => as_key a = k ∧ (k = key → w_object w = Some a ∨ behind cd ∧ a ∈ w_past w)
      | Err e => faults cd ∨ (k = key → IsNotFound e = true ∧ (w_object w = None ∨ behind cd))
      end
  | K8sUpdateAutoscaleSet a => writes cd spec_write w a
  | K8sStatusUpdateAutoscaleSet a => writes cd status_write w a
  | K8sGetRunnerSet k => λ r w', w' = w ∧
      match r with
      | Ok rs => rs_key rs = k ∧ (w_runners w !! k = Some rs ∨ behind cd)
      | Err e => faults cd ∨ IsNotFound e = true ∧ (w_runners w !! k = None ∨ behind cd)
      end
  | K8sUpdateRunnerSet r => rs_writes cd rs_spec_write w r
  | K8sStatusUpdateRunnerSet r => rs_writes cd rs_status_write w r
  | K8sListPods _ _ => λ r w', w' = w ∧ (is_ok r = false → faults cd)
  | MessageSessionClient _ _ _ => λ r w', w' = w ∧ (is_ok r = false → faults cd)
  | K8sGetSecret k => λ r w', w' = w ∧
      match r with
      | Ok s => w_secrets w !! k = Some s ∨ behind cd
      | Err _ => faults cd ∨ w_secrets w !! k = None ∨ behind cd
      end
  | NewClientWithGitHubApp _ _ _ | NewClientWithPAT _ _ _ => λ r w', w' = w ∧
      (is_ok r = false → faults cd)
  | GetRunnerGroupByName _ name => λ r w',
      github (λ g w', w' = w ∧ w_groups w !! name = Some g) (w_groups w !! name = None) w r w'
  | CreateRunnerScaleSet _ rq => λ r w',
      github (λ ss w', w_sets w !! ss_id ss = None ∧ w' = with_sets (<[ss_id ss := ss]> (w_sets w)) w)
             False w r w'
  | GetRunnerScaleSetByID _ id => λ r w',
      github (λ ss w', w' = w ∧ w_sets w !! id = Some ss) (w_sets w !! id = None) w r w'
  | UpdateRunnerScaleSet _ id rq => λ r w',
      github (λ ss w', is_Some (w_sets w !! id) ∧ w' = with_sets (<[id := ss]> (w_sets w)) w)
             (w_sets w !! id = None) w r w'
  | DeleteRunnerScaleSet _ id => λ r w',
      match r with
      | None => w' = with_sets (delete id (w_sets w)) w
      | Some _ => w' = w ∧ (faults cd ∨ w_sets w !! id = None) ∨
                  lost cd ∧ w' = with_sets (delete id (w_sets w)) w
      end
  | SelectDoneOrAfter _ => λ r w', w' = w ∧ (r = None ∨ faults cd)
  | _ => λ _ w', w' = w
  end.
End Contract.

(** What users do, at any moment: they create the object, without a status;
    they change its specification and its metadata, but leave the controller's
    finalizer alone; they ask for its deletion; they change secrets, runner
    groups and RunnerSets. *)
Inductive user_step (key : NamespacedName) (w : World) : World → Prop :=
| user_create a :
    w_object w = None → as_key a = key → ast_scaleSetID (as_status a) = None →
    is_deleting (as_meta a) = false → fresh_version w a →
    user_step key w (mkWorld (Some a) (w_sets w) (w_secrets w) (w_groups w) (w_runners w)
                       (w_notes w ++ [CreateEvent (as_meta a)]) (w_past w))
| user_edit old a :
    w_object w = Some old → same_identity old a → fresh_version w a → as_status a = as_status old →
    (FinalizerName ∈ m_finalizers (as_meta a) ↔ FinalizerName ∈ m_finalizers (as_meta old)) →
    (generation a = generation old ↔ as_spec a = as_spec old) →
    user_step key w (stored old a w)
| user_delete old a :
    w_object w = Some old → as_key a = as_key old → as_status a = as_status old →
    m_finalizers (as_meta a) = m_finalizers (as_meta old) → as_spec a = as_spec old →
    is_deleting (as_meta a) = true → fresh_version w a → generation a ≠ generation old →
    user_step key w (stored old a w)
| user_environment secrets groups runners :
    user_step key w (mkWorld (w_object w) (w_sets w) secrets groups runners (w_notes w) (w_past w)).

Definition users (key : NamespacedName) : World → World → Prop := rtc (user_step key).

(** ** A concrete system

    An API server and a GitHub that keep the contract and never fail, for
    concrete runs. *)

Definition bump (m : ObjectMeta) (g : Z) : ObjectMeta :=
  mkObjectMeta (m_name m) (m_generateName m) (m_namespace m) (m_uid m)
    ("1" +:+ m_resourceVersion m) g (m_creationTimestamp m)
    (m_deletionTimestamp m) (m_labels m) (m_annotations m) (m_ownerReferences m) (m_finalizers m).

(** What is stored for a write of [a] over [old]. *)
Definition new_main (old a : AutoscaleSet) : AutoscaleSet :=
  as_set_spec (as_set_meta old
    (meta_set_finalizers (bump (as_meta old) (generation old)) (m_finalizers (as_meta a)))) (as_spec a).
Definition new_status (old a : AutoscaleSet) : AutoscaleSet :=
  as_set_status (as_set_meta old (bump (as_meta old) (generation old))) (as_status a).

Definition accept (w : World) (a : AutoscaleSet) (new : AutoscaleSet → AutoscaleSet → AutoscaleSet)
  : result error AutoscaleSet * World :=
  match w_object w with
  | Some old => if decide (version old = version a) then (Ok (new old a), stored old (new old a) w)
                else (Err (mkError "conflict" None ReasonConflict []), w)
  | None => (Err (mkError "not found" None ReasonNotFound []), w)
  end.

Definition rs_new_main (old r : RunnerSet) : RunnerSet :=
  mkRunnerSet (meta_set_annotations (meta_set_finalizers (bump (rs_meta old) (m_generation (rs_meta old)))
      (m_finalizers (rs_meta r))) (m_annotations (rs_meta r))) (rs_spec r) (rs_status old).
Definition rs_new_status (old r : RunnerSet) : RunnerSet :=
  mkRunnerSet (bump (rs_meta old) (m_generation (rs_meta old))) (rs_spec old) (rs_status r).

Definition rs_accept (w : World) (r : RunnerSet) (new : RunnerSet → RunnerSet → RunnerSet)
  : result error RunnerSet * World :=
  match w_runners w !! rs_key r with
  | Some old =>
    if decide (m_resourceVersion (rs_meta old) = m_resourceVersion (rs_meta r))
    then (Ok (new old r), rs_stored (rs_key r) (new old r) w)
    else (Err (mkError "conflict" None ReasonConflict []), w)
  | None => (Err (mkError "not found" None ReasonNotFound []), w)
  end.

(** The next identifier GitHub gives. *)
Definition next_id (m : gmap Z RunnerScaleSet) : Z := (1 + foldr Z.max 0 (map_to_list m).*1)%Z.

Definition respond (w : World) (R : Type) (c : Call R) : R * World :=
  match c in Call R0 return R0 * World with
  | K8sGetAutoscaleSet k =>
    (match w_object w with
     | Some a => if decide (as_key a = k) then Ok a else Err (mkError "not found" None ReasonNotFound [])
     | None => Err (mkError "not found" None ReasonNotFound [])
     end, w)
  | K8sUpdateAutoscaleSet a => accept w a new_main
  | K8sStatusUpdateAutoscaleSet a => accept w a new_status
  | K8sGetRunnerSet k =>
    (match w_runners w !! k with
     | Some r => Ok r
     | None => Err (mkError "not found" None ReasonNotFound [])
     end, w)
  | K8sUpdateRunnerSet r => rs_accept w r rs_new_main
  | K8sStatusUpdateRunnerSet r => rs_accept w r rs_new_status
  | K8sListPods _ _ => (Ok [], w)
  | MessageSessionClient _ _ _ => (Ok 0, w)
  | K8sGetSecret k => (match w_secrets w !! k with
                       | Some s => Ok s | None => Err (mkError "not found" None ReasonNotFound []) end, w)
  | NewClientWithGitHubApp _ _ _ | NewClientWithPAT _ _ _ => (Ok 0, w)
  | GetRunnerGroupByName _ name =>
    (match w_groups w !! name with
     | Some g => (Some g, None) | None => (None, Some (errors_New "no such group")) end, w)
  | CreateRunnerScaleSet _ rq =>
    let ss := mkScaleSet (next_id (w_sets w)) (ss_name rq) (ss_runnerGroupID rq) (ss_labels rq) true None in
    ((Some ss, None), with_sets (<[ss_id ss := ss]> (w_sets w)) w)
  | GetRunnerScaleSetByID _ id =>
    (match w_sets w !! id with
     | Some ss => (Some ss, None) | None => (None, Some (errors_New "no such scale set")) end, w)
  | UpdateRunnerScaleSet _ id rq =>
    match w_sets w !! id with
    | Some _ =>
      let ss := mkScaleSet id (ss_name rq) (ss_runnerGroupID rq) (ss_labels rq) true None in
      ((Some ss, None), with_sets (<[id := ss]> (w_sets w)) w)
    | None => ((None, Some (errors_New "no such scale set")), w)
    end
  | DeleteRunnerScaleSet _ id =>
    match w_sets w !! id with
    | Some _ => (None, with_sets (delete id (w_sets w)) w)
    | None => (Some (errors_New "no such scale set"), w)
    end
  | SelectDoneOrAfter _ => (None, w)
  | c' => (offline c', w)
  end.

(** The API server stores the objects under their own names, and its versions
    grow. *)
Definition older (w : World) : Prop :=
  ∀ a b, w_object w = Some a → b ∈ w_past w →
    String.length (version b) < String.length (version a).

Definition at_key (key : NamespacedName) (w : World) : Prop :=
  (∀ a, w_object w = Some a → as_key a = key) ∧
  (∀ k r, w_runners w !! k = Some r → rs_key r = k) ∧ older w.

Lemma bump_longer m g :
  String.length (m_resourceVersion (bump m g)) = Datatypes.S (String.length (m_resourceVersion m)).
Proof. done. Qed.

(** A longer version is a fresh one. *)
Lemma longer_fresh w old a :
  older w → w_object w = Some old →
  String.length (version a) = Datatypes.S (String.length (version old)) → fresh_version w a.
Proof.
  intros Hold Ho Hlen b Hb Heq. rewrite <- Heq in Hlen. destruct Hb as [Hb|Hb].
  - assert (b = old) as -> by congruence. lia.
  - specialize (Hold _ _ Ho Hb). lia.
Qed.

Lemma longer_older w old a :
  older w → w_object w = Some old →
  String.length (version a) = Datatypes.S (String.length (version old)) → older (stored old a w).
Proof.
  intros Hold Ho Hlen a' b Ha' Hb. unfold stored in *. simpl in *.
  destruct (survives _); [|done]. injection Ha' as <-.
  apply elem_of_cons in Hb as [->|Hb]; [lia|]. specialize (Hold _ _ Ho Hb). lia.
Qed.

Lemma longer_at_key key w old a :
  at_key key w → w_object w = Some old → as_key a = as_key old →
  String.length (version a) = Datatypes.S (String.length (version old)) → at_key key (stored old a w).
Proof.
  intros (Hk & Hr & Hold) Ho Ha Hlen. split_and!; [|exact Hr|by apply longer_older].
  intros a' Ha'. unfold stored in Ha'. simpl in Ha'. destruct (survives _); [|done].
  injection Ha' as <-. rewrite Ha. by apply Hk.
Qed.

Lemma accept_ok cd key write new w a :
  (∀ old, write old a (new old a) ∧ as_key (new old a) = as_key old ∧
          String.length (version (new old a)) = Datatypes.S (String.length (version old))) →
  at_key key w →
  writes cd write w a (accept w a new).1 (accept w a new).2 ∧ at_key key (accept w a new).2.
Proof.
  intros Hnew Hat. pose proof Hat as (Hk & Hr & Hold). unfold accept.
  destruct (w_object w) as [old|] eqn:Ho.
  - destruct (Hnew old) as (Hw & Ha & Hlen). case_decide as Hv; simpl.
    + split; [|by apply longer_at_key]. exists old. split_and!; try done. by eapply longer_fresh.
    + split; [|done]. left. split; [done|]. right. intros old1 Ho1.
      by assert (old1 = old) as -> by congruence.
  - split; [|done]. simpl. left. split; [done|]. right. congruence.
Qed.

Lemma rs_accept_ok cd key write new w r :
  (∀ old, write old r (new old r) ∧ rs_key (new old r) = rs_key old) → at_key key w →
  rs_writes cd write w r (rs_accept w r new).1 (rs_accept w r new).2 ∧
  at_key key (rs_accept w r new).2.
Proof.
  intros Hnew Hat. pose proof Hat as (Hk & Hr & Hold). unfold rs_accept.
  destruct (w_runners w !! rs_key r) as [old|] eqn:Ho.
  - case_decide as Hv; simpl.
    + destruct (Hnew old) as [Hw Hkey]. split; [exists old; by split_and!|].
      split_and!; [exact Hk| |exact Hold]. intros k r' Hr'. unfold rs_stored in Hr'. simpl in Hr'.
      destruct (survives _).
      * apply lookup_insert_Some in Hr' as [[<- <-]|[_ Hr']]; [|by apply Hr].
        rewrite Hkey. by apply Hr.
      * apply lookup_delete_Some in Hr' as [_ Hr']. by apply Hr.
    + split; [|done]. left. split; [done|]. right. intros old' Ho'.
      by assert (old' = old) as -> by congruence.
  - split; [|done]. simpl. left. split; [done|]. right. congruence.
Qed.

Lemma next_id_fresh m : m !! next_id m = None.
Proof.
  destruct (m !! next_id m) as [ss|] eqn:Hi; [|done].
  assert (Hin : next_id m ∈ (map_to_list m).*1).
  { apply list_elem_of_fmap. exists (next_id m, ss). split; [done|]. by apply elem_of_map_to_list. }
  assert (Hmax : ∀ l x, x ∈ l → (x ≤ foldr Z.max 0 l)%Z).
  { induction l as [|y l IH]; intros x; [set_solver|]. intros [->|Hx]%elem_of_cons; cbn [foldr]; [apply Z.le_max_l|].
    specialize (IH x Hx). lia. }
  apply Hmax in Hin. unfold next_id in *. lia.
Qed.

Lemma respond_ok cd key w R (c : Call R) :
  at_key key w →
  answers cd key w R c (respond w R c).1 (respond w R c).2 ∧ at_key key (respond w R c).2.
Proof.
  intros Hk. destruct c; try done; try (by split); simpl.
  - split; [|done]. split; [done|]. destruct (w_object w) as [a|] eqn:Ho.
    + case_decide as Hd; [split; [done|]; intros; by left|].
      right. intros ->. by destruct (Hd (proj1 Hk a Ho)).
    + right. intros _. split; [done|]. by left.
  - split; [|done]. split; [done|]. destruct (w_runners w !! k) as [r|] eqn:Ho.
    + split; [by apply (proj1 (proj2 Hk))|by left].
    + right. split; [done|by left].
  - split; [|done]. split; [done|]. destruct (w_secrets w !! k) eqn:Hs; [by left|right; by left].
  - apply accept_ok; [|done]. intros old. by split.
  - by apply rs_accept_ok; [intros old; split_and!|].
  - apply accept_ok; [|done]. intros old. by split.
  - by apply rs_accept_ok; [intros old; split_and!|].
  - unfold github. split; [|done]. destruct (w_groups w !! name) as [g|] eqn:Hg; simpl;
      [by exists g|left; by split; [|right]].
  - unfold github. simpl. split; [|done]. eexists. split; [done|]. split; [apply next_id_fresh|done].
  - unfold github. split; [|done]. destruct (w_sets w !! id) as [ss0|] eqn:Hs; simpl;
      [by exists ss0|left; by split; [|right]].
  - unfold github. destruct (w_sets w !! id) as [ss0|] eqn:Hs; simpl; (split; [|done]);
      [by eexists|left; by split; [|right]].
  - destruct (w_sets w !! id) as [ss0|] eqn:Hs; simpl; (split; [|done]); auto.
  - split; [|done]. split; [done|]. by left.
Qed.
