(* ===== verification/Lifecycle.v ===== *)
(** * Lifecycle: AutoscaleSets, users, GitHub and the API server together

    The invariant of that system: which scale sets exist in GitHub, and what
    the object says of them.  It holds while users act between any two calls of
    a reconciliation, calls fail, replies get lost and reads are outdated, with
    the exceptions [loses] names; each exception is real
    ([edit_during_creation_orphans], [lost_reply_orphans],
    [outdated_read_orphans]). *)

From S2P Require Export Contract.

(** ** The invariant *)

(** Every scale set in GitHub is the one the object records, and the object
    holds the finalizer that keeps it until the set is deleted. *)
Definition recorded (w : World) : Prop :=
  ∀ id, is_Some (w_sets w !! id) →
    ∃ a, w_object w = Some a ∧ ast_scaleSetID (as_status a) = Some id ∧
         FinalizerName ∈ m_finalizers (as_meta a).

(** The object with the identifier [oid] and the finalizer. *)
Definition object_held (oid : option Z) (w : World) : Prop :=
  ∃ a, w_object w = Some a ∧ ast_scaleSetID (as_status a) = oid ∧
       FinalizerName ∈ m_finalizers (as_meta a).

Definition held (oid : option Z) (w : World) : Prop :=
  object_held oid w ∧ ∀ id, is_Some (w_sets w !! id) → oid = Some id.

(** No version of the past is the present one. *)
Definition past_versions (w : World) : Prop :=
  ∀ a b, w_object w = Some a → b ∈ w_past w → version b ≠ version a.

Definition sound (w : World) : Prop := recorded w ∧ past_versions w.

(** ** The exceptions *)

Definition creation {S} (e : event S) : bool :=
  match e with
  | Ev c r => match c in Call R return R → bool with
              | CreateRunnerScaleSet _ _ => λ r, bool_decide (snd r = None)
              | _ => λ _, false end r
  | EvGo _ => false
  end.

Definition failed_creation {S} (e : event S) : bool :=
  match e with
  | Ev c r => match c in Call R return R → bool with
              | CreateRunnerScaleSet _ _ => λ r, bool_decide (is_Some (snd r))
              | _ => λ _, false end r
  | EvGo _ => false
  end.

(** The object could not be read again, or its status not be written. *)
Definition failed_record {S} (e : event S) : bool :=
  match e with
  | Ev c r => match c in Call R return R → bool with
              | K8sGetAutoscaleSet _ | K8sStatusUpdateAutoscaleSet _ => λ r, negb (is_ok r)
              | _ => λ _, false end r
  | EvGo _ => false
  end.

(** An object that waits for its scale set; reading one that does not. *)
Definition waiting (a : AutoscaleSet) : bool :=
  bool_decide (ast_scaleSetID (as_status a) = None) &&
  bool_decide (FinalizerName ∈ m_finalizers (as_meta a)).

Definition not_waiting {S} (e : event S) : bool :=
  match e with
  | Ev c r => match c in Call R return R → bool with
              | K8sGetAutoscaleSet _ => λ r, match r with Ok a => negb (waiting a) | Err _ => false end
              | _ => λ _, false end r
  | EvGo _ => false
  end.

(** A reconciliation may leave a scale set behind that nobody knows of in three
    ways: replies may be lost, and one of its creations failed; it created a
    scale set and then failed to read the object or to write its status; it
    created one, the cache may be behind, and the object it then read was not,
    or no longer, waiting for one. *)
Definition loses {S} (cd : Conditions) (tr : list (event S)) : Prop :=
  lost cd ∧ Exists (λ e, failed_creation e = true) tr ∨
  ∃ t1 e t2, tr = t1 ++ e :: t2 ∧ creation e = true ∧
    Exists (λ e, failed_record e = true ∨ behind cd ∧ not_waiting e = true) t2.

Lemma loses_app_l {S} cd (tr1 tr2 : list (event S)) : loses cd tr1 → loses cd (tr1 ++ tr2).
Proof.
  intros [[Hl Ht]|(t1 & e & t2 & -> & He & Ht)]; [left; split; [done|]; apply Exists_app; by left|right].
  exists t1, e, (t2 ++ tr2). split; [by rewrite <- app_assoc|]. split; [done|]. apply Exists_app. by left.
Qed.

Lemma loses_app_r {S} cd (tr1 tr2 : list (event S)) : loses cd tr2 → loses cd (tr1 ++ tr2).
Proof.
  intros [[Hl Ht]|(t1 & e & t2 & -> & He & Ht)]; [left; split; [done|]; apply Exists_app; by right|right].
  exists (tr1 ++ t1), e, t2. by rewrite <- app_assoc.
Qed.

(** A trace without any of this. *)
Fixpoint loses_nothing {S} (tr : list (event S)) : bool :=
  match tr with
  | [] => true
  | e :: tr => negb (failed_creation e) &&
               (negb (creation e) || forallb (λ e, negb (failed_record e) && negb (not_waiting e)) tr) &&
               loses_nothing tr
  end.

Lemma loses_not {S} cd (tr : list (event S)) : loses_nothing tr = true → ¬ loses cd tr.
Proof.
  intros Hall [[_ (e & He & Hf)%Exists_exists]|(t1 & e & t2 & -> & He & (e' & He' & Hf)%Exists_exists)].
  - revert Hall. induction tr as [|e0 tr IH]; simpl; [set_solver|].
    intros [[Hn _]%andb_true_iff Htr]%andb_true_iff. apply elem_of_cons in He as [->|He]; [|auto].
    by rewrite Hf in Hn.
  - revert Hall. induction t1 as [|e0 t1 IH]; simpl.
    + intros [[_ Hok]%andb_true_iff _]%andb_true_iff. rewrite He, orb_false_l, forallb_forall in Hok.
      specialize (Hok e'). rewrite list_elem_of_In in He'. apply Hok, andb_true_iff in He' as [H1 H2].
      destruct Hf as [Hf|[_ Hf]]; [by rewrite Hf in H1|by rewrite Hf in H2].
    + intros [_ Htr]%andb_true_iff. auto.
Qed.

(** ** Lemmas *)

Lemma no_sets_recorded w : w_sets w = ∅ → recorded w.
Proof. intros Hw id Hi. rewrite Hw, lookup_empty in Hi. by apply is_Some_None in Hi. Qed.

Lemma all_gone (m : gmap Z RunnerScaleSet) : (∀ id, ¬ is_Some (m !! id)) → m = ∅.
Proof.
  intros Hm. apply map_eq. intros id. rewrite lookup_empty.
  destruct (m !! id) as [ss|] eqn:Hi; [|done]. by destruct (Hm id (ex_intro _ ss Hi)).
Qed.

Lemma held_None w : held None w → w_sets w = ∅.
Proof. intros [_ Hs]. apply all_gone. intros id Hi. by discriminate (Hs id Hi). Qed.

(** All sets are the one with the identifier [oid]. *)
Lemma only_deleted id w :
  (∀ i, is_Some (w_sets w !! i) → Some id = Some i) → delete id (w_sets w) = ∅.
Proof.
  intros Hs. apply all_gone. intros i [ss [Hne Hi]%lookup_delete_Some].
  destruct Hne. by injection (Hs i (ex_intro _ ss Hi)).
Qed.

Lemma held_delete id w : held (Some id) w → delete id (w_sets w) = ∅.
Proof. intros [_ Hs]. by apply only_deleted. Qed.

(** The object of a world that records its sets accounts for all of them. *)
Lemma recorded_all w a :
  recorded w → w_object w = Some a →
  ∀ id, is_Some (w_sets w !! id) → ast_scaleSetID (as_status a) = Some id.
Proof. intros Hw Ha id Hi. destruct (Hw id Hi) as (a' & Ha' & Hid & _). congruence. Qed.

Lemma recorded_held w a :
  recorded w → w_object w = Some a → FinalizerName ∈ m_finalizers (as_meta a) →
  held (ast_scaleSetID (as_status a)) w.
Proof. intros Hw Ha Hf. split; [by exists a|]. by apply recorded_all. Qed.

Lemma finalized_survives a : FinalizerName ∈ m_finalizers (as_meta a) → survives (as_meta a) = true.
Proof.
  intros Hf. unfold survives. destruct (m_finalizers (as_meta a)); [set_solver|].
  by rewrite (bool_decide_eq_false_2 _), andb_false_r.
Qed.

Lemma stored_object old a w :
  FinalizerName ∈ m_finalizers (as_meta a) → w_object (stored old a w) = Some a.
Proof. intros Hf. unfold stored. simpl. by rewrite finalized_survives. Qed.

(** *** What everybody else does

    [evolves w w'] is what users do to the systems, and every call but the
    creation of a scale set and the write that takes the finalizer off: scale
    sets may change or go, the object keeps the identifier and the finalizer it
    has, and an object that was read is the present one only if it was before. *)
Definition known (a : AutoscaleSet) (w : World) : Prop := w_object w = Some a ∨ a ∈ w_past w.

Record evolves (w w' : World) : Prop := {
  ev_sets : ∀ id, is_Some (w_sets w' !! id) → is_Some (w_sets w !! id);
  ev_past : past_versions w → past_versions w';
  ev_known : ∀ b, known b w → known b w';
  ev_back : ∀ b, known b w → w_object w' = Some b → w_object w = Some b;
  ev_held : ∀ oid, object_held oid w → object_held oid w'
}.

#[export] Instance evolves_preorder : PreOrder evolves.
Proof.
  split; [by split|]. intros w1 w2 w3 [S1 P1 K1 B1 H1] [S2 P2 K2 B2 H2]. split; eauto.
Qed.

(** An assertion that survives what everybody else does. *)
Definition stable (K : World → Prop) : Prop := ∀ w w', evolves w w' → K w → K w'.

Lemma stable_and K K' : stable K → stable K' → stable (λ w, K w ∧ K' w).
Proof. intros H H' w w' He [? ?]. split; eauto. Qed.

Lemma stable_imp (P : Prop) K : stable K → stable (λ w, P → K w).
Proof. intros H w w' He HK HP. eauto. Qed.

Lemma sound_stable : stable sound.
Proof.
  intros w w' He [Hr Hp]. split; [|by eapply ev_past].
  intros id Hi. eapply ev_held; [done|]. apply Hr. by eapply ev_sets.
Qed.

Lemma known_stable a : stable (known a).
Proof. intros w w' He. by apply ev_known. Qed.

(** The object [a] is no longer the present one, or there are no scale sets. *)
Definition released_sets (a : AutoscaleSet) (w : World) : Prop :=
  known a w ∧ (w_object w = Some a → w_sets w = ∅).

Lemma released_sets_stable a : stable (released_sets a).
Proof.
  intros w w' He [Hk Hs]. split; [by eapply ev_known|]. intros Ha. apply all_gone. intros id Hi.
  apply (ev_sets _ _ He) in Hi. rewrite (Hs (ev_back _ _ He _ Hk Ha)), lookup_empty in Hi.
  by apply is_Some_None in Hi.
Qed.

(** The object waits for its scale set, or what was read of it is outdated. *)
Definition expects (cd : Conditions) (w : World) : Prop := behind cd ∨ object_held None w.

Lemma expects_stable cd : stable (expects cd).
Proof. intros w w' He [?|?]; [by left|right]. by eapply ev_held. Qed.

(** All scale sets are recorded but perhaps [ss]. *)
Definition pending (cd : Conditions) (ss : RunnerScaleSet) (w : World) : Prop :=
  past_versions w ∧ expects cd w ∧
  ∀ id, is_Some (w_sets w !! id) → id = ss_id ss ∨ object_held (Some id) w.

Lemma pending_stable cd ss : stable (pending cd ss).
Proof.
  intros w w' He (Hp & He' & Hs). split; [by eapply ev_past|]. split; [by eapply expects_stable|].
  intros id Hi. destruct (Hs id) as [->|Hh]; [by eapply ev_sets|by left|right]. by eapply ev_held.
Qed.

(** An object that was read and has the version of the present one is it. *)
Lemma known_current w a old :
  past_versions w → known a w → w_object w = Some old → version old = version a → old = a.
Proof.
  intros Hp [Ha|Ha] Ho Hv; [congruence|]. by destruct (Hp _ _ Ho Ha).
Qed.

(** Replacing the object by one with the same identifier and the finalizer, if
    it had it. *)
Lemma stored_evolves w old a :
  w_object w = Some old → fresh_version w a →
  (FinalizerName ∈ m_finalizers (as_meta old) →
   FinalizerName ∈ m_finalizers (as_meta a) ∧
   ast_scaleSetID (as_status a) = ast_scaleSetID (as_status old)) →
  evolves w (stored old a w).
Proof.
  intros Ho Hf Hk.
  assert (Hobj : ∀ b, w_object (stored old a w) = Some b → b = a)
    by (intros b; unfold stored; simpl; destruct (survives _); [by intros [= <-]|done]).
  split; [done|..].
  - intros Hp a' b ->%Hobj [->|Hb]%elem_of_cons; apply Hf; [by left|by right].
  - intros b [Hb|Hb]; right; simpl; [|set_solver]. assert (b = old) as -> by congruence. set_solver.
  - intros b Hb ->%Hobj. by destruct (Hf a Hb).
  - intros oid (a0 & Ha0 & Hid & Hfin). assert (a0 = old) as -> by congruence.
    destruct (Hk Hfin) as [Hfa Hida]. exists a. rewrite stored_object by done. by rewrite Hida.
Qed.

Lemma user_evolves key w w' : user_step key w w' → evolves w w'.
Proof.
  intros [a Hn Hk Hid Hd Hf|old a Ho Hi Hf Hst Hfin _|old a Ho Hk Hst Hfin _ _ Hf _|].
  - split; simpl; [done|..].
    + intros _ a' b [= <-] Hb. apply Hf. by right.
    + intros b [Hb|Hb]; [congruence|by right].
    + intros b Hb [= <-]. by destruct (Hf a Hb).
    + intros oid (a0 & Ha0 & _). congruence.
  - apply stored_evolves; [done..|]. intros H. by rewrite Hfin, Hst.
  - apply stored_evolves; [done..|]. by rewrite Hfin, Hst.
  - by split.
Qed.

Lemma users_evolve key w w' : users key w w' → evolves w w'.
Proof. induction 1; [done|]. etrans; [by eapply user_evolves|done]. Qed.

(** *** Calls *)

(** Calls that write neither the object nor a new scale set. *)
Definition quiet (R : Type) (c : Call R) : Prop :=
  match c with
  | K8sUpdateAutoscaleSet _ | K8sStatusUpdateAutoscaleSet _ | CreateRunnerScaleSet _ _ => False
  | _ => True
  end.

Lemma quiet_factory R (c : Call R) : factory_call R c → quiet R c.
Proof. by destruct c. Qed.

(** Changes of the scale sets that add none. *)
Lemma sets_evolve w m :
  (∀ id, is_Some (m !! id) → is_Some (w_sets w !! id)) → evolves w (with_sets m w).
Proof. by split. Qed.

Lemma rs_writes_evolve cd write w r res w' : rs_writes cd write w r res w' → evolves w w'.
Proof.
  assert (Hst : ∀ r', rs_accepted write w r r' w' → evolves w w') by by intros r' (old & _ & _ & _ & ->).
  destruct res as [r'|e]; [apply Hst|]. intros [[-> _]|(_ & r' & Hr')]; [done|by eapply Hst].
Qed.

Lemma github_evolves {A} cd (ok : A → World → Prop) absent w r w' :
  (∀ v w', ok v w' → evolves w w') → github cd ok absent w r w' → evolves w w'.
Proof.
  intros Hok. unfold github. destruct (r.2).
  - intros [[-> _]|(_ & v & Hv)]; [done|by eapply Hok].
  - intros (v & _ & Hv). by eapply Hok.
Qed.

Lemma delete_evolves w id : evolves w (with_sets (delete id (w_sets w)) w).
Proof. apply sets_evolve. intros i [ss [_ Hi]%lookup_delete_Some]. by exists ss. Qed.

Lemma quiet_evolves cd key w R (c : Call R) r w' :
  quiet R c → answers cd key w R c r w' → evolves w w'.
Proof.
  intros Hq Ha. destruct c; try done; cbn in Ha;
    first [ by eapply rs_writes_evolve
          | by subst
          | by destruct Ha as [-> _]
          | eapply github_evolves; [|exact Ha]; cbn; intros v w1 Hv
          | idtac ].
  - by destruct Hv as [-> _].
  - by destruct Hv as [-> _].
  - destruct Hv as [Hid ->]. apply sets_evolve. intros i.
    destruct (decide (i = id)) as [->|Hne]; [done|]. by rewrite lookup_insert_ne.
  - destruct r as [e|]; [destruct Ha as [[-> _]|[_ ->]]; [done|]|subst w']; apply delete_evolves.
Qed.

(** A status write of an object that was read, with the identifier it had. *)
Lemma status_write_evolves cd w base a r w' :
  sound w → known base w → version a = version base →
  ast_scaleSetID (as_status a) = ast_scaleSetID (as_status base) →
  writes cd status_write w a r w' → evolves w w'.
Proof.
  intros [_ Hp] Hk Hv Hid.
  assert (Hacc : ∀ a', accepted status_write w a a' w' → evolves w w').
  { intros a' (old & Ho & Hvo & (_ & Hf & _ & Hst & _) & Hfr & ->). rewrite Hv in Hvo.
    apply stored_evolves; [done..|]. rewrite (known_current _ _ _ Hp Hk Ho Hvo), <- Hid, <- Hst, Hf.
    by rewrite (known_current _ _ _ Hp Hk Ho Hvo). }
  destruct r as [a'|e]; [apply Hacc|]. intros [[-> _]|(_ & a' & Ha')]; [done|by eapply Hacc].
Qed.

(** The write that adds the finalizer to an object that was read. *)
Lemma finalizer_write_evolves cd w a fs r w' :
  (∀ f, f ∈ m_finalizers (as_meta a) → f ∈ fs) → sound w → known a w →
  writes cd spec_write w (as_set_finalizers a fs) r w' → evolves w w'.
Proof.
  intros Hfs [_ Hp] Hk.
  assert (Hacc : ∀ a', accepted spec_write w (as_set_finalizers a fs) a' w' → evolves w w').
  { intros a' (old & Ho & Hv & (_ & Hf & _ & Hst & _) & Hfr & ->).
    apply stored_evolves; [done..|]. rewrite Hst, Hf. intros Hold. split; [|done].
    apply Hfs. by rewrite <- (known_current _ _ _ Hp Hk Ho Hv). }
  destruct r as [a'|e]; [apply Hacc|]. intros [[-> _]|(_ & a' & Ha')]; [done|by eapply Hacc].
Qed.

(** The write that takes it off, once the scale set is gone. *)
Lemma release_write_sound cd w a fs r w' :
  sound w → released_sets a w → writes cd spec_write w (as_set_finalizers a fs) r w' → sound w'.
Proof.
  intros [Hr Hp] [Hk Hs].
  assert (Hacc : ∀ a', accepted spec_write w (as_set_finalizers a fs) a' w' → sound w').
  { intros a' (old & Ho & Hv & _ & Hfr & ->).
    assert (old = a) as -> by exact (known_current _ _ _ Hp Hk Ho Hv). split; [apply no_sets_recorded; simpl; auto|].
    intros b c Hb Hc. unfold stored in Hb, Hc. simpl in *. destruct (survives _); [|done].
    injection Hb as <-. apply elem_of_cons in Hc as [->|Hc]; apply Hfr; [by left|by right]. }
  destruct r as [a'|e]; [apply Hacc|]. intros [[-> _]|(_ & a' & Ha')]; [done|by eapply Hacc].
Qed.

(** The status write that records a new scale set. *)
Lemma record_write_sound `{ControllerLib} cd w b ss a' w' :
  pending cd ss w → known b w → waiting b = true →
  accepted status_write w (setCreateScaleSetStatus b ss) a' w' → sound w'.
Proof.
  unfold waiting. intros (Hp & _ & Hs) Hk Hw (old & Ho & Hv & (_ & Hf & _ & Hst & _) & Hfr & ->).
  apply andb_true_iff in Hw as [Hnone%bool_decide_eq_true_1 Hfin%bool_decide_eq_true_1]. assert (old = b) as -> by exact (known_current _ _ _ Hp Hk Ho Hv).
  assert (Hfin' : FinalizerName ∈ m_finalizers (as_meta a')) by by rewrite Hf.
  assert (Hobj : w_object (stored b a' w) = Some a') by by apply stored_object.
  split.
  - intros id Hi. exists a'. rewrite Hobj, Hst. split; [done|]. split; [|done].
    destruct (Hs id Hi) as [->|(a0 & Ha0 & Hid & _)]; [done|]. congruence.
  - intros a0 c Ha0 Hc. assert (a0 = a') as -> by congruence.
    apply elem_of_cons in Hc as [->|Hc]; apply Hfr; [by left|by right].
Qed.

(** *** The reconciler *)
Section Invariant.
Context {S : Type} `{HasCache S, MapRange, UnicodeTables, ControllerLib, !ControllerLaws}.
Context (rely : S → S → Prop) (cd : Conditions) (key : NamespacedName).

#[local] Notation "'WP'" := (wp rely (users key) (answers cd key)) (at level 0).

Lemma wp_stable {A} K (p : prog S A) s w :
  stable K → no_batch p → always quiet p → K w → WP p (λ _ _ _ w', K w') s w.
Proof.
  intros HK Hb Hq. apply (wp_always _ _ _ quiet); [|..|done|done].
  - intros ? ? Hu. by apply HK, (users_evolve key).
  - intros ? ? ? ? ? Hc Ha. by eapply HK, quiet_evolves.
Qed.

Lemma wp_any {A} (p : prog S A) s w : no_batch p → WP p (λ _ _ _ _, True) s w.
Proof. intros Hb. apply (wp_always _ _ _ (λ _ _, True)); try done. clear. induction p; naive_solver. Qed.

(** Reading the object. *)
Lemma get_known w got w' :
  answers cd key w _ (K8sGetAutoscaleSet key) got w' →
  w' = w ∧ ∀ a, got = Ok a → as_key a = key ∧ known a w ∧ (w_object w = Some a ∨ behind cd).
Proof.
  intros [-> Hg]. split; [done|]. intros a ->. destruct Hg as [Hk Ho]. split; [done|].
  unfold known. destruct (Ho eq_refl) as [?|[? ?]]; auto.
Qed.

Lemma updateStatusError_stable K a reason message s w :
  stable K → as_key a = key → sound w → K w →
  WP (updateStatusError a reason message) (λ _ _ _ w', sound w' ∧ K w') s w.
Proof.
  intros HK Hk Hw Hkw. assert (HK' : stable (λ w, sound w ∧ K w)) by (apply stable_and; [apply sound_stable|done]).
  unfold updateStatusError, RefetchAndUpdateStatus. rewrite Hk.
  wp_bind. wp_call w1 got w2 Hu Ha. apply get_known in Ha as [-> Hgot].
  assert (HA1 : sound w1 ∧ K w1) by by apply (HK' w w1 (users_evolve _ _ _ Hu)).
  destruct got as [obj|e].
  2: { apply (wp_stable (λ w, sound w ∧ K w)); [done|by repeat case_match..|done]. }
  destruct (Hgot obj eq_refl) as (_ & Hobj & _).
  wp_call w3 r w4 Hu' Ha'. pose proof (users_evolve _ _ _ Hu') as He3. apply (HK' _ _ He3) in HA1.
  assert (HA4 : sound w4 ∧ K w4).
  { apply (HK' w3); [|done]. eapply (status_write_evolves cd w3 obj); [by apply HA1|by eapply ev_known|..|exact Ha'];
    done. }
  assert (Hend : ∀ e : option error, WP (match e with
    | Some err => if errors_Is err SentinelStatusConflict then Ret (requeue_now, None)
                  else Ret (no_requeue, Some err)
    | None =>
      metric ScaleSetOperations [as_ns a; as_name a; "reconcile"; "error"] MInc;;
      metric AutoscaleSetTotal [as_ns a; "Error"] (MSet 1);;
      call (Eventf (as_ns a) (as_name a) EventTypeWarning reason message);;
      Ret (requeue_after RequeueErrorInterval, None)
    end) (λ _ _ _ w', sound w' ∧ K w') s w4).
  { intros e. apply (wp_stable (λ w, sound w ∧ K w)); [done|no_batch_tac|always_tac ltac:(exact I)|done]. }
  destruct r as [?|e]; [exact (Hend None)|].
  destruct (IsConflict e); [exact (Hend (Some ErrStatusConflict))|exact (Hend (Some e))].
Qed.

Lemma updateStatusError_sound a reason message s w :
  as_key a = key → sound w → WP (updateStatusError a reason message) (λ _ _ _ w', sound w') s w.
Proof.
  intros Hk Hw. eapply wp_mono; [|by apply (updateStatusError_stable (λ _, True))].
  by intros ? ? ? ? [? _].
Qed.

(** **** Deletion *)

Lemma deleteScaleSetInGitHub_sound a id s w :
  ast_scaleSetID (as_status a) = Some id → sound w → known a w →
  WP (deleteScaleSetInGitHub a id)
     (λ _ o _ w', sound w' ∧ ∀ res, o = Done (res, None) → released_sets a w') s w.
Proof.
  intros Hid Hw Hk. assert (HK : stable (λ w, sound w ∧ known a w))
    by (apply stable_and; [apply sound_stable|apply known_stable]).
  unfold deleteScaleSetInGitHub. wp_bind. eapply wp_mono.
  2: { apply (wp_stable _ _ _ _ HK); [apply no_batch_CreateClientForAutoscaleSet| |exact (conj Hw Hk)].
       apply always_CreateClientForAutoscaleSet, quiet_factory. }
  intros tr [[c|e]|] s1 w1 HA1; [|by split; [apply HA1|]..].
  wp_bind. eapply wp_mono.
  2: { apply (wp_RetryWithBackoff _ _ _ _ _ (λ _ w, sound w ∧ known a w) (λ w, sound w ∧ known a w)
         (λ _ _ w, sound w ∧ released_sets a w)); [| |done|done|exact HA1].
       - intros b w2 w3 r w4 HA2 Hu Ha. apply (HK _ _ (users_evolve _ _ _ Hu)) in HA2.
         destruct (HK _ _ (quiet_evolves _ _ _ _ (DeleteRunnerScaleSet c id) _ _ I Ha) HA2) as [Hw4 Hk4].
         destruct r as [e|]; [done|]. split; [done|]. cbn in Ha. subst w4. split; [done|]. intros Hobj.
         simpl in *. apply only_deleted. intros i Hi. rewrite <- Hid. eapply recorded_all; [apply HA2|done..].
       - intros w2 w3 d r w4 HA2 Hu Ha. apply (HK _ _ (users_evolve _ _ _ Hu)) in HA2.
         exact (HK _ _ (quiet_evolves _ _ _ _ (SelectDoneOrAfter d) _ _ I Ha) HA2). }
  intros tr2 o s2 w2 [(v & e & -> & Hr) ->]. destruct e as [e|]; [by split; [apply Hr|]|].
  destruct Hr as (r & pre & b & -> & _ & _ & _ & Hw2 & Hs). wp_call w3 u w4 Hu Ha. cbn in Ha. subst w4.
  apply users_evolve in Hu. split; [by eapply sound_stable|]. intros _ _. by eapply released_sets_stable.
Qed.

Lemma handleDeletion_sound a s w :
  sound w → known a w → WP (handleDeletion a) (λ _ _ _ w', sound w') s w.
Proof.
  intros Hw Hk. unfold handleDeletion. destruct (ContainsFinalizer _ _); cbn [negb]; [|done].
  wp_bind. eapply (wp_mono _ _ _ _ (λ _ o _ w', sound w' ∧ (o = Done None → released_sets a w'))).
  2: { destruct (ast_scaleSetID (as_status a)) as [id|] eqn:Hid.
       - wp_bind. eapply wp_mono; [|by apply deleteScaleSetInGitHub_sound].
         intros tr [[res [e|]]|] s1 w1 [Hw1 Hs]; (split; [done|]); [done| |done].
         intros _. by eapply Hs.
       - split; [done|]. intros _. split; [done|]. intros Ha. apply all_gone. intros i Hi.
         pose proof (recorded_all w a (proj1 Hw) Ha i Hi). congruence. }
  intros tr [[r|]|] s1 w1 [Hw1 Hs]; [done| |done].
  wp_call w2 r w3 Hu Ha. apply users_evolve in Hu.
  assert (Hw3 : sound w3).
  { eapply (release_write_sound cd w2 a); [by eapply sound_stable| |exact Ha].
    by eapply released_sets_stable, Hs. }
  apply (wp_stable sound); [apply sound_stable|no_batch_tac|always_tac ltac:(exact I)|done].
Qed.

(** **** Creation *)

Lemma createScaleSetInGitHub_pending a c gid labels s w :
  sound w → expects cd w →
  WP (createScaleSetInGitHub a c gid labels)
     (λ tr o _ w', ∃ res, o = Done res ∧
        match res with
        | Err _ => sound w' ∨ lost cd ∧ Exists (λ e, failed_creation e = true) tr
        | Ok created => ∃ ss pre e, created = Some ss ∧ tr = pre ++ [e] ∧ creation e = true ∧
                          (pending cd ss w' ∨ lost cd ∧ Exists (λ e, failed_creation e = true) tr)
        end) s w.
Proof.
  intros Hw He. unfold createScaleSetInGitHub. wp_bind.
  set (K := λ w, sound w ∧ expects cd w).
  assert (HK : stable K) by (apply stable_and; [apply sound_stable|apply expects_stable]).
  eapply wp_mono.
  2: { apply (wp_RetryWithBackoff _ _ _ _ _ (λ b w, b = true ∧ lost cd ∨ K w) (λ w, lost cd ∨ K w)
         (λ b r w, ∃ ss, r.1 = Some ss ∧ (b = true ∧ lost cd ∨ pending cd ss w))); [| |naive_solver|done|by right].
       - intros b w2 w3 [v e] w4 HA2 Hu Ha. apply users_evolve in Hu.
         unfold answers, github in Ha. cbn [fst snd] in *. destruct e as [e|].
         + destruct Ha as [[-> _]|[Hl _]]; [|by left]. destruct HA2 as [[_ Hl]|HA2]; [by left|right]. by eapply HK.
         + destruct Ha as (ss & -> & _ & ->). exists ss. split; [done|].
           destruct HA2 as [?|HA2]; [by left|right]. destruct (HK _ _ Hu HA2) as [[Hr Hp] Hex].
           split; [done|]. split; [done|].
           intros id [ss' Hi]. simpl in Hi. apply lookup_insert_Some in Hi as [[<- _]|[_ Hi]]; [by left|right].
           apply (Hr id). by exists ss'.
       - intros w2 w3 d r w4 [?|HA2] Hu Ha; [by left|right]. apply (HK w3 w4).
         + exact (quiet_evolves _ _ _ _ (SelectDoneOrAfter d) _ _ I Ha).
         + by eapply HK, HA2; eapply users_evolve. }
  intros tr o s1 w1 [(v & e & -> & Hr) _].
  assert (Hfail : ∀ call tr, tried (S := S) call (λ r : option RunnerScaleSet * option error, r.2) tr →
    (∃ c rq, call = CreateRunnerScaleSet c rq) → Exists (λ e, failed_creation e = true) tr).
  { intros ? tr' (r & Hin & He') (c' & rq & ->). apply Exists_exists.
    eexists. split; [exact Hin|]. by apply bool_decide_eq_true_2. }
  destruct e as [e|].
  - destruct Hr as [Hr [?|Ht]]; [done|]. eexists. split; [done|].
    destruct Hr as [Hl|Hr]; [right|by left; apply Hr]. split; [done|]. rewrite app_nil_r. eauto.
  - destruct Hr as (r & pre & b & -> & Hok & -> & Hb & ss & Hss & Hr). wp_ret. eexists. split; [done|].
    exists ss, pre. eexists. split; [exact Hss|]. rewrite app_nil_r. split; [done|]. split; [by apply bool_decide_eq_true_2|].
    destruct Hr as [[-> Hl]|Hp]; [right; split; [done|]|by left].
    apply Exists_app. left. destruct (Hb eq_refl) as [?|Ht]; [done|]. eauto.
Qed.

(** The rest of a reconciliation that may have lost a scale set. *)
Lemma wp_lost {A} (p : prog S A) tr s w :
  no_batch p → loses cd tr → WP p (λ tr' _ _ w', sound w' ∨ loses cd (tr ++ tr')) s w.
Proof. intros Hb Hl. eapply wp_mono; [|by apply wp_any]. intros ? ? ? ? _. right. by apply loses_app_l. Qed.

(** Reading the object again, after a creation. *)
Lemma reread ss w w1 got w2 :
  pending cd ss w → users key w w1 → answers cd key w1 _ (K8sGetAutoscaleSet key) got w2 →
  pending cd ss w2 ∧
  match got with
  | Ok b => known b w2 ∧ (waiting b = true ∨ behind cd ∧ waiting b = false)
  | Err _ => True
  end.
Proof.
  intros Hp Hu [-> Hg]. apply (pending_stable cd ss _ _ (users_evolve _ _ _ Hu)) in Hp. split; [done|].
  destruct got as [b|]; [|done]. destruct Hg as [_ Hg]. specialize (Hg eq_refl). split.
  - unfold known. destruct Hg as [?|[_ ?]]; auto.
  - destruct (waiting b) eqn:Hb; [by left|right]. split; [|done]. destruct Hg as [Hg|[? _]]; [|done].
    destruct Hp as (_ & [?|(b' & Hb' & Hid & Hf)] & _); [done|]. assert (b' = b) as -> by congruence.
    unfold waiting in Hb. rewrite (bool_decide_eq_true_2 _ Hid), (bool_decide_eq_true_2 _ Hf) in Hb. done.
Qed.

Lemma createScaleSet_sound a c gid s w :
  as_key a = key → sound w → expects cd w →
  WP (createScaleSet a c gid) (λ tr _ _ w', sound w' ∨ loses cd tr) s w.
Proof.
  intros Hk Hw He. unfold createScaleSet. wp_bind.
  eapply wp_mono; [|by apply createScaleSetInGitHub_pending].
  intros tr o s1 w1 (res & -> & Hres). destruct res as [created|e].
  2: { destruct Hres as [Hw1|Hl].
       - eapply wp_mono; [|by apply updateStatusError_sound]. intros ? ? ? ? Hx. by left.
       - apply wp_lost; [|by left]. unfold updateStatusError, RefetchAndUpdateStatus. no_batch_tac. }
  destruct Hres as (ss & pre & e & -> & -> & Hc & Hp). rewrite Hk.
  destruct Hp as [Hp|Hl]; [|by apply wp_lost; [no_batch_tac|left]].
  assert (Hrec : ∀ t1 e' t2, failed_record e' = true ∨ behind cd ∧ not_waiting e' = true →
    loses cd ((pre ++ [e]) ++ t1 ++ e' :: t2 : list (event S))).
  { intros t1 e' t2 He'. right. exists pre, e, (t1 ++ e' :: t2). split; [by rewrite <- app_assoc|].
    split; [done|]. apply Exists_app. right. by left. }
  wp_call w2 got w3 Hu Ha. apply (reread ss w1) in Ha as [Hp3 Hb]; [|done..].
  destruct got as [b|err]; [|right; apply (Hrec [] _ []); by left].
  destruct Hb as [Hkb [Hb|[Hbe Hb]]].
  2: { eapply wp_mono; [|apply wp_any; no_batch_tac]. intros t ? ? ? _. right.
       apply (Hrec [] _ t). right. split; [done|]. simpl. by rewrite Hb. }
  wp_call w4 r w5 Hu' Ha. apply users_evolve in Hu'.
  destruct r as [a''|err].
  2: { destruct (IsConflict err); right; apply (Hrec [_] _ []); by left. }
  assert (Hw5 : sound w5).
  { eapply (record_write_sound cd w4 b ss); [by eapply pending_stable|by eapply ev_known|done|exact Ha]. }
  eapply wp_mono; [intros ? ? ? ? Hr; left; exact Hr|].
  apply (wp_stable sound); [apply sound_stable|no_batch_tac|always_tac ltac:(exact I)|done].
Qed.

(** **** Update *)

(** The status an update writes is for the object and has the identifier that
    were read. *)
Lemma setUpdateScaleSetStatus_sound a ss s w :
  sound w → known a w →
  WP (setUpdateScaleSetStatus a ss)
     (λ _ o _ w', (sound w' ∧ known a w') ∧
        ∀ a', o = Done a' → as_meta a' = as_meta a ∧
          ast_scaleSetID (as_status a') = ast_scaleSetID (as_status a)) s w.
Proof.
  intros Hw Hk. apply wp_and.
  - apply (wp_stable (λ w, sound w ∧ known a w)); [apply stable_and; [apply sound_stable|apply known_stable]| | |done];
      unfold setUpdateScaleSetStatus, setScaleSetStatistics, countRunnerPodsForAutoscaleSet, deref_id;
      cbn [for_each]; [no_batch_tac|always_tac ltac:(exact I)].
  - apply wp_returns.
    + unfold setUpdateScaleSetStatus, setScaleSetStatistics, countRunnerPodsForAutoscaleSet, deref_id.
      cbn [for_each]. no_batch_tac.
    + unfold setUpdateScaleSetStatus. refine (returns_bind _ _ _ _). by intros [current desired].
Qed.

Lemma updateScaleSet_sound id a c s w :
  as_key a = key → sound w → WP (updateScaleSet a id c) (λ _ _ _ w', sound w') s w.
Proof.
  intros Hk Hw. unfold updateScaleSet, getScaleSetForUpdate. wp_bind. eapply wp_mono.
  2: { apply (wp_stable sound); [apply sound_stable|apply no_batch_GetCachedScaleSet; no_batch_tac| |exact Hw].
       apply always_GetCachedScaleSet; [exact quiet_factory|always_tac ltac:(exact I)]. }
  intros tr [[ss [e|]]|] s1 w1 Hw1; [by apply updateStatusError_sound| |done].
  rewrite Hk. wp_call w2 got w3 Hu Ha. apply get_known in Ha as [-> Hgot].
  apply (sound_stable _ _ (users_evolve _ _ _ Hu)) in Hw1. destruct got as [b|e]; [|done].
  destruct (Hgot b eq_refl) as (Hkb & Hb & _).
  wp_bind. eapply (wp_mono _ _ _ _ (λ _ _ _ w', sound w' ∧ known b w')).
  2: { apply (wp_stable (λ w, sound w ∧ known b w)); [apply stable_and; [apply sound_stable|apply known_stable]| | |done];
       unfold maybeUpdateScaleSetLabels, deref_id, closure.
       - no_batch_prog.
       - always_prog ltac:(exact I) ltac:(exact quiet_factory). }
  intros tr2 [[ss' [e|]]|] s2 w4 [Hw4 Hb4]; [by apply updateStatusError_sound| |done].
  destruct ss' as [ss'|]; [|done].
  wp_bind. eapply wp_mono; [|by apply setUpdateScaleSetStatus_sound].
  intros tr3 [a2|] s3 w5 [[Hw5 Hb5] Ha2]; [|done]. destruct (Ha2 a2 eq_refl) as [Hm Hid].
  wp_call w6 r w7 Hu' Ha. apply users_evolve in Hu'. assert (Hw7 : sound w7).
  { apply (sound_stable _ _ Hu') in Hw5. eapply sound_stable; [|exact Hw5].
    eapply (status_write_evolves cd w6 b a2); [done|by eapply ev_known| |done|exact Ha].
    unfold version. by rewrite Hm. }
  destruct r as [a3|e]; [|by destruct (IsConflict e)].
  apply (wp_stable sound); unfold recordUpdateScaleSetMetrics;
    [apply sound_stable|no_batch_tac|always_tac ltac:(exact I)|done].
Qed.

(** **** The whole reconciliation *)

Lemma reconcileActive_sound a s w :
  as_key a = key → sound w → (ast_scaleSetID (as_status a) = None → expects cd w) →
  WP (reconcileActive a) (λ tr _ _ w', sound w' ∨ loses cd tr) s w.
Proof.
  intros Hk Hw He. set (K := λ w, sound w ∧ (ast_scaleSetID (as_status a) = None → expects cd w)).
  assert (HK : stable K) by (apply stable_and; [apply sound_stable|apply stable_imp, expects_stable]).
  unfold reconcileActive. wp_bind. eapply wp_mono.
  2: { apply (wp_stable K); [done|apply no_batch_CreateClientForAutoscaleSet| |by split].
       apply always_CreateClientForAutoscaleSet, quiet_factory. }
  assert (Herr : ∀ (F : list (event S) → Prop) reason message s w, sound w →
    WP (updateStatusError a reason message) (λ tr _ _ w', sound w' ∨ F tr) s w).
  { intros F reason message s0 w0 Hw0.
    eapply wp_mono; [|by eapply updateStatusError_sound]. intros ? ? ? ? Hx. by left. }
  intros tr [[c|e]|] s1 w1 [Hw1 He1]; [|by apply (Herr (λ tr', loses cd (tr ++ tr')))|by left].
  wp_bind. eapply wp_mono.
  2: { apply (wp_stable K); [done| | |by split]; unfold getRunnerGroupID; [no_batch_tac|always_tac ltac:(exact I)]. }
  intros tr2 [[gid|e]|] s2 w2 [Hw2 He2]; [|by apply (Herr (λ tr', loses cd (tr ++ tr2 ++ tr')))|by left].
  destruct (ast_scaleSetID (as_status a)) as [id|] eqn:Hid.
  - eapply wp_mono; [|by apply updateScaleSet_sound]. intros ? ? ? ? Hx. by left.
  - eapply wp_mono; [|by apply createScaleSet_sound; [..|apply He2]].
    intros ? ? ? ? [Hx|Hx]; [by left|right]. by do 2 apply loses_app_r.
Qed.

Lemma reconcile_body_sound s w :
  sound w → WP (reconcile_body key) (λ tr _ _ w', sound w' ∨ loses cd tr) s w.
Proof.
  intros Hw. unfold reconcile_body. wp_call w1 got w2 Hu Ha. apply get_known in Ha as [-> Hg].
  apply (sound_stable _ _ (users_evolve _ _ _ Hu)) in Hw. destruct got as [a|e].
  2: { eapply wp_mono; [intros ? ? ? ? Hx; left; exact Hx|].
       apply (wp_stable sound); [apply sound_stable|no_batch_tac|always_tac ltac:(exact I)|done]. }
  destruct (Hg a eq_refl) as (Hk & Ha & Hcur).
  destruct (is_deleting (as_meta a)).
  { eapply wp_mono; [intros ? ? ? ? Hx; left; exact Hx|]. by apply handleDeletion_sound. }
  unfold ensureFinalizer. rewrite ContainsFinalizer_spec.
  destruct (decide (FinalizerName ∈ m_finalizers (as_meta a))) as [Hf|Hf].
  - rewrite (bool_decide_eq_true_2 _ Hf). wp_bind. wp_ret.
    eapply wp_mono; [|apply reconcileActive_sound; [done..|]].
    + intros tr ? ? ? [Hx|Hx]; [by left|right]. by apply (loses_app_r cd [_] tr).
    + intros Hid. destruct Hcur as [Hcur|?]; [right|by left]. by exists a.
  - rewrite (bool_decide_eq_false_2 _ Hf). wp_bind. wp_call w3 r w4 Hu' Ha'. apply users_evolve in Hu'.
    assert (Hw4 : sound w4).
    { apply (sound_stable _ _ Hu') in Hw. eapply sound_stable; [|exact Hw].
      eapply (finalizer_write_evolves cd w3 a); [|done|by eapply ev_known|exact Ha'].
      intros f Hff. apply AddFinalizer_spec. by right. }
    destruct r; by left.
Qed.

Lemma Reconcile_sound s w :
  sound w → WP (Reconcile key) (λ tr _ _ w', sound w' ∨ loses cd tr) s w.
Proof.
  intros Hw. unfold Reconcile. wp_call w1 t0 w2 Hu Ha. cbn in Ha. subst w2.
  apply (sound_stable _ _ (users_evolve _ _ _ Hu)) in Hw. apply wp_deferred.
  eapply wp_mono; [|by apply reconcile_body_sound]. intros tr o s2 w2 [Hw2|Hl].
  - eapply wp_mono; [intros ? ? ? ? Hx; left; exact Hx|].
    apply (wp_stable sound); [apply sound_stable| | |done]; unfold recordReconcileDuration, time_Since;
      [no_batch_tac|always_tac ltac:(exact I)].
  - eapply wp_mono; [|apply wp_any; unfold recordReconcileDuration, time_Since; no_batch_tac].
    intros tr' ? ? ? _. right. apply (loses_app_r cd [_]). by apply loses_app_l.
Qed.
End Invariant.


(** ** Nothing is orphaned *)
Section System.
Context {S : Type} `{HasCache S, MapRange, UnicodeTables, ControllerLib}.
Context (rely : S → S → Prop) (cd : Conditions) (key : NamespacedName).

(** Users act, other goroutines work on the memory, and the object is
    reconciled, by one worker at a time, while users go on; none of the
    reconciliations is one of the exceptions. *)
Inductive sys_step : S * World → S * World → Prop :=
| sys_user s w w' : user_step key w w' → sys_step (s, w) (s, w')
| sys_memory s s' w : rely s s' → sys_step (s, w) (s', w)
| sys_reconcile s w tr o s' w' :
    exec rely (Reconcile key) s tr o s' → wrun (users key) (answers cd key) w tr w' →
    ¬ loses cd tr → sys_step (s, w) (s', w').

(** C1. From a state without scale sets, whatever users do, also in the middle
    of a reconciliation, whichever calls are refused, whichever replies are lost
    and however far the cache is behind: every scale set in GitHub is recorded
    in the status of an object that carries the finalizer, there is at most one,
    and none is left once the object is gone.  The exceptions, all of them
    reconciliations that create a scale set, are those of [loses]: a creation
    failed, and replies may be lost; after the creation the object could not be
    read again, or its status not be written; the cache may be behind, and the
    object read again after the creation has a scale set already, or no
    finalizer. *)
Theorem scale_sets_recorded `{!ControllerLaws} x y :
  rtc sys_step x y → w_sets x.2 = ∅ → past_versions x.2 →
  recorded y.2 ∧ (w_object y.2 = None → w_sets y.2 = ∅) ∧ size (w_sets y.2) ≤ 1.
Proof.
  intros Hxy Hs Hp. assert (Hr : sound y.2).
  { assert (Hx : sound x.2) by (split; [by apply no_sets_recorded|done]). clear Hs Hp.
    induction Hxy as [x|x y z Hst _ IH]; [done|]. apply IH.
    destruct Hst as [s w w' Hu|s s' w _|s w tr o s' w' Hx' Hw Hl]; simpl in *; [|done|].
    - by apply (sound_stable _ _ (user_evolves _ _ _ Hu)).
    - by destruct (wp_sound _ _ _ _ _ _ _ _ _ _ _ (Reconcile_sound rely cd key s w Hx) Hx' Hw). }
  apply proj1 in Hr. split; [done|]. split.
  - intros Hn. apply all_gone. intros id Hi. destruct (Hr id Hi) as (a & Ha & _). congruence.
  - rewrite <- size_dom. destruct (decide (w_sets y.2 = ∅)) as [->|(id & ss & Hi)%map_choose];
      [by rewrite dom_empty, size_empty; lia|].
    rewrite <- (size_singleton (C := gset Z) id). apply subseteq_size. intros id' Hi'.
    apply elem_of_dom in Hi'. apply elem_of_singleton.
    destruct (Hr id (ex_intro _ ss Hi)) as (a & Ha & Hid & _).
    pose proof (recorded_all _ a Hr Ha id' Hi'). congruence.
Qed.
End System.

(** ** Concrete runs *)

#[local] Existing Instance map_range_default.
#[local] Existing Instance ascii_tables.
#[local] Existing Instance controller_lib.
#[local] Existing Instance controller_laws.

Lemma no_batch_Reconcile {S : Type} `{HasCache S, MapRange, UnicodeTables, ControllerLib} req :
  no_batch (Reconcile (S := S) req).
Proof.
  unfold Reconcile. refine (no_batch_bind _ _ _ _); [by intros|]. intros t0.
  apply no_batch_deferred; [|apply no_batch_reconcile_body].
  unfold recordReconcileDuration, time_Since. no_batch_tac.
Qed.

Definition set_key : NamespacedName := mkNN "ns" "set".

(** The secret the object names, before the object; the object as a user
    creates it, and as the finalizer round leaves it. *)
Definition empty_world : World :=
  mkWorld None ∅ {[mkNN "ns" "app" := mkSecret emptyMeta token_secret]} ∅ ∅ [] [].

Definition new_set : AutoscaleSet := as_set_finalizers (finalized pat_set None None) [].

Definition created_world : World :=
  mkWorld (Some new_set) ∅ (w_secrets empty_world) ∅ ∅ [CreateEvent (as_meta new_set)] [].

Definition finalized_world : World :=
  mkWorld (Some (finalized pat_set None None)) ∅ (w_secrets empty_world) ∅ ∅ [] [].

Lemma at_key_initial key a sets secrets groups notes :
  as_key a = key → at_key key (mkWorld (Some a) sets secrets groups ∅ notes []).
Proof. intros Hk. split_and!; [by intros a' [= <-]|done|]. intros ? b _ Hb. by apply elem_of_nil in Hb. Qed.

Lemma created_world_at_key : at_key set_key created_world.
Proof. by apply at_key_initial. Qed.

Lemma finalized_world_at_key : at_key set_key finalized_world.
Proof. by apply at_key_initial. Qed.

(** A user who, between any two calls, leaves everything alone; and one who
    changes the image when the status is about to be written. *)
Definition undisturbed (R : Type) (c : Call R) (w : World) : World := w.





Lemma undisturbed_ok R (c : Call R) w :
  at_key set_key w → users set_key w (undisturbed R c w) ∧ at_key set_key (undisturbed R c w).
Proof. by split; [apply rtc_refl|]. Qed.

(** Runs of the concrete system. *)
Lemma run_at_key cd meddle {A} (p : prog Cache A) s w :
  (∀ R (c : Call R) w, at_key set_key w → users set_key w (meddle R c w) ∧ at_key set_key (meddle R c w)) →
  no_batch p → at_key set_key w →
  let x := run_world meddle respond p s w in
  exec_seq p s x.1.1.1 x.1.1.2 x.1.2 ∧
  wrun (users set_key) (answers cd set_key) w x.1.1.1 x.2 ∧ at_key set_key x.2.
Proof. intros Hm. apply run_world_ok; [exact Hm|intros ? ? ? ?; by apply respond_ok]. Qed.

Lemma not_recorded id w :
  match w_sets w !! id with Some _ => true | None => false end = true →
  (w_object w ≫= λ a, ast_scaleSetID (as_status a)) ≠ Some id → ¬ recorded w.
Proof.
  intros Hi Hn Hr. destruct (Hr id) as (a & Ha & Hid & _); [by destruct (w_sets w !! id)|].
  rewrite Ha in Hn. by apply Hn.
Qed.


(** Replies that are lost: the first creation takes effect, and the
    gateway before GitHub times out. *)
Definition respond_lossy (w : World) (R : Type) (c : Call R) : R * World :=
  match c in Call R0 return R0 * World → R0 * World with
  | CreateRunnerScaleSet _ _ => λ x,
    if bool_decide (w_sets w = ∅) then ((None, Some (errors_New "unexpected status=504")), x.2) else x
  | _ => λ x, x
  end (respond w R c).

Lemma respond_lossy_ok w R (c : Call R) :
  at_key set_key w →
  answers (mkConditions False True False) set_key w R c (respond_lossy w R c).1 (respond_lossy w R c).2 ∧
  at_key set_key (respond_lossy w R c).2.
Proof.
  intros Hk. pose proof (respond_ok (mkConditions False True False) set_key w R c Hk) as Hr.
  destruct c; try exact Hr. unfold respond_lossy. case_bool_decide; [|exact Hr].
  destruct Hr as [(ss1 & _ & Hss) Hk']. split; [|exact Hk']. right. split; [done|]. by exists ss1.
Qed.

(** The creation times out although GitHub carried it out, and is tried again:
    the reconciliation succeeds, and GitHub has two scale sets, one of them
    unknown to everybody. *)
Theorem lost_reply_orphans :
  ∃ w tr s w',
    recorded w ∧ exec_seq (Reconcile set_key) NewCache tr (Done (no_requeue, None)) s ∧
    wrun (users set_key) (answers (mkConditions False True False) set_key) w tr w' ∧
    size (w_sets w') = 2 ∧ ¬ recorded w'.
Proof.
  set (x := run_world undisturbed respond_lossy (Reconcile set_key) NewCache finalized_world).
  destruct (run_world_ok (users set_key) (answers (mkConditions False True False) set_key) undisturbed respond_lossy
    (at_key set_key) undisturbed_ok respond_lossy_ok (Reconcile set_key) NewCache finalized_world
    (no_batch_Reconcile set_key) finalized_world_at_key) as (Hx & Hw & _). fold x in Hx, Hw.
  assert (Hox : x.1.1.2 = Done (no_requeue, None)) by (vm_compute; reflexivity). rewrite Hox in Hx.
  exists finalized_world, x.1.1.1, x.1.2, x.2. split; [by apply no_sets_recorded|].
  split; [exact Hx|]. split; [exact Hw|]. split; [vm_compute; reflexivity|].
  apply (not_recorded 1%Z); [vm_compute; reflexivity|vm_compute; discriminate].
Qed.

(** A cache that has not seen the registration yet: as long as there is one
    scale set, reading the object gives the version before. *)
Definition respond_behind (w : World) (R : Type) (c : Call R) : R * World :=
  match c in Call R0 return R0 * World → R0 * World with
  | K8sGetAutoscaleSet k => λ x,
    match w_past w with
    | b :: _ => if bool_decide (size (w_sets w) = 1 ∧ as_key b = k) then (Ok b, w) else x
    | [] => x
    end
  | _ => λ x, x
  end (respond w R c).

Lemma respond_behind_ok w R (c : Call R) :
  at_key set_key w →
  answers (mkConditions False False True) set_key w R c (respond_behind w R c).1 (respond_behind w R c).2 ∧
  at_key set_key (respond_behind w R c).2.
Proof.
  intros Hk. pose proof (respond_ok (mkConditions False False True) set_key w R c Hk) as Hr.
  destruct c; try exact Hr. unfold respond_behind. destruct (w_past w) as [|b past] eqn:Hp; [exact Hr|].
  case_bool_decide as Hb; [|exact Hr]. split; [|exact Hk]. split; [done|]. split; [apply Hb|].
  intros _. right. split; [done|]. rewrite Hp. by left.
Qed.

(** The object is registered.  It is reconciled again before the cache has seen
    that: a second scale set is created, and takes the place of the first in
    the status. *)
Theorem outdated_read_orphans :
  ∃ w tr s w' ss a,
    w_sets w = {[ss_id ss := ss]} ∧ w_object w = Some a ∧ ast_scaleSetID (as_status a) = Some (ss_id ss) ∧
    exec_seq (Reconcile set_key) NewCache tr (Done (no_requeue, None)) s ∧
    wrun (users set_key) (answers (mkConditions False False True) set_key) w tr w' ∧
    size (w_sets w') = 2 ∧ ¬ recorded w'.
Proof.
  set (x := run_world undisturbed respond (Reconcile set_key) NewCache finalized_world).
  destruct (run_at_key calm undisturbed (Reconcile set_key) NewCache finalized_world)
    as (_ & _ & Hk); [exact undisturbed_ok|apply no_batch_Reconcile|exact finalized_world_at_key|]. fold x in Hk.
  set (y := run_world undisturbed respond_behind (Reconcile set_key) NewCache x.2).
  destruct (run_world_ok (users set_key) (answers (mkConditions False False True) set_key) undisturbed respond_behind
    (at_key set_key) undisturbed_ok respond_behind_ok (Reconcile set_key) NewCache x.2
    (no_batch_Reconcile set_key) Hk) as (Hx & Hw & _). fold y in Hx, Hw.
  assert (Hoy : y.1.1.2 = Done (no_requeue, None)) by (vm_compute; reflexivity). rewrite Hoy in Hx.
  assert (Hobj : ∃ a, w_object x.2 = Some a) by (vm_compute; by eexists). destruct Hobj as [a Ha].
  assert (Hid : (w_object x.2 ≫= λ a, ast_scaleSetID (as_status a)) = Some 1%Z) by (vm_compute; reflexivity).
  assert (Hss : (ss_id <$> w_sets x.2 !! 1%Z) = Some 1%Z) by (vm_compute; reflexivity).
  destruct (w_sets x.2 !! 1%Z) as [ss|] eqn:Hl; [|done]. injection Hss as Hss.
  exists x.2, y.1.1.1, y.1.2, y.2, ss, a. split.
  { rewrite Hss. apply map_eq. intros i. destruct (decide (i = 1%Z)) as [->|Hne]; [by rewrite lookup_singleton_eq|].
    rewrite lookup_singleton_ne by done. assert (Hd : delete 1%Z (w_sets x.2) = ∅) by (vm_compute; reflexivity).
    by rewrite <- (lookup_delete_ne (w_sets x.2) 1%Z i), Hd. }
  split; [done|]. split; [rewrite Ha in Hid; by rewrite Hss|].
  split; [exact Hx|]. split; [exact Hw|]. split; [vm_compute; reflexivity|].
  apply (not_recorded 1%Z); [vm_compute; reflexivity|vm_compute; discriminate].
Qed.

Lemma new_set_fresh : fresh_version empty_world new_set.
Proof. intros b [Hb|Hb]; [discriminate Hb|by apply elem_of_nil in Hb]. Qed.

Lemma empty_world_past : past_versions empty_world.
Proof. intros a b Ha. discriminate Ha. Qed.

(** Anything may go wrong, and nothing does: a user creates the object, and two
    reconciliations later its one scale set is recorded. *)
Definition anything : Conditions := mkConditions True True True.

Lemma scale_sets_recorded_witness :
  let x := run_world undisturbed respond (Reconcile set_key) NewCache created_world in
  let y := run_world undisturbed respond (Reconcile set_key) x.1.2 x.2 in
  rtc (sys_step eq anything set_key) (NewCache, empty_world) (y.1.2, y.2) ∧
  size (w_sets y.2) = 1 ∧ recorded y.2.
Proof.
  intros x y.
  destruct (run_at_key anything undisturbed (Reconcile set_key) NewCache created_world)
    as (Hx & Hw & Hk); [exact undisturbed_ok|apply no_batch_Reconcile|exact created_world_at_key|].
  destruct (run_at_key anything undisturbed (Reconcile set_key) x.1.2 x.2)
    as (Hy & Hw' & _); [exact undisturbed_ok|apply no_batch_Reconcile|exact Hk|].
  assert (Hsys : rtc (sys_step eq anything set_key) (NewCache, empty_world) (y.1.2, y.2)).
  { eapply rtc_l; [exact (sys_user eq anything set_key NewCache _ _ (user_create set_key empty_world new_set eq_refl eq_refl eq_refl eq_refl new_set_fresh))|].
    eapply rtc_l; [eapply sys_reconcile; [exact Hx|exact Hw|]; apply loses_not; vm_compute; reflexivity|].
    apply rtc_once. eapply sys_reconcile; [exact Hy|exact Hw'|]. apply loses_not. vm_compute. reflexivity. }
  split; [exact Hsys|]. split; [vm_compute; reflexivity|].
  exact (proj1 (scale_sets_recorded eq anything set_key _ _ Hsys eq_refl empty_world_past)).
Defined.
