(* ===== verification/Rounds.v ===== *)
(** * Rounds: reconciliations in a row, on systems that answer

    What one reconciliation of an AutoscaleSet leaves behind when no call fails,
    the cache has caught up and no user interferes: the finalizer, the registration, the deletion. *)

From S2P Require Export Lifecycle.

(** ** Systems that answer *)

(** The credentials the object names are there. *)
Definition credentials `{MapRange} (w : World) (a : AutoscaleSet) : Prop :=
  let holds names dflt ref := ∃ secret v,
    w_secrets w !! secretKey (as_ns a) (secret_ref ref) = Some secret ∧
    s_data secret !! pick_key names dflt (s_data secret) = Some v in
  match as_githubApp (as_spec a), as_pat (as_spec a) with
  | Some app, _ => holds ["privateKey"; "private_key"; "key"] "privateKey" (ga_privateKeySecretRef app)
  | None, Some pat => holds ["token"; "pat"; "accessToken"] "token" (pa_tokenSecretRef pat)
  | None, None => False
  end.

Section Healthy.
Context {S : Type} `{HasCache S, MapRange, UnicodeTables, ControllerLib, !ControllerLaws}.
Context (rely : S → S → Prop) (key : NamespacedName).

#[local] Notation "'WP'" := (wp rely eq (answers calm key)) (at level 0).

Lemma get_config_healthy {A} (sel : cachedConfig → option A) inj names dflt missing build k secret v s w :
  w_secrets w !! k = Some secret → s_data secret !! pick_key names dflt (s_data secret) = Some v →
  WP (get_config sel inj names dflt missing build k) (λ _ o _ w', w' = w ∧ ∃ c, o = Done (Ok c)) s w.
Proof.
  intros Hk Hv. unfold get_config, lookup_secret. wp_atomic s1. wp_bind.
  eapply (wp_mono _ _ _ _ (λ _ o _ w', w' = w ∧ ∃ hit, o = Done hit)).
  2: { destruct (secretCache (cache_of s1) !! k) as [cs|]; [|by split; [|eexists]].
       wp_call w1 now w2 Hu Ha. cbn in Ha. subst. by split; [|eexists]. }
  intros tr o s2 w2 [-> [[config|] ->]].
  - wp_call w3 u w4 Hu Ha. cbn in Ha. subst. by split; [|eexists].
  - wp_call w3 u w4 Hu Ha. cbn in Ha. subst. wp_call w1 got w2 Hu Ha. destruct Ha as [-> Ha]. subst.
    destruct got as [secret'|e]; [|destruct Ha as [?|[?|?]]; [done|congruence|done]].
    destruct Ha as [Ha|[]]. assert (secret' = secret) as -> by congruence. rewrite Hv. unfold store_secret.
    wp_bind. wp_call w2 now w3 Hu Hn. cbn in Hn. subst. intros s4 _. by split; [|eexists].
Qed.

Lemma CreateClient_healthy a sub s w :
  credentials w a →
  WP (CreateClientForAutoscaleSet a sub) (λ _ o _ w', w' = w ∧ ∃ c, o = Done (Ok c)) s w.
Proof.
  unfold credentials, CreateClientForAutoscaleSet, LoadGitHubAppFromSecret, LoadPATFromSecret. intros Hc.
  wp_bind. eapply (wp_mono _ _ _ _ (λ _ o _ w', w' = w ∧ ∃ config, o = Done (Ok config) ∧
    (cc_GitHubApp config ≠ None ∨ cc_PAT config ≠ None))).
  - intros tr o s1 w1 (-> & config & -> & Hcfg). wp_bind.
    eapply (wp_mono _ _ _ _ (λ _ o _ w', w' = w ∧ ∃ c, o = Done (Ok c))).
    + intros tr2 o s2 w2 (-> & c & ->). destruct (ast_scaleSetID (as_status a)) as [id|].
      * wp_call w3 u w4 Hu Ha. cbn in Ha. subst. by split; [|eexists].
      * by split; [|eexists].
    + unfold CreateClient. destruct (cc_GitHubApp config), (cc_PAT config); [..|naive_solver];
        intros w2 r w3 Hu [-> Ha]; subst w2; (split; [done|]);
        (destruct r; [by eexists|]); by destruct (Ha eq_refl).
  - destruct (as_githubApp (as_spec a)) as [app|]; [|destruct (as_pat (as_spec a)) as [pat|]; [|done]].
    all: destruct Hc as (secret & v & Hk & Hv); wp_bind.
    + rewrite GetGitHubAppConfig_generic. eapply wp_mono; [|by eapply get_config_healthy].
      intros tr o s1 w1 (-> & c & ->). split; [done|]. eexists. split; [done|]. by left.
    + rewrite GetPATConfig_generic. eapply wp_mono; [|by eapply get_config_healthy].
      intros tr o s1 w1 (-> & c & ->). split; [done|]. eexists. split; [done|]. by right.
Qed.

(** A retried call that cannot fail succeeds at once. *)
Lemma retry_healthy {R} (c : Call R) err_of (G : R → World → Prop) s w :
  (∀ r w', answers calm key w R c r w' → err_of r = None ∧ G r w') →
  WP (RetryWithBackoff DefaultRetryConfig (closure c err_of))
     (λ _ o _ w', ∃ r, o = Done (Some r, None) ∧ G r w') s w.
Proof.
  intros Hc. eapply wp_mono.
  2: { apply (wp_RetryWithBackoff rely eq _ c err_of (λ _ w', w' = w) (λ _, False) (λ _, G)); [|done..].
       intros ? ? w1 r w2 -> <- Ha. apply Hc in Ha as [-> Ha]. done. }
  intros tr o s1 w1 [(v & e & -> & Hr) _]. destruct e as [e|]; [by destruct Hr|].
  destruct Hr as (r & pre & b & -> & _ & _ & _ & HG). by exists r.
Qed.

(** Calls of which the systems take no notice. *)
Definition unnoticed (R : Type) (c : Call R) : Prop :=
  match c with Metric _ _ _ | Eventf _ _ _ _ _ | Now => True | _ => False end.

Lemma wp_unnoticed {A} (p : prog S A) s w :
  no_batch p → always unnoticed p → WP p (λ _ _ _ w', w' = w) s w.
Proof.
  intros Hb Hq. apply (wp_always _ _ _ unnoticed (λ w', w' = w)); [by intros ? ? <-| |done..].
  intros R c w0 r w1 Hc Ha ->. by destruct c.
Qed.

(** Reading and writing the one object. *)
Lemma get_healthy w a got w' :
  w_object w = Some a → answers calm key w _ (K8sGetAutoscaleSet key) got w' →
  w' = w ∧ got = Ok a ∧ as_key a = key.
Proof.
  intros Ho [-> Hg]. split; [done|]. destruct got as [a'|e].
  - destruct Hg as [Hk Ho']. destruct (Ho' eq_refl) as [?|[[] _]]. split; congruence.
  - destruct Hg as [[]|Hg]. destruct (Hg eq_refl) as [_ [?|[]]]. congruence.
Qed.

Lemma write_healthy write w a b r w' :
  w_object w = Some a → version b = version a → writes calm write w b r w' →
  ∃ a', r = Ok a' ∧ write a b a' ∧ w' = stored a a' w.
Proof.
  intros Ho Hv Hw. destruct r as [a'|e].
  - destruct Hw as (old & Ho' & _ & Hwr & _ & ->). assert (old = a) as -> by congruence. by exists a'.
  - destruct Hw as [[_ [[]|Hw]]|[[] _]]. by destruct (Hw a Ho).
Qed.

(** The clock readings and the metric around the body. *)
Lemma Reconcile_healthy (Q : outcome Reconciled → World → Prop) s w :
  WP (reconcile_body key) (λ _ o _ w', Q o w') s w → WP (Reconcile key) (λ _ o _ w', Q o w') s w.
Proof.
  intros Hb. unfold Reconcile. wp_call w1 t0 w2 Hu Ha. cbn in Ha. subst w1 w2.
  apply wp_deferred. eapply wp_mono; [|exact Hb]. intros tr o s1 w1 HQ.
  intros w2 now w3 <- Ha. cbn in Ha. subst w3. intros w4 u w5 <- Ha. cbn in Ha. by subst w5.
Qed.

(** **** Deletion *)

Lemma deleteScaleSetInGitHub_healthy a id s w :
  credentials w a → is_Some (w_sets w !! id) →
  WP (deleteScaleSetInGitHub a id)
     (λ _ o _ w', o = Done (no_requeue, None) ∧ w' = with_sets (delete id (w_sets w)) w) s w.
Proof.
  intros Hc Hid. unfold deleteScaleSetInGitHub. wp_bind.
  eapply wp_mono; [|by apply CreateClient_healthy]. intros tr o s1 w1 (-> & c & ->).
  wp_bind. eapply wp_mono.
  2: { apply (retry_healthy _ _ (λ _ w', w' = with_sets (delete id (w_sets w)) w)).
       intros [e|] w' Ha; [|done]. destruct Ha as [[_ [[]|Ha]]|[[] _]]. rewrite Ha in Hid. by apply is_Some_None in Hid. }
  intros tr2 o s2 w2 (r & -> & ->). wp_call w3 u w4 Hu Ha. cbn in Ha. subst. done.
Qed.

(** What is left of an object after its deletion was handled. *)
Definition released (a : AutoscaleSet) (w : World) : Prop :=
  match w_object w with
  | Some a' => (FinalizerName ∉ m_finalizers (as_meta a')) ∧
               (∃ g, g ∈ m_finalizers (as_meta a) ∧ g ≠ FinalizerName)
  | None => True
  end.

Lemma finalizer_removed a a' w :
  is_deleting (as_meta a) = true →
  spec_write a (as_set_finalizers a (RemoveFinalizer (m_finalizers (as_meta a)) FinalizerName)) a' →
  released a (stored a a' w).
Proof.
  intros Hd ((_ & Hdel) & Hf & _). unfold released, stored, survives. simpl.
  unfold is_deleting in *. rewrite Hdel, Hd. simpl in Hf. rewrite Hf.
  case_bool_decide as Hn; simpl; [done|]. split.
  - rewrite Hf, RemoveFinalizer_spec. by intros [].
  - destruct (RemoveFinalizer (m_finalizers (as_meta a)) FinalizerName) as [|g fs] eqn:Hr; [done|].
    assert (Hg : g ∈ RemoveFinalizer (m_finalizers (as_meta a)) FinalizerName) by (rewrite Hr; set_solver).
    apply RemoveFinalizer_spec in Hg as [? ?]. by exists g.
Qed.

Lemma handleDeletion_healthy a s w :
  w_object w = Some a → is_deleting (as_meta a) = true →
  FinalizerName ∈ m_finalizers (as_meta a) → held (ast_scaleSetID (as_status a)) w →
  (∀ id, ast_scaleSetID (as_status a) = Some id → credentials w a ∧ is_Some (w_sets w !! id)) →
  WP (handleDeletion a)
     (λ _ o _ w', o = Done (no_requeue, None) ∧ w_sets w' = ∅ ∧ released a w') s w.
Proof.
  intros Ho Hd Hf Hh Hid. unfold handleDeletion.
  rewrite ContainsFinalizer_spec, (bool_decide_eq_true_2 _ Hf). cbn [negb]. wp_bind.
  eapply (wp_mono _ _ _ _ (λ _ o _ w', o = Done None ∧ w_object w' = Some a ∧ w_sets w' = ∅)).
  2: { destruct (ast_scaleSetID (as_status a)) as [id|].
       - destruct (Hid id eq_refl) as [Hc Hs]. wp_bind.
         eapply wp_mono; [|by apply deleteScaleSetInGitHub_healthy].
         intros tr o s1 w1 [-> ->]. split; [done|]. split; [done|]. by apply held_delete.
       - split; [done|]. split; [done|]. by apply held_None. }
  intros tr o s1 w1 (-> & Ho1 & Hs1).
  wp_call w2 r w3 Hu Ha. subst w2. apply (write_healthy _ _ a) in Ha as (a' & -> & Hw & ->); [|done..].
  eapply wp_mono; [|apply (wp_and _ _ _ _ (λ _ _ _ w', w' = stored a a' w1) (λ _ o _ _, o = Done (no_requeue, None)));
    [apply wp_unnoticed; [no_batch_tac|always_tac ltac:(exact I)]|]].
  - intros tr2 o s2 w2 [-> Hd2]. split; [exact Hd2|]. split; [done|]. by apply finalizer_removed.
  - intros w4 u w5 <- _. intros w6 u' w7 _ _. done.
Qed.

Lemma Reconcile_deletes a s w :
  recorded w → w_object w = Some a → is_deleting (as_meta a) = true →
  FinalizerName ∈ m_finalizers (as_meta a) →
  (∀ id, ast_scaleSetID (as_status a) = Some id → credentials w a ∧ is_Some (w_sets w !! id)) →
  WP (Reconcile key) (λ _ o _ w', o = Done (no_requeue, None) ∧ w_sets w' = ∅ ∧ released a w') s w.
Proof.
  intros Hr Ho Hd Hf Hid. apply Reconcile_healthy. unfold reconcile_body.
  wp_call w1 got w2 Hu Ha. subst w1. apply (get_healthy _ _ _ _ Ho) in Ha as (-> & -> & Hk).
  rewrite Hd. apply handleDeletion_healthy; try done. by apply recorded_held.
Qed.

(** **** Registration *)

(** The runner group the specification names. *)
Definition group_known (w : World) (a : AutoscaleSet) : Prop :=
  as_runnerGroup (as_spec a) = DefaultRunnerGroup ∨ is_Some (w_groups w !! as_runnerGroup (as_spec a)).

Lemma getRunnerGroupID_healthy a c s w :
  group_known w a →
  WP (getRunnerGroupID c (as_runnerGroup (as_spec a)))
     (λ _ o _ w', w' = w ∧ ∃ gid, o = Done (Ok gid)) s w.
Proof.
  intros Hg. unfold getRunnerGroupID. case_bool_decide as Hd; [by split; [|eexists]|].
  destruct Hg as [|[g Hg]]; [done|]. wp_call w1 r w2 Hu Ha. subst w1.
  unfold answers, github in Ha. destruct r as [rg [e|]]; cbn [fst snd] in Ha.
  - destruct Ha as [[_ [[]|Ha]]|[[] _]]. congruence.
  - destruct Ha as (v & -> & -> & _). by split; [|eexists].
Qed.

(** The object as the controller leaves it after a registration. *)
Definition registered_as (a : AutoscaleSet) (ss : RunnerScaleSet) (w : World) : Prop :=
  w_sets w = {[ss_id ss := ss]} ∧
  ∃ a', w_object w = Some a' ∧ as_key a' = as_key a ∧ as_spec a' = as_spec a ∧
    is_deleting (as_meta a') = is_deleting (as_meta a) ∧
    FinalizerName ∈ m_finalizers (as_meta a') ∧
    ast_scaleSetID (as_status a') = Some (ss_id ss) ∧
    ast_phase (as_status a') = PhaseActive ∧
    IsStatusConditionTrue (ast_conditions (as_status a')) "Ready" = true.

Lemma status_registers a ss a' w :
  FinalizerName ∈ m_finalizers (as_meta a) → w_sets w = {[ss_id ss := ss]} →
  status_write a (setCreateScaleSetStatus a ss) a' → registered_as a ss (stored a a' w).
Proof.
  intros Hf Hs ((Hk & Hdel) & Hfin & Hspec & Hst & _). split; [done|]. exists a'. unfold stored. simpl.
  rewrite finalized_survives by (by rewrite Hfin). split; [done|]. split; [done|]. split; [done|].
  split; [unfold is_deleting; by rewrite Hdel|]. split; [by rewrite Hfin|].
  rewrite Hst. simpl. split; [done|]. split; [done|].
  rewrite IsStatusConditionTrue_find, SetStatusCondition_find. reflexivity.
Qed.

Lemma createScaleSet_healthy a c gid s w :
  as_key a = key → w_object w = Some a → w_sets w = ∅ → FinalizerName ∈ m_finalizers (as_meta a) →
  WP (createScaleSet a c gid)
     (λ _ o _ w', o = Done (no_requeue, None) ∧ ∃ ss, registered_as a ss w') s w.
Proof.
  intros Hk Ho Hs Hf. unfold createScaleSet, createScaleSetInGitHub. wp_bind. wp_bind. eapply wp_mono.
  2: { apply (retry_healthy _ _ (λ r w', ∃ ss, r.1 = Some ss ∧ w' = with_sets {[ss_id ss := ss]} w)).
       intros [v e] w' Ha. unfold answers, github in Ha. cbn [fst snd] in *.
       destruct e as [e|]; [by destruct Ha as [[_ [[]|[]]]|[[] _]]|]. split; [done|].
       destruct Ha as (ss & -> & _ & ->). exists ss. by rewrite Hs. }
  intros tr o s1 w1 ([v e] & -> & ss & Hv & ->). cbn [fst] in Hv. subst v. wp_ret. rewrite Hk.
  wp_call w2 got w3 Hu Ha. subst w2. apply (get_healthy _ a) in Ha as (-> & -> & _); [|done].
  cbn [captured fst].
  wp_call w4 r w5 Hu Ha. subst w4. apply (write_healthy _ _ a) in Ha as (a' & -> & Hw & ->); [|done..].
  eapply wp_mono; [|apply (wp_and _ _ _ _ (λ _ _ _ w', w' = stored a a' (with_sets {[ss_id ss := ss]} w))
                             (λ _ o _ _, o = Done (no_requeue, None)))].
  - intros tr2 o s2 w2 [-> Hd]. split; [exact Hd|]. exists ss. by apply status_registers.
  - apply wp_unnoticed; [no_batch_tac|always_tac ltac:(exact I)].
  - intros w4 u w5 <- _. intros w6 u' w7 _ _. intros w8 u2 w9 _ _. done.
Qed.

(** What a registration needs to find. *)
Record registrable (a : AutoscaleSet) (w : World) : Prop := mkRegistrable {
  rg_object : w_object w = Some a;
  rg_sets : w_sets w = ∅;
  rg_alive : is_deleting (as_meta a) = false;
  rg_finalizer : FinalizerName ∈ m_finalizers (as_meta a);
  rg_id : ast_scaleSetID (as_status a) = None;
  rg_credentials : credentials w a;
  rg_group : group_known w a
}.

Lemma Reconcile_registers a s w :
  registrable a w →
  WP (Reconcile key)
     (λ _ o _ w', o = Done (no_requeue, None) ∧ ∃ ss, registered_as a ss w') s w.
Proof.
  intros [Ho Hs Hd Hf Hid Hc Hg]. apply Reconcile_healthy. unfold reconcile_body.
  wp_call w1 got w2 Hu Ha. subst w1. apply (get_healthy _ _ _ _ Ho) in Ha as (-> & -> & Hk).
  rewrite Hd. unfold ensureFinalizer. rewrite ContainsFinalizer_spec, (bool_decide_eq_true_2 _ Hf).
  wp_bind. wp_ret. unfold reconcileActive. wp_bind.
  eapply wp_mono; [|by apply CreateClient_healthy]. intros tr o s1 w1 (-> & c & ->).
  wp_bind. eapply wp_mono; [|by apply getRunnerGroupID_healthy]. intros tr2 o s2 w1 (-> & gid & ->).
  rewrite Hid. by apply createScaleSet_healthy.
Qed.

(** **** The finalizer *)

(** What the round that adds the finalizer leaves: the object with it, and one
    notification, of an update that kept the generation. *)
Definition finalized_from (a : AutoscaleSet) (w w' : World) : Prop :=
  ∃ a', w' = stored a a' w ∧ survives (as_meta a') = true ∧
    FinalizerName ∈ m_finalizers (as_meta a') ∧ is_deleting (as_meta a') = false ∧
    as_key a' = as_key a ∧ as_spec a' = as_spec a ∧ as_status a' = as_status a ∧
    generation a' = generation a.

Lemma finalized_registrable a w w' :
  w_sets w = ∅ → ast_scaleSetID (as_status a) = None → credentials w a → group_known w a →
  finalized_from a w w' →
  ∃ a', registrable a' w' ∧ as_key a' = as_key a ∧ as_spec a' = as_spec a.
Proof.
  intros Hs Hid Hc Hg (a' & -> & Hsv & Hf & Hd & Hk & Hspec & Hst & _).
  assert (Hns : as_ns a' = as_ns a) by (by injection Hk).
  exists a'. split; [|done]. split; try done.
  - unfold stored. simpl. by rewrite Hsv.
  - by rewrite Hst.
  - unfold credentials. by rewrite Hspec, Hns.
  - unfold group_known. by rewrite Hspec.
Qed.

Lemma Reconcile_finalizes a s w :
  w_object w = Some a → is_deleting (as_meta a) = false → FinalizerName ∉ m_finalizers (as_meta a) →
  WP (Reconcile key) (λ _ o _ w', o = Done (no_requeue, None) ∧ finalized_from a w w') s w.
Proof.
  intros Ho Hd Hf. apply Reconcile_healthy. unfold reconcile_body.
  wp_call w1 got w2 Hu Ha. subst w1. apply (get_healthy _ _ _ _ Ho) in Ha as (-> & -> & Hk).
  rewrite Hd. unfold ensureFinalizer. rewrite ContainsFinalizer_spec, (bool_decide_eq_false_2 _ Hf).
  wp_bind. wp_call w3 r w4 Hu Ha. subst w3.
  apply (write_healthy _ _ a) in Ha as (a' & -> & Hw & ->); [|done..]. split; [done|].
  destruct Hw as ((Hkey & Hdel) & Hfin & Hspec & Hst & Hgen).
  assert (Hf' : FinalizerName ∈ m_finalizers (as_meta a')).
  { rewrite Hfin. simpl. apply AddFinalizer_spec. by left. }
  exists a'. split_and!; try done; [by apply finalized_survives| |by apply Hgen].
  unfold is_deleting in *. by rewrite Hdel.
Qed.
End Healthy.

(** ** Rounds *)
Section Rounds.
Context {S : Type} `{HasCache S, HasManager S, MapRange, UnicodeTables, ControllerLib, !ControllerLaws}.
Context `{ListenerLib, WatchLaws}.
Context (rely : S → S → Prop) (key : NamespacedName).

(** One reconciliation, with its outcome, on systems that answer. *)
Definition round (x : S * World) (o : outcome Reconciled) (y : S * World) : Prop :=
  ∃ tr, exec rely (Reconcile key) x.1 tr o y.1 ∧ wrun eq (answers calm key) x.2 tr y.2.

Lemma round_wp (Q : outcome Reconciled → World → Prop) x o y :
  wp rely eq (answers calm key) (Reconcile key) (λ _ o _ w', Q o w') x.1 x.2 → round x o y → Q o y.2.
Proof. intros Hwp (tr & Hx & Hw). exact (wp_sound _ _ _ _ _ _ _ _ _ _ _ Hwp Hx Hw). Qed.

(** C19. A new object is not registered by itself.  Its first reconciliation adds
    the finalizer, ends without an error and asks for no other; the notification
    its write causes keeps the generation, so the event filters of both
    controllers drop it.  With users idle nothing calls the reconciler again, and
    GitHub has no scale set. *)
Theorem new_set_stalls a x o y :
  w_object x.2 = Some a → is_deleting (as_meta a) = false → FinalizerName ∉ m_finalizers (as_meta a) →
  round x o y →
  o = Done (no_requeue, None) ∧ w_sets y.2 = w_sets x.2 ∧
  ∃ e, w_notes y.2 = w_notes x.2 ++ [e] ∧
    own_event (AutoscaleSetRegistration (S := S)) e = false ∧
    ∀ f w, w ∈ ct_watches (RunnerSetRegistration (S := S) f) →
      watch_event (RunnerSetRegistration f) w e = false.
Proof.
  intros Ho Hd Hf Hr.
  destruct (round_wp _ _ _ _ (Reconcile_finalizes rely key a x.1 x.2 Ho Hd Hf) Hr)
    as [-> (a' & Hy & Hsv & _ & _ & _ & _ & _ & Hgen)].
  rewrite Hy. unfold stored. rewrite Hsv. split; [done|]. split; [done|].
  exists (UpdateEvent (as_meta a) (as_meta a')). split; [done|].
  assert (Hsame : same_generation (UpdateEvent (as_meta a) (as_meta a')) = true)
    by by apply bool_decide_eq_true_2.
  split; [by rewrite own_event_autoscaleset, Hsame|].
  intros f w Hw. rewrite (watch_event_registered f) by auto. by rewrite Hsame.
Qed.

(** Once something does call it again, the second reconciliation registers the
    object: GitHub has exactly one scale set, the status names it, the phase is
    Active, the Ready condition is true, the finalizer is there, and the
    specification is the one the user wrote. *)
Theorem registration_completes a x o1 y o2 z :
  w_object x.2 = Some a → w_sets x.2 = ∅ →
  is_deleting (as_meta a) = false → FinalizerName ∉ m_finalizers (as_meta a) →
  ast_scaleSetID (as_status a) = None → credentials x.2 a → group_known x.2 a →
  round x o1 y → round y o2 z →
  o1 = Done (no_requeue, None) ∧ o2 = Done (no_requeue, None) ∧ ∃ ss, registered_as a ss z.2.
Proof.
  intros Ho Hs Hd Hf Hid Hc Hg Hr1 Hr2.
  destruct (round_wp _ _ _ _ (Reconcile_finalizes rely key a x.1 x.2 Ho Hd Hf) Hr1)
    as [-> Hy].
  destruct (finalized_registrable a x.2 y.2 Hs Hid Hc Hg Hy) as (a' & Hreg & Hk & Hspec).
  pose proof (rg_alive _ _ Hreg) as Hd'.
  destruct (round_wp _ _ _ _ (Reconcile_registers rely key a' y.1 y.2 Hreg) Hr2)
    as [-> (ss & Hz & az & Haz & Hkz & Hspz & Hdz & Hrest)].
  split; [done|]. split; [done|]. exists ss. split; [done|]. exists az.
  by rewrite Hkz, Hspz, Hdz, Hd, Hd', Hk, Hspec.
Qed.

(** C4. Deletion takes one reconciliation, when GitHub still has the scale set the
    status names and the credentials can be read: GitHub has no scale set left,
    and the object is gone, or waits for the finalizers of others only. *)
Theorem deletion_completes a x o y :
  recorded x.2 → w_object x.2 = Some a → is_deleting (as_meta a) = true →
  FinalizerName ∈ m_finalizers (as_meta a) →
  (∀ id, ast_scaleSetID (as_status a) = Some id → credentials x.2 a ∧ is_Some (w_sets x.2 !! id)) →
  round x o y →
  o = Done (no_requeue, None) ∧ w_sets y.2 = ∅ ∧ released a y.2.
Proof.
  intros Hr Ho Hd Hf Hid Hr1.
  exact (round_wp _ _ _ _ (Reconcile_deletes rely key a x.1 x.2 Hr Ho Hd Hf Hid) Hr1).
Qed.
End Rounds.

(** ** Concrete rounds *)

#[local] Existing Instance map_range_default.
#[local] Existing Instance ascii_tables.
#[local] Existing Instance controller_lib.
#[local] Existing Instance controller_laws.
#[local] Existing Instance watch_lib.
#[local] Existing Instance watch_laws.
#[local] Instance any_listener : ListenerLib := {| listener_New := λ _ _, None |}.

Definition memory : Memory := mkMemory NewCache NewManager.

Definition next_round (x : Memory * World) : outcome Reconciled * (Memory * World) :=
  let y := run_world undisturbed respond (Reconcile set_key) x.1 x.2 in (y.1.1.2, (y.1.2, y.2)).

Lemma next_round_ok x :
  at_key set_key x.2 →
  round eq set_key x (next_round x).1 (next_round x).2 ∧ at_key set_key (next_round x).2.2.
Proof.
  intros Hk.
  destruct (run_world_ok eq (answers calm set_key) undisturbed respond (at_key set_key)
    (λ R c w H, conj eq_refl H) (λ w R c, respond_ok calm set_key w R c)
    (Reconcile set_key) x.1 x.2 (no_batch_Reconcile set_key) Hk) as (Hx & Hw & Hk').
  split; [|exact Hk']. eexists. split; [exact Hx|exact Hw].
Qed.

Lemma new_set_stalls_witness :
  let x := (memory, created_world) in
  let y := next_round x in
  w_sets y.2.2 = w_sets x.2 ∧ length (w_notes y.2.2) = 2 ∧ y.1 = Done (no_requeue, None).
Proof.
  intros x y. destruct (next_round_ok x created_world_at_key) as [Hr _].
  destruct (new_set_stalls eq set_key new_set x y.1 y.2 eq_refl eq_refl ltac:(vm_compute; set_solver) Hr)
    as (Ho & Hs & _).
  split; [exact Hs|]. split; [vm_compute; reflexivity|exact Ho].
Defined.

Lemma registration_completes_witness :
  let x := (memory, created_world) in
  let y := next_round x in
  let z := next_round y.2 in
  z.1 = Done (no_requeue, None) ∧ ∃ ss, registered_as new_set ss z.2.2.
Proof.
  intros x y z. destruct (next_round_ok x created_world_at_key) as [Hr1 Hk].
  destruct (next_round_ok y.2 Hk) as [Hr2 _].
  assert (Hc : credentials created_world new_set).
  { exists (mkSecret emptyMeta token_secret), "ghp". split; vm_compute; reflexivity. }
  change (round eq set_key x y.1 y.2) in Hr1. change (round eq set_key y.2 z.1 z.2) in Hr2.
  clearbody z. clearbody y.
  destruct (registration_completes eq set_key new_set x y.1 y.2 z.1 z.2 eq_refl eq_refl eq_refl
    ltac:(vm_compute; set_solver) eq_refl Hc (or_introl eq_refl) Hr1 Hr2) as (_ & Ho & Hss).
  exact (conj Ho Hss).
Defined.

(** An object registered as scale set 42 whose deletion was asked for. *)
Definition deleting_world : World :=
  mkWorld (Some (finalized pat_set (Some 42%Z) (Some 9%Z))) {[42%Z := mkScaleSet 42 "set" 1 None true None]}
    (w_secrets empty_world) ∅ ∅ [] [].

Lemma deletion_completes_witness :
  let x := (memory, deleting_world) in
  let y := next_round x in
  w_sets y.2.2 = ∅ ∧ w_object y.2.2 = None.
Proof.
  intros x y. destruct (next_round_ok x ltac:(by apply at_key_initial)) as [Hr _].
  assert (Hrec : recorded deleting_world).
  { intros id [ss Hss]. cbn [w_sets deleting_world] in Hss. apply lookup_singleton_Some in Hss as [<- _]. eexists. split; [reflexivity|].
    split; [reflexivity|]. by apply list_elem_of_singleton. }
  destruct (deletion_completes eq set_key (finalized pat_set (Some 42%Z) (Some 9%Z)) x y.1 y.2
    Hrec eq_refl eq_refl ltac:(by apply list_elem_of_singleton)) as (_ & Hs & _); [|exact Hr|].
  { intros id [= <-]. split; [|by eexists].
    exists (mkSecret emptyMeta token_secret), "ghp". split; vm_compute; reflexivity. }
  split; [exact Hs|vm_compute; reflexivity].
Defined.
