(* ===== verification/RunnerRounds.v ===== *)
(** * RunnerRounds: RunnerSets on systems that answer

    What reconciling a RunnerSet leaves behind, in the systems of Contract and
    in the listener manager, when no call fails, the reads are current and no
    other goroutine touches the memory; and the way from the two objects a user creates to a running
    listener. *)

From S2P Require Export Rounds.

Section Runner.
Context {S : Type} `{HasCache S, HasManager S, !SeparateMemory S, MapRange, UnicodeTables}.
Context `{ControllerLib, !ControllerLaws, ListenerLib}.
Context (key : NamespacedName).

#[local] Notation "'WP'" := (wp eq eq (answers calm key)) (at level 0).

(** The memory keeps its manager. *)
Definition same_manager (s s' : S) : Prop := manager_of s' = manager_of s.

#[local] Instance same_manager_preorder : PreOrder same_manager.
Proof. split; [done|]. intros s1 s2 s3 H12 H23. unfold same_manager in *. congruence. Qed.

Lemma eq_same_manager (s s' : S) : s = s' → same_manager s s'.
Proof. by intros ->. Qed.

(** Programs that return, having only read the clock, logged events and
    counted. *)
Definition silent {A} (p : prog S A) : Prop :=
  ∀ s w, WP p (λ _ o s' w', s' = s ∧ w' = w ∧ ∃ a, o = Done a) s w.

Lemma silent_ret {A} (a : A) : silent (Ret a).
Proof. intros s w. by split_and!; [..|eexists]. Qed.

Lemma silent_call {R} (c : Call R) : unnoticed R c → silent (call c).
Proof.
  intros Hc s w w1 r w2 <- Ha. split; [done|]. split; [|by eexists]. by destruct c; cbn in Ha.
Qed.

(** Running a silent program first changes nothing but the trace. *)
Lemma wp_silent {A B} (p : prog S A) (f : A → prog S B) (Q : outcome B → S → World → Prop) s w :
  silent p → (∀ a, WP (f a) (λ _, Q) s w) → WP (prog_bind p f) (λ _, Q) s w.
Proof.
  intros Hp Hf. apply wp_bind. eapply wp_mono; [|apply Hp]. intros tr o s1 w1 (-> & -> & a & ->). apply Hf.
Qed.

Lemma silent_bind {A B} (p : prog S A) (f : A → prog S B) :
  silent p → (∀ a, silent (f a)) → silent (prog_bind p f).
Proof. intros Hp Hf s w. apply wp_silent; [done|]. intros a. apply Hf. Qed.

Lemma silent_for_each {X} (xs : list X) (body : X → prog S unit) :
  (∀ x, silent (body x)) → silent (for_each xs body).
Proof.
  intros Hb. induction xs as [|x xs IH]; [apply silent_ret|]. apply silent_bind; [apply Hb|by intros _].
Qed.

Lemma CreateClient_runner a sub s w :
  credentials w a →
  WP (CreateClientForAutoscaleSet a sub)
     (λ _ o s' w', (w' = w ∧ ∃ c, o = Done (Ok c)) ∧ same_manager s s') s w.
Proof.
  intros Hc. apply wp_and; [by apply CreateClient_healthy|]. apply (wp_preserves _ _ _ same_manager);
    [exact eq_same_manager|apply no_batch_CreateClientForAutoscaleSet|].
  apply preserves_CreateClientForAutoscaleSet; [done|]. intros c s0. apply manager_of_with_cache.
Qed.

(** Reading and writing a RunnerSet. *)
Lemma rs_get_healthy w r k got w' :
  w_runners w !! k = Some r → answers calm key w _ (K8sGetRunnerSet k) got w' →
  w' = w ∧ got = Ok r ∧ rs_key r = k.
Proof.
  intros Hr [-> Hg]. split; [done|]. destruct got as [r'|e].
  - destruct Hg as [Hk [Hr'|[]]]. split; congruence.
  - destruct Hg as [[]|[_ [Hn|[]]]]. congruence.
Qed.

Lemma rs_write_healthy write w r b res w' :
  w_runners w !! rs_key b = Some r → m_resourceVersion (rs_meta b) = m_resourceVersion (rs_meta r) →
  rs_writes calm write w b res w' →
  ∃ r', res = Ok r' ∧ write r b r' ∧ w' = rs_stored (rs_key b) r' w.
Proof.
  intros Hr Hv Hw. destruct res as [r'|e].
  - destruct Hw as (old & Hr' & _ & Hwr & ->). assert (old = r) as -> by congruence. by exists r'.
  - destruct Hw as [[_ [[]|Hw]]|[[] _]]. by destruct (Hw r Hr).
Qed.

(** A RunnerSet with the finalizer, or that is not being deleted, stays. *)
Lemma alive_survives r : is_deleting (rs_meta r) = false → survives (rs_meta r) = true.
Proof. unfold survives. by intros ->. Qed.

(** *** Status *)

Definition rs_ready (r : RunnerSet) : Prop :=
  IsStatusConditionTrue (rst_conditions (rs_status r)) "Ready" = true.

(** What a status update leaves of the RunnerSet [r]. *)
Definition status_refreshed (r r' : RunnerSet) : Prop :=
  rs_key r' = rs_key r ∧ m_deletionTimestamp (rs_meta r') = m_deletionTimestamp (rs_meta r) ∧
  m_finalizers (rs_meta r') = m_finalizers (rs_meta r) ∧
  m_annotations (rs_meta r') = m_annotations (rs_meta r) ∧
  rs_spec r' = rs_spec r ∧ rs_ready r'.

Ltac silent_step :=
  match goal with
  | |- silent (Ret _) => apply silent_ret
  | |- silent (call _) => apply silent_call; exact I
  | |- silent (metric _ _ _) => apply silent_call; exact I
  | |- silent (for_each _ _) => apply silent_for_each; intros ?
  | |- silent (@mbind _ _ _ _ ?f ?p) => refine (silent_bind p f _ _); [|intros ?]
  | |- silent (prog_bind ?p ?f) => refine (silent_bind p f _ _); [|intros ?]
  | |- silent (match ?x with _ => _ end) => destruct x
  end.

Lemma silent_status_loop now ns asn g pods sm : silent (status_loop now ns asn g pods sm).
Proof.
  revert sm. induction pods as [|pod pods IH]; intros sm; cbn [status_loop]; [apply silent_ret|].
  refine (silent_bind _ _ _ _); [unfold observe_age; repeat silent_step|]. intros []. apply IH.
Qed.

Lemma silent_computeRunnerStatusFromPods pods ns asn g :
  silent (computeRunnerStatusFromPods pods ns asn g).
Proof. unfold computeRunnerStatusFromPods. silent_step; [silent_step|apply silent_status_loop]. Qed.

Lemma silent_recordRunnerSetMetrics sm ns asn g : silent (recordRunnerSetMetrics sm ns asn g).
Proof. unfold recordRunnerSetMetrics. repeat silent_step. Qed.

(** The world after the RunnerSet under its name became [r']. *)
Definition runner_at (r r' : RunnerSet) (w : World) : World :=
  with_runners (<[rs_key r := r']> (w_runners w)) w.

Lemma status_write_refreshes r b r' w :
  is_deleting (rs_meta r) = false → IsStatusConditionTrue (rst_conditions (rs_status b)) "Ready" = true →
  rs_status_write r b r' → rs_stored (rs_key r) r' w = runner_at r r' w ∧ status_refreshed r r'.
Proof.
  intros Hd Hb ((Hk & Hdel) & Hf & Ha & Hs & Hst). split.
  - unfold rs_stored. rewrite alive_survives; [done|]. unfold is_deleting in *. by rewrite Hdel.
  - unfold status_refreshed, rs_ready. rewrite Hst. by split_and!.
Qed.

Lemma set_runner_status_ready r n sm : rs_ready (set_runner_status r n sm).
Proof. unfold rs_ready. simpl. by rewrite IsStatusConditionTrue_find, SetStatusCondition_find. Qed.

(** A status update, of a copy [b] of the RunnerSet [r]. *)
Lemma updateStatus_healthy b r (s : S) w :
  w_runners w !! rs_key r = Some r → rs_key b = rs_key r → is_deleting (rs_meta r) = false →
  WP (updateStatus b)
     (λ _ o s' w', o = Done (requeue_after RequeueActiveInterval, None) ∧ s' = s ∧
        ∃ r', w' = runner_at r r' w ∧ status_refreshed r r') s w.
Proof.
  intros Hr Hk Hd. unfold updateStatus, rs_getRunnerPods.
  wp_call w1 pods w2 Hu Ha. subst w1. destruct Ha as [-> Ha].
  destruct pods as [pods|e]; [|by destruct (Ha eq_refl)].
  apply wp_silent; [apply silent_computeRunnerStatusFromPods|]. intros sm.
  wp_call w1 got w2 Hu Ha'. subst w1. rewrite Hk in Ha'.
  apply (rs_get_healthy _ r) in Ha' as (-> & -> & _); [|done].
  wp_call w1 up w2 Hu Hw. subst w1.
  apply (rs_write_healthy _ _ r) in Hw as (r' & -> & Hw & ->); [|done..].
  destruct (status_write_refreshes r _ r' w Hd (set_runner_status_ready _ _ _) Hw) as [Hst Hrf].
  change (rs_key (set_runner_status r _ sm)) with (rs_key r). rewrite Hst.
  apply wp_silent; [apply silent_recordRunnerSetMetrics|]. intros [].
  rewrite (proj2 (proj2 (proj2 (proj2 (proj2 Hrf))))), orb_true_r. wp_ret.
  split; [done|]. split; [done|]. by exists r'.
Qed.

(** *** Starting a listener *)

(** What a round of startListener leaves of the RunnerSet [r] of [a]. *)
Definition annotated (a : AutoscaleSet) (r r' : RunnerSet) : Prop :=
  rs_key r' = rs_key r ∧ m_deletionTimestamp (rs_meta r') = m_deletionTimestamp (rs_meta r) ∧
  m_finalizers (rs_meta r') = m_finalizers (rs_meta r) ∧ rs_spec r' = rs_spec r ∧
  map_get (m_annotations (rs_meta r')) AnnotationPodSpecHash = pod_spec_hash a r ∧
  m_annotations (rs_meta r') ≠ None.

Lemma annotation_write a r r' :
  rs_spec_write r (set_annotations r (pod_spec_hash a r) (m_generation (as_meta a))) r' →
  annotated a r r'.
Proof.
  intros ((Hk & Hdel) & Hf & Ha & Hs & _). split_and!; try done.
  - rewrite Ha. apply map_get_set_annotations.
  - by rewrite Ha.
Qed.

(** A status update keeps the annotations. *)
Lemma refreshed_annotated a r r1 r2 : annotated a r r1 → status_refreshed r1 r2 → annotated a r r2.
Proof.
  unfold annotated. intros Han (-> & -> & -> & -> & -> & _). exact Han.
Qed.

Lemma createMessageSession_healthy r a c lk id s w :
  ast_scaleSetID (as_status a) = Some id →
  WP (createMessageSession r a c lk)
     (λ _ o s' w', s' = s ∧ w' = w ∧ ∃ session : SessionClient, o = Done (Some session, None, None)) s w.
Proof.
  intros Hid. unfold createMessageSession, deref_id. wp_call w1 host w2 Hu Ha. cbn in Ha. subst w1 w2.
  rewrite Hid. wp_call w1 session w2 Hu Ha. subst w1. destruct Ha as [-> Ha].
  destruct session as [session|e]; [|by destruct (Ha eq_refl)].
  wp_call w1 u w2 Hu Ha'. cbn in Ha'. subst w1 w2. wp_ret. split_and!; [done..|]. by exists session.
Qed.

Lemma StartListener_free lk session id max sc m :
  HasListener lk m = false → listener_New id max = None →
  ∃ m', StartListener lk session id max sc m = (None, m').
Proof.
  unfold HasListener. intros Hl Hn. eexists. apply StartListener_fresh; [|done].
  by destruct (listeners m !! lk).
Qed.

Lemma StartListener_running lk session id max sc m m' :
  StartListener lk session id max sc m = (None, m') → HasListener lk m' = true.
Proof.
  unfold HasListener, StartListener, NewRunnerGroupListener. destruct (listeners m !! lk); [done|].
  destruct (listener_New id max); [done|]. intros [= <-]. simpl. by rewrite lookup_insert_eq.
Qed.

Lemma startListener_healthy f r a id s w :
  w_runners w !! rs_key r = Some r → is_deleting (rs_meta r) = false →
  ast_scaleSetID (as_status a) = Some id → credentials w a →
  HasListener (listener_key a r) (manager_of s) = false →
  listener_New id (default DefaultMaxRunners (as_maxRunners (as_spec a))) = None →
  WP (startListener f r a (listener_key a r))
     (λ _ o s' w', o = Done (requeue_after RequeueActiveInterval, None) ∧
        (∃ c session, StartListener (listener_key a r) session id
           (default DefaultMaxRunners (as_maxRunners (as_spec a))) (listener_scaler f a r c id)
           (manager_of s) = (None, manager_of s')) ∧
        ∃ r', w' = runner_at r r' w ∧ annotated a r r' ∧ rs_ready r') s w.
Proof.
  intros Hr Hd Hid Hc Hfree Hnew. unfold startListener. wp_bind.
  eapply wp_mono; [|by apply CreateClient_runner]. intros tr o s1 w1 [(-> & c & ->) Hm].
  wp_bind. eapply wp_mono; [|by eapply createMessageSession_healthy].
  intros tr2 o s2 w1 (-> & -> & session & ->). unfold deref_id. rewrite Hid.
  unfold manager_StartListener. refine (wp_atomic_bind _ _ _ _ _ _ _ _ _). intros s2 <-.
  destruct (StartListener_free (listener_key a r) session id
    (default DefaultMaxRunners (as_maxRunners (as_spec a))) (listener_scaler f a r c id)
    (manager_of s)) as [m Hst]; [done|done|].
  rewrite Hm, Hst. cbn [fst snd]. wp_call w1 u w2 Hu Ha. cbn in Ha. subst w1 w2.
  unfold setRunnerSetListenerAnnotations. wp_bind. wp_call w1 got w2 Hu Ha. subst w1.
  apply (rs_get_healthy _ r) in Ha as (-> & -> & _); [|done].
  intros w1 up w2 <- Hw. apply (rs_write_healthy _ _ r) in Hw as (r' & -> & Hw & ->); [|done..].
  apply annotation_write in Hw as Han. pose proof Han as (Hk & Hdel & _).
  assert (Hd' : is_deleting (rs_meta r') = false) by (unfold is_deleting in *; by rewrite Hdel).
  change (rs_key (set_annotations r _ _)) with (rs_key r).
  unfold rs_stored. rewrite alive_survives by done.
  wp_ret. wp_call w1 u' w2 Hu Ha. cbn in Ha. subst w1 w2.
  eapply wp_mono; [|apply (updateStatus_healthy r' r'); [|done..]].
  2: { simpl. rewrite Hk. apply lookup_insert_eq. }
  intros tr3 o s3 w3 (-> & -> & r2 & -> & Hrf). split; [done|].
  rewrite manager_of_with. split; [by exists c, session|]. exists r2. split.
  - unfold runner_at, with_runners. simpl. rewrite Hk. f_equal. apply insert_insert_eq.
  - split; [|by apply Hrf]. by apply (refreshed_annotated a r r').
Qed.

(** *** What reconciling the AutoscaleSet leaves alone *)

Definition no_runner_write (R : Type) (c : Call R) : Prop :=
  match c with K8sUpdateRunnerSet _ | K8sStatusUpdateRunnerSet _ => False | _ => True end.

Lemma no_runner_write_factory R (c : Call R) : factory_call R c → no_runner_write R c.
Proof. by destruct c. Qed.

Lemma no_runner_write_Reconcile : always no_runner_write (Reconcile (S := S) key).
Proof.
  apply always_Reconcile; [done|apply no_runner_write_factory|done|].
  unfold_reconcile. cbn [for_each]. always_prog ltac:(exact I) ltac:(exact no_runner_write_factory).
Qed.

Lemma same_manager_Reconcile : preserves same_manager (Reconcile (S := S) key).
Proof.
  unfold Reconcile. refine (preserves_bind _ _ _ _ _); [intros ?; exact I|]. intros t0.
  apply preserves_deferred; unfold_reconcile; cbn [for_each];
    preserves_prog ltac:(first [done | intros; apply manager_of_with_cache]).
Qed.

(** The part of the world that other parties own. *)
Definition same_environment (w w' : World) : Prop :=
  w_secrets w' = w_secrets w ∧ w_groups w' = w_groups w ∧ w_runners w' = w_runners w.

#[export] Instance same_environment_preorder : PreOrder same_environment.
Proof. split; [done|]. unfold same_environment. intros w1 w2 w3 (?&?&?) (?&?&?). by split_and!; etrans. Qed.

Lemma Reconcile_frame s w :
  WP (Reconcile key) (λ _ _ s' w', same_manager s s' ∧ same_environment w w') s w.
Proof.
  apply wp_and.
  - apply (wp_preserves _ _ _ same_manager); [exact eq_same_manager|apply no_batch_Reconcile|].
    apply same_manager_Reconcile.
  - apply (wp_always _ _ _ no_runner_write (same_environment w));
      [by intros ? ? <-| |apply no_batch_Reconcile|apply no_runner_write_Reconcile|done].
    intros R c w0 r w1 Hc Ha Hs. transitivity w0; [exact Hs|]. clear w Hs.
    assert (Hw : ∀ write (b : AutoscaleSet) res, writes calm write w0 b res w1 → same_environment w0 w1).
    { intros write b [b'|e]; [by intros (old & _ & _ & _ & _ & ->)|by intros [[-> _]|[[] _]]]. }
    assert (Hg : ∀ A (ok : A → World → Prop) absent res, github calm ok absent w0 res w1 →
      (∀ v w', ok v w' → same_environment w0 w') → same_environment w0 w1).
    { intros A ok absent [v [e|]] Hok Hv; [by destruct Hok as [[-> _]|[[] _]]|].
      destruct Hok as (v' & _ & Hok). by apply (Hv v'). }
    destruct c; try done; cbn in Ha; try (by subst); try (by destruct Ha as [-> _]);
      try (by eapply Hw); try (eapply Hg; [exact Ha|cbn; by intros v w' [? ->] || by intros v w' [-> _]]).
    destruct r; [by destruct Ha as [[-> _]|[[] _]]|by subst].
Qed.

(** *** Reconciling a RunnerSet *)

Lemma rs_Reconcile_healthy f req (Q : outcome Reconciled → S → World → Prop) s w :
  WP (rs_reconcile_body f req) (λ _, Q) s w → WP (rs_Reconcile f req) (λ _, Q) s w.
Proof.
  intros Hb. unfold rs_Reconcile. apply wp_silent; [by apply silent_call|]. intros t0.
  apply wp_deferred. eapply wp_mono; [|exact Hb]. intros tr o s1 w1 HQ.
  unfold recordReconcileDuration, time_Since.
  apply wp_silent; [apply silent_bind; [by apply silent_call|]; intros; apply silent_ret|]. intros d.
  eapply wp_mono; [|by apply silent_call]. by intros tr2 o2 s2 w2 (-> & -> & a & ->).
Qed.

(** The round that adds the finalizer. *)
Definition rs_finalized (r r' : RunnerSet) : Prop :=
  rs_key r' = rs_key r ∧ m_deletionTimestamp (rs_meta r') = m_deletionTimestamp (rs_meta r) ∧
  RunnerSetFinalizerName ∈ m_finalizers (rs_meta r') ∧ rs_spec r' = rs_spec r.

Lemma rs_Reconcile_finalizes f r s w :
  w_runners w !! rs_key r = Some r → is_deleting (rs_meta r) = false →
  RunnerSetFinalizerName ∉ m_finalizers (rs_meta r) →
  WP (rs_Reconcile f (rs_key r))
     (λ _ o s' w', o = Done (no_requeue, None) ∧ s' = s ∧
        ∃ r', w' = runner_at r r' w ∧ rs_finalized r r') s w.
Proof.
  intros Hr Hd Hf. apply rs_Reconcile_healthy. unfold rs_reconcile_body.
  wp_call w1 got w2 Hu Ha. subst w1. apply (rs_get_healthy _ r) in Ha as (-> & -> & _); [|done].
  rewrite Hd, ContainsFinalizer_spec, (bool_decide_eq_false_2 _ Hf). cbn [negb].
  wp_call w1 up w2 Hu Hw. subst w1.
  apply (rs_write_healthy _ _ r) in Hw as (r' & -> & ((Hk & Hdel) & Hfin & _ & Hs & _) & ->); [|done..].
  split; [done|]. split; [done|]. exists r'. split.
  - unfold rs_stored. rewrite alive_survives; [done|]. unfold is_deleting in *. by rewrite Hdel.
  - split_and!; [done..| |done]. rewrite Hfin. simpl. apply AddFinalizer_spec. by left.
Qed.

(** A RunnerSet with its finalizer and the registered AutoscaleSet it names. *)
Record paired (r : RunnerSet) (a : AutoscaleSet) (id : Z) (w : World) : Prop := mkPaired {
  pr_object : w_object w = Some a;
  pr_runner : w_runners w !! rs_key r = Some r;
  pr_ref : autoscaleSet_key r = key;
  pr_alive : is_deleting (rs_meta r) = false;
  pr_finalizer : RunnerSetFinalizerName ∈ m_finalizers (rs_meta r);
  pr_parent : is_deleting (as_meta a) = false;
  pr_id : ast_scaleSetID (as_status a) = Some id
}.

(** Up to the test whether there is a listener. *)
Lemma rs_Reconcile_paired f r a id (Q : outcome Reconciled → S → World → Prop) s w :
  paired r a id w →
  WP (if HasListener (listener_key a r) (manager_of s)
      then reconcileExistingListener f r a (listener_key a r)
      else startListener f r a (listener_key a r)) (λ _, Q) s w →
  WP (rs_Reconcile f (rs_key r)) (λ _, Q) s w.
Proof.
  intros [Ho Hr Href Hd Hf Hp Hid] Hwp. apply rs_Reconcile_healthy. unfold rs_reconcile_body.
  wp_call w1 got w2 Hu Ha. subst w1. apply (rs_get_healthy _ r) in Ha as (-> & -> & _); [|done].
  rewrite Hd, ContainsFinalizer_spec, (bool_decide_eq_true_2 _ Hf). cbn [negb].
  unfold getAutoscaleSet. rewrite Href. wp_bind.
  wp_call w1 got w2 Hu Ha. subst w1. apply (get_healthy key _ a) in Ha as (-> & -> & _); [|done]. wp_ret.
  rewrite Hp, Hid. cbn. by intros s2 <-.
Qed.

(** With a listener whose pods need no rollout, the status is refreshed. *)
Lemma listener_kept_healthy f r a id s w :
  paired r a id w → HasListener (listener_key a r) (manager_of s) = true →
  map_get (m_annotations (rs_meta r)) AnnotationPodSpecHash = pod_spec_hash a r →
  m_annotations (rs_meta r) ≠ None →
  WP (rs_Reconcile f (rs_key r))
     (λ _ o s' w', o = Done (requeue_after RequeueActiveInterval, None) ∧ s' = s ∧
        ∃ r', w' = runner_at r r' w ∧ status_refreshed r r') s w.
Proof.
  intros Hp Hl Hh Hn. apply (rs_Reconcile_paired f r a id); [done|]. rewrite Hl.
  unfold reconcileExistingListener. rewrite Hh, bool_decide_eq_false_2, (bool_decide_eq_false_2 (_ ≠ _)) by naive_solver.
  cbn [orb negb]. apply updateStatus_healthy; by destruct Hp.
Qed.

Lemma annotated_paired r a id r' w :
  paired r a id w → annotated a r r' → paired r' a id (runner_at r r' w).
Proof.
  intros [Ho Hr Href Hd Hf Hp Hid] (Hk & Hdel & Hfin & Hs & _). split; try done.
  - simpl. rewrite Hk. apply lookup_insert_eq.
  - unfold autoscaleSet_key, rs_ref, rs_ns in *. rewrite Hs. by injection Hk as -> _.
  - unfold is_deleting in *. by rewrite Hdel.
  - by rewrite Hfin.
Qed.
End Runner.

(** ** Rounds *)
Section RunnerRounds.
Context {S : Type} `{HasCache S, HasManager S, !SeparateMemory S, MapRange, UnicodeTables}.
Context `{ControllerLib, !ControllerLaws, ListenerLib}.
Context (f : ClientFactory) (key : NamespacedName).

(** One reconciliation of the RunnerSet [k]. *)
Definition rs_round (k : NamespacedName) (x : S * World) (o : outcome Reconciled) (y : S * World) : Prop :=
  ∃ tr, exec_seq (rs_Reconcile f k) x.1 tr o y.1 ∧ wrun eq (answers calm key) x.2 tr y.2.

Lemma rs_round_wp (Q : outcome Reconciled → S → World → Prop) k x o y :
  wp eq eq (answers calm key) (rs_Reconcile f k) (λ _, Q) x.1 x.2 → rs_round k x o y → Q o y.1 y.2.
Proof. intros Hwp (tr & Hx & Hw). exact (wp_sound _ _ _ _ _ _ _ _ _ _ _ Hwp Hx Hw). Qed.

(** C3. The first reconciliation of a RunnerSet whose AutoscaleSet is registered
    starts its listener, for the scale set in the status and with the scaler
    [described] by the two objects (limits, merged templates, image, owner,
    namespace, group, rate limiter and window), records the hash of the pod
    specification and reports Ready; the second leaves the listener alone, and
    so the manager. *)
Theorem listener_starts r a id x o1 y o2 z :
  paired key r a id x.2 → credentials x.2 a →
  HasListener (listener_key a r) (manager_of x.1) = false →
  listener_New id (default DefaultMaxRunners (as_maxRunners (as_spec a))) = None →
  rs_round (rs_key r) x o1 y → rs_round (rs_key r) y o2 z →
  o1 = Done (requeue_after RequeueActiveInterval, None) ∧ o2 = o1 ∧
  (∃ c session sc, described f a r c id sc ∧
     StartListener (listener_key a r) session id (default 10%Z (as_maxRunners (as_spec a))) sc
       (manager_of x.1) = (None, manager_of y.1)) ∧
  manager_of z.1 = manager_of y.1 ∧
  ∃ r', z.2 = runner_at r r' x.2 ∧ annotated a r r' ∧ rs_ready r'.
Proof.
  intros Hp Hc Hfree Hnew Hr1 Hr2.
  pose proof Hp as [_ Hr _ Hd _ _ Hid].
  destruct (rs_round_wp _ _ _ _ _ (rs_Reconcile_paired key f r a id _ x.1 x.2 Hp
    ltac:(rewrite Hfree; exact (startListener_healthy key f r a id x.1 x.2 Hr Hd Hid Hc Hfree Hnew))) Hr1)
    as (-> & (c & session & Hst) & r1 & Hy & Han & _).
  pose proof (annotated_paired key r a id r1 x.2 Hp Han) as Hp1. rewrite <- Hy in Hp1.
  pose proof Han as (Hk1 & _ & _ & Hs1 & Hh1 & Hn1).
  assert (Hlk : listener_key a r1 = listener_key a r) by (unfold listener_key, rs_group; by rewrite Hs1).
  assert (Hh : pod_spec_hash a r1 = pod_spec_hash a r) by (unfold pod_spec_hash; by rewrite Hs1).
  assert (Hl1 : HasListener (listener_key a r1) (manager_of y.1) = true).
  { rewrite Hlk. by apply StartListener_running in Hst. }
  rewrite <- Hk1 in Hr2.
  destruct (rs_round_wp _ _ _ _ _ (listener_kept_healthy key f r1 a id y.1 y.2 Hp1 Hl1
    ltac:(by rewrite Hh) Hn1) Hr2) as (-> & Hz & r2 & Hz2 & Hrf).
  split_and!; [done..| |by rewrite Hz|].
  { exists c, session, (listener_scaler f a r c id). split; [apply listener_scaler_described|exact Hst]. }
  exists r2. split.
  - rewrite Hz2, Hy. unfold runner_at, with_runners. simpl. rewrite Hk1. f_equal. apply insert_insert_eq.
  - split; [exact (refreshed_annotated a r r1 r2 Han Hrf)|apply Hrf].
Qed.

Lemma round_frame x o y :
  round eq key x o y → manager_of y.1 = manager_of x.1 ∧ same_environment x.2 y.2.
Proof.
  intros (tr & Hx & Hw). exact (wp_sound _ _ _ _ _ _ _ _ _ _ _ (Reconcile_frame key x.1 x.2) Hx Hw).
Qed.

(** A registered AutoscaleSet and a new RunnerSet: its second reconciliation
    starts the listener. *)
Lemma runner_rounds r a id x o1 y o2 z :
  w_object x.2 = Some a → is_deleting (as_meta a) = false → ast_scaleSetID (as_status a) = Some id →
  credentials x.2 a → w_runners x.2 !! rs_key r = Some r → autoscaleSet_key r = key →
  is_deleting (rs_meta r) = false → RunnerSetFinalizerName ∉ m_finalizers (rs_meta r) →
  HasListener (listener_key a r) (manager_of x.1) = false →
  listener_New id (default DefaultMaxRunners (as_maxRunners (as_spec a))) = None →
  rs_round (rs_key r) x o1 y → rs_round (rs_key r) y o2 z →
  w_sets z.2 = w_sets x.2 ∧ w_object z.2 = Some a ∧
  (∃ r', w_runners z.2 !! rs_key r = Some r' ∧ rs_spec r' = rs_spec r ∧ rs_ready r') ∧
  ∃ c session, StartListener (listener_key a r) session id
    (default DefaultMaxRunners (as_maxRunners (as_spec a))) (listener_scaler f a r c id)
    (manager_of x.1) = (None, manager_of z.1).
Proof.
  intros Ho Hp Hid Hc Hr Href Hd Hf Hfree Hnew Hr1 Hr2.
  destruct (rs_round_wp _ _ _ _ _ (rs_Reconcile_finalizes key f r x.1 x.2 Hr Hd Hf) Hr1)
    as (-> & Hy1 & r1 & Hy2 & Hk1 & Hdel1 & Hf1 & Hs1).
  assert (Hns : rs_ns r1 = rs_ns r) by (by injection Hk1).
  assert (Hp1 : paired key r1 a id y.2).
  { rewrite Hy2. split; try done.
    - simpl. rewrite Hk1. apply lookup_insert_eq.
    - unfold autoscaleSet_key, rs_ref in *. by rewrite Hs1, Hns.
    - unfold is_deleting in *. by rewrite Hdel1. }
  assert (Hlk : listener_key a r1 = listener_key a r) by (unfold listener_key, rs_group; by rewrite Hs1).
  assert (Hsc : ∀ c, listener_scaler f a r1 c id = listener_scaler f a r c id).
  { intros c. unfold listener_scaler, rs_group. by rewrite Hs1, Hns. }
  rewrite <- Hy1, <- Hlk in Hfree. rewrite <- Hk1 in Hr2.
  destruct (rs_round_wp _ _ _ _ _ (rs_Reconcile_paired key f r1 a id _ y.1 y.2 Hp1
    ltac:(rewrite Hfree; exact (startListener_healthy key f r1 a id y.1 y.2 (pr_runner _ _ _ _ _ Hp1)
            (pr_alive _ _ _ _ _ Hp1) Hid ltac:(by rewrite Hy2) Hfree Hnew))) Hr2)
    as (-> & (c & session & Hst) & r2 & Hz & (Hk2 & _ & _ & Hs2 & _) & Hready).
  rewrite Hz, Hy2. split; [done|]. split; [done|]. split.
  - exists r2. simpl. rewrite Hk1, lookup_insert_eq. by rewrite Hs2.
  - exists c, session. by rewrite <- Hsc, <- Hy1, <- Hlk.
Qed.

(** C2. From the two objects a user creates to a running listener, in four
    reconciliations, two of each controller: GitHub has one scale set, the
    AutoscaleSet names it, the RunnerSet is Ready, and the manager runs one
    listener more, with the scale set, the limits and the templates of the two
    objects. *)
Theorem bring_up a r x o1 x1 o2 x2 o3 x3 o4 x4 :
  w_object x.2 = Some a → as_key a = key → is_deleting (as_meta a) = false →
  FinalizerName ∉ m_finalizers (as_meta a) → ast_scaleSetID (as_status a) = None →
  w_sets x.2 = ∅ → credentials x.2 a → group_known x.2 a →
  w_runners x.2 !! rs_key r = Some r → autoscaleSet_key r = key → is_deleting (rs_meta r) = false →
  RunnerSetFinalizerName ∉ m_finalizers (rs_meta r) →
  HasListener (mkListenerKey key (rs_group r)) (manager_of x.1) = false →
  (∀ id, listener_New id (default DefaultMaxRunners (as_maxRunners (as_spec a))) = None) →
  round eq key x o1 x1 → round eq key x1 o2 x2 →
  rs_round (rs_key r) x2 o3 x3 → rs_round (rs_key r) x3 o4 x4 →
  ∃ ss a' r' c session,
    registered_as a ss x4.2 ∧ w_object x4.2 = Some a' ∧
    w_runners x4.2 !! rs_key r = Some r' ∧ rs_spec r' = rs_spec r ∧ rs_ready r' ∧
    described f a' r c (ss_id ss) (listener_scaler f a' r c (ss_id ss)) ∧
    StartListener (mkListenerKey key (rs_group r)) session (ss_id ss)
      (default DefaultMaxRunners (as_maxRunners (as_spec a))) (listener_scaler f a' r c (ss_id ss))
      (manager_of x.1) = (None, manager_of x4.1).
Proof.
  intros Ho Hk Hd Hf Hid Hs Hc Hg Hr Href Hdr Hfr Hfree Hnew Hr1 Hr2 Hr3 Hr4.
  destruct (round_frame _ _ _ Hr1) as [Hm1 He1], (round_frame _ _ _ Hr2) as [Hm2 He2].
  destruct (round_wp _ _ _ _ _ _ (Reconcile_finalizes eq key a x.1 x.2 Ho Hd Hf) Hr1) as [_ Hx1].
  destruct (finalized_registrable a _ _ Hs Hid Hc Hg Hx1) as (a1 & Hreg & Hk1 & Hs1).
  destruct (round_wp _ _ _ _ _ _ (Reconcile_registers eq key a1 x1.1 x1.2 Hreg) Hr2)
    as [_ (ss & Hss & a2 & Ho2 & Hk2 & Hs2 & Hd2 & Hf2 & Hid2 & Hrest)].
  destruct (transitivity He1 He2) as (Hse & _ & Hru). rewrite (rg_alive _ _ Hreg) in Hd2.
  rewrite Hk1 in Hk2. rewrite Hs1 in Hs2.
  assert (Hns : as_ns a2 = as_ns a) by (by injection Hk2).
  assert (Hlk : listener_key a2 r = mkListenerKey key (rs_group r)).
  { unfold listener_key. by rewrite <- Hk, <- Hk2. }
  rewrite <- Hru in Hr. rewrite <- Hm1, <- Hm2, <- Hlk in Hfree. rewrite <- Hs2 in Hnew.
  assert (Hc2 : credentials x2.2 a2) by (unfold credentials; by rewrite Hse, Hs2, Hns).
  destruct (runner_rounds r a2 (ss_id ss) _ _ _ _ _ Ho2 Hd2 Hid2 Hc2 Hr Href Hdr Hfr Hfree (Hnew _) Hr3 Hr4)
    as (Hsets & Hobj & (r' & Hr' & Hrs & Hready) & c & session & Hst).
  exists ss, a2, r', c, session. split; [split; [by rewrite Hsets|]; exists a2; by rewrite Hd2, Hd|].
  do 4 (split; [done|]). split; [apply listener_scaler_described|]. by rewrite <- Hm1, <- Hm2, <- Hlk, <- Hs2.
Qed.
End RunnerRounds.

(** ** Concrete rounds *)

#[local] Existing Instance map_range_default.
#[local] Existing Instance ascii_tables.
#[local] Existing Instance controller_lib.
#[local] Existing Instance controller_laws.
#[local] Existing Instance any_listener.

(** A RunnerSet as a user creates it for [new_set], and with its finalizer. *)
Definition new_runner : RunnerSet := rs_set_finalizers (sample_rs None) [].

Definition runner_key : NamespacedName := rs_key new_runner.

Definition no_factory : ClientFactory := NewClientFactory [].

Definition next_rs_round (x : Memory * World) : outcome Reconciled * (Memory * World) :=
  let y := run_world undisturbed respond (rs_Reconcile no_factory runner_key) x.1 x.2 in
  (y.1.1.2, (y.1.2, y.2)).

Lemma no_batch_rs_Reconcile f req : no_batch (rs_Reconcile (S := Memory) f req).
Proof.
  unfold rs_Reconcile. apply no_batch_bind; [intros ?; exact I|]. intros t0. apply no_batch_deferred.
  - unfold recordReconcileDuration, time_Since. no_batch_tac.
  - apply no_batch_rs_reconcile_body.
Qed.

Lemma next_rs_round_ok x :
  at_key set_key x.2 →
  rs_round no_factory set_key runner_key x (next_rs_round x).1 (next_rs_round x).2 ∧
  at_key set_key (next_rs_round x).2.2.
Proof.
  intros Hk.
  destruct (run_world_ok eq (answers calm set_key) undisturbed respond (at_key set_key)
    (λ R c w H, conj eq_refl H) (λ w R c, respond_ok calm set_key w R c)
    (rs_Reconcile no_factory runner_key) x.1 x.2 (no_batch_rs_Reconcile _ _) Hk) as (Hx & Hw & Hk').
  split; [|exact Hk']. eexists. split; [exact Hx|exact Hw].
Qed.

Lemma pat_credentials w a :
  w_secrets w = w_secrets empty_world → as_spec a = as_spec new_set → as_ns a = "ns" → credentials w a.
Proof.
  unfold credentials. intros -> -> ->. exists (mkSecret emptyMeta token_secret), "ghp".
  split; vm_compute; reflexivity.
Qed.

(** The user created both objects; nothing was reconciled yet. *)
Definition two_objects : World :=
  mkWorld (Some new_set) ∅ (w_secrets empty_world) ∅ {[runner_key := new_runner]} [] [].

Lemma two_objects_at_key : at_key set_key two_objects.
Proof.
  split_and!; [by intros a [= <-]| |intros ? b _ Hb; by apply elem_of_nil in Hb].
  intros k r Hr. cbn [w_runners two_objects] in Hr. by apply lookup_singleton_Some in Hr as [<- <-].
Qed.

Lemma bring_up_witness :
  let x1 := (next_round (memory, two_objects)).2 in
  let x2 := (next_round x1).2 in
  let x3 := (next_rs_round x2).2 in
  let x4 := (next_rs_round x3).2 in
  HasListener (mkListenerKey set_key "default") (manager_of memory) = false ∧
  ∃ ss r', registered_as new_set ss x4.2 ∧ w_runners x4.2 !! runner_key = Some r' ∧ rs_ready r'.
Proof.
  intros x1 x2 x3 x4.
  destruct (next_round_ok (memory, two_objects) two_objects_at_key) as [Hr1 Hk1].
  destruct (next_round_ok x1 Hk1) as [Hr2 Hk2]. destruct (next_rs_round_ok x2 Hk2) as [Hr3 Hk3].
  destruct (next_rs_round_ok x3 Hk3) as [Hr4 _]. clear Hk1 Hk2 Hk3.
  change (round eq set_key (memory, two_objects) (next_round (memory, two_objects)).1 x1) in Hr1.
  change (round eq set_key x1 (next_round x1).1 x2) in Hr2.
  change (rs_round no_factory set_key runner_key x2 (next_rs_round x2).1 x3) in Hr3.
  change (rs_round no_factory set_key runner_key x3 (next_rs_round x3).1 x4) in Hr4.
  clearbody x4; clearbody x3; clearbody x2; clearbody x1.
  assert (Hfree : HasListener (mkListenerKey set_key "default") (manager_of memory) = false) by reflexivity.
  split; [exact Hfree|].
  destruct (bring_up no_factory set_key new_set new_runner (memory, two_objects) _ x1 _ x2 _ x3 _ x4
    eq_refl eq_refl eq_refl ltac:(vm_compute; set_solver) eq_refl eq_refl
    (pat_credentials _ _ eq_refl eq_refl eq_refl) (or_introl eq_refl) ltac:(apply lookup_singleton_eq) eq_refl eq_refl
    ltac:(vm_compute; set_solver) Hfree (λ _, eq_refl) Hr1 Hr2 Hr3 Hr4)
    as (ss & a' & r' & c & session & Hreg & _ & Hr' & _ & Hready & _).
  exists ss, r'. exact (conj Hreg (conj Hr' Hready)).
Defined.

(** Both objects reconciled up to the listener. *)
Definition registered_world : World :=
  mkWorld (Some sample_as) {[42%Z := mkScaleSet 42 "set" 1 None true None]} (w_secrets empty_world) ∅
    {[runner_key := sample_rs None]} [] [].

Lemma listener_starts_witness :
  let x := (memory, registered_world) in
  let y := (next_rs_round x).2 in
  let z := (next_rs_round y).2 in
  HasListener (listener_key sample_as (sample_rs None)) (manager_of y.1) = true ∧
  manager_of z.1 = manager_of y.1.
Proof.
  intros x y z.
  assert (Hk : at_key set_key registered_world).
  { split_and!; [by intros a [= <-]| |intros ? b _ Hb; by apply elem_of_nil in Hb].
    intros k r Hr. cbn [w_runners registered_world] in Hr.
    by apply lookup_singleton_Some in Hr as [<- <-]. }
  destruct (next_rs_round_ok x Hk) as [Hr1 Hk1]. destruct (next_rs_round_ok y Hk1) as [Hr2 _].
  clear Hk Hk1.
  change (rs_round no_factory set_key runner_key x (next_rs_round x).1 y) in Hr1.
  change (rs_round no_factory set_key runner_key y (next_rs_round y).1 z) in Hr2.
  assert (Hp : paired set_key (sample_rs None) sample_as 42 registered_world).
  { split; try reflexivity. by apply list_elem_of_singleton. }
  assert (Hfree : HasListener (listener_key sample_as (sample_rs None)) (manager_of memory) = false)
    by reflexivity.
  split; [vm_compute; reflexivity|]. clearbody z; clearbody y.
  destruct (listener_starts no_factory set_key (sample_rs None) sample_as 42 x _ y _ z Hp
    (pat_credentials _ _ eq_refl eq_refl eq_refl) Hfree (eq_refl : @listener_New any_listener _ _ = None) Hr1 Hr2) as (_ & _ & _ & Hm & _).
  exact Hm.
Defined.
