(* ===== verification/Startup.v ===== *)
(** * cmd/main.go: from the command line to a running manager

    The flags, the TLS options and the wiring of the manager.  The manager, the
    certificate watchers and the selectors are library code: each use of them is
    a [BootCall] that may fail; [os.Exit] ends the program.  The standard
    library's [flag] and [path/filepath] are modelled as far as main uses them;
    the flags other packages register (zap, kubeconfig) are [FlagLib]. *)

From S2P Require Export Watches.

(** ** Flags *)

Record managerFlags : Type := mkFlags {
  metricsAddr : string;
  metricsCertPath : string; metricsCertName : string; metricsCertKey : string;
  webhookCertPath : string; webhookCertName : string; webhookCertKey : string;
  probeAddr : string;
  enableLeaderElection : bool; secureMetrics : bool; enableHTTP2 : bool
}.

(** The value of every variable before [flag.Parse]. *)
Definition default_flags : managerFlags :=
  mkFlags "0" "" "tls.crt" "tls.key" "" "tls.crt" "tls.key" ":8081" false true false.

(** [strconv.ParseBool] *)
Definition ParseBool (s : string) : option bool :=
  if bool_decide (s ∈ ["1"; "t"; "T"; "true"; "TRUE"; "True"]) then Some true
  else if bool_decide (s ∈ ["0"; "f"; "F"; "false"; "FALSE"; "False"]) then Some false
  else None.

(** A flag and what [Set] does with its text; a boolean flag needs no value. *)
Inductive flagValue : Type :=
| StringVar (set : string → managerFlags → managerFlags)
| BoolVar (set : bool → managerFlags → managerFlags).

Definition manager_flag (name : string) : option flagValue :=
  let named n := bool_decide (name = n) in
  if named "metrics-bind-address" then Some (StringVar (λ v f,
    mkFlags v (metricsCertPath f) (metricsCertName f) (metricsCertKey f) (webhookCertPath f) (webhookCertName f)
      (webhookCertKey f) (probeAddr f) (enableLeaderElection f) (secureMetrics f) (enableHTTP2 f)))
  else if named "health-probe-bind-address" then Some (StringVar (λ v f,
    mkFlags (metricsAddr f) (metricsCertPath f) (metricsCertName f) (metricsCertKey f) (webhookCertPath f) (webhookCertName f)
      (webhookCertKey f) v (enableLeaderElection f) (secureMetrics f) (enableHTTP2 f)))
  else if named "leader-elect" then Some (BoolVar (λ v f,
    mkFlags (metricsAddr f) (metricsCertPath f) (metricsCertName f) (metricsCertKey f) (webhookCertPath f) (webhookCertName f)
      (webhookCertKey f) (probeAddr f) v (secureMetrics f) (enableHTTP2 f)))
  else if named "metrics-secure" then Some (BoolVar (λ v f,
    mkFlags (metricsAddr f) (metricsCertPath f) (metricsCertName f) (metricsCertKey f) (webhookCertPath f) (webhookCertName f)
      (webhookCertKey f) (probeAddr f) (enableLeaderElection f) v (enableHTTP2 f)))
  else if named "webhook-cert-path" then Some (StringVar (λ v f,
    mkFlags (metricsAddr f) (metricsCertPath f) (metricsCertName f) (metricsCertKey f) v (webhookCertName f)
      (webhookCertKey f) (probeAddr f) (enableLeaderElection f) (secureMetrics f) (enableHTTP2 f)))
  else if named "webhook-cert-name" then Some (StringVar (λ v f,
    mkFlags (metricsAddr f) (metricsCertPath f) (metricsCertName f) (metricsCertKey f) (webhookCertPath f) v
      (webhookCertKey f) (probeAddr f) (enableLeaderElection f) (secureMetrics f) (enableHTTP2 f)))
  else if named "webhook-cert-key" then Some (StringVar (λ v f,
    mkFlags (metricsAddr f) (metricsCertPath f) (metricsCertName f) (metricsCertKey f) (webhookCertPath f) (webhookCertName f)
      v (probeAddr f) (enableLeaderElection f) (secureMetrics f) (enableHTTP2 f)))
  else if named "metrics-cert-path" then Some (StringVar (λ v f,
    mkFlags (metricsAddr f) v (metricsCertName f) (metricsCertKey f) (webhookCertPath f) (webhookCertName f)
      (webhookCertKey f) (probeAddr f) (enableLeaderElection f) (secureMetrics f) (enableHTTP2 f)))
  else if named "metrics-cert-name" then Some (StringVar (λ v f,
    mkFlags (metricsAddr f) (metricsCertPath f) v (metricsCertKey f) (webhookCertPath f) (webhookCertName f)
      (webhookCertKey f) (probeAddr f) (enableLeaderElection f) (secureMetrics f) (enableHTTP2 f)))
  else if named "metrics-cert-key" then Some (StringVar (λ v f,
    mkFlags (metricsAddr f) (metricsCertPath f) (metricsCertName f) v (webhookCertPath f) (webhookCertName f)
      (webhookCertKey f) (probeAddr f) (enableLeaderElection f) (secureMetrics f) (enableHTTP2 f)))
  else if named "enable-http2" then Some (BoolVar (λ v f,
    mkFlags (metricsAddr f) (metricsCertPath f) (metricsCertName f) (metricsCertKey f) (webhookCertPath f) (webhookCertName f)
      (webhookCertKey f) (probeAddr f) (enableLeaderElection f) (secureMetrics f) v))
  else None.

(** The flags of other packages: is it boolean, and does it take this value? *)
Class FlagLib := library_flag : string → option (bool * (string → bool)).

(** How [flag.Parse] ends: with values, after printing the usage for [-help]
    (exit 0), or with an error (exit 2). *)
Inductive parsed : Type := Flags (f : managerFlags) | HelpRequested | BadUsage.

(** [name] or [name=value]; the equals sign cannot be first. *)
Fixpoint split_value (s : string) : string * option string :=
  match s with
  | EmptyString => ("", None)
  | String "=" v => ("", Some v)
  | String c s => let '(n, v) := split_value s in (String c n, v)
  end.

Inductive argument : Type :=
| NotAFlag
| BadSyntax
| FlagArg (name : string) (value : option string).

Definition flag_name (s : string) : argument :=
  match s with
  | EmptyString | String "-" _ | String "=" _ => BadSyntax
  | _ => let '(n, v) := split_value s in FlagArg n v
  end.

(** The first argument: flags start with one dash or two, ["-"] and anything
    else ends them, and so does ["--"], which is consumed (nothing follows the
    flags that main would look at). *)
Definition read_argument (s : string) : argument :=
  match s with
  | String "-" EmptyString => NotAFlag
  | String "-" (String "-" EmptyString) => NotAFlag
  | String "-" (String "-" name) => flag_name name
  | String "-" name => flag_name name
  | _ => NotAFlag
  end.

Section Flags.
Context `{FlagLib}.

(** What a flag does with its text: the next flags, or an error. *)
Definition set_flag (name : string) (value : string) (f : managerFlags) : option managerFlags :=
  match manager_flag name with
  | Some (StringVar set) => Some (set value f)
  | Some (BoolVar set) => (λ b, set b f) <$> ParseBool value
  | None => match library_flag name with
            | Some (_, accepts) => if accepts value then Some f else None
            | None => None
            end
  end.

(** Is the flag defined, and does it need no value? *)
Definition flag_is_bool (name : string) : option bool :=
  match manager_flag name with
  | Some (StringVar _) => Some false
  | Some (BoolVar _) => Some true
  | None => fst <$> library_flag name
  end.

Fixpoint parse_args (args : list string) (f : managerFlags) : parsed :=
  match args with
  | [] => Flags f
  | s :: args =>
    match read_argument s with
    | NotAFlag => Flags f
    | BadSyntax => BadUsage
    | FlagArg name value =>
      let continue v rest := match set_flag name v f with
                             | Some f => rest f | None => BadUsage end in
      match flag_is_bool name, value with
      | None, _ => if bool_decide (name = "help" ∨ name = "h") then HelpRequested else BadUsage
      | Some true, None => continue "true" (parse_args args)
      | Some _, Some v => continue v (parse_args args)
      | Some false, None =>
        match args with
        | v :: args => continue v (parse_args args)
        | [] => BadUsage
        end
      end
    end
  end.

Definition parseManagerFlags (args : list string) : parsed := parse_args args default_flags.
End Flags.

(** ** [filepath.Join], on Unix *)

(** The elements of a path. *)
Fixpoint path_elements (acc s : string) : list string :=
  match s with
  | EmptyString => [acc]
  | String "/" s => acc :: path_elements "" s
  | String c s => path_elements (acc +:+ String c "") s
  end.

(** The stack of elements, last first, after reading one more. *)
Definition clean_step (rooted : bool) (stack : list string) (e : string) : list string :=
  if bool_decide (e = "" ∨ e = ".") then stack
  else if bool_decide (e = "..") then
    match stack with
    | top :: below => if bool_decide (top = "..") then ".." :: stack else below
    | [] => if rooted then [] else [".."]
    end
  else e :: stack.

Definition Clean (path : string) : string :=
  let rooted := HasPrefix path "/" in
  let body := Join (reverse (foldl (clean_step rooted) [] (path_elements "" path))) "/" in
  if rooted then "/" +:+ body else if bool_decide (body = "") then "." else body.

Definition filepath_Join (elems : list string) : string :=
  match filter (λ e, e ≠ "") elems with
  | [] => ""
  | es => Clean (Join es "/")
  end.

(** ** TLS *)

(** Handles to the library's certificate watchers. *)
Definition CertWatcher : Type := nat.

(** The fields of [tls.Config] the options set. *)
Record TLSConfig : Type := mkTLS {
  NextProtos : option (list string);
  GetCertificate : option CertWatcher
}.

Definition buildTLSOpts (enableHTTP2 : bool) : list (TLSConfig → TLSConfig) :=
  if enableHTTP2 then [] else [λ c, mkTLS (Some ["http/1.1"]) (GetCertificate c)].

Definition serve_certificate (w : CertWatcher) (c : TLSConfig) : TLSConfig :=
  mkTLS (NextProtos c) (Some w).

Record MetricsOptions : Type := mkMetricsOptions {
  mo_BindAddress : string;
  mo_SecureServing : bool;
  mo_TLSOpts : list (TLSConfig → TLSConfig);
  mo_authenticated : bool
}.

(** A label requirement [Exists]. *)
Record CacheOptions : Type := mkCacheOptions { co_podLabelExists : string }.

Record ManagerOptions : Type := mkManagerOptions {
  mg_Cache : CacheOptions;
  mg_Metrics : MetricsOptions;
  mg_WebhookTLSOpts : list (TLSConfig → TLSConfig);
  mg_HealthProbeBindAddress : string;
  mg_LeaderElection : bool;
  mg_LeaderElectionID : string
}.

(** ** The program *)
Section Startup.
Context {S : Type} `{HasCache S, HasManager S, MapRange, UnicodeTables, ControllerLib, ListenerLib, WatchLib, FlagLib}.

Inductive Runnable : Type :=
| WatchCertificate (w : CertWatcher)
| ListenerShutdown
| CacheCleanup.

Inductive BootCall : Type → Type :=
| CertwatcherNew (certPath keyPath : string) : BootCall (result error CertWatcher)
| NewExistsRequirement (key : string) : BootCall (option error)
| GetConfig : BootCall (option error)
| NewControllerManager (o : ManagerOptions) : BootCall (option error)
| GetFieldIndexer : BootCall (string → option error)
| CompleteController (c : ControllerSpec S) : BootCall (option error)
| ManagerAdd (r : Runnable) : BootCall (option error)
| AddHealthzCheck (name : string) : BootCall (option error)
| AddReadyzCheck (name : string) : BootCall (option error)
| ManagerStart : BootCall (option error).

(** A program that makes such calls, returns or exits. *)
Inductive boot (A : Type) : Type :=
| Return (a : A)
| Exit (code : Z)
| Then {R : Type} (c : BootCall R) (k : R → boot A).
Arguments Return {A} a.
Arguments Exit {A} code.
Arguments Then {A R} c k.

Fixpoint boot_bind {A B} (p : boot A) (f : A → boot B) : boot B :=
  match p with
  | Return a => f a
  | Exit code => Exit code
  | Then c k => Then c (λ r, boot_bind (k r) f)
  end.

#[global] Instance boot_mret : MRet boot := λ A a, Return a.
#[global] Instance boot_mbind : MBind boot := λ A B f p, boot_bind p f.

Definition lib {R} (c : BootCall R) : boot R := Then c Return.

Definition buildWebhookServer (f : managerFlags)
  : boot (result error (list (TLSConfig → TLSConfig) * option CertWatcher)) :=
  let tlsOpts := buildTLSOpts (enableHTTP2 f) in
  let webhookTLSOpts := tlsOpts in
  if bool_decide (webhookCertPath f = "") then Return (Ok (webhookTLSOpts, None))
  else
    w ← lib (CertwatcherNew (filepath_Join [webhookCertPath f; webhookCertName f])
                            (filepath_Join [webhookCertPath f; webhookCertKey f]));
    match w with
    | Err err => Return (Err err)
    | Ok w => Return (Ok (webhookTLSOpts ++ [serve_certificate w], Some w))
    end.

Definition buildMetricsOptions (f : managerFlags)
  : boot (result error (MetricsOptions * option CertWatcher)) :=
  let tlsOpts := buildTLSOpts (enableHTTP2 f) in
  let opts := mkMetricsOptions (metricsAddr f) (secureMetrics f) tlsOpts (secureMetrics f) in
  if bool_decide (metricsCertPath f = "") then Return (Ok (opts, None))
  else
    w ← lib (CertwatcherNew (filepath_Join [metricsCertPath f; metricsCertName f])
                            (filepath_Join [metricsCertPath f; metricsCertKey f]));
    match w with
    | Err err => Return (Err err)
    | Ok w =>
      Return (Ok (mkMetricsOptions (mo_BindAddress opts) (mo_SecureServing opts)
                    (mo_TLSOpts opts ++ [serve_certificate w]) (mo_authenticated opts), Some w))
    end.

Definition buildCacheOptions : boot (result error CacheOptions) :=
  err ← lib (NewExistsRequirement LabelAutoscaleSet);
  match err with
  | Some err => Return (Err err)
  | None => Return (Ok (mkCacheOptions LabelAutoscaleSet))
  end.

Definition setupControllersAndRunnables : boot (option error) :=
  let clientFactory := NewClientFactory [] in
  err ← SetupWithManager (λ c, lib (CompleteController c));
  match err with
  | Some err => Return (Some err)
  | None =>
    err ← rs_SetupWithManager clientFactory (λ c, lib (CompleteController c));
    match err with
    | Some err => Return (Some err)
    | None =>
      err ← lib (ManagerAdd ListenerShutdown);
      match err with
      | Some err => Return (Some err)
      | None => lib (ManagerAdd CacheCleanup)
      end
    end
  end.

(** [if w != nil { if err := mgr.Add(w); err != nil { return err } }] *)
Definition add_watcher (w : option CertWatcher) : boot (option error) :=
  match w with
  | Some w => lib (ManagerAdd (WatchCertificate w))
  | None => Return None
  end.

Definition addCertWatchersAndHealth (metricsCert webhookCert : option CertWatcher) : boot (option error) :=
  err ← add_watcher metricsCert;
  match err with
  | Some err => Return (Some err)
  | None =>
    err ← add_watcher webhookCert;
    match err with
    | Some err => Return (Some err)
    | None =>
      err ← lib (AddHealthzCheck "healthz");
      match err with
      | Some err => Return (Some err)
      | None => lib (AddReadyzCheck "readyz")
      end
    end
  end.

(** [if err != nil { ...; os.Exit(1) }] *)
Definition or_exit (err : option error) (k : boot unit) : boot unit :=
  match err with Some _ => Exit 1 | None => k end.

Definition main (args : list string) : boot unit :=
  match parseManagerFlags args with
  | HelpRequested => Exit 0
  | BadUsage => Exit 2
  | Flags f =>
    webhook ← buildWebhookServer f;
    match webhook with
    | Err _ => Exit 1
    | Ok (webhookTLSOpts, webhookCertWatcher) =>
      metrics ← buildMetricsOptions f;
      match metrics with
      | Err _ => Exit 1
      | Ok (metricsOpts, metricsCertWatcher) =>
        cacheOpts ← buildCacheOptions;
        match cacheOpts with
        | Err _ => Exit 1
        | Ok cacheOpts =>
          err ← lib GetConfig;
          or_exit err (
          err ← lib (NewControllerManager (mkManagerOptions cacheOpts metricsOpts webhookTLSOpts
                       (probeAddr f) (enableLeaderElection f) "scaleset-controller-leader-election"));
          or_exit err (
          indexer ← lib GetFieldIndexer;
          or_exit (SetupPodCacheIndexes indexer).2 (
          err ← setupControllersAndRunnables;
          or_exit err (
          err ← addCertWatchersAndHealth metricsCertWatcher webhookCertWatcher;
          or_exit err (
          err ← lib ManagerStart;
          or_exit err (Return tt))))))
        end
      end
    end
  end.

(** ** Executions *)

Inductive boot_event : Type :=
| Called {R : Type} (c : BootCall R) (r : R).

Fixpoint boots {A} (p : boot A) (tr : list boot_event) (o : A + Z) : Prop :=
  match p with
  | Return a => tr = [] ∧ o = inl a
  | Exit code => tr = [] ∧ o = inr code
  | Then c k => ∃ r tr', tr = Called c r :: tr' ∧ boots (k r) tr' o
  end.

(** An execution against scripted answers. *)
Fixpoint boot_run (env : ∀ R, BootCall R → R) {A} (p : boot A) : list boot_event * (A + Z) :=
  match p with
  | Return a => ([], inl a)
  | Exit code => ([], inr code)
  | Then c k => let '(tr, o) := boot_run env (k (env _ c)) in (Called c (env _ c) :: tr, o)
  end.

Lemma boot_run_boots env {A} (p : boot A) : boots p (boot_run env p).1 (boot_run env p).2.
Proof.
  induction p as [a|code|R c k IH]; [done..|]. simpl. specialize (IH (env R c)).
  destruct (boot_run env (k (env R c))) as [tr o]. by exists (env R c), tr.
Qed.
End Startup.

Arguments boot_event S {_}.

(** ** What starting means *)

Inductive action : Type :=
| NewWatcher (certPath keyPath : string)
| Selector | Config | CreateManager | Indexes
| Controller (name : string)
| AddWatcher | AddShutdown | AddCleanup
| Healthz | Readyz | Start.

Section Plan.
Context {S : Type} `{HasCache S, HasManager S, MapRange, UnicodeTables, ControllerLib, ListenerLib, WatchLib, FlagLib}.

Definition action_of (e : boot_event S) : action :=
  match e with
  | Called c _ =>
    match c with
    | CertwatcherNew c k => NewWatcher c k
    | NewExistsRequirement _ => Selector
    | GetConfig => Config
    | NewControllerManager _ => CreateManager
    | GetFieldIndexer => Indexes
    | CompleteController c => Controller (ct_name c)
    | ManagerAdd (WatchCertificate _) => AddWatcher
    | ManagerAdd ListenerShutdown => AddShutdown
    | ManagerAdd CacheCleanup => AddCleanup
    | AddHealthzCheck _ => Healthz
    | AddReadyzCheck _ => Readyz
    | ManagerStart => Start
    end
  end.

Definition no_error {A} (e : option A) : bool := match e with Some _ => false | None => true end.

Definition succeeded (e : boot_event S) : bool :=
  match e with
  | Called c r =>
    match c in BootCall R return R → bool with
    | CertwatcherNew _ _ => is_ok
    | GetFieldIndexer => λ indexer, no_error (SetupPodCacheIndexes indexer).2
    | NewExistsRequirement _ | GetConfig | NewControllerManager _ | CompleteController _
    | ManagerAdd _ | AddHealthzCheck _ | AddReadyzCheck _ | ManagerStart => no_error
    end r
  end.

(** A certificate watcher exists for a server exactly when its path is set. *)
Definition watcher_plan (path name key : string) : list action :=
  if bool_decide (path = "") then []
  else [NewWatcher (filepath_Join [path; name]) (filepath_Join [path; key])].

Definition add_plan (path : string) : list action := if bool_decide (path = "") then [] else [AddWatcher].

(** The steps of a start with these flags, in order. *)
Definition plan (f : managerFlags) : list action :=
  watcher_plan (webhookCertPath f) (webhookCertName f) (webhookCertKey f) ++
  watcher_plan (metricsCertPath f) (metricsCertName f) (metricsCertKey f) ++
  [Selector; Config; CreateManager; Indexes; Controller "autoscaleset"; Controller "runnerset";
   AddShutdown; AddCleanup] ++
  add_plan (metricsCertPath f) ++ add_plan (webhookCertPath f) ++ [Healthz; Readyz; Start].

(** The trace goes through the steps and stops at the first that fails. *)
Fixpoint follows (steps : list action) (tr : list (boot_event S)) (ok : bool) : Prop :=
  match steps with
  | [] => tr = [] ∧ ok = true
  | a :: steps => ∃ e tr', tr = e :: tr' ∧ action_of e = a ∧
      if succeeded e then follows steps tr' ok else tr' = [] ∧ ok = false
  end.

Lemma follows_complete steps tr :
  follows steps tr true → action_of <$> tr = steps ∧ forallb succeeded tr = true.
Proof.
  revert tr. induction steps as [|a steps IH]; intros tr; simpl; [by intros [-> _]|].
  intros (e & tr' & -> & <- & Hs). destruct (succeeded e) eqn:He; [|by destruct Hs].
  destruct (IH tr' Hs) as [<- Hok]. split; [done|]. cbn. by rewrite He, Hok.
Qed.

Lemma follows_failed steps tr :
  follows steps tr false →
  ∃ pre e, tr = pre ++ [e] ∧ action_of <$> tr `prefix_of` steps ∧
           forallb succeeded pre = true ∧ succeeded e = false.
Proof.
  revert tr. induction steps as [|a steps IH]; intros tr; simpl; [by intros [_ ?]|].
  intros (e & tr' & -> & <- & Hs). destruct (succeeded e) eqn:He.
  - destruct (IH tr' Hs) as (pre & e' & -> & Hp & Hok & Hf). exists (e :: pre), e'.
    split; [done|]. split; [by apply prefix_cons|]. simpl. by rewrite He.
  - destruct Hs as [-> _]. exists [], e. split; [done|].
    split; [by apply prefix_cons, prefix_nil|]. done.
Qed.

(** One step of an execution of the start, and the matching step of the plan. *)
Ltac boot_step Hx :=
  cbn [boots boot_bind mbind boot_mbind lib add_watcher SetupWithManager rs_SetupWithManager] in Hx;
  let rec go p :=
    lazymatch p with
    | boot_bind ?q _ => go q
    | or_exit ?r _ => destruct r eqn:?
    | match ?r with _ => _ end => destruct r eqn:?
    end in
  lazymatch type of Hx with
  | ∃ _ _, _ = _ :: _ ∧ _ => destruct Hx as (? & ? & -> & Hx)
  | _ ∧ _ = _ => destruct Hx as [-> ->]
  | boots ?p _ _ => go p
  end; cbn [or_exit] in Hx.

Ltac plan_step :=
  eexists _, _; split; [reflexivity|]; split; [reflexivity|];
  cbn [succeeded no_error is_ok]; repeat match goal with H : snd _ = _ |- _ => rewrite H end.

Lemma main_follows f args tr o :
  parseManagerFlags args = Flags f → boots (main (S := S) args) tr o →
  ∃ ok, follows (plan f) tr ok ∧ o = if ok then inl tt else inr 1%Z.
Proof.
  intros Hf Hx. unfold main in Hx. rewrite Hf in Hx.
  unfold plan, watcher_plan, add_plan, buildWebhookServer, buildMetricsOptions, buildCacheOptions,
    setupControllersAndRunnables, addCertWatchersAndHealth in *.
  destruct (bool_decide (webhookCertPath f = "")), (bool_decide (metricsCertPath f = ""));
    cbn [app]; repeat boot_step Hx; simplify_eq;
    first [exists true; split; [|reflexivity]; repeat plan_step; by split
          |exists false; split; [|reflexivity]; repeat plan_step; by split].
Qed.

(** C22. The controller starts all or nothing.  Without usable flags it makes no call
    and exits, with 0 for a help request and 2 otherwise.  With flags it goes
    through the steps of [plan], in order, up to the first that fails, and exits
    with 1 there; the manager is started last, when both controllers, the
    shutdown and cleanup runnables, the health checks and one certificate
    watcher per configured path are in place; it returns only when all of them
    and the manager itself ended without an error. *)
Theorem main_starts args tr o :
  boots (main (S := S) args) tr o →
  match parseManagerFlags args with
  | HelpRequested => tr = [] ∧ o = inr 0%Z
  | BadUsage => tr = [] ∧ o = inr 2%Z
  | Flags f =>
    (o = inl tt ∧ action_of <$> tr = plan f ∧ forallb succeeded tr = true) ∨
    (o = inr 1%Z ∧ ∃ pre e, tr = pre ++ [e] ∧ action_of <$> tr `prefix_of` plan f ∧
       forallb succeeded pre = true ∧ succeeded e = false)
  end.
Proof.
  intros Hx. destruct (parseManagerFlags args) as [f| |] eqn:Hf.
  - destruct (main_follows f args tr o Hf Hx) as ([] & Hp & ->).
    + left. split; [done|]. by apply follows_complete.
    + right. split; [done|]. by apply follows_failed.
  - unfold main in Hx. by rewrite Hf in Hx.
  - unfold main in Hx. by rewrite Hf in Hx.
Qed.

(** *** What the library is asked for *)

Fixpoint boot_always (P : ∀ R, BootCall (S := S) R → Prop) {A} (p : boot A) : Prop :=
  match p with
  | Return _ _ => True
  | Exit _ _ => True
  | Then _ c k => P _ c ∧ ∀ r, boot_always P (k r)
  end.

Lemma boot_always_boots P {A} (p : boot A) tr o :
  boot_always P p → boots p tr o → Forall (λ '(Called c _), P _ c) tr.
Proof.
  revert tr. induction p as [a|code|R c k IH]; intros tr; simpl; [by intros _ [-> _]..|].
  intros [Hc Hk] (r & tr' & -> & Hx). constructor; [done|]. eauto.
Qed.

(** A server with these options: HTTP/1.1 only unless HTTP/2 is asked for, and
    its own certificate exactly when there is a path for it. *)
Definition tls_policy (f : managerFlags) (path : string) (opts : list (TLSConfig → TLSConfig)) : Prop :=
  ∀ cfg, let served := foldl (λ c opt, opt c) cfg opts in
    NextProtos served = (if enableHTTP2 f then NextProtos cfg else Some ["http/1.1"]) ∧
    if bool_decide (path = "") then GetCertificate served = GetCertificate cfg
    else ∃ w, GetCertificate served = Some w.

Lemma tls_without f path : path = "" → tls_policy f path (buildTLSOpts (enableHTTP2 f)).
Proof. intros -> cfg. unfold buildTLSOpts. by destruct (enableHTTP2 f). Qed.

Lemma tls_with f path w :
  path ≠ "" → tls_policy f path (buildTLSOpts (enableHTTP2 f) ++ [serve_certificate w]).
Proof.
  intros Hp cfg. unfold buildTLSOpts. rewrite (bool_decide_eq_false_2 _ Hp).
  destruct (enableHTTP2 f); (split; [done|]); by exists w.
Qed.

Definition call_policy (f : managerFlags) (R : Type) (c : BootCall (S := S) R) : Prop :=
  match c with
  | CertwatcherNew cert key =>
    (webhookCertPath f ≠ "" ∧ cert = filepath_Join [webhookCertPath f; webhookCertName f] ∧
     key = filepath_Join [webhookCertPath f; webhookCertKey f]) ∨
    (metricsCertPath f ≠ "" ∧ cert = filepath_Join [metricsCertPath f; metricsCertName f] ∧
     key = filepath_Join [metricsCertPath f; metricsCertKey f])
  | NewControllerManager o =>
    tls_policy f (webhookCertPath f) (mg_WebhookTLSOpts o) ∧
    tls_policy f (metricsCertPath f) (mo_TLSOpts (mg_Metrics o)) ∧
    mo_BindAddress (mg_Metrics o) = metricsAddr f ∧
    mo_SecureServing (mg_Metrics o) = secureMetrics f ∧
    mo_authenticated (mg_Metrics o) = secureMetrics f ∧
    (∀ k name, is_Some (buildPodLabels k name !! co_podLabelExists (mg_Cache o)))
  | CompleteController c =>
    c = AutoscaleSetRegistration ∨ ∃ factory, c = RunnerSetRegistration factory ∧ f_rateLimiter factory = None
  | _ => True
  end.

Ltac boot_policy_step :=
  cbn [boot_always boot_bind mbind boot_mbind lib add_watcher SetupWithManager rs_SetupWithManager];
  let rec go p :=
    lazymatch p with
    | boot_bind ?q _ => go q
    | or_exit ?r _ => destruct r
    | match ?r with _ => _ end => destruct r
    end in
  match goal with
  | |- True => exact I
  | |- call_policy _ _ _ ∧ ∀ r, _ => split; [|intros ?]
  | |- boot_always _ ?p => go p
  end; cbn [or_exit].

(** C23. Whatever the library answers: certificates are read from the configured
    directories only; neither server talks HTTP/2 unless it is asked for; the
    metrics endpoint is bound where the flags say, and it is served over TLS and
    authenticated exactly when [--metrics-secure] says so, which is the default;
    with [--metrics-secure=false] it is plain and open; and the cache the
    manager keeps of pods has every pod the scaler creates, because the label it selects is
    one of those the scaler always writes.  The factory the RunnerSet
    controller gets has no rate limiter. *)
Theorem main_policy args tr o :
  boots (main (S := S) args) tr o →
  match parseManagerFlags args with
  | Flags f => Forall (λ '(Called c _), call_policy f _ c) tr
  | _ => tr = []
  end.
Proof.
  intros Hx. destruct (parseManagerFlags args) as [f| |] eqn:Hf;
    [|unfold main in Hx; rewrite Hf in Hx; by destruct Hx as [-> _]..].
  refine (boot_always_boots _ _ _ _ _ Hx). clear Hx tr o.
  assert (Hpods : ∀ k name, is_Some (buildPodLabels k name !! LabelAutoscaleSet)).
  { intros k name. rewrite buildPodLabels_lookup, bool_decide_eq_true_2 by (vm_compute; set_solver).
    eexists. reflexivity. }
  unfold main. rewrite Hf. unfold buildWebhookServer, buildMetricsOptions, buildCacheOptions,
    setupControllersAndRunnables, addCertWatchersAndHealth.
  repeat case_bool_decide; repeat boot_policy_step; cbn [call_policy];
    first [ exact I | by left | by right | right; by eexists
          | split; [|split; [|split; [done|split; [done|by split]]]]; first [by apply tls_without|by apply tls_with] ].
Qed.
End Plan.

(** ** The command line *)

(** A command line that says everything. *)
Definition command_line (f : managerFlags) : list string :=
  let flag name v := "--" +:+ name +:+ "=" +:+ v in
  let bool b := if b : bool then "true" else "false" in
  [flag "metrics-bind-address" (metricsAddr f); flag "metrics-cert-path" (metricsCertPath f);
   flag "metrics-cert-name" (metricsCertName f); flag "metrics-cert-key" (metricsCertKey f);
   flag "webhook-cert-path" (webhookCertPath f); flag "webhook-cert-name" (webhookCertName f);
   flag "webhook-cert-key" (webhookCertKey f); flag "health-probe-bind-address" (probeAddr f);
   flag "leader-elect" (bool (enableLeaderElection f)); flag "metrics-secure" (bool (secureMetrics f));
   flag "enable-http2" (bool (enableHTTP2 f))].

(** Every flag can be set to every value from the command line, whatever
    characters the value has; each one sets its own variable, the last
    occurrence wins, and what is not given keeps its default. *)
Theorem parseManagerFlags_command_line `{FlagLib} earlier f :
  parseManagerFlags (command_line earlier ++ command_line f) = Flags f ∧
  parseManagerFlags [] = Flags default_flags ∧ enableHTTP2 default_flags = false ∧
  secureMetrics default_flags = true.
Proof.
  split; [|done]. destruct earlier as [? ? ? ? ? ? ? ? [] [] []], f as [? ? ? ? ? ? ? ? [] [] []]; reflexivity.
Qed.

(** ** Concrete starts *)

#[local] Existing Instance map_range_default.
#[local] Existing Instance ascii_tables.
#[local] Existing Instance controller_lib.
#[local] Existing Instance watch_lib.
#[local] Instance any_listener : ListenerLib := {| listener_New := λ _ _, None |}.
#[local] Instance no_other_flags : FlagLib := λ _, None.

(** A library where everything works but, perhaps, the creation of the manager. *)
Definition boot_env (manager : option error) (R : Type) (c : BootCall (S := Memory) R) : R :=
  match c in BootCall R return R with
  | CertwatcherNew _ _ => Ok 3
  | NewControllerManager _ => manager
  | GetFieldIndexer => λ _, None
  | NewExistsRequirement _ | GetConfig | CompleteController _ | ManagerAdd _
  | AddHealthzCheck _ | AddReadyzCheck _ | ManagerStart => None
  end.

Lemma main_starts_witness :
  let refused := boot_run (boot_env (Some (errors_New "refused"))) (main ["--leader-elect"]) in
  refused.2 = inr 1%Z ∧ length refused.1 = 3 ∧
  ∃ pre e, refused.1 = pre ++ [e] ∧ succeeded e = false.
Proof.
  intros refused. split; [reflexivity|]. split; [reflexivity|].
  destruct (main_starts ["--leader-elect"] _ _ (boot_run_boots (boot_env (Some (errors_New "refused"))) (main ["--leader-elect"])))
    as [[Ho _]|(_ & pre & e & Htr & _ & _ & Hf)]; [discriminate Ho|].
  by exists pre, e.
Defined.

Lemma main_policy_witness :
  let args := ["--webhook-cert-path=/certs"] in
  let x := boot_run (boot_env None) (main args) in
  x.2 = inl tt ∧ length x.1 = 13 ∧
  match parseManagerFlags args with
  | Flags f => Forall (λ '(Called c _), call_policy f _ c) x.1
  | _ => x.1 = []
  end.
Proof.
  intros args x. split; [reflexivity|]. split; [reflexivity|].
  exact (main_policy args _ _ (boot_run_boots (boot_env None) (main args))).
Defined.
