(* ===== verification/GoHeap.v ===== *)
(** * GoHeap: references, and copies that share nothing

    Pointers, maps and slices of Go as references into a store of typed cells.
    [ty] names the types of the cells and [tyD] is what a cell of each holds.  A
    [copier] puts together, for one Go type, the value a piece of data stands
    for, the cells it reaches and the code that copies it; [copier_ok] is what
    a deep copy promises, and is proved for pointers, maps, slices and structs
    once and for all. *)

From S2P Require Export Types.

(** A slice: the array under it, and its window of the array. *)
Record slice : Type := mkSlice { s_array : nat; s_off : nat; s_len : nat }.

(** The reference fields of a struct, kept open: as references into a store,
    or as the values behind them.  A pointer or a map is nil or something. *)
Record Shape : Type := mkShape { ptr : Type → Type; slc : Type → Type }.

Definition refs : Shape := mkShape (λ _, option nat) (λ _, option slice).
Definition values : Shape := mkShape option (λ T, option (list T)).

(** The entries a slice shows of its array. *)
Definition window {T} (s : slice) (l : list T) : list T := take (s_len s) (drop (s_off s) l).

Section Store.
Context {ty : Type} `{EqDecision ty} {tyD : ty → Type}.

Inductive cell : Type :=
| Val (t : ty) (v : tyD t)
| Arr (t : ty) (l : list (tyD t))
| Tab (m : gmap string string).

#[local] Abbreviation store := (gmap nat cell).

Definition cast (F : ty → Type) {t : ty} (t' : ty) (x : F t) : option (F t') :=
  match decide (t = t') with left e => Some (eq_rect t F x t' e) | right _ => None end.

Lemma cast_self F t (x : F t) : cast F t x = Some x.
Proof. unfold cast. destruct (decide (t = t)) as [e|]; [|done]. by rewrite (proof_irrel e eq_refl). Qed.

Definition peek (t : ty) (h : store) (l : nat) : option (tyD t) :=
  match h !! l with Some (Val _ v) => cast tyD t v | _ => None end.
Definition peeks (t : ty) (h : store) (l : nat) : option (list (tyD t)) :=
  match h !! l with Some (Arr _ a) => cast (λ t, list (tyD t)) t a | _ => None end.

Definition peek_map (h : store) (l : nat) : option (gmap string string) :=
  match h !! l with Some (Tab m) => Some m | _ => None end.

(** ** Code

    [None] is the panic of a nil or dangling reference, or of an index out of
    range. *)
Definition GoM (A : Type) : Type := store → option (A * store).

#[global] Instance GoM_ret : MRet GoM := λ A a h, Some (a, h).
#[global] Instance GoM_bind : MBind GoM := λ A B f p h,
  match p h with Some (a, h') => f a h' | None => None end.

Definition lift {A} (x : option A) : GoM A := λ h, match x with Some a => Some (a, h) | None => None end.

(** A cell nobody uses. *)
Definition unused (h : store) : nat := set_fold (λ l r, S l `max` r) 0 (dom h : gset nat).

Lemma unused_fresh h : unused h ∉ dom h.
Proof.
  assert (Hlt : ∀ l, l ∈ dom h → l < unused h); [|by intros Hu%Hlt; lia].
  unfold unused. apply (set_fold_ind_L (λ r (X : gset nat), ∀ l, l ∈ X → l < r)); [set_solver|].
  intros x X r _ IH l [->%elem_of_singleton|Hl]%elem_of_union; [lia|]. specialize (IH l Hl). lia.
Qed.

Definition new (t : ty) (v : tyD t) : GoM nat := λ h, Some (unused h, <[unused h := Val t v]> h).
Definition make (t : ty) (a : list (tyD t)) : GoM nat := λ h, Some (unused h, <[unused h := Arr t a]> h).
Definition load (t : ty) (l : nat) : GoM (tyD t) := λ h, lift (peek t h l) h.
Definition loads (t : ty) (l : nat) : GoM (list (tyD t)) := λ h, lift (peeks t h l) h.
Definition make_map : GoM nat := λ h, Some (unused h, <[unused h := Tab ∅]> h).
Definition load_map (l : nat) : GoM (gmap string string) := λ h, lift (peek_map h l) h.
Definition assign_map (l : nat) (m : gmap string string) : GoM unit := λ h, Some (tt, <[l := Tab m]> h).
Definition assign (t : ty) (l : nat) (v : tyD t) : GoM unit := λ h, Some (tt, <[l := Val t v]> h).
Definition assigns (t : ty) (l : nat) (a : list (tyD t)) : GoM unit := λ h, Some (tt, <[l := Arr t a]> h).

(** ** Copiers *)

Record copier (X V : Type) : Type := mkCopier {
  rd : store → X → option V;
  reach : store → X → gset nat;
  into : X → GoM X
}.
#[global] Arguments mkCopier {X V}.
#[global] Arguments rd {X V}.
#[global] Arguments reach {X V}.
#[global] Arguments into {X V}.

(** [x'], in [h'], is a copy made from [h] of something that stands for [v]:
    the old cells are as they were and none of them is reached. *)
Definition copied {X V} (c : copier X V) (h h' : store) (x' : X) (v : V) : Prop :=
  h ⊆ h' ∧ rd c h' x' = Some v ∧ reach c h' x' ## dom h.

(** What the data stands for depends on the cells it reaches, all of which
    exist; and its code makes a copy. *)
Record copier_ok {X V} (c : copier X V) : Prop := mkCopierOk {
  ok_frame h h' x v : rd c h x = Some v → (∀ l, l ∈ reach c h x → h' !! l = h !! l) →
    rd c h' x = Some v ∧ reach c h' x = reach c h x;
  ok_dom h x v : rd c h x = Some v → reach c h x ⊆ dom h;
  ok_into h x v : rd c h x = Some v → ∃ x' h', into c x h = Some (x', h') ∧ copied c h h' x' v
}.

Lemma ok_mono {X V} (c : copier X V) h h' x v :
  copier_ok c → rd c h x = Some v → h ⊆ h' → rd c h' x = Some v ∧ reach c h' x = reach c h x.
Proof.
  intros Hc Hr Hs. apply (ok_frame c Hc h); [done|]. intros l Hl%(ok_dom c Hc _ _ _ Hr).
  apply elem_of_dom in Hl as [k Hk]. transitivity (Some k); [by eapply lookup_weaken|done].
Qed.

Lemma copied_mono {X V} (c : copier X V) h h1 h2 x v :
  copier_ok c → copied c h h1 x v → h1 ⊆ h2 → copied c h h2 x v.
Proof.
  intros Hc (Hs & Hr & Hf) H12. destruct (ok_mono c h1 h2 x v Hc Hr H12) as [Hr2 Hreach].
  split; [by etrans|]. by rewrite Hreach.
Qed.

Lemma copied_base {X V} (c : copier X V) h0 h h1 x v :
  h0 ⊆ h → copied c h h1 x v → copied c h0 h1 x v.
Proof.
  intros H0 (Hs & Hr & Hf). split; [by etrans|]. split; [done|].
  apply subseteq_dom in H0. set_solver.
Qed.

(** Data without references. *)
Definition plain_by {T} (f : T → T) : copier T T := mkCopier (λ _ x, Some x) (λ _ _, ∅) (λ x, mret (f x)).
Definition plain {T} : copier T T := plain_by id.

Lemma plain_by_ok {T} (f : T → T) : (∀ x, f x = x) → copier_ok (plain_by f).
Proof.
  intros Hf. split; [done|set_solver|]. intros h x v [= <-]. exists (f x), h. split; [done|].
  rewrite Hf. split; [done|]. split; [done|]. set_solver.
Qed.
Lemma plain_ok {T} : copier_ok (plain (T := T)).
Proof. by apply plain_by_ok. Qed.

(** Two fields, copied one after the other. *)
Definition both {X V Y W} (c : copier X V) (d : copier Y W) : copier (X * Y) (V * W) :=
  mkCopier (λ h '(x, y), v ← rd c h x; w ← rd d h y; Some (v, w))
           (λ h '(x, y), reach c h x ∪ reach d h y)
           (λ '(x, y), x' ← into c x; y' ← into d y; mret (x', y')).

Lemma both_rd {X V Y W} (c : copier X V) (d : copier Y W) h x y v w :
  rd (both c d) h (x, y) = Some (v, w) ↔ rd c h x = Some v ∧ rd d h y = Some w.
Proof. simpl. destruct (rd c h x), (rd d h y); simpl; naive_solver. Qed.

Lemma both_ok {X V Y W} (c : copier X V) (d : copier Y W) :
  copier_ok c → copier_ok d → copier_ok (both c d).
Proof.
  intros Hc Hd. split.
  - intros h h' [x y] [v w] [Hx Hy]%both_rd Hl. cbn [reach both] in *.
    destruct (ok_frame c Hc h h' x v Hx) as [Hx' ->]; [set_solver|].
    destruct (ok_frame d Hd h h' y w Hy) as [Hy' ->]; [set_solver|]. split; [by apply both_rd|done].
  - intros h [x y] [v w] [Hx Hy]%both_rd. apply (ok_dom c Hc) in Hx. apply (ok_dom d Hd) in Hy.
    cbn [reach both]. set_solver.
  - intros h [x y] [v w] [Hx Hy]%both_rd.
    destruct (ok_into c Hc h x v Hx) as (x' & h1 & Hi & Hcx).
    destruct (ok_into d Hd h1 y w) as (y' & h2 & Hj & Hcy).
    { apply (ok_mono d h h1 y w Hd Hy). apply Hcx. }
    exists (x', y'), h2. split; [cbn; unfold mbind, GoM_bind; by rewrite Hi, Hj|].
    destruct (copied_mono c h h1 h2 x' v Hc Hcx (proj1 Hcy)) as (Hs & Hr1 & Hf1).
    destruct (copied_base d h h1 h2 y' w (proj1 Hcx) Hcy) as (_ & Hr2 & Hf2).
    split; [done|]. split; [by apply both_rd|]. cbn [reach both]. set_solver.
Qed.

(** A struct: its fields as tuples, and code that is the code of the tuple. *)
Definition struct {X V P Q} (un : X → P) (mk : Q → V) (c : copier P Q) (code : X → GoM X) : copier X V :=
  mkCopier (λ h x, mk <$> rd c h (un x)) (λ h x, reach c h (un x)) code.

Lemma struct_ok {X V P Q} (un : X → P) (build : P → X) (mk : Q → V) (c : copier P Q) code :
  (∀ p, un (build p) = p) →
  (∀ x h, code x h = match into c (un x) h with Some (p, h') => Some (build p, h') | None => None end) →
  copier_ok c → copier_ok (struct un mk c code).
Proof.
  intros Hun Hcode Hc. split; cbn [rd reach into struct].
  - intros h h' x v (q & Hq & ->)%fmap_Some Hl. destruct (ok_frame c Hc h h' _ q Hq Hl) as [-> ->]. done.
  - intros h x v (q & Hq & ->)%fmap_Some. by eapply ok_dom.
  - intros h x v (q & Hq & ->)%fmap_Some. destruct (ok_into c Hc h _ q Hq) as (p & h' & Hi & Hs & Hr & Hf).
    exists (build p), h'. split; [by rewrite Hcode, Hi|]. unfold copied. cbn [rd reach struct].
    rewrite !Hun, Hr. done.
Qed.

(** ** Reading and writing cells *)

Lemma peek_val t h l v : h !! l = Some (Val t v) → peek t h l = Some v.
Proof. unfold peek. intros ->. apply cast_self. Qed.
Lemma peeks_arr t h l a : h !! l = Some (Arr t a) → peeks t h l = Some a.
Proof. unfold peeks. intros ->. apply (cast_self (λ t, list (tyD t))). Qed.

Lemma peek_dom t h l v : peek t h l = Some v → l ∈ dom h.
Proof. unfold peek. destruct (h !! l) eqn:Hl; [intros _; by eapply elem_of_dom_2|done]. Qed.
Lemma peeks_dom t h l a : peeks t h l = Some a → l ∈ dom h.
Proof. unfold peeks. destruct (h !! l) eqn:Hl; [intros _; by eapply elem_of_dom_2|done]. Qed.

Lemma peek_eq t h h' l : h' !! l = h !! l → peek t h' l = peek t h l.
Proof. unfold peek. by intros ->. Qed.
Lemma peeks_eq t h h' l : h' !! l = h !! l → peeks t h' l = peeks t h l.
Proof. unfold peeks. by intros ->. Qed.

Lemma mono_lookup (h h' : store) l : h ⊆ h' → l ∈ dom h → h' !! l = h !! l.
Proof. intros Hs [k Hk]%elem_of_dom. transitivity (Some k); [by eapply lookup_weaken|done]. Qed.

Lemma fresh_insert (h h' : store) l k : l ∉ dom h → h ⊆ h' → h ⊆ <[l := k]> h'.
Proof. intros Hl Hs. apply insert_subseteq_r; [by apply not_elem_of_dom|done]. Qed.

(** A write to a cell that is not reached. *)
Lemma frame_insert {X V} (c : copier X V) h l k x v :
  copier_ok c → rd c h x = Some v → l ∉ reach c h x →
  rd c (<[l := k]> h) x = Some v ∧ reach c (<[l := k]> h) x = reach c h x.
Proof.
  intros Hc Hr Hl. apply (ok_frame c Hc h); [done|]. intros l' Hl'. apply lookup_insert_ne. set_solver.
Qed.

(** ** Pointers

    [*out = new(T)], and the code of [T] from one cell to the other. *)
Definition copy_pointer (t : ty) (zero : tyD t) (code : tyD t → GoM (tyD t)) (p : option nat)
  : GoM (option nat) :=
  match p with
  | None => mret None
  | Some l =>
    out ← new t zero;
    x ← load t l;
    x' ← code x;
    assign t out x';;
    mret (Some out)
  end.

Definition pointer {V} (t : ty) (zero : tyD t) (c : copier (tyD t) V) : copier (option nat) (option V) :=
  mkCopier
    (λ h p, match p with
            | None => Some None
            | Some l => x ← peek t h l; Some <$> rd c h x
            end)
    (λ h p, match p with
            | None => ∅
            | Some l => {[l]} ∪ match peek t h l with Some x => reach c h x | None => ∅ end
            end)
    (copy_pointer t zero (into c)).

Lemma pointer_rd {V} t zero (c : copier (tyD t) V) h l v :
  rd (pointer t zero c) h (Some l) = Some v →
  ∃ x w, peek t h l = Some x ∧ rd c h x = Some w ∧ v = Some w.
Proof.
  simpl. destruct (peek t h l) as [x|]; [|done]. simpl. intros (w & Hw & ->)%fmap_Some. by exists x, w.
Qed.

Lemma pointer_ok {V} t zero (c : copier (tyD t) V) : copier_ok c → copier_ok (pointer t zero c).
Proof.
  intros Hc. split.
  - intros h h' [l|] v; [|by intros [= <-]]. intros (x & w & Hp & Hr & ->)%pointer_rd Hl.
    cbn [rd reach pointer] in *. rewrite Hp in Hl.
    rewrite (peek_eq t h h' l) by (apply Hl; set_solver). rewrite Hp. simpl.
    destruct (ok_frame c Hc h h' x w Hr) as [-> ->]; [set_solver|]. done.
  - intros h [l|] v; [|set_solver]. intros (x & w & Hp & Hr & ->)%pointer_rd.
    cbn [reach pointer]. rewrite Hp. apply (ok_dom c Hc) in Hr. apply peek_dom in Hp. set_solver.
  - intros h [l|] v; [|intros [= <-]; by exists None, h]. intros (x & w & Hp & Hr & ->)%pointer_rd.
    pose proof (unused_fresh h) as Hf. set (out := unused h) in *. set (h1 := <[out := Val t zero]> h).
    assert (H01 : h ⊆ h1) by (by apply fresh_insert).
    destruct (ok_mono c h h1 x w Hc Hr H01) as [Hr1 _].
    destruct (ok_into c Hc h1 x w Hr1) as (x' & h2 & Hi & H12 & Hr2 & Hd).
    assert (Hin : out ∈ dom h1) by (eapply elem_of_dom_2, lookup_insert_eq).
    assert (Hout : out ∉ reach c h2 x') by set_solver.
    destruct (frame_insert c h2 out (Val t x') x' w Hc Hr2 Hout) as [Hr3 Hreach].
    assert (Hpk : peek t (<[out := Val t x']> h2) out = Some x') by (apply peek_val, lookup_insert_eq).
    exists (Some out), (<[out := Val t x']> h2). split.
    + cbn. unfold copy_pointer, mbind, GoM_bind, new, load, lift. fold out h1.
      assert (Hne : l ≠ out) by (apply peek_dom in Hp; set_solver).
      rewrite (peek_eq t h h1 l) by (by apply lookup_insert_ne). rewrite Hp, Hi. done.
    + split; [apply fresh_insert; [done|by etrans]|]. cbn [rd reach pointer]. rewrite Hpk. cbn.
      split; [by rewrite Hr3|]. rewrite Hreach. apply subseteq_dom in H01. set_solver.
Qed.

(** ** Slices

    [*out = make([]T, len( *in))], then the code of [T] from entry to entry. *)
Fixpoint copy_each (t : ty) (code : tyD t → GoM (tyD t)) (arr off out i n : nat) : GoM unit :=
  match n with
  | 0 => mret tt
  | S n =>
    a ← loads t arr;
    x ← lift (a !! (off + i));
    x' ← code x;
    o ← loads t out;
    assigns t out (<[i := x']> o);;
    copy_each t code arr off out (S i) n
  end.

Definition copy_slice (t : ty) (zero : tyD t) (code : tyD t → GoM (tyD t)) (s : option slice)
  : GoM (option slice) :=
  match s with
  | None => mret None
  | Some s =>
    out ← make t (replicate (s_len s) zero);
    copy_each t code (s_array s) (s_off s) out 0 (s_len s);;
    mret (Some (mkSlice out 0 (s_len s)))
  end.

Definition sliced {V} (t : ty) (zero : tyD t) (c : copier (tyD t) V)
  : copier (option slice) (option (list V)) :=
  mkCopier
    (λ h s, match s with
            | None => Some None
            | Some s =>
              a ← peeks t h (s_array s);
              if decide (s_off s + s_len s ≤ length a) then Some <$> mapM (rd c h) (window s a) else None
            end)
    (λ h s, match s with
            | None => ∅
            | Some s => {[s_array s]} ∪
                match peeks t h (s_array s) with Some a => ⋃ (reach c h <$> window s a) | None => ∅ end
            end)
    (copy_slice t zero (into c)).

Lemma sliced_rd {V} t zero (c : copier (tyD t) V) h s v :
  rd (sliced t zero c) h (Some s) = Some v ↔
  ∃ a ws, peeks t h (s_array s) = Some a ∧ s_off s + s_len s ≤ length a ∧
          Forall2 (λ x w, rd c h x = Some w) (window s a) ws ∧ v = Some ws.
Proof.
  cbn [rd sliced]. destruct (peeks t h (s_array s)) as [a|]; simpl; [|naive_solver].
  case_decide; [|naive_solver]. rewrite fmap_Some. setoid_rewrite mapM_Some. naive_solver.
Qed.

Lemma elem_of_reaches {V} {t : ty} (c : copier (tyD t) V) h (xs : list (tyD t)) l :
  l ∈ ⋃ (reach c h <$> xs) ↔ ∃ x, x ∈ xs ∧ l ∈ reach c h x.
Proof. rewrite elem_of_union_list. setoid_rewrite list_elem_of_fmap. naive_solver. Qed.

(** The loop from entry [i] on: what was there before stays, and the entries
    already copied stay copies. *)
Definition copies {V} {t : ty} (c : copier (tyD t) V) (h0 h : store) (out : nat) (x : tyD t) (v : V) : Prop :=
  rd c h x = Some v ∧ reach c h x ## dom h0 ∪ {[out]}.

Lemma copy_each_ok {V} {t : ty} (c : copier (tyD t) V) (zero : tyD t) h0 arr off out a :
  copier_ok c → peeks t h0 arr = Some a → out ∉ dom h0 → ∀ n done vs ws h,
  h0 ⊆ h → h !! out = Some (Arr t (done ++ replicate n zero)) →
  off + length done + n ≤ length a →
  Forall2 (copies c h0 h out) done vs →
  Forall2 (λ x w, rd c h0 x = Some w) (take n (drop (off + length done) a)) ws →
  ∃ h' done', copy_each t (into c) arr off out (length done) n h = Some (tt, h') ∧ h0 ⊆ h' ∧
    h' !! out = Some (Arr t done') ∧ Forall2 (copies c h0 h' out) done' (vs ++ ws).
Proof.
  intros Hc Ha Hout. induction n as [|n IH]; intros done vs ws h Hs Ho Hb Hd Hw.
  { exists h, done. inversion Hw; subst. rewrite app_nil_r in *. done. }
  destruct (lookup_lt_is_Some_2 a (off + length done)) as [x Hx]; [lia|].
  rewrite (drop_S a x) in Hw by done. cbn [take] in Hw. inversion Hw as [|? w ? ws' Hrx Hws]; subst.
  destruct (ok_mono c h0 h x w Hc Hrx Hs) as [Hrx' _].
  destruct (ok_into c Hc h x w Hrx') as (x' & h1 & Hi & Hs1 & Hr1 & Hf1).
  set (h2 := <[out := Arr t (done ++ x' :: replicate n zero)]> h1).
  assert (Hino : out ∈ dom h) by (by eapply elem_of_dom_2).
  assert (Hdom : dom h0 ⊆ dom h) by by apply subseteq_dom.
  destruct (frame_insert c h1 out (Arr t (done ++ x' :: replicate n zero)) x' w Hc Hr1) as [Hr2 Hf2];
    [set_solver|].
  destruct (IH (done ++ [x']) (vs ++ [w]) ws' h2) as (h' & done' & He & Hs' & Ho' & Hd').
  - apply fresh_insert; [done|by etrans].
  - unfold h2. rewrite <- app_assoc. apply lookup_insert_eq.
  - rewrite length_app. simpl. lia.
  - apply Forall2_app; [|constructor; [|constructor]].
    + eapply Forall2_impl; [exact Hd|]. intros y u [Hy Hyf].
      destruct (ok_mono c h h1 y u Hc Hy Hs1) as [Hy1 Hreach1].
      destruct (frame_insert c h1 out (Arr t (done ++ x' :: replicate n zero)) y u Hc Hy1) as [Hy2 Hreach2];
        [rewrite Hreach1; set_solver|]. split; [done|]. fold h2 in Hreach2. by rewrite Hreach2, Hreach1.
    + split; [done|]. fold h2 in Hf2. rewrite Hf2. set_solver.
  - rewrite length_app. simpl. by replace (off + (length done + 1)) with (Datatypes.S (off + length done)) by lia.
  - exists h', done'. split; [|by rewrite <- app_assoc in Hd'].
    cbn [copy_each]. unfold mbind, GoM_bind, loads, lift, assigns.
    rewrite (peeks_eq t h0 h arr) by (eapply mono_lookup; [done|by eapply peeks_dom]).
    rewrite Ha, Hx, Hi. rewrite (peeks_arr t h1 out (done ++ replicate (Datatypes.S n) zero))
      by (by eapply lookup_weaken).
    rewrite insert_app_r_alt, Nat.sub_diag by lia. cbn [replicate list_insert]. fold h2.
    rewrite length_app, Nat.add_1_r in He. exact He.
Qed.

Lemma copies_entries {V} {t : ty} (c : copier (tyD t) V) h0 h out xs ws :
  Forall2 (copies c h0 h out) xs ws →
  Forall2 (λ x w, rd c h x = Some w) xs ws ∧ ⋃ (reach c h <$> xs) ## dom h0.
Proof.
  intros Hc. split; [eapply Forall2_impl; [exact Hc|by intros x w []]|].
  intros l (x & Hx & Hl)%elem_of_reaches. apply list_elem_of_lookup in Hx as [k Hk].
  destruct (Forall2_lookup_l _ _ _ _ _ Hc Hk) as (w & _ & _ & Hd). set_solver.
Qed.

Lemma sliced_ok {V} t zero (c : copier (tyD t) V) : copier_ok c → copier_ok (sliced t zero c).
Proof.
  intros Hc. split.
  - intros h h' [s|] v; [|by intros [= <-]]. intros (a & ws & Ha & Hb & Hw & ->)%sliced_rd Hl.
    cbn [reach sliced] in *. rewrite Ha in Hl.
    assert (Ha' : peeks t h' (s_array s) = Some a) by (rewrite (peeks_eq t h h'); [done|apply Hl; set_solver]).
    assert (Hx : ∀ x w, x ∈ window s a → rd c h x = Some w → rd c h' x = Some w ∧ reach c h' x = reach c h x).
    { intros x w Hin Hr. apply (ok_frame c Hc h); [done|]. intros l Hlr. apply Hl.
      apply elem_of_union_r, elem_of_reaches. eauto. }
    split.
    + apply sliced_rd. exists a, ws. split_and!; try done. apply Forall2_same_length_lookup in Hw as [Hlen Hw].
      apply Forall2_same_length_lookup. split; [done|]. intros i x w Hi Hj.
      apply (Hx x w); [by eapply list_elem_of_lookup_2|by eapply Hw].
    + rewrite Ha, Ha'. f_equal. f_equal. apply list_fmap_ext. intros i x Hi.
      destruct (Forall2_lookup_l _ _ _ _ _ Hw Hi) as (w & _ & Hr).
      apply (Hx x w); [by eapply list_elem_of_lookup_2|done].
  - intros h [s|] v; [|set_solver]. intros (a & ws & Ha & Hb & Hw & ->)%sliced_rd.
    cbn [reach sliced]. rewrite Ha. apply peeks_dom in Ha. apply union_subseteq. split; [set_solver|].
    intros l (x & Hx & Hl)%elem_of_reaches. apply list_elem_of_lookup in Hx as [k Hk].
    destruct (Forall2_lookup_l _ _ _ _ _ Hw Hk) as (w & _ & Hr). by apply (ok_dom c Hc _ _ _ Hr).
  - intros h [s|] v; [|intros [= <-]; by exists None, h]. intros (a & ws & Ha & Hb & Hw & ->)%sliced_rd.
    pose proof (unused_fresh h) as Hf. set (out := unused h) in *.
    set (h1 := <[out := Arr t (replicate (s_len s) zero)]> h).
    destruct (copy_each_ok c zero h (s_array s) (s_off s) out a Hc Ha Hf (s_len s) [] [] ws h1)
      as (h' & done' & He & Hs & Ho & Hd); try done.
    + by apply fresh_insert.
    + apply lookup_insert_eq.
    + simpl. lia.
    + simpl. by rewrite Nat.add_0_r.
    + simpl in He, Hd. destruct (copies_entries _ _ _ _ _ _ Hd) as [Hr Hreach].
      assert (Hlen : length done' = s_len s).
      { rewrite (Forall2_length _ _ _ Hr), <- (Forall2_length _ _ _ Hw). unfold window.
        rewrite length_take, length_drop. lia. }
      assert (Hwin : window (mkSlice out 0 (s_len s)) done' = done')
        by (unfold window; simpl; by rewrite drop_0, take_ge by lia).
      pose proof (peeks_arr t h' out done' Ho) as Hp.
      exists (Some (mkSlice out 0 (s_len s))), h'. split; [|split; [done|split]].
      * cbn. unfold copy_slice, mbind, GoM_bind, make. fold out h1. by rewrite He.
      * apply sliced_rd. exists done', ws. rewrite Hwin. split_and!; try done. simpl. lia.
      * cbn [reach sliced s_array]. rewrite Hp, Hwin. set_solver.
Qed.

(** [copy( *out, *in)] for entries without references. *)
Definition copy_bulk (t : ty) (zero : tyD t) (s : option slice) : GoM (option slice) :=
  match s with
  | None => mret None
  | Some s =>
    out ← make t (replicate (s_len s) zero);
    a ← loads t (s_array s);
    o ← loads t out;
    assigns t out (window s a ++ drop (length (window s a)) o);;
    mret (Some (mkSlice out 0 (s_len s)))
  end.

Definition bulk (t : ty) (zero : tyD t) : copier (option slice) (option (list (tyD t))) :=
  let c := sliced t zero plain in mkCopier (rd c) (reach c) (copy_bulk t zero).

Lemma plain_entries {t : ty} h (xs ws : list (tyD t)) :
  Forall2 (λ x w, rd plain h x = Some w) xs ws ↔ xs = ws.
Proof.
  split; [|intros ->; by apply Forall_Forall2_diag, Forall_true].
  induction 1 as [|x w xs ws [= <-] _ IH]; [done|]. by rewrite IH.
Qed.

Lemma bulk_ok t zero : copier_ok (bulk t zero).
Proof.
  destruct (sliced_ok t zero plain plain_ok) as [Hframe Hdom _]. split; [exact Hframe|exact Hdom|].
  intros h [s|] v; [|intros [= <-]; by exists None, h].
  intros (a & ws & Ha & Hb & Hw & ->)%(sliced_rd t zero plain). apply plain_entries in Hw as <-.
  pose proof (unused_fresh h) as Hf. set (out := unused h) in *.
  set (h1 := <[out := Arr t (replicate (s_len s) zero)]> h).
  set (h2 := <[out := Arr t (window s a)]> h1).
  assert (Hlen : length (window s a) = s_len s) by (unfold window; rewrite length_take, length_drop; lia).
  assert (Hp : peeks t h2 out = Some (window s a)) by (apply peeks_arr, lookup_insert_eq).
  assert (Hwin : window (mkSlice out 0 (s_len s)) (window s a) = window s a)
    by (unfold window at 1; simpl; by rewrite drop_0, take_ge by lia).
  exists (Some (mkSlice out 0 (s_len s))), h2. split; [|split; [|split]].
  - cbn. unfold copy_bulk, mbind, GoM_bind, make, loads, lift, assigns. fold out h1.
    assert (Hne : out ≠ s_array s) by (intros Heq; rewrite <- Heq in Ha; by apply peeks_dom in Ha).
    rewrite (peeks_eq t h h1) by (by apply lookup_insert_ne). rewrite Ha.
    rewrite (peeks_arr t h1 out (replicate (s_len s) zero)) by apply lookup_insert_eq.
    rewrite Hlen, drop_ge, app_nil_r by (rewrite length_replicate; lia). done.
  - by apply fresh_insert, fresh_insert.
  - apply (sliced_rd t zero plain). exists (window s a), (window s a). rewrite Hwin.
    split_and!; [done|simpl; lia|by apply plain_entries|done].
  - cbn [reach bulk sliced s_array]. rewrite Hp, Hwin.
    intros l [->%elem_of_singleton|(x & _ & Hx)%elem_of_reaches]%elem_of_union; [done|].
    by apply not_elem_of_empty in Hx.
Qed.

(** ** Maps

    [*out = make(map[string]string, len( *in))], then one entry at a time. *)
Section Maps.
Context `{MapRange}.

Fixpoint copy_entries (out : nat) (entries : list (string * string)) : GoM unit :=
  match entries with
  | [] => mret tt
  | (key, val) :: entries =>
    o ← load_map out;
    assign_map out (<[key := val]> o);;
    copy_entries out entries
  end.

Definition copy_table (p : option nat) : GoM (option nat) :=
  match p with
  | None => mret None
  | Some l =>
    out ← make_map;
    m ← load_map l;
    copy_entries out (range m);;
    mret (Some out)
  end.

Definition table : copier (option nat) (option (gmap string string)) :=
  mkCopier
    (λ h p, match p with None => Some None | Some l => Some <$> peek_map h l end)
    (λ h p, match p with None => ∅ | Some l => {[l]} end)
    copy_table.

Lemma copy_entries_fold out entries (h : store) (m : gmap string string) :
  copy_entries out entries (<[out := Tab m]> h) =
  Some (tt, <[out := Tab (foldl (λ m '(k, v), <[k := v]> m) m entries)]> h).
Proof.
  revert m. induction entries as [|[k v] entries IH]; intros m; [done|].
  cbn [copy_entries foldl]. unfold mbind, GoM_bind, load_map, lift, assign_map.
  assert (Hm : peek_map (<[out := Tab m]> h) out = Some m) by (unfold peek_map; by rewrite lookup_insert_eq).
  rewrite Hm, insert_insert_eq. apply IH.
Qed.

Lemma table_ok : copier_ok table.
Proof.
  split.
  - intros h h' [l|] v; [|done]. cbn [rd reach table]. intros Hr Hl. split; [|done].
    unfold peek_map in *. by rewrite Hl by set_solver.
  - intros h [l|] v; [|set_solver]. cbn [rd reach table]. unfold peek_map.
    destruct (h !! l) eqn:Hl; [|done]. intros _. apply elem_of_dom_2 in Hl. set_solver.
  - intros h [l|] v; [|intros [= <-]; by exists None, h]. cbn [rd table]. intros (m & Hm & ->)%fmap_Some.
    pose proof (unused_fresh h) as Hf. set (out := unused h) in *.
    exists (Some out), (<[out := Tab m]> h). split; [|split; [by apply fresh_insert|split]].
    + cbn. unfold copy_table, mbind, GoM_bind, make_map, load_map, lift. fold out.
      assert (Hne : out ≠ l).
      { intros ->. unfold peek_map in Hm. rewrite (proj1 (not_elem_of_dom h l)) in Hm by done. done. }
      assert (Hm1 : peek_map (<[out := Tab ∅]> h) l = Some m)
        by (unfold peek_map in *; by rewrite lookup_insert_ne).
      rewrite Hm1, copy_entries_fold, foldl_insert_range, map_union_empty. done.
    + cbn [rd table]. unfold peek_map. by rewrite lookup_insert_eq.
    + cbn [reach table]. set_solver.
Qed.
End Maps.
End Store.

#[global] Arguments cell {ty} tyD.
Abbreviation store tyD := (gmap nat (cell tyD)).
#[global] Arguments GoM {ty} tyD.
#[global] Arguments copier {ty} tyD.
