(* ===== verification/DeepCopy.v ===== *)
(** * api/v1alpha1/zz_generated.deepcopy.go: the deep copies of the API types

    What the API machinery calls on every object that leaves the informer
    cache.  The structs of autoscaleset_types.go and runnerset_types.go are
    written once, over a [Shape]: with [refs] they are the structs in memory,
    with [values] what they stand for.  [ObjectMeta], [ListMeta] and
    [Condition] are library types with deep copies of their own. *)

From S2P Require Export GoHeap.

(** ** The structs *)
Section Structs.
Context (sh : Shape).

Record RunnerPodTemplateMetadataR : Type := mkTemplateMetadataR {
  mr_labels : ptr sh (gmap string string);
  mr_annotations : ptr sh (gmap string string)
}.

Record ResourceRequirementsR : Type := mkResourcesR {
  rr_limitsR : ptr sh (gmap string string);
  rr_requestsR : ptr sh (gmap string string)
}.

Record RunnerPodSpecR : Type := mkPodSpecR {
  pr_nodeSelector : ptr sh (gmap string string);
  pr_tolerations : slc sh Toleration;
  pr_resources : ResourceRequirementsR;
  pr_env : slc sh EnvVar
}.

Record RunnerPodTemplateR : Type := mkTemplateR {
  tr_metadata : RunnerPodTemplateMetadataR;
  tr_spec : RunnerPodSpecR
}.

Record AutoscaleSetSpecR : Type := mkASSpecR {
  ar_githubConfigURL : string;
  ar_scaleSetName : string;
  ar_runnerGroup : string;
  ar_labels : slc sh ScaleSetLabel;
  ar_minRunners : ptr sh Z;
  ar_maxRunners : ptr sh Z;
  ar_runnerImage : string;
  ar_githubApp : ptr sh GitHubAppAuth;
  ar_pat : ptr sh PersonalAccessTokenAuth;
  ar_runnerTemplate : ptr sh RunnerPodTemplateR
}.

Record AutoscaleSetStatusR : Type := mkASStatusR {
  atr_scaleSetID : ptr sh Z;
  atr_phase : string;
  atr_conditions : slc sh Condition;
  atr_currentRunners : Z;
  atr_desiredRunners : Z;
  atr_lastMessageID : Z;
  atr_labels : slc sh ScaleSetLabel
}.

Record RunnerSetSpecR : Type := mkRSSpecR {
  rr_autoscaleSetRef : AutoscaleSetRef;
  rr_runnerGroup : string;
  rr_runnerTemplate : ptr sh RunnerPodTemplateR
}.

Record RunnerSetStatusR : Type := mkRSStatusR {
  rtr_runnerCount : Z;
  rtr_idleRunners : Z;
  rtr_busyRunners : Z;
  rtr_conditions : slc sh Condition;
  rtr_lastMessageID : Z
}.

Record TypeMeta : Type := mkTypeMeta { tm_apiVersion : string; tm_kind : string }.

(** An object and a list of objects, with the library's metadata [M]. *)
Record AutoscaleSetR (M : Type) : Type := mkASR {
  aso_type : TypeMeta; aso_meta : M; aso_spec : AutoscaleSetSpecR; aso_status : AutoscaleSetStatusR
}.

Record RunnerSetR (M : Type) : Type := mkRSR {
  rso_type : TypeMeta; rso_meta : M; rso_spec : RunnerSetSpecR; rso_status : RunnerSetStatusR
}.

Record ListR (LM X : Type) : Type := mkListR {
  ls_type : TypeMeta; ls_meta : LM; ls_items : slc sh X
}.
End Structs.

Arguments mkTemplateMetadataR {sh}.
Arguments mkResourcesR {sh}.
Arguments mkPodSpecR {sh}.
Arguments mkTemplateR {sh}.
Arguments mkASSpecR {sh}.
Arguments mkASStatusR {sh}.
Arguments mkRSSpecR {sh}.
Arguments mkRSStatusR {sh}.
Arguments mkASR {sh M}.
Arguments mkRSR {sh M}.
Arguments mkListR {sh LM X}.
Arguments mr_labels {sh}.
Arguments mr_annotations {sh}.
Arguments rr_limitsR {sh}.
Arguments rr_requestsR {sh}.
Arguments pr_nodeSelector {sh}.
Arguments pr_tolerations {sh}.
Arguments pr_resources {sh}.
Arguments pr_env {sh}.
Arguments tr_metadata {sh}.
Arguments tr_spec {sh}.
Arguments ar_githubConfigURL {sh}.
Arguments ar_scaleSetName {sh}.
Arguments ar_runnerGroup {sh}.
Arguments ar_labels {sh}.
Arguments ar_minRunners {sh}.
Arguments ar_maxRunners {sh}.
Arguments ar_runnerImage {sh}.
Arguments ar_githubApp {sh}.
Arguments ar_pat {sh}.
Arguments ar_runnerTemplate {sh}.
Arguments atr_scaleSetID {sh}.
Arguments atr_phase {sh}.
Arguments atr_conditions {sh}.
Arguments atr_currentRunners {sh}.
Arguments atr_desiredRunners {sh}.
Arguments atr_lastMessageID {sh}.
Arguments atr_labels {sh}.
Arguments rr_autoscaleSetRef {sh}.
Arguments rr_runnerGroup {sh}.
Arguments rr_runnerTemplate {sh}.
Arguments rtr_runnerCount {sh}.
Arguments rtr_idleRunners {sh}.
Arguments rtr_busyRunners {sh}.
Arguments rtr_conditions {sh}.
Arguments rtr_lastMessageID {sh}.
Arguments aso_type {sh M}.
Arguments aso_meta {sh M}.
Arguments aso_spec {sh M}.
Arguments aso_status {sh M}.
Arguments rso_type {sh M}.
Arguments rso_meta {sh M}.
Arguments rso_spec {sh M}.
Arguments rso_status {sh M}.
Arguments ls_type {sh LM X}.
Arguments ls_meta {sh LM X}.
Arguments ls_items {sh LM X}.

(** ** The library *)

(** [metav1.ObjectMeta] and [metav1.ListMeta] in memory and as values. *)
Class ApiMachinery := {
  ObjectMetaR : Type;
  ListMetaR : Type;
  ListMeta : Type;
  zeroObjectMeta : ObjectMetaR;
  zeroListMeta : ListMetaR
}.

Section Cells.
Context `{ApiMachinery}.

(** The types of the cells. *)
Inductive ty : Type :=
| TInt | TString | TOwnerReference | TCondition
| TGitHubAppAuth | TPersonalAccessTokenAuth | TSecretRef | TScaleSetLabel | TToleration | TEnvVar
| TAutoscaleSetRef | TRunnerPodTemplateMetadata | TResourceRequirements | TRunnerPodSpec
| TRunnerPodTemplate | TAutoscaleSetSpec | TAutoscaleSetStatus | TAutoscaleSet | TAutoscaleSetList
| TRunnerSetSpec | TRunnerSetStatus | TRunnerSet | TRunnerSetList.

#[global] Instance ty_eq_dec : EqDecision ty.
Proof. solve_decision. Defined.

Definition tyD (t : ty) : Type :=
  match t with
  | TInt => Z
  | TString => string
  | TOwnerReference => OwnerReference
  | TCondition => Condition
  | TGitHubAppAuth => GitHubAppAuth
  | TPersonalAccessTokenAuth => PersonalAccessTokenAuth
  | TSecretRef => SecretRef
  | TScaleSetLabel => ScaleSetLabel
  | TToleration => Toleration
  | TEnvVar => EnvVar
  | TAutoscaleSetRef => AutoscaleSetRef
  | TRunnerPodTemplateMetadata => RunnerPodTemplateMetadataR refs
  | TResourceRequirements => ResourceRequirementsR refs
  | TRunnerPodSpec => RunnerPodSpecR refs
  | TRunnerPodTemplate => RunnerPodTemplateR refs
  | TAutoscaleSetSpec => AutoscaleSetSpecR refs
  | TAutoscaleSetStatus => AutoscaleSetStatusR refs
  | TAutoscaleSet => AutoscaleSetR refs ObjectMetaR
  | TAutoscaleSetList => ListR refs ListMetaR (AutoscaleSetR refs ObjectMetaR)
  | TRunnerSetSpec => RunnerSetSpecR refs
  | TRunnerSetStatus => RunnerSetStatusR refs
  | TRunnerSet => RunnerSetR refs ObjectMetaR
  | TRunnerSetList => ListR refs ListMetaR (RunnerSetR refs ObjectMetaR)
  end.

(** The zero value of each. *)
Definition zero (t : ty) : tyD t :=
  let secret := mkSecretRef "" "" "" in
  let metadata := mkTemplateMetadataR (sh := refs) None None in
  let resources := mkResourcesR (sh := refs) None None in
  let pod := mkPodSpecR (sh := refs) None None resources None in
  let asSpec := mkASSpecR (sh := refs) "" "" "" None None None "" None None None in
  let asStatus := mkASStatusR (sh := refs) None "" None 0 0 0 None in
  let rsSpec := mkRSSpecR (sh := refs) (mkASRef "" "") "" None in
  let rsStatus := mkRSStatusR (sh := refs) 0 0 0 None 0 in
  match t with
  | TInt => 0%Z
  | TString => ""
  | TOwnerReference => mkOwnerReference "" "" "" "" None None
  | TCondition => mkCondition "" ConditionUnknown "" "" 0
  | TGitHubAppAuth => mkGitHubAppAuth "" 0 secret
  | TPersonalAccessTokenAuth => mkPATAuth secret
  | TSecretRef => secret
  | TScaleSetLabel => mkScaleSetLabel "" ""
  | TToleration => mkToleration "" "" "" ""
  | TEnvVar => mkEnvVar "" ""
  | TAutoscaleSetRef => mkASRef "" ""
  | TRunnerPodTemplateMetadata => metadata
  | TResourceRequirements => resources
  | TRunnerPodSpec => pod
  | TRunnerPodTemplate => mkTemplateR metadata pod
  | TAutoscaleSetSpec => asSpec
  | TAutoscaleSetStatus => asStatus
  | TAutoscaleSet => mkASR (mkTypeMeta "" "") zeroObjectMeta asSpec asStatus
  | TAutoscaleSetList => mkListR (sh := refs) (mkTypeMeta "" "") zeroListMeta None
  | TRunnerSetSpec => rsSpec
  | TRunnerSetStatus => rsStatus
  | TRunnerSet => mkRSR (mkTypeMeta "" "") zeroObjectMeta rsSpec rsStatus
  | TRunnerSetList => mkListR (sh := refs) (mkTypeMeta "" "") zeroListMeta None
  end.
End Cells.

(** The deep copies of the library's types, and what they promise. *)
Class DeepCopyLib `{ApiMachinery} := {
  objectMeta : copier tyD ObjectMetaR ObjectMeta;
  listMeta : copier tyD ListMetaR ListMeta;
  Condition_DeepCopyInto : Condition → Condition
}.

Class DeepCopyLaws `{DeepCopyLib} := {
  objectMeta_ok : copier_ok objectMeta;
  listMeta_ok : copier_ok listMeta;
  Condition_copy c : Condition_DeepCopyInto c = c
}.

Section DeepCopies.
Context `{DeepCopyLib, MapRange}.

#[local] Abbreviation Go := (GoM tyD).

(** [if in == nil { return nil }; out := new(T); in.DeepCopyInto(out)] *)
Definition deep_copy (t : ty) (DeepCopyInto : tyD t → Go (tyD t)) (inp : option nat) : Go (option nat) :=
  copy_pointer t (zero t) DeepCopyInto inp.

(** [runtime.Object]: a pointer with its type. *)
Definition deep_copy_object (t : ty) (DeepCopy : option nat → Go (option nat)) (inp : option nat)
  : Go (option (ty * nat)) :=
  c ← DeepCopy inp;
  match c with Some c => mret (Some (t, c)) | None => mret None end.

(** *** Types without references: [*out = *in] *)

Definition EnvVar_DeepCopyInto (inp : EnvVar) : Go EnvVar := mret inp.
Definition ScaleSetLabel_DeepCopyInto (inp : ScaleSetLabel) : Go ScaleSetLabel := mret inp.
Definition SecretRef_DeepCopyInto (inp : SecretRef) : Go SecretRef := mret inp.
Definition Toleration_DeepCopyInto (inp : Toleration) : Go Toleration := mret inp.
Definition AutoscaleSetRef_DeepCopyInto (inp : AutoscaleSetRef) : Go AutoscaleSetRef := mret inp.
Definition GitHubAppAuth_DeepCopyInto (inp : GitHubAppAuth) : Go GitHubAppAuth :=
  let out := inp in
  mret (mkGitHubAppAuth (ga_clientID out) (ga_installationID out) (ga_privateKeySecretRef inp)).
Definition PersonalAccessTokenAuth_DeepCopyInto (inp : PersonalAccessTokenAuth)
  : Go PersonalAccessTokenAuth := mret (mkPATAuth (pa_tokenSecretRef inp)).

Definition EnvVar_DeepCopy := deep_copy TEnvVar EnvVar_DeepCopyInto.
Definition ScaleSetLabel_DeepCopy := deep_copy TScaleSetLabel ScaleSetLabel_DeepCopyInto.
Definition SecretRef_DeepCopy := deep_copy TSecretRef SecretRef_DeepCopyInto.
Definition Toleration_DeepCopy := deep_copy TToleration Toleration_DeepCopyInto.
Definition AutoscaleSetRef_DeepCopy := deep_copy TAutoscaleSetRef AutoscaleSetRef_DeepCopyInto.
Definition GitHubAppAuth_DeepCopy := deep_copy TGitHubAppAuth GitHubAppAuth_DeepCopyInto.
Definition PersonalAccessTokenAuth_DeepCopy :=
  deep_copy TPersonalAccessTokenAuth PersonalAccessTokenAuth_DeepCopyInto.

(** *** Types with references

    The blocks [if in.X != nil] are [copy_table] for a map, [copy_pointer] for a
    pointer ([**out = **in] copies what it points to), [copy_bulk] for
    [copy( *out, *in)] and [copy_slice] for a loop over the entries; the other
    fields are those of [*out = *in]. *)

Definition RunnerPodTemplateMetadata_DeepCopyInto (inp : RunnerPodTemplateMetadataR refs)
  : Go (RunnerPodTemplateMetadataR refs) :=
  labels ← copy_table (mr_labels inp);
  annotations ← copy_table (mr_annotations inp);
  mret (mkTemplateMetadataR (sh := refs) labels annotations).

Definition ResourceRequirements_DeepCopyInto (inp : ResourceRequirementsR refs)
  : Go (ResourceRequirementsR refs) :=
  limits ← copy_table (rr_limitsR inp);
  requests ← copy_table (rr_requestsR inp);
  mret (mkResourcesR (sh := refs) limits requests).

Definition RunnerPodSpec_DeepCopyInto (inp : RunnerPodSpecR refs) : Go (RunnerPodSpecR refs) :=
  nodeSelector ← copy_table (pr_nodeSelector inp);
  tolerations ← copy_bulk TToleration (zero TToleration) (pr_tolerations inp);
  resources ← ResourceRequirements_DeepCopyInto (pr_resources inp);
  env ← copy_bulk TEnvVar (zero TEnvVar) (pr_env inp);
  mret (mkPodSpecR (sh := refs) nodeSelector tolerations resources env).

Definition RunnerPodTemplate_DeepCopyInto (inp : RunnerPodTemplateR refs) : Go (RunnerPodTemplateR refs) :=
  metadata ← RunnerPodTemplateMetadata_DeepCopyInto (tr_metadata inp);
  spec ← RunnerPodSpec_DeepCopyInto (tr_spec inp);
  mret (mkTemplateR metadata spec).

Definition AutoscaleSetSpec_DeepCopyInto (inp : AutoscaleSetSpecR refs) : Go (AutoscaleSetSpecR refs) :=
  labels ← copy_bulk TScaleSetLabel (zero TScaleSetLabel) (ar_labels inp);
  minRunners ← copy_pointer TInt (zero TInt) mret (ar_minRunners inp);
  maxRunners ← copy_pointer TInt (zero TInt) mret (ar_maxRunners inp);
  githubApp ← copy_pointer TGitHubAppAuth (zero TGitHubAppAuth) mret (ar_githubApp inp);
  pat ← copy_pointer TPersonalAccessTokenAuth (zero TPersonalAccessTokenAuth) mret (ar_pat inp);
  runnerTemplate ← copy_pointer TRunnerPodTemplate (zero TRunnerPodTemplate) RunnerPodTemplate_DeepCopyInto
                     (ar_runnerTemplate inp);
  mret (mkASSpecR (sh := refs) (ar_githubConfigURL inp) (ar_scaleSetName inp) (ar_runnerGroup inp) labels
          minRunners maxRunners (ar_runnerImage inp) githubApp pat runnerTemplate).

Definition copy_conditions : option slice → Go (option slice) :=
  copy_slice TCondition (zero TCondition) (λ c, mret (Condition_DeepCopyInto c)).

Definition AutoscaleSetStatus_DeepCopyInto (inp : AutoscaleSetStatusR refs)
  : Go (AutoscaleSetStatusR refs) :=
  scaleSetID ← copy_pointer TInt (zero TInt) mret (atr_scaleSetID inp);
  conditions ← copy_conditions (atr_conditions inp);
  labels ← copy_bulk TScaleSetLabel (zero TScaleSetLabel) (atr_labels inp);
  mret (mkASStatusR (sh := refs) scaleSetID (atr_phase inp) conditions (atr_currentRunners inp)
          (atr_desiredRunners inp) (atr_lastMessageID inp) labels).

Definition AutoscaleSet_DeepCopyInto (inp : AutoscaleSetR refs ObjectMetaR)
  : Go (AutoscaleSetR refs ObjectMetaR) :=
  meta ← into objectMeta (aso_meta inp);
  spec ← AutoscaleSetSpec_DeepCopyInto (aso_spec inp);
  status ← AutoscaleSetStatus_DeepCopyInto (aso_status inp);
  mret (mkASR (aso_type inp) meta spec status).

Definition AutoscaleSetList_DeepCopyInto (inp : ListR refs ListMetaR (AutoscaleSetR refs ObjectMetaR))
  : Go (ListR refs ListMetaR (AutoscaleSetR refs ObjectMetaR)) :=
  meta ← into listMeta (ls_meta inp);
  items ← copy_slice TAutoscaleSet (zero TAutoscaleSet) AutoscaleSet_DeepCopyInto (ls_items inp);
  mret (mkListR (sh := refs) (ls_type inp) meta items).

Definition RunnerSetSpec_DeepCopyInto (inp : RunnerSetSpecR refs) : Go (RunnerSetSpecR refs) :=
  runnerTemplate ← copy_pointer TRunnerPodTemplate (zero TRunnerPodTemplate) RunnerPodTemplate_DeepCopyInto
                     (rr_runnerTemplate inp);
  mret (mkRSSpecR (sh := refs) (rr_autoscaleSetRef inp) (rr_runnerGroup inp) runnerTemplate).

Definition RunnerSetStatus_DeepCopyInto (inp : RunnerSetStatusR refs) : Go (RunnerSetStatusR refs) :=
  conditions ← copy_conditions (rtr_conditions inp);
  mret (mkRSStatusR (sh := refs) (rtr_runnerCount inp) (rtr_idleRunners inp) (rtr_busyRunners inp) conditions
          (rtr_lastMessageID inp)).

Definition RunnerSet_DeepCopyInto (inp : RunnerSetR refs ObjectMetaR) : Go (RunnerSetR refs ObjectMetaR) :=
  meta ← into objectMeta (rso_meta inp);
  spec ← RunnerSetSpec_DeepCopyInto (rso_spec inp);
  status ← RunnerSetStatus_DeepCopyInto (rso_status inp);
  mret (mkRSR (rso_type inp) meta spec status).

Definition RunnerSetList_DeepCopyInto (inp : ListR refs ListMetaR (RunnerSetR refs ObjectMetaR))
  : Go (ListR refs ListMetaR (RunnerSetR refs ObjectMetaR)) :=
  meta ← into listMeta (ls_meta inp);
  items ← copy_slice TRunnerSet (zero TRunnerSet) RunnerSet_DeepCopyInto (ls_items inp);
  mret (mkListR (sh := refs) (ls_type inp) meta items).

Definition RunnerPodTemplateMetadata_DeepCopy :=
  deep_copy TRunnerPodTemplateMetadata RunnerPodTemplateMetadata_DeepCopyInto.
Definition ResourceRequirements_DeepCopy := deep_copy TResourceRequirements ResourceRequirements_DeepCopyInto.
Definition RunnerPodSpec_DeepCopy := deep_copy TRunnerPodSpec RunnerPodSpec_DeepCopyInto.
Definition RunnerPodTemplate_DeepCopy := deep_copy TRunnerPodTemplate RunnerPodTemplate_DeepCopyInto.
Definition AutoscaleSetSpec_DeepCopy := deep_copy TAutoscaleSetSpec AutoscaleSetSpec_DeepCopyInto.
Definition AutoscaleSetStatus_DeepCopy := deep_copy TAutoscaleSetStatus AutoscaleSetStatus_DeepCopyInto.
Definition AutoscaleSet_DeepCopy := deep_copy TAutoscaleSet AutoscaleSet_DeepCopyInto.
Definition AutoscaleSetList_DeepCopy := deep_copy TAutoscaleSetList AutoscaleSetList_DeepCopyInto.
Definition RunnerSetSpec_DeepCopy := deep_copy TRunnerSetSpec RunnerSetSpec_DeepCopyInto.
Definition RunnerSetStatus_DeepCopy := deep_copy TRunnerSetStatus RunnerSetStatus_DeepCopyInto.
Definition RunnerSet_DeepCopy := deep_copy TRunnerSet RunnerSet_DeepCopyInto.
Definition RunnerSetList_DeepCopy := deep_copy TRunnerSetList RunnerSetList_DeepCopyInto.

Definition AutoscaleSet_DeepCopyObject := deep_copy_object TAutoscaleSet AutoscaleSet_DeepCopy.
Definition AutoscaleSetList_DeepCopyObject := deep_copy_object TAutoscaleSetList AutoscaleSetList_DeepCopy.
Definition RunnerSet_DeepCopyObject := deep_copy_object TRunnerSet RunnerSet_DeepCopy.
Definition RunnerSetList_DeepCopyObject := deep_copy_object TRunnerSetList RunnerSetList_DeepCopy.
End DeepCopies.

(** ** What the structs stand for *)
Section Copiers.
Context `{DeepCopyLib, MapRange}.

Definition metadata : copier tyD (RunnerPodTemplateMetadataR refs) (RunnerPodTemplateMetadataR values) :=
  struct (λ x : RunnerPodTemplateMetadataR refs, (mr_labels x, mr_annotations x)) (λ '(l, a), mkTemplateMetadataR (sh := values) l a)
    (both table table) RunnerPodTemplateMetadata_DeepCopyInto.

Definition resources : copier tyD (ResourceRequirementsR refs) (ResourceRequirementsR values) :=
  struct (λ x : ResourceRequirementsR refs, (rr_limitsR x, rr_requestsR x)) (λ '(l, r), mkResourcesR (sh := values) l r)
    (both table table) ResourceRequirements_DeepCopyInto.

Definition podSpec : copier tyD (RunnerPodSpecR refs) (RunnerPodSpecR values) :=
  struct (λ x : RunnerPodSpecR refs, (pr_nodeSelector x, (pr_tolerations x, (pr_resources x, pr_env x))))
    (λ '(n, (t, (r, e))), mkPodSpecR (sh := values) n t r e)
    (both table (both (bulk TToleration (zero TToleration)) (both resources (bulk TEnvVar (zero TEnvVar)))))
    RunnerPodSpec_DeepCopyInto.

Definition template : copier tyD (RunnerPodTemplateR refs) (RunnerPodTemplateR values) :=
  struct (λ x : RunnerPodTemplateR refs, (tr_metadata x, tr_spec x)) (λ '(m, s), mkTemplateR m s) (both metadata podSpec)
    RunnerPodTemplate_DeepCopyInto.

Definition template_pointer : copier tyD (option nat) (option (RunnerPodTemplateR values)) :=
  pointer TRunnerPodTemplate (zero TRunnerPodTemplate) template.

Definition labels_slice : copier tyD (option slice) (option (list ScaleSetLabel)) :=
  bulk TScaleSetLabel (zero TScaleSetLabel).

Definition conditions_slice : copier tyD (option slice) (option (list Condition)) :=
  sliced TCondition (zero TCondition) (plain_by Condition_DeepCopyInto).

Definition asSpec : copier tyD (AutoscaleSetSpecR refs) (AutoscaleSetSpecR values) :=
  struct
    (λ x : AutoscaleSetSpecR refs, ((ar_githubConfigURL x, ar_scaleSetName x, ar_runnerGroup x, ar_runnerImage x),
           (ar_labels x, (ar_minRunners x, (ar_maxRunners x, (ar_githubApp x, (ar_pat x, ar_runnerTemplate x)))))))
    (λ '((u, n, g, i), (l, (mi, (ma, (a, (p, t)))))), mkASSpecR (sh := values) u n g l mi ma i a p t)
    (both plain (both labels_slice (both (pointer TInt (zero TInt) plain) (both (pointer TInt (zero TInt) plain)
      (both (pointer TGitHubAppAuth (zero TGitHubAppAuth) plain)
        (both (pointer TPersonalAccessTokenAuth (zero TPersonalAccessTokenAuth) plain) template_pointer))))))
    AutoscaleSetSpec_DeepCopyInto.

Definition asStatus : copier tyD (AutoscaleSetStatusR refs) (AutoscaleSetStatusR values) :=
  struct
    (λ x : AutoscaleSetStatusR refs, ((atr_phase x, atr_currentRunners x, atr_desiredRunners x, atr_lastMessageID x),
           (atr_scaleSetID x, (atr_conditions x, atr_labels x))))
    (λ '((p, c, d, m), (i, (cs, l))), mkASStatusR (sh := values) i p cs c d m l)
    (both plain (both (pointer TInt (zero TInt) plain) (both conditions_slice labels_slice)))
    AutoscaleSetStatus_DeepCopyInto.

Definition autoscaleSet : copier tyD (AutoscaleSetR refs ObjectMetaR) (AutoscaleSetR values ObjectMeta) :=
  struct (λ x : AutoscaleSetR refs ObjectMetaR, (aso_type x, (aso_meta x, (aso_spec x, aso_status x))))
    (λ '(t, (m, (sp, st))), mkASR (sh := values) t m sp st)
    (both plain (both objectMeta (both asSpec asStatus))) AutoscaleSet_DeepCopyInto.

Definition autoscaleSetList
  : copier tyD (ListR refs ListMetaR (AutoscaleSetR refs ObjectMetaR))
      (ListR values ListMeta (AutoscaleSetR values ObjectMeta)) :=
  struct (λ x : ListR refs ListMetaR (AutoscaleSetR refs ObjectMetaR), (ls_type x, (ls_meta x, ls_items x))) (λ '(t, (m, i)), mkListR (sh := values) t m i)
    (both plain (both listMeta (sliced TAutoscaleSet (zero TAutoscaleSet) autoscaleSet)))
    AutoscaleSetList_DeepCopyInto.

Definition rsSpec : copier tyD (RunnerSetSpecR refs) (RunnerSetSpecR values) :=
  struct (λ x : RunnerSetSpecR refs, ((rr_autoscaleSetRef x, rr_runnerGroup x), rr_runnerTemplate x))
    (λ '((r, g), t), mkRSSpecR (sh := values) r g t) (both plain template_pointer) RunnerSetSpec_DeepCopyInto.

Definition rsStatus : copier tyD (RunnerSetStatusR refs) (RunnerSetStatusR values) :=
  struct
    (λ x : RunnerSetStatusR refs, ((rtr_runnerCount x, rtr_idleRunners x, rtr_busyRunners x, rtr_lastMessageID x), rtr_conditions x))
    (λ '((c, i, b, m), cs), mkRSStatusR (sh := values) c i b cs m) (both plain conditions_slice)
    RunnerSetStatus_DeepCopyInto.

Definition runnerSet : copier tyD (RunnerSetR refs ObjectMetaR) (RunnerSetR values ObjectMeta) :=
  struct (λ x : RunnerSetR refs ObjectMetaR, (rso_type x, (rso_meta x, (rso_spec x, rso_status x))))
    (λ '(t, (m, (sp, st))), mkRSR (sh := values) t m sp st)
    (both plain (both objectMeta (both rsSpec rsStatus))) RunnerSet_DeepCopyInto.

Definition runnerSetList
  : copier tyD (ListR refs ListMetaR (RunnerSetR refs ObjectMetaR))
      (ListR values ListMeta (RunnerSetR values ObjectMeta)) :=
  struct (λ x : ListR refs ListMetaR (RunnerSetR refs ObjectMetaR), (ls_type x, (ls_meta x, ls_items x))) (λ '(t, (m, i)), mkListR (sh := values) t m i)
    (both plain (both listMeta (sliced TRunnerSet (zero TRunnerSet) runnerSet)))
    RunnerSetList_DeepCopyInto.

Context `{!DeepCopyLaws}.

(** The code of a struct is that of the tuple of its fields. *)
Ltac scrutinee t := lazymatch t with match ?e with _ => _ end => scrutinee e | _ => t end.

Ltac same_step :=
  lazymatch goal with
  | |- match ?e with _ => _ end = ?r =>
    let e' := scrutinee r in change e' with e; destruct e as [[? ?]|]; cbn beta iota; [|reflexivity]
  end.

Tactic Notation "same_code" reference(f) :=
  intros x h; unfold f; cbn [into both plain plain_by struct];
  unfold mbind, GoM_bind, mret, GoM_ret; cbn beta iota; repeat same_step; reflexivity.

Create HintDb deep.
#[local] Hint Resolve both_ok plain_ok table_ok bulk_ok pointer_ok sliced_ok objectMeta_ok listMeta_ok : deep.

Lemma metadata_ok : copier_ok metadata.
Proof.
  apply (struct_ok _ (λ '(l, a), mkTemplateMetadataR (sh := refs) l a)); [by intros []| |by auto with deep].
  same_code RunnerPodTemplateMetadata_DeepCopyInto.
Qed.

Lemma resources_ok : copier_ok resources.
Proof.
  apply (struct_ok _ (λ '(l, r), mkResourcesR (sh := refs) l r)); [by intros []| |by auto with deep].
  same_code ResourceRequirements_DeepCopyInto.
Qed.
#[local] Hint Resolve metadata_ok resources_ok : deep.

Lemma podSpec_ok : copier_ok podSpec.
Proof.
  apply (struct_ok _ (λ '(n, (t, (r, e))), mkPodSpecR (sh := refs) n t r e));
    [by intros (?&?&?&?)| |by auto with deep].
  same_code RunnerPodSpec_DeepCopyInto.
Qed.
#[local] Hint Resolve podSpec_ok : deep.

Lemma template_ok : copier_ok template.
Proof.
  apply (struct_ok _ (λ '(m, s), mkTemplateR (sh := refs) m s)); [by intros []| |by auto with deep].
  same_code RunnerPodTemplate_DeepCopyInto.
Qed.

Lemma template_pointer_ok : copier_ok template_pointer.
Proof. apply pointer_ok, template_ok. Qed.

Lemma labels_slice_ok : copier_ok labels_slice.
Proof. exact (bulk_ok TScaleSetLabel (zero TScaleSetLabel)). Qed.

Lemma conditions_slice_ok : copier_ok conditions_slice.
Proof. exact (sliced_ok TCondition (zero TCondition) _ (plain_by_ok _ Condition_copy)). Qed.
#[local] Hint Resolve template_pointer_ok labels_slice_ok conditions_slice_ok : deep.

Lemma asSpec_ok : copier_ok asSpec.
Proof.
  apply (struct_ok _ (λ '((u, n, g, i), (l, (mi, (ma, (a, (p, t)))))), mkASSpecR (sh := refs) u n g l mi ma i a p t));
    [by intros ([[[??]?]?]&?&?&?&?&?&?)| |by auto 10 with deep].
  same_code AutoscaleSetSpec_DeepCopyInto.
Qed.

Lemma asStatus_ok : copier_ok asStatus.
Proof.
  apply (struct_ok _ (λ '((p, c, d, m), (i, (cs, l))), mkASStatusR (sh := refs) i p cs c d m l));
    [by intros ([[[??]?]?]&?&?&?)| |by auto 10 with deep].
  same_code AutoscaleSetStatus_DeepCopyInto.
Qed.
#[local] Hint Resolve asSpec_ok asStatus_ok : deep.

Lemma autoscaleSet_ok : copier_ok autoscaleSet.
Proof.
  apply (struct_ok _ (λ '(t, (m, (sp, st))), mkASR (sh := refs) t m sp st));
    [by intros (?&?&?&?)| |by auto 10 with deep].
  same_code AutoscaleSet_DeepCopyInto.
Qed.
#[local] Hint Resolve autoscaleSet_ok : deep.

Lemma autoscaleSetList_ok : copier_ok autoscaleSetList.
Proof.
  apply (struct_ok _ (λ '(t, (m, i)), mkListR (sh := refs) t m i)); [by intros (?&?&?)| |by auto 10 with deep].
  same_code AutoscaleSetList_DeepCopyInto.
Qed.

Lemma rsSpec_ok : copier_ok rsSpec.
Proof.
  apply (struct_ok _ (λ '((r, g), t), mkRSSpecR (sh := refs) r g t)); [by intros [[]]| |by auto 10 with deep].
  same_code RunnerSetSpec_DeepCopyInto.
Qed.

Lemma rsStatus_ok : copier_ok rsStatus.
Proof.
  apply (struct_ok _ (λ '((c, i, b, m), cs), mkRSStatusR (sh := refs) c i b cs m));
    [by intros [[[[??]?]?]?]| |by auto 10 with deep].
  same_code RunnerSetStatus_DeepCopyInto.
Qed.
#[local] Hint Resolve rsSpec_ok rsStatus_ok : deep.

Lemma runnerSet_ok : copier_ok runnerSet.
Proof.
  apply (struct_ok _ (λ '(t, (m, (sp, st))), mkRSR (sh := refs) t m sp st));
    [by intros (?&?&?&?)| |by auto 10 with deep].
  same_code RunnerSet_DeepCopyInto.
Qed.
#[local] Hint Resolve runnerSet_ok : deep.

Lemma runnerSetList_ok : copier_ok runnerSetList.
Proof.
  apply (struct_ok _ (λ '(t, (m, i)), mkListR (sh := refs) t m i)); [by intros (?&?&?)| |by auto 10 with deep].
  same_code RunnerSetList_DeepCopyInto.
Qed.

(** ** Isolation

    What the holders of the two objects may rely on.  Whatever is done to cells
    that are not those of the time before the copy, the new object and
    everything in it included, the old one stands for the same value; and
    whatever is done to those, the new one does. *)
Definition isolated {X V} (c : copier tyD X V) (DeepCopy : X → GoM tyD X) : Prop :=
  ∀ h x v, rd c h x = Some v →
    ∃ x' h', DeepCopy x h = Some (x', h') ∧ rd c h' x' = Some v ∧
      (∀ h'', (∀ l, l ∈ dom h → h'' !! l = h' !! l) → rd c h'' x = Some v) ∧
      (∀ h'', (∀ l, l ∉ dom h → h'' !! l = h' !! l) → rd c h'' x' = Some v).

Lemma copier_isolates {X V} (c : copier tyD X V) : copier_ok c → isolated c (into c).
Proof.
  intros Hc h x v Hr. destruct (ok_into c Hc h x v Hr) as (x' & h' & Hi & Hs & Hr' & Hf).
  exists x', h'. split; [done|]. split; [done|]. split; intros h'' Hl.
  - apply (ok_frame c Hc h); [done|]. intros l Hin%(ok_dom c Hc _ _ _ Hr).
    rewrite Hl by done. by apply mono_lookup.
  - apply (ok_frame c Hc h'); [done|]. intros l Hin. apply Hl. set_solver.
Qed.

(** C21. The objects the informer cache hands out are isolated from the cache: the
    deep copies of the four kinds, and of every type inside them, stand for the
    same value, nil references included, and share no cell with what they were
    made from, whatever the maps, slices and templates reach. *)
Theorem DeepCopy_isolates :
  isolated (pointer TAutoscaleSet (zero TAutoscaleSet) autoscaleSet) AutoscaleSet_DeepCopy ∧
  isolated (pointer TAutoscaleSetList (zero TAutoscaleSetList) autoscaleSetList) AutoscaleSetList_DeepCopy ∧
  isolated (pointer TRunnerSet (zero TRunnerSet) runnerSet) RunnerSet_DeepCopy ∧
  isolated (pointer TRunnerSetList (zero TRunnerSetList) runnerSetList) RunnerSetList_DeepCopy ∧
  isolated asSpec AutoscaleSetSpec_DeepCopyInto ∧ isolated asStatus AutoscaleSetStatus_DeepCopyInto ∧
  isolated rsSpec RunnerSetSpec_DeepCopyInto ∧ isolated rsStatus RunnerSetStatus_DeepCopyInto ∧
  isolated template RunnerPodTemplate_DeepCopyInto ∧ isolated podSpec RunnerPodSpec_DeepCopyInto ∧
  isolated metadata RunnerPodTemplateMetadata_DeepCopyInto ∧
  isolated resources ResourceRequirements_DeepCopyInto.
Proof.
  split_and!; refine (copier_isolates _ _); try apply pointer_ok; auto using autoscaleSetList_ok,
    runnerSetList_ok, template_ok, podSpec_ok with deep.
Qed.
End Copiers.

(** ** A concrete cache *)

(** [ObjectMeta] with its maps and slices as references, [ListMeta] without
    any, and the deep copies that go through them. *)
#[local] Instance api_machinery : ApiMachinery := {|
  ObjectMetaR := ObjectMeta * (option nat * (option nat * (option slice * option slice)));
  ListMetaR := string;
  ListMeta := string;
  zeroObjectMeta := (emptyMeta, (None, (None, (None, None))));
  zeroListMeta := ""
|}.

#[local] Existing Instance map_range_default.

Definition meta_fields :=
  both (tyD := tyD) (plain (T := ObjectMeta))
    (both table (both table (both (bulk TOwnerReference (zero TOwnerReference)) (bulk TString (zero TString))))).

Definition meta_value '((m, (l, (a, (o, f)))) :
    ObjectMeta * (gomap * (gomap * (option (list OwnerReference) * option (list string))))) : ObjectMeta :=
  mkObjectMeta (m_name m) (m_generateName m) (m_namespace m) (m_uid m) (m_resourceVersion m) (m_generation m)
    (m_creationTimestamp m) (m_deletionTimestamp m) l a (default [] o) (default [] f).

#[local] Instance deep_copy_lib : DeepCopyLib := {|
  objectMeta := struct (tyD := tyD) (λ m : ObjectMetaR, m) meta_value meta_fields (into meta_fields);
  listMeta := plain;
  Condition_DeepCopyInto := id
|}.

Lemma result_eta {A B} (r : option (A * B)) :
  r = match r with Some (a, b) => Some (a, b) | None => None end.
Proof. by destruct r as [[]|]. Qed.

#[local] Instance deep_copy_laws : DeepCopyLaws.
Proof.
  split; [|apply plain_ok|done]. apply (struct_ok _ (λ m, m)); [done| |].
  - intros x h. apply result_eta.
  - exact (both_ok _ _ plain_ok (both_ok _ _ table_ok (both_ok _ _ table_ok (both_ok _ _
      (bulk_ok TOwnerReference (zero TOwnerReference)) (bulk_ok TString (zero TString)))))).
Qed.

(** One AutoscaleSet with annotations, labels and a template. *)
Definition cached : store tyD :=
  <[0 := Val TAutoscaleSet (mkASR (sh := refs) (mkTypeMeta "v1alpha1" "AutoscaleSet")
           (emptyMeta, (None, (Some 1, (None, None))))
           (mkASSpecR (sh := refs) "https://github.com/o" "set" "default" (Some (mkSlice 2 1 1)) (Some 3) None
              "img" None None (Some 4))
           (mkASStatusR (sh := refs) None "" None 0 0 0 None))]>
  (<[1 := Tab {["a" := "1"]}]>
  (<[2 := Arr TScaleSetLabel [mkScaleSetLabel "x" "y"; mkScaleSetLabel "System" "linux"]]>
  (<[3 := Val TInt 2%Z]>
  (<[4 := Val TRunnerPodTemplate (mkTemplateR (sh := refs) (mkTemplateMetadataR (sh := refs) (Some 5) None)
            (mkPodSpecR (sh := refs) None None (mkResourcesR (sh := refs) None None) None))]>
  (<[5 := Tab {["tier" := "ci"]}]> ∅))))).

(** Writing to the copy, to its annotations for one, leaves the cached object
    alone. *)
Lemma DeepCopy_isolates_witness :
  let c := pointer TAutoscaleSet (zero TAutoscaleSet) autoscaleSet in
  is_Some (rd c cached (Some 0)) ∧
  ∃ p h, AutoscaleSet_DeepCopy (Some 0) cached = Some (p, h) ∧ rd c h p = rd c cached (Some 0) ∧
    ∀ l k, l ∉ dom cached → rd c (<[l := k]> h) (Some 0) = rd c cached (Some 0).
Proof.
  intros c.
  assert (Hs : match rd c cached (Some 0) with Some _ => true | None => false end = true)
    by (vm_compute; reflexivity).
  destruct (rd c cached (Some 0)) as [v|] eqn:Hv; [|discriminate Hs]. clear Hs.
  split; [exists v; reflexivity|].
  destruct (proj1 DeepCopy_isolates cached (Some 0) v Hv) as (p & h & Hd & Hr & Hold & _).
  exists p, h. split; [exact Hd|]. split; [exact Hr|]. intros l k Hl.
  apply Hold. intros l' Hl'. apply lookup_insert_ne. intros ->. exact (Hl Hl').
Defined.
